(* ===== verification/_CoqProject ===== *)
-Q . S2P
Prelude.v
BitField.v
PhysMem.v
Paging.v
PageTable.v
PagingSpec.v
Cow.v
CowFork.v
Isolation.v
MapRange.v
VaMem.v
Image.v
KernelMap.v
Descriptors.v
Cpu.v
CStr.v
Console.v
Timer.v
ShellParse.v
Terminal.v
Keyboard.v
Tarfs.v
Vfs.v
Process.v
Switch.v
Isr.v
KernInv.v
Elf.v
Syscalls.v
ProcessSpec.v
UserMem.v
SyscallsSpec.v
ElfSpec.v
ForkExec.v
ExecSpec.v
ForkSpec.v
FilesSpec.v
CreateSpec.v
ExitSpec.v
LibC.v
Programs.v
Shell.v
LibCSpec.v
Session.v
ProgramsSpec.v
ShellSpec.v
Boot.v
System.v
BootSpec.v
Reach.v
Typing.v
