(* ===== verification/Prelude.v ===== *)
(** * SNOW OS: a verification development

    SNOW OS is a small 64-bit kernel in C: a physical page allocator, four-level page
    tables with copy-on-write [fork], a kernel heap, a text console, a keyboard and
    terminal driver, a read-only file system in a tar archive linked into the kernel,
    an ELF loader, processes scheduled round robin and about twenty system calls, with a C
    library, a shell and small programs on top.  This library models the kernel, the C library and the
    programs, and proves what makes them correct, or exactly where they are not.

    ** How the parts fit together

    [sys/main.c] sets up the descriptor tables ([sys/gdt.c], [sys/interrupt.c]) and the timer
    ([sys/pit.c]), initialises the allocator ([sys/physical_memory.c]), builds the kernel's
    page tables ([sys/paging.c]) and creates the first processes ([sys/process.c]).
    Everything above takes pages from the allocator through [kmalloc] or
    [update_page_tables]; [fork] shares pages copy-on-write, and the page-fault handler
    ([sys/interrupt.c]) separates them.  A key press runs [sys/keyboard.c], which
    calls [printInputChar] ([sys/kprintf.c]), which calls [on_new_char_recvd]
    ([sys/terminal.c]), which prints through [kprintf]; a reading process polls the
    terminal's buffer.  Files are found by walking the archive ([sys/tarfs.c]) with the
    string functions of [sys/string.c]; [load_file] ([sys/elf64.c]) copies a program from there
    into a new address space.  A process enters the kernel through [handle_syscall]
    ([sys/syscalls.c]); its descriptors point to file objects ([sys/vfs.c]), which are served by
    the terminal or by the archive.  Programs ([bin/]) call the wrappers of [libc/], which trap.

    ** Files

    - [Prelude]: machine integers with their wrap-around ([u8] ... [i64]), the monad [M S] of
      stateful C code ([Ret], [Fault] for undefined accesses, [OutOfFuel] for an
      exhausted loop bound), counted loops and their induction principle, Hoare triples for
      invariants, tactics.  [BitField]: fields of bits in integers and their laws.
    - [PhysMem] ([sys/physical_memory.c]): state [physmem] (descriptor array, free list,
      counters, RAM words); one definition per function.  [alloc_inv s l] says
      that the free list threads exactly the pages [l]; the operations refine
      popping and pushing on [l].
    - [Paging] ([sys/paging.c], copy-on-write branch of [sys/interrupt.c]): state [machine].
      Page tables are read and written through the direct map, where
      [kernel_virtual_base + a] is the physical word [a]; [kmalloc] keeps this map as long
      as the allocator returns ascending pages, which it does since nothing is ever
      freed.  [PageTable] is the abstract view: [pte r root va] is what the walk finds,
      [separated] says that no table entry serves two purposes, [spaces_inv] is the
      invariant of a set of address spaces.  [PagingSpec] proves that mapping, walking and
      unmapping refine updates of [pte], and what tables they cost; [Cow] proves the heap and the
      copy-on-write fault against the same invariant, [CowFork] the copy of an address space, [Isolation]
      what parent and child then see of each other's stores, with the check of the processor before each store and the fault it may
      cause, [MapRange] the loops that map a
      sequence of fresh pages, [VaMem] loads, stores and copies of bytes through the page tables,
      [Image] what it means that memory holds a program, [KernelMap] the address space that [init_paging] builds.
    - [Descriptors] ([sys/gdt.c], [init_idt] and [set_irq] of [sys/interrupt.c]): both tables as
      arrays of packed records, with the processor's reading of them.
    - [Cpu]: the registers and the stack of the processor, its interrupts and their return.  [Switch] ([sys/kthread.s],
      [sys/syscalls.s], the assembly and the kernel stacks of [sys/process.c]): the context switch, the stack of a new and of
      a forked process, the ways into user mode and the system call.  [Isr] ([sys/pit_isr.s], [sys/keyboard_isr.s],
      [sys/page_fault_isr.s]): the other interrupts.  The compiled C handlers are arguments there.
    - [CStr] ([sys/string.c], [sys/defs.c], [libc/string.c]): byte memory ([bytes], a finite
      map) and the string functions; [cstr m p s] says that [m] holds the string [s] at [p].
    - [Console] ([sys/kprintf.c]): state [console] (memory with the video memory, cursor);
      [con_inv] is its invariant, [renders] the meaning of a format.
    - [Timer] ([sys/pit.c], [sys/sleep.c]): state [timer]; a sleeping process is a step function
      interleaved with the seconds that pass.
    - [ShellParse] ([bin/sbush/sbush.c], [bin/init/init.c]): the parser of command lines.
    - [Terminal] ([sys/terminal.c], [printInputChar]): state [tty]; a reading process is a
      step function interleaved with key events.  The addresses of string literals
      are the class [Literals].
    - [Keyboard] ([sys/keyboard.c]): state [kbd], scan codes to key sequences.
    - [Tarfs] ([sys/tarfs.c]): [archive m end s es] lays out the entries [es]; the walk of
      all operations is [tar_walk].
    - [Vfs] ([sys/vfs.c]): state [vfs], the open file objects and their operation tables.
    - [Process] ([sys/process.c], [page_fault_handler] of [sys/interrupt.c]): state [kern]
      (typed heaps of threads, areas and memory descriptors over the [machine], the open files and
      the terminal), [ProcessSpec] its properties over the [ring] of threads, [UserMem] those of its
      memory.  The class [Loader] states what process creation expects from the ELF loader;
      [Elf] ([sys/elf64.c]) is the loader and its instance, [ElfSpec] what it loads.
      [kmalloc] does not clear memory: the fields of a new record that the code does not assign (descriptors 3 to 15, the rest of the
      directory and others) are what memory held at their addresses, the argument [left_over] of the model, an arbitrary function.
    - [KernInv]: the well-formedness invariant [kern_wf], kept by every operation on processes; an entry of a descriptor table
      that was never assigned may hold what memory held ([unassigned]), unless memory is zero ([clean_memory]).
      [Syscalls] ([sys/syscalls.c]): state [sysk], the dispatcher; a call that waits is a value
      of [sys_result], continued by [sys_step].  [SyscallsSpec]: the invariant for every call,
      [FilesSpec]: open files, [ForkExec]: [fork] and [exec] on the ring, [ForkSpec], [ExecSpec] and [CreateSpec]: the new
      processes as a whole, with their memory, [ExitSpec]: the end of a process and its removal.
    - [LibC] ([libc/]): the wrappers and [printf], over the class [Kernel] (the memory of the process
      and the trap), so that programs do not depend on how the kernel is built.  [Programs] ([bin/],
      [crt/crt1.c]) and [Shell] ([bin/sbush/sbush.c]) are written against it; the shell's globals are
      a record around the state of the system.  [LibCSpec]: what the library needs of its standard
      output is the class [Stdout]; [printf] prints the rendering of its format over any instance.
    - [Session]: the instance, one process over [handle_syscall].  A call that waits goes on with the
      events of a script (key presses, polls, seconds); user memory is the memory of the
      console.  [ProgramsSpec] and [ShellSpec] prove the programs and the shell down to the kernel.
    - [Boot] ([start] of [sys/main.c]): the memory map of the boot loader and the first processes.  [System] ([boot] of
      [sys/main.c], [sys/io.c], [sys/pic.c]): the states of all components in one record, which share the screen; [boot] and the
      handlers of the devices run on it.  [BootSpec]: the machine boots.
    - [Reach]: the runs of the machine.  A state [node] is the system with the open directory streams and the call that each process is
      inside; a [step] is a system call, an iteration of a call that waits, a page fault, a store of a program, an interrupt or
      an iteration of the idle process.  [Typing]: the path of a typed line, from scan codes at the port to the buffer of the program.

    ** What the theorems show

    - start: from the data of the boot loader, and memory that is zero where the kernel itself does not clear it (it clears an
      eighth of the free memory), to the first program in user mode: [boot] installs tables and devices, finds the
      memory, maps it and creates the idle process and the first program, which the scheduler then runs;
    - allocator: allocation and release refine a stack of free pages, allocations are
      distinct; and where boot or large requests go wrong;
    - page tables: an update changes one page of one address space, keeps all address
      spaces separated, and the walk returns what was mapped; the heap returns consecutive
      pages on distinct frames; [kfree] never gives a page back that the allocator handed out;
    - copy-on-write: after [fork] parent and child share their pages, neither may write to them, and once both have stored to a page
      each reads its own words only; with three sharers isolation is lost: a store of the parent appears in the second child;
    - processor: a context switch is a round trip, [fork] returns in the child with 0, a new process reaches its program in ring
      3, in its address space and with whatever registers its kernel stack held, a system call passes its arguments and its result and keeps the other registers, and the interrupts of the
      devices and page faults leave no trace in the interrupted program;
    - memory of a process: a fault below the stack maps the missing pages to fresh frames
      (however far below), [user_malloc] appends an area on frames of its own; both leave
      every other page alone;
    - loader: a program of the archive is loaded byte for byte, with zeros behind the file's
      part, a heap and a stack, its areas listed in order, and nothing else changed;
    - runs: every state that the machine reaches after [boot], whatever the programs do and in whatever order the steps come, is
      well formed, and a line typed at the keyboard reaches the program that reads it;
    - system calls: every call keeps the kernel well formed, whatever unused memory holds; [open] gives the least free descriptor
      and [close] gives it back, [read]s deliver the text of a file in order; with enough memory [fork] makes a child behind its
      parent in the ring with copies of its areas, [exec] puts the new program with its arguments in the place of the old, and
      [create_process] starts a program (and drops the rest of the ring); [exit] ends a process, the next one runs, and the
      scheduler then removes it, its memory stays;
    - programs: [cat] prints the file it names and a newline, or its error message and opens nothing, [echo] its arguments, and
      [printf] what [kprintf] prints; [cd] in the shell changes the directory, with or without a slash at its end, and a command is
      looked for in the first directory of the path;
    - descriptors: the processor finds the installed handlers, and only the system call is
      open to user code; the task state segment is where it should be;
    - strings: [strcat], [kstrcmp] and the round trip of [itoa] and [atoi]; the parser cuts lines
      into trimmed words, but leaves its string when that is blank;
    - console: output goes to the cursor and nowhere else, [kprintf] prints what its format
      means and terminates; the defects of [printLong], [printTime] and scrolling;
    - terminal and keyboard: the interrupt handler is safe for every scan code until
      the buffer is full, a typed line reaches the reader; the two buffer violations;
    - timer: [sleep] returns at the first poll after the seconds have passed, and not before;
    - files: lookup is lookup in the list of entries when no file fills its last block exactly, reading copies text; the entries
      that the walk misses otherwise;
    - processes: identifiers are fresh, scheduling is round robin and fair; [kill] and [wait] do not do what they are meant to.

    ** Bounds and fuel

    Loops that C bounds by a counter are [for_loop]s.  String loops get the size of the
    memory as fuel: they visit a new mapped address at each step ([strlen_total]).  Digit
    loops get 20 decimal or 16 hexadecimal digits, all that 64 bits have.  Walks of the
    ring and of lists of areas get the number of records; the walk over the archive gets the
    number of headers that fit.  The theorems show the results, not only partial
    correctness, so the fuel is enough; the exceptions are the invariants of the system calls and of the runs, which are about
    the steps that return (the witnesses have such steps).  The endless loops of [init], of the idle process and of
    the shell are watched for a number of iterations, an argument of the definitions.  Theorems about operations that allocate
    say how many free pages are enough.

    ** Not modelled

    The TLB; the direct map is total: a load or store through it does not fault, whatever physical address it is for ([init_paging]
    maps all memory, and the frames in page tables come from the allocator); interrupts that come while the kernel runs, and so the interleaving of handlers with kernel code, except in the
    loops of calls that wait, whose iterations are steps of their own; [sys/ring3.s], which nothing calls.  C code runs on typed states
    and not on the processor of [Cpu]: the theorems about assembly take the compiled handlers as arguments and say what they need of them,
    since the code that the compiler makes of the C sources is not part of the repository.  For the same reason a run of the machine takes
    the system calls and the stores of programs as they come, and a program as a whole is followed in a session of one process
    ([Session]), where the steps of other processes are not part of what it sees.
    [sys/kthread.c] is commented out as a whole and [include/sys/ahci.h] is not used; the other headers declare what the
    sources define. *)

From Stdlib Require Export ZArith Lia.
From stdpp Require Export base tactics numbers list list_numbers gmap option.

#[global] Open Scope Z_scope.

(** ** Machine integers

    C integers are kept as [Z] with the wrap-around of their width written out. *)

Definition u8 (x : Z) : Z := x mod 2 ^ 8.
Definition u16 (x : Z) : Z := x mod 2 ^ 16.
Definition u32 (x : Z) : Z := x mod 2 ^ 32.
Definition u64 (x : Z) : Z := x mod 2 ^ 64.

(** Two's complement reading of the low [w] bits. *)
Definition signed (w x : Z) : Z := (x + 2 ^ (w - 1)) mod 2 ^ w - 2 ^ (w - 1).
Definition i8 (x : Z) : Z := signed 8 x.
Definition i32 (x : Z) : Z := signed 32 x.
Definition i64 (x : Z) : Z := signed 64 x.

#[global] Arguments u8 : simpl never.
#[global] Arguments u16 : simpl never.
#[global] Arguments u32 : simpl never.
#[global] Arguments u64 : simpl never.
#[global] Arguments signed : simpl never.

Create HintDb snow discriminated.
Create Rewrite HintDb snow.

Lemma u64_small x : 0 <= x < 2 ^ 64 -> u64 x = x.
Proof. apply Z.mod_small. Qed.

Lemma u32_small x : 0 <= x < 2 ^ 32 -> u32 x = x.
Proof. apply Z.mod_small. Qed.

Lemma u16_small x : 0 <= x < 2 ^ 16 -> u16 x = x.
Proof. apply Z.mod_small. Qed.

Lemma u64_range x : 0 <= u64 x < 2 ^ 64.
Proof. apply Z.mod_pos_bound. lia. Qed.

Lemma u32_range x : 0 <= u32 x < 2 ^ 32.
Proof. apply Z.mod_pos_bound. lia. Qed.

(** Adding and removing an offset modulo [2 ^ 64] is the identity on addresses. *)
Lemma u64_add_sub a b : 0 <= b < 2 ^ 64 -> u64 (u64 (a + b) - a) = b.
Proof.
  intros Hb. unfold u64. rewrite Zminus_mod_idemp_l.
  replace (a + b - a) with b by lia. by apply Z.mod_small.
Qed.

Lemma signed_small w x :
  0 < w -> - 2 ^ (w - 1) <= x < 2 ^ (w - 1) -> signed w x = x.
Proof.
  intros Hw Hx. unfold signed.
  assert (2 ^ w = 2 * 2 ^ (w - 1)) as Hp.
  { replace w with (1 + (w - 1)) at 1 by lia. rewrite Z.pow_add_r; lia. }
  rewrite Z.mod_small; lia.
Qed.

Lemma i32_small x : - 2 ^ 31 <= x < 2 ^ 31 -> i32 x = x.
Proof. intros. apply signed_small; lia. Qed.

Lemma i64_small x : - 2 ^ 63 <= x < 2 ^ 63 -> i64 x = x.
Proof. intros. apply signed_small; lia. Qed.

Lemma i8_small x : - 2 ^ 7 <= x < 2 ^ 7 -> i8 x = x.
Proof. intros. apply signed_small; lia. Qed.

(** ** Outcomes of C code

    [Ret a]: the code returned [a].  [Fault]: it dereferenced [NULL] or accessed
    memory outside the object it indexes (undefined behaviour in C).
    [OutOfFuel]: a loop bounded by fuel did not finish; the theorems on loops
    show that the fuel given is enough. *)

Inductive outcome (A : Type) : Type :=
| Ret (a : A)
| Fault
| OutOfFuel.
Arguments Ret {A} a.
Arguments Fault {A}.
Arguments OutOfFuel {A}.

Definition is_ret {A} (o : outcome A) : bool :=
  match o with Ret _ => true | _ => false end.

(** Stateful code: a state monad over [outcome]. *)
Definition M (S A : Type) : Type := S -> outcome (A * S).

#[export] Instance M_ret {S} : MRet (M S) := fun _ a s => Ret (a, s).

#[export] Instance M_bind {S} : MBind (M S) := fun _ _ f m s =>
  match m s with
  | Ret (a, s') => f a s'
  | Fault => Fault
  | OutOfFuel => OutOfFuel
  end.

#[export] Instance outcome_ret : MRet outcome := fun _ a => Ret a.

#[export] Instance outcome_bind : MBind outcome := fun _ _ f m =>
  match m with
  | Ret a => f a
  | Fault => Fault
  | OutOfFuel => OutOfFuel
  end.

Definition mget {S} : M S S := fun s => Ret (s, s).
Definition gets {S A} (f : S -> A) : M S A := fun s => Ret (f s, s).
Definition modify {S} (f : S -> S) : M S unit := fun s => Ret (tt, f s).
Definition mfault {S A} : M S A := fun _ => Fault.
Definition mfuel {S A} : M S A := fun _ => OutOfFuel.

(** [C[]] code that must find its operand: [None] is a [NULL] or wild pointer. *)
Definition deref {S A} (o : option A) : M S A :=
  match o with Some a => mret a | None => mfault end.

(** Run the code of a component on the part of the state that belongs to it. *)
Definition zoom {S T A} (get : S -> T) (put : T -> S -> S) (m : M T A) : M S A :=
  fun s => match m (get s) with
           | Ret (a, t) => Ret (a, put t s)
           | Fault => Fault
           | OutOfFuel => OutOfFuel
           end.

(** A counted loop [for (k = i; k < i + n; k++) body k]. *)
Fixpoint for_loop {S} (n : nat) (i : Z) (body : Z -> M S unit) : M S unit :=
  match n with
  | O => mret tt
  | Datatypes.S n' => body i ≫= fun _ => for_loop n' (i + 1) body
  end.

Lemma bind_ret {S A B} (m : M S A) (f : A -> M S B) s a s' :
  m s = Ret (a, s') -> (m ≫= f) s = f a s'.
Proof. intros H. unfold mbind, M_bind. by rewrite H. Qed.

Lemma bind_inv {S A B} (m : M S A) (f : A -> M S B) s b s'' :
  (m ≫= f) s = Ret (b, s'') -> exists a s', m s = Ret (a, s') /\ f a s' = Ret (b, s'').
Proof. unfold mbind, M_bind. destruct (m s) as [[a s']| |]; [|done..]. eauto. Qed.

Lemma zoom_inv {S T A} (get : S -> T) put (m : M T A) s a s' :
  zoom get put m s = Ret (a, s') -> exists t, m (get s) = Ret (a, t) /\ s' = put t s.
Proof. unfold zoom. destruct (m (get s)) as [[x t]| |]; [|done..]. intros [= <- <-]. eauto. Qed.

Lemma zoom_ret {S T A} (get : S -> T) put (m : M T A) s a t :
  m (get s) = Ret (a, t) -> zoom get put m s = Ret (a, put t s).
Proof. intros H. unfold zoom. by rewrite H. Qed.

(** Induction principle for counted loops: an invariant indexed by the
    loop counter, preserved by the body, holds at the end. *)
Lemma for_loop_ind {S} (I : Z -> S -> Prop) (body : Z -> M S unit) n i s :
  I i s ->
  (forall k t, i <= k < i + Z.of_nat n -> I k t ->
     exists t', body k t = Ret (tt, t') /\ I (k + 1) t') ->
  exists s', for_loop n i body s = Ret (tt, s') /\ I (i + Z.of_nat n) s'.
Proof.
  revert i s; induction n as [|n IH]; intros i s Hi Hb.
  - exists s. replace (i + Z.of_nat 0) with i by lia. done.
  - destruct (Hb i s) as (t & Ht & HI); [lia|done|].
    destruct (IH (i + 1) t) as (s' & Hs & HI'); [done| |].
    { intros k u Hk. apply Hb. lia. }
    exists s'. split.
    + simpl. by rewrite (bind_ret _ _ _ _ _ Ht).
    + by replace (i + Z.of_nat (Datatypes.S n)) with (i + 1 + Z.of_nat n) by lia.
Qed.

(** A counted loop splits at every point. *)
Lemma for_loop_app {S} (body : Z -> M S unit) a b i s :
  for_loop (a + b) i body s =
  (for_loop a i body ≫= fun _ => for_loop b (i + Z.of_nat a) body) s.
Proof.
  revert i s; induction a as [|a IH]; intros i s.
  - change (for_loop b i body s = for_loop b (i + 0) body s). by rewrite Z.add_0_r.
  - change (for_loop (Datatypes.S a + b) i body s) with ((body i ≫= fun _ => for_loop (a + b) (i + 1) body) s).
    change (for_loop (Datatypes.S a) i body) with (body i ≫= fun _ => for_loop a (i + 1) body).
    unfold mbind, M_bind. destruct (body i s) as [[[] t]| |]; [|done..].
    rewrite IH. unfold mbind, M_bind.
    by replace (i + 1 + Z.of_nat a) with (i + Z.of_nat (Datatypes.S a)) by lia.
Qed.

(** ** Partial correctness: every run from [P] that returns ends in [Q] *)

Definition triple {S A} (P : S -> Prop) (c : M S A) (Q : A -> S -> Prop) : Prop :=
  forall s a s', P s -> c s = Ret (a, s') -> Q a s'.

Lemma triple_bind {S A B} P (c : M S A) Q (f : A -> M S B) R :
  triple P c Q -> (forall a, triple (Q a) (f a) R) -> triple P (c ≫= f) R.
Proof. intros Hc Hf s b s'' HP (a & s' & H1 & H2)%bind_inv. eapply Hf; [by eapply Hc|done]. Qed.

Lemma triple_ret {S A} (P : S -> Prop) (a : A) (Q : A -> S -> Prop) :
  (forall s, P s -> Q a s) -> triple P (mret a) Q.
Proof. intros H s b s' HP [= <- <-]. by apply H. Qed.

Lemma triple_gets {S A} (P : S -> Prop) (f : S -> A) : triple P (gets f) (fun a s => P s /\ a = f s).
Proof. by intros s a s' HP [= <- <-]. Qed.

Lemma triple_weaken {S A} (P P' : S -> Prop) (c : M S A) (Q Q' : A -> S -> Prop) :
  triple P c Q -> (forall s, P' s -> P s) -> (forall a s, Q a s -> Q' a s) -> triple P' c Q'.
Proof. intros H HP HQ s a s' H' Hc. by eapply HQ, H; [apply HP|]. Qed.

Lemma triple_fault {S A} (P : S -> Prop) (Q : A -> S -> Prop) : triple P mfault Q.
Proof. done. Qed.

Lemma triple_fuel {S A} (P : S -> Prop) (Q : A -> S -> Prop) : triple P mfuel Q.
Proof. done. Qed.

Lemma triple_for {S} (P : S -> Prop) n i (body : Z -> M S unit) :
  (forall k, triple P (body k) (fun _ => P)) -> triple P (for_loop n i body) (fun _ => P).
Proof.
  intros Hb. revert i; induction n as [|n IH]; intros i; [by apply triple_ret|].
  eapply triple_bind; [apply Hb|intros []; apply IH].
Qed.

(** ** Tactics of the development *)

(** Decide the boolean comparisons of the goal or of a hypothesis. *)
Ltac zbool :=
  repeat match goal with
  | H : context [Z.eqb ?a ?b] |- _ => destruct (Z.eqb_spec a b)
  | |- context [Z.eqb ?a ?b] => destruct (Z.eqb_spec a b)
  | H : context [Z.ltb ?a ?b] |- _ => destruct (Z.ltb_spec a b)
  | |- context [Z.ltb ?a ?b] => destruct (Z.ltb_spec a b)
  | H : context [Z.leb ?a ?b] |- _ => destruct (Z.leb_spec a b)
  | |- context [Z.leb ?a ?b] => destruct (Z.leb_spec a b)
  end; try lia; try done.

(** Unfold one monadic step of the goal. *)
Ltac mstep := unfold mbind, M_bind, mret, M_ret; simpl.

#[export] Hint Resolve u64_range u32_range : snow.
