(* ===== verification/BitField.v ===== *)
(** * Bit fields of numbers

    Reading and writing a range of bits, with the laws that a packed structure needs: a field
    just written is read back, other fields do not change. *)

From S2P Require Import Prelude.

(** The [w] bits of [x] from bit [lo] on. *)
Definition field (lo w x : Z) : Z := Z.land (Z.shiftr x lo) (Z.ones w).
(** [x] with these bits replaced by the low bits of [v]. *)
Definition set_field (lo w v x : Z) : Z :=
  Z.lor (Z.ldiff x (Z.shiftl (Z.ones w) lo)) (Z.shiftl (Z.land v (Z.ones w)) lo).

#[global] Arguments field : simpl never.
#[global] Arguments set_field : simpl never.

(** ** Laws *)

Lemma land_ones_mod x w : 0 <= w -> Z.land x (Z.ones w) = x mod 2 ^ w.
Proof. apply Z.land_ones. Qed.

Lemma field_bit lo w x i : 0 <= lo -> 0 <= w -> 0 <= i ->
  Z.testbit (field lo w x) i = Z.testbit x (i + lo) && (i <? w).
Proof.
  intros Hlo Hw Hi. unfold field. rewrite Z.land_spec, Z.shiftr_spec by lia.
  f_equal. destruct (Z.ltb_spec i w); [apply Z.ones_spec_low|apply Z.ones_spec_high]; lia.
Qed.

Lemma set_field_bit lo w v x i : 0 <= lo -> 0 <= w -> 0 <= i ->
  Z.testbit (set_field lo w v x) i =
  if (lo <=? i) && (i <? lo + w) then Z.testbit v (i - lo) else Z.testbit x i.
Proof.
  intros Hlo Hw Hi. unfold set_field. rewrite Z.lor_spec, Z.ldiff_spec, !Z.shiftl_spec, Z.land_spec by lia.
  destruct (Z.leb_spec lo i); cbn [andb].
  - destruct (Z.ltb_spec i (lo + w)).
    + rewrite Z.ones_spec_low by lia. by rewrite Bool.andb_false_r, Bool.andb_true_r.
    + rewrite Z.ones_spec_high by lia. by rewrite !Bool.andb_false_r, Bool.andb_true_r, Bool.orb_false_r.
  - rewrite !(Z.testbit_neg_r _ (i - lo)) by lia. by rewrite Bool.andb_true_r, Bool.orb_false_r.
Qed.

(** Reading a part of the field just written. *)
Lemma field_set_part lo w v x lo' w' :
  0 <= lo -> lo <= lo' -> 0 <= w' -> lo' + w' <= lo + w ->
  field lo' w' (set_field lo w v x) = field (lo' - lo) w' v.
Proof.
  intros. apply Z.bits_inj'. intros i Hi. rewrite !field_bit, set_field_bit by lia.
  destruct (Z.ltb_spec i w'); rewrite ?Bool.andb_false_r, ?Bool.andb_true_r; [|done].
  destruct (Z.leb_spec lo (i + lo')); [|lia]. destruct (Z.ltb_spec (i + lo') (lo + w)); [|lia].
  cbn [andb]. f_equal. lia.
Qed.

(** Reading elsewhere. *)
Lemma field_set_other lo w v x lo' w' :
  0 <= lo -> 0 <= w -> 0 <= lo' -> 0 <= w' -> lo' + w' <= lo \/ lo + w <= lo' ->
  field lo' w' (set_field lo w v x) = field lo' w' x.
Proof.
  intros. apply Z.bits_inj'. intros i Hi. rewrite !field_bit, set_field_bit by lia.
  destruct (Z.ltb_spec i w'); rewrite ?Bool.andb_false_r, ?Bool.andb_true_r; [|done].
  destruct (Z.leb_spec lo (i + lo')); [|done]. by destruct (Z.ltb_spec (i + lo') (lo + w)); [lia|].
Qed.

Lemma field_mod lo w x : 0 <= lo -> 0 <= w -> field lo w x = x / 2 ^ lo mod 2 ^ w.
Proof. intros. unfold field. by rewrite land_ones_mod, Z.shiftr_div_pow2. Qed.

Lemma field_0 lo w : field lo w 0 = 0.
Proof. unfold field. by rewrite Z.shiftr_0_l, Z.land_0_l. Qed.

(** Read through a chain of writes. *)
Ltac fields := repeat first
  [ rewrite field_set_other by lia
  | rewrite field_set_part by lia ]; rewrite ?field_0.

Lemma field_small w x : 0 <= w -> 0 <= x < 2 ^ w -> field 0 w x = x.
Proof. intros Hw Hx. rewrite field_mod, Z.div_1_r by lia. by apply Z.mod_small. Qed.

Lemma field_of_u lo w k x : 0 <= lo -> 0 <= w -> lo + w <= k -> field lo w (x mod 2 ^ k) = field lo w x.
Proof.
  intros. apply Z.bits_inj'. intros i Hi. rewrite !field_bit by lia.
  destruct (Z.ltb_spec i w); rewrite ?Bool.andb_false_r, ?Bool.andb_true_r; [|done].
  apply Z.mod_pow2_bits_low. lia.
Qed.

Lemma field_field lo w k n x :
  0 <= lo -> 0 <= k -> 0 <= w -> k + w <= n -> field k w (field lo n x) = field (lo + k) w x.
Proof.
  intros. apply Z.bits_inj'. intros i Hi. rewrite !field_bit by lia.
  destruct (Z.ltb_spec i w); rewrite ?Bool.andb_false_r, ?Bool.andb_true_r; [|done].
  destruct (Z.ltb_spec (i + k) n); [|lia]. rewrite Bool.andb_true_r. f_equal. lia.
Qed.
