(* ===== verification/PhysMem.v ===== *)
(** * The physical page allocator ([sys/physical_memory.c])

    State: the array [page_descriptor] of page descriptors, the head [free_list]
    of the list threaded through their [next] fields, the counters, and the
    physical memory itself ([ram], 64-bit words at 8-aligned addresses).
    The abstract state is the list of free page numbers; the theorems show that
    initialisation, allocation and release implement the operations on it. *)

From S2P Require Import Prelude.

Definition PAGE_SIZE : Z := 4096.
Definition MIN_PAGES : Z := 10.
Definition MAX_PAGES : Z := 100000.

Record physical_page := PhysicalPage {
  page_number : Z;
  page_next : option Z;     (* index of a descriptor, [None] for [NULL] *)
  ref_count : Z
}.

Record physmem := PhysMem {
  free_list : option Z;
  page_descriptor : gmap Z physical_page;
  max_pages_available : Z;
  max_free_pages_available : Z;
  pages_used : Z;
  physical_mem_size : Z;
  free_page : Z;
  ram : gmap Z Z
}.

(** The globals at boot: static storage is zero; the contents of RAM are not. *)
Definition physmem_boot (r : gmap Z Z) : physmem :=
  PhysMem None ∅ 0 0 0 0 0 r.

Definition set_free_list (x : option Z) (s : physmem) : physmem :=
  PhysMem x (page_descriptor s) (max_pages_available s) (max_free_pages_available s)
    (pages_used s) (physical_mem_size s) (free_page s) (ram s).
Definition set_descriptor (i : Z) (d : physical_page) (s : physmem) : physmem :=
  PhysMem (free_list s) (<[i := d]> (page_descriptor s)) (max_pages_available s)
    (max_free_pages_available s) (pages_used s) (physical_mem_size s) (free_page s) (ram s).
Definition set_max_pages (mp mf : Z) (s : physmem) : physmem :=
  PhysMem (free_list s) (page_descriptor s) mp mf
    (pages_used s) (physical_mem_size s) (free_page s) (ram s).
Definition set_pages_used (x : Z) (s : physmem) : physmem :=
  PhysMem (free_list s) (page_descriptor s) (max_pages_available s)
    (max_free_pages_available s) x (physical_mem_size s) (free_page s) (ram s).
Definition set_mem_size (x : Z) (s : physmem) : physmem :=
  PhysMem (free_list s) (page_descriptor s) (max_pages_available s)
    (max_free_pages_available s) (pages_used s) x (free_page s) (ram s).
Definition set_free_page (x : Z) (s : physmem) : physmem :=
  PhysMem (free_list s) (page_descriptor s) (max_pages_available s)
    (max_free_pages_available s) (pages_used s) (physical_mem_size s) x (ram s).
Definition set_ram (r : gmap Z Z) (s : physmem) : physmem :=
  PhysMem (free_list s) (page_descriptor s) (max_pages_available s)
    (max_free_pages_available s) (pages_used s) (physical_mem_size s) (free_page s) r.

(** ** Memory accesses *)

Definition ram_word (r : gmap Z Z) (a : Z) : Z := default 0 (r !! a).

(** [page_descriptor[i]]: an access outside the array is a fault; entries that
    were never written hold the zeroes of static storage. *)
Definition zero_page : physical_page := PhysicalPage 0 None 0.

Definition read_desc (i : Z) : M physmem physical_page := fun s =>
  if (0 <=? i) && (i <? MAX_PAGES)
  then Ret (default zero_page (page_descriptor s !! i), s) else Fault.

Definition write_desc (i : Z) (d : physical_page) : M physmem unit := fun s =>
  if (0 <=? i) && (i <? MAX_PAGES) then Ret (tt, set_descriptor i d s) else Fault.

(** [memset(a, 0, b)] for an 8-aligned [a] and [b] a multiple of 8 (every call of
    the kernel on page memory), word by word. *)
Fixpoint zero_words (n : nat) (a : Z) (r : gmap Z Z) : gmap Z Z :=
  match n with
  | O => r
  | S n' => zero_words n' (a + 8) (<[a := 0]> r)
  end.

Definition memset0 (a b : Z) (r : gmap Z Z) : gmap Z Z := zero_words (Z.to_nat (b / 8)) a r.

(** ** The operations of the source *)

Definition update_max_pages (add_pages : Z) : M physmem unit :=
  modify (fun s => set_max_pages (u64 (max_pages_available s + add_pages))
                     (u64 (max_free_pages_available s + add_pages)) s).

Definition get_page_ref_count (page_addr : Z) : M physmem Z :=
  let pn := page_addr / PAGE_SIZE in
  d ← read_desc pn; mret (ref_count d).

Definition set_page_ref_count (page_addr new_ref_count : Z) : M physmem unit :=
  let pn := page_addr / PAGE_SIZE in
  d ← read_desc pn;
  write_desc pn (PhysicalPage (page_number d) (page_next d) new_ref_count).

Definition init_descriptor (physfree pg : Z) : M physmem unit :=
  max_pages ← gets max_pages_available;
  d ← read_desc pg;
  write_desc pg (PhysicalPage pg
    (if pg <? u64 (max_pages - 1) then Some (pg + 1) else page_next d) 0) ≫= fun _ =>
  if u64 (pg * PAGE_SIZE) =? physfree then modify (set_free_list (Some pg)) else mret tt.

Definition init_physical_memory (physfree base length : Z) : M physmem unit :=
  modify (fun s =>
    let size := u64 (base + length) in
    let max_free := u64 (size - physfree) / PAGE_SIZE in
    let s1 := set_max_pages (size / PAGE_SIZE) max_free (set_mem_size size s) in
    set_ram (memset0 physfree (u64 (max_free * PAGE_SIZE) / 8) (ram s1)) s1) ≫= fun _ =>
  max_pages ← gets max_pages_available;
  for_loop (Z.to_nat max_pages) 0 (init_descriptor physfree).

Definition get_free_pages_count (s : physmem) : Z :=
  u64 (max_free_pages_available s - pages_used s).

Definition get_free_page : M physmem Z :=
  count ← gets get_free_pages_count;
  if count <? MIN_PAGES then mret 0 else
  fl ← gets free_list; p ← deref fl; d ← read_desc p;
  let fp := u64 (page_number d * PAGE_SIZE) in
  modify (set_free_page fp) ≫= fun _ =>
  set_page_ref_count fp 1 ≫= fun _ =>
  d' ← read_desc p;
  modify (fun s => set_pages_used (u64 (pages_used s + 1)) (set_free_list (page_next d') s)) ≫= fun _ =>
  gets free_page.

Definition get_free_pages (num_of_pages : Z) : M physmem Z :=
  count ← gets get_free_pages_count;
  if u64 (count - num_of_pages) <? MIN_PAGES then mret 0 else
  fl ← gets free_list; p ← deref fl; d ← read_desc p;
  let fp := u64 (page_number d * PAGE_SIZE) in
  modify (fun s => set_pages_used (u64 (pages_used s + num_of_pages))
    (set_free_list (Some (page_number d + num_of_pages)) (set_free_page fp s))) ≫= fun _ =>
  gets free_page.

Definition reset_ref (pn i : Z) : M physmem unit :=
  d ← read_desc (pn + i);
  write_desc (pn + i) (PhysicalPage (page_number d) (page_next d) 0).

Definition add_back_free_pages (page_addr num_of_pages : Z) : M physmem unit :=
  let pn := page_addr / PAGE_SIZE in
  prev_free_list ← gets free_list;
  modify (set_free_list (Some pn)) ≫= fun _ =>
  for_loop (Z.to_nat num_of_pages) 0 (reset_ref pn) ≫= fun _ =>
  let last := u64 (pn + num_of_pages - 1) in
  d ← read_desc last;
  write_desc last (PhysicalPage (page_number d) prev_free_list (ref_count d)) ≫= fun _ =>
  modify (fun s => set_pages_used (u64 (pages_used s - num_of_pages)) s).

(** ** Abstract view: the list of free pages *)

(** [chain pd hd l]: following [next] from [hd] visits the descriptors [l] and
    then [NULL]; every descriptor is in the array, carries its own index and has
    no reference. *)
Fixpoint chain (pd : gmap Z physical_page) (hd : option Z) (l : list Z) : Prop :=
  match l with
  | [] => hd = None
  | p :: l' => hd = Some p /\ 0 <= p < MAX_PAGES /\
      exists nx, pd !! p = Some (PhysicalPage p nx 0) /\ chain pd nx l'
  end.

(** The invariant of the allocator: [l] is the free list. *)
Record alloc_inv (s : physmem) (l : list Z) : Prop := {
  inv_chain : chain (page_descriptor s) (free_list s) l;
  inv_nodup : NoDup l;
  inv_count : get_free_pages_count s = Z.of_nat (length l)
}.

(** The chain depends only on the descriptors it visits. *)
Lemma chain_ext pd pd' hd l :
  (forall q, q ∈ l -> pd' !! q = pd !! q) -> chain pd hd l -> chain pd' hd l.
Proof.
  revert hd; induction l as [|p l IH]; intros hd Heq; simpl; [done|].
  intros (-> & Hp & nx & Hd & Hc). split_and!; [done|lia|lia|].
  exists nx. rewrite Heq by (by left). split; [done|].
  apply IH; [|done]. intros q Hq. apply Heq. by right.
Qed.

Lemma chain_insert pd hd l i d :
  i ∉ l -> chain pd hd l -> chain (<[i := d]> pd) hd l.
Proof.
  intros Hi. apply chain_ext. intros q Hq. apply lookup_insert_ne. by intros ->.
Qed.

Lemma chain_range pd hd l p : chain pd hd l -> p ∈ l -> 0 <= p < MAX_PAGES.
Proof.
  revert hd; induction l as [|q l IH]; intros hd Hc Hp; [by apply not_elem_of_nil in Hp|].
  destruct Hc as (_ & Hq & nx & _ & Hc).
  apply elem_of_cons in Hp as [->|Hp]; [done|]. eauto.
Qed.

Lemma chain_lookup pd hd l p :
  chain pd hd l -> p ∈ l -> exists nx, pd !! p = Some (PhysicalPage p nx 0).
Proof.
  revert hd; induction l as [|q l IH]; intros hd Hc Hp; [by apply not_elem_of_nil in Hp|].
  destruct Hc as (_ & Hq & nx & Hl & Hc).
  apply elem_of_cons in Hp as [->|Hp]; eauto.
Qed.

(** A list of distinct page numbers fits in the descriptor array. *)
Lemma chain_length pd hd l : chain pd hd l -> NoDup l -> Z.of_nat (length l) <= MAX_PAGES.
Proof.
  intros Hc Hnd.
  assert (length l <= length (seqZ 0 MAX_PAGES))%nat as H.
  { apply NoDup_incl_length; [by apply NoDup_ListNoDup|].
    intros p Hp%list_elem_of_In. apply list_elem_of_In, elem_of_seqZ.
    eapply chain_range in Hc; [|done]. lia. }
  rewrite length_seqZ in H. unfold MAX_PAGES in *. lia.
Qed.

Lemma chain_det pd hd l1 l2 :
  chain pd hd l1 -> chain pd hd l2 -> length l1 = length l2 -> l1 = l2.
Proof.
  revert l2 hd; induction l1 as [|x l1 IH]; intros [|y l2] hd; try done.
  intros (-> & _ & nx & Hd & Hc) ([= <-] & _ & nx' & Hd' & Hc') [= Hlen].
  rewrite Hd in Hd'. injection Hd' as <-. f_equal. by eapply IH.
Qed.

(** The free list is determined by the state. *)
Lemma alloc_inv_det s l1 l2 : alloc_inv s l1 -> alloc_inv s l2 -> l1 = l2.
Proof.
  intros [Hc1 _ Hn1] [Hc2 _ Hn2]. eapply chain_det; [done..|].
  apply Nat2Z.inj. congruence.
Qed.

Lemma read_desc_in i s :
  0 <= i < MAX_PAGES ->
  read_desc i s = Ret (default zero_page (page_descriptor s !! i), s).
Proof.
  intros. unfold read_desc.
  by replace ((0 <=? i) && (i <? MAX_PAGES)) with true by (symmetry; zbool).
Qed.

Lemma write_desc_in i d s :
  0 <= i < MAX_PAGES -> write_desc i d s = Ret (tt, set_descriptor i d s).
Proof.
  intros. unfold write_desc.
  by replace ((0 <=? i) && (i <? MAX_PAGES)) with true by (symmetry; zbool).
Qed.

Lemma page_addr_small p : 0 <= p < MAX_PAGES -> u64 (p * PAGE_SIZE) = p * PAGE_SIZE.
Proof. intros. apply u64_small. unfold MAX_PAGES, PAGE_SIZE in *. lia. Qed.

Lemma page_addr_div p : p * PAGE_SIZE / PAGE_SIZE = p.
Proof. apply Z.div_mul. by unfold PAGE_SIZE. Qed.

#[export] Hint Rewrite page_addr_div : snow.

(** The page handed out by [get_free_page], as one state. *)
Definition take_page (p : Z) (nx : option Z) (s : physmem) : physmem :=
  set_pages_used (u64 (pages_used s + 1))
    (set_free_list nx (set_descriptor p (PhysicalPage p nx 1) (set_free_page (p * PAGE_SIZE) s))).

Lemma get_free_page_eq s p l :
  alloc_inv s (p :: l) -> MIN_PAGES <= Z.of_nat (length (p :: l)) ->
  exists nx, page_descriptor s !! p = Some (PhysicalPage p nx 0) /\
    chain (page_descriptor s) nx l /\
    get_free_page s = Ret (p * PAGE_SIZE, take_page p nx s).
Proof.
  intros [(Hfl & Hp & nx & Hd & Hc) Hnd Hct] Hmin. exists nx. split_and!; [done..|].
  unfold get_free_page, gets, modify, set_page_ref_count. mstep. rewrite Hct.
  destruct (Z.ltb_spec (Z.of_nat (length (p :: l))) MIN_PAGES); [lia|].
  rewrite Hfl; simpl. rewrite read_desc_in, Hd by done; simpl.
  rewrite page_addr_small, page_addr_div by done.
  rewrite read_desc_in by done; simpl. rewrite Hd; simpl.
  rewrite write_desc_in by done. rewrite read_desc_in by done; simpl.
  by rewrite lookup_insert_eq.
Qed.

Lemma count_take_page p nx s n :
  get_free_pages_count s = n + 1 -> 0 <= n -> get_free_pages_count (take_page p nx s) = n.
Proof.
  unfold get_free_pages_count, u64; simpl. unfold u64. intros Hn Hp.
  rewrite Zminus_mod_idemp_r.
  replace (max_free_pages_available s - (pages_used s + 1))
    with (max_free_pages_available s - pages_used s - 1) by lia.
  rewrite <- Zminus_mod_idemp_l, Hn. replace (n + 1 - 1) with n by lia.
  apply Z.mod_small.
  pose proof (Z.mod_pos_bound (max_free_pages_available s - pages_used s) (2 ^ 64)). lia.
Qed.

Lemma alloc_inv_take p nx s l :
  alloc_inv s (p :: l) -> chain (page_descriptor s) nx l -> alloc_inv (take_page p nx s) l.
Proof.
  intros [Hc Hnd Hct] Hl. apply list.NoDup_cons in Hnd as [Hp Hnd].
  split; [|done|].
  - simpl. by apply chain_insert.
  - apply count_take_page; [|lia]. rewrite Hct. simpl. lia.
Qed.

(** Allocation takes the head of the free list, or nothing below [MIN_PAGES]. *)
Lemma get_free_page_ok s p l :
  alloc_inv s (p :: l) -> MIN_PAGES <= Z.of_nat (length (p :: l)) ->
  exists nx, get_free_page s = Ret (p * PAGE_SIZE, take_page p nx s) /\
    alloc_inv (take_page p nx s) l.
Proof.
  intros Hinv Hmin. destruct (get_free_page_eq _ _ _ Hinv Hmin) as (nx & _ & Hc & Heq).
  exists nx. split; [done|]. by apply alloc_inv_take.
Qed.

Lemma get_free_page_low s l :
  alloc_inv s l -> Z.of_nat (length l) < MIN_PAGES -> get_free_page s = Ret (0, s).
Proof.
  intros Hinv Hl. unfold get_free_page, gets. mstep. rewrite (inv_count _ _ Hinv).
  destruct (Z.ltb_spec (Z.of_nat (length l)) MIN_PAGES); [done|lia].
Qed.

(** ** Abstract specification of allocation *)

(** What [get_free_page] promises, on the list of free pages: it returns the
    first page while at least [MIN_PAGES] are left, and 0 otherwise. *)
Definition spec_get_free_page (l : list Z) : Z * list Z :=
  match l with
  | p :: l' => if Z.of_nat (length l) <? MIN_PAGES then (0, l) else (p * PAGE_SIZE, l')
  | [] => (0, [])
  end.

(** C1: [get_free_page] refines the abstract allocator: from every state whose
    free list is [l] it returns (never faulting) the page the specification
    returns, and leaves a state whose free list is the specification's; the page
    it hands out gets reference count 1, and no memory contents change. *)
Theorem get_free_page_refines s l :
  alloc_inv s l ->
  exists s', get_free_page s = Ret (fst (spec_get_free_page l), s') /\
    alloc_inv s' (snd (spec_get_free_page l)) /\ ram s' = ram s /\
    (l <> snd (spec_get_free_page l) ->
     exists p, hd_error l = Some p /\
       ref_count <$> page_descriptor s' !! p = Some 1).
Proof.
  intros Hinv. destruct l as [|p l].
  { exists s. split_and!; [by eapply get_free_page_low|done..]. }
  unfold spec_get_free_page.
  destruct (Z.ltb_spec (Z.of_nat (length (p :: l))) MIN_PAGES).
  { exists s. split_and!; [by eapply get_free_page_low|done..]. }
  destruct (get_free_page_ok _ _ _ Hinv) as (nx & Heq & Hinv'); [done|].
  exists (take_page p nx s). split_and!; [done..|].
  intros _. exists p. simpl. by rewrite lookup_insert_eq.
Qed.

(** [n] successive allocations. *)
Fixpoint get_pages (n : nat) : M physmem (list Z) :=
  match n with
  | O => mret []
  | S n' => a ← get_free_page; l ← get_pages n'; mret (a :: l)
  end.

Lemma get_pages_prefix n s l :
  alloc_inv s l -> MIN_PAGES + Z.of_nat n <= Z.of_nat (length l) + 1 ->
  exists s', get_pages n s = Ret ((fun p => p * PAGE_SIZE) <$> take n l, s') /\
    alloc_inv s' (drop n l).
Proof.
  revert s l; induction n as [|n IH]; intros s l Hinv Hn; [by exists s|].
  destruct l as [|p l]; [simpl in Hn; unfold MIN_PAGES in Hn; lia|].
  destruct (get_free_page_ok _ _ _ Hinv) as (nx & Heq & Hinv'); [simpl in *; lia|].
  destruct (IH _ _ Hinv') as (s' & Hs & Hs'); [simpl in *; lia|].
  exists s'. split; [|done]. simpl. rewrite (bind_ret _ _ _ _ _ Heq). mstep. by rewrite Hs.
Qed.

(** no page is handed out twice: while the free list does not run low, [n]
    successive calls return pairwise different page addresses, all of them pages
    that were free, and the pages left free are none of those returned. *)
Theorem get_pages_distinct n s l :
  alloc_inv s l -> MIN_PAGES + Z.of_nat n <= Z.of_nat (length l) + 1 ->
  exists pages s', get_pages n s = Ret (pages, s') /\ length pages = n /\ NoDup pages /\
    (forall a, a ∈ pages -> exists p, p ∈ l /\ a = p * PAGE_SIZE /\ p ∉ drop n l) /\
    alloc_inv s' (drop n l).
Proof.
  intros Hinv Hn. destruct (get_pages_prefix _ _ _ Hinv Hn) as (s' & Heq & Hinv').
  assert (NoDup (take n l ++ drop n l)) as Hnd by (rewrite take_drop; apply Hinv).
  apply list.NoDup_app in Hnd as (Hnd1 & Hdisj & _).
  exists ((fun p => p * PAGE_SIZE) <$> take n l), s'. split_and!; [done| | | |done].
  - rewrite length_fmap, length_take. unfold MIN_PAGES in Hn. lia.
  - apply NoDup_fmap_2; [|done]. intros x y. unfold PAGE_SIZE. lia.
  - intros a (p & -> & Hp)%list_elem_of_fmap. exists p.
    split_and!; [|done|by apply Hdisj].
    rewrite <- (take_drop n l). apply elem_of_app. by left.
Qed.

(** ** Release *)

(** States that differ at most in the descriptors. *)
Record same_but_desc (s t : physmem) : Prop := {
  sbd_free_list : free_list t = free_list s;
  sbd_max : max_pages_available t = max_pages_available s;
  sbd_max_free : max_free_pages_available t = max_free_pages_available s;
  sbd_used : pages_used t = pages_used s;
  sbd_size : physical_mem_size t = physical_mem_size s;
  sbd_free_page : free_page t = free_page s;
  sbd_ram : ram t = ram s
}.

Lemma same_but_desc_refl s : same_but_desc s s.
Proof. done. Qed.

Lemma same_but_desc_write s t i d : same_but_desc s t -> same_but_desc s (set_descriptor i d t).
Proof. intros []. by split. Qed.

#[export] Hint Resolve same_but_desc_refl same_but_desc_write : snow.

(** [n] consecutive descriptors, linked one to the next up to the last. *)
Definition block (pd : gmap Z physical_page) (p : Z) (n : nat) : Prop :=
  forall i, 0 <= i < Z.of_nat n -> exists nx rc,
    pd !! (p + i) = Some (PhysicalPage (p + i) nx rc) /\
    (i < Z.of_nat n - 1 -> nx = Some (p + i + 1)).

Lemma chain_block pd p n nx l :
  0 <= p -> p + Z.of_nat (S n) <= MAX_PAGES ->
  (forall i, 0 <= i <= Z.of_nat n -> pd !! (p + i) =
     Some (PhysicalPage (p + i) (if i <? Z.of_nat n then Some (p + i + 1) else nx) 0)) ->
  chain pd nx l -> chain pd (Some p) (seqZ p (Z.of_nat (S n)) ++ l).
Proof.
  revert p; induction n as [|n IH]; intros p Hp Hmax Hd Hc; rewrite seqZ_cons by lia;
    simpl; (split_and!; [done|lia|lia|]).
  - exists nx. specialize (Hd 0). replace (p + 0) with p in Hd by lia.
    split; [by apply Hd|done].
  - exists (Some (p + 1)). split.
    { specialize (Hd 0). replace (p + 0) with p in Hd by lia. rewrite Hd; [|lia].
      destruct (Z.ltb_spec 0 (Z.of_nat (S n))); [done|lia]. }
    replace (Z.pred (Z.of_nat (S (S n)))) with (Z.of_nat (S n)) by lia.
    replace (Z.succ p) with (p + 1) by lia.
    apply IH; [lia|lia| |done]. intros i Hi.
    specialize (Hd (1 + i)). replace (p + (1 + i)) with (p + 1 + i) in Hd by lia.
    rewrite Hd by lia. f_equal. f_equal. zbool.
Qed.

Lemma reset_refs_ok s p n :
  0 <= p -> p + Z.of_nat n <= MAX_PAGES -> block (page_descriptor s) p n ->
  exists t, for_loop n 0 (reset_ref p) s = Ret (tt, t) /\ same_but_desc s t /\
    (forall j, page_descriptor t !! j =
       (if (p <=? j) && (j <? p + Z.of_nat n)
        then (fun d => PhysicalPage (page_number d) (page_next d) 0) <$> page_descriptor s !! j
        else page_descriptor s !! j)).
Proof.
  intros Hp Hmax Hb.
  destruct (for_loop_ind (fun k t => same_but_desc s t /\ forall j, page_descriptor t !! j =
       (if (p <=? j) && (j <? p + k)
        then (fun d => PhysicalPage (page_number d) (page_next d) 0) <$> page_descriptor s !! j
        else page_descriptor s !! j)) (reset_ref p) n 0 s) as (t & Ht & HI).
  - split; [done|]. intros j. zbool.
  - intros k t Hk (Hs & Hj). destruct (Hb k) as (nx & rc & Hd & _); [lia|].
    assert (page_descriptor t !! (p + k) = Some (PhysicalPage (p + k) nx rc)) as Hdt.
    { rewrite Hj, Hd. zbool. }
    eexists. unfold reset_ref. mstep. rewrite read_desc_in by lia. simpl.
    rewrite write_desc_in by lia. split; [done|]. split; [auto with snow|].
    intros j. simpl. rewrite Hdt. simpl. rewrite lookup_insert. case_decide as Hjk.
    + subst j. rewrite Hd. zbool.
    + rewrite Hj. zbool.
  - exists t. split; [done|]. by rewrite Z.add_0_l in HI.
Qed.

Lemma count_add_back s n c :
  get_free_pages_count s = c -> 0 <= n -> c + n < 2 ^ 64 -> 0 <= c ->
  u64 (max_free_pages_available s - u64 (pages_used s - n)) = c + n.
Proof.
  unfold get_free_pages_count, u64. intros Hc Hn Hlt H0.
  rewrite Zminus_mod_idemp_r.
  replace (max_free_pages_available s - (pages_used s - n))
    with (max_free_pages_available s - pages_used s + n) by lia.
  rewrite <- Zplus_mod_idemp_l, Hc. apply Z.mod_small. lia.
Qed.

Section add_back.
Context (s t : physmem) (l : list Z) (p : Z) (n : nat).
Context (Hp : 0 <= p) (Hmax : p + Z.of_nat (S n) <= MAX_PAGES).
Context (Hb : block (page_descriptor s) p (S n)).
Context (Hdisj : forall i, p <= i < p + Z.of_nat (S n) -> i ∉ l).
Context (Hloop : for_loop (S n) 0 (reset_ref p) (set_free_list (Some p) s) = Ret (tt, t)).
Context (Hsame : same_but_desc (set_free_list (Some p) s) t).
Context (Hdesc : forall j, page_descriptor t !! j =
     (if (p <=? j) && (j <? p + Z.of_nat (S n))
      then (fun d => PhysicalPage (page_number d) (page_next d) 0) <$> page_descriptor s !! j
      else page_descriptor s !! j)).

Let last := p + Z.of_nat n.
Let pd' := <[last := PhysicalPage last (free_list s) 0]> (page_descriptor t).

Lemma add_back_run :
  add_back_free_pages (p * PAGE_SIZE) (Z.of_nat (S n)) s =
  Ret (tt, set_pages_used (u64 (pages_used t - Z.of_nat (S n)))
             (set_descriptor last (PhysicalPage last (free_list s) 0) t)).
Proof.
  destruct (Hb (Z.of_nat n)) as (nx & rc & Hd & _); [lia|].
  assert (page_descriptor t !! last = Some (PhysicalPage last nx 0)) as Hlast.
  { rewrite Hdesc. unfold last. rewrite Hd. zbool. }
  unfold add_back_free_pages, gets, modify. rewrite page_addr_div. mstep.
  rewrite Nat2Z.id. fold (for_loop (S:=physmem)). rewrite Hloop.
  replace (u64 (p + Z.of_nat (S n) - 1)) with last.
  2: { unfold last. rewrite u64_small; unfold MAX_PAGES in *; lia. }
  rewrite read_desc_in by (unfold last; lia). simpl.
  rewrite Hlast. simpl. by rewrite write_desc_in by (unfold last; lia).
Qed.

Lemma add_back_chain :
  chain (page_descriptor s) (free_list s) l ->
  chain pd' (Some p) (seqZ p (Z.of_nat (S n)) ++ l).
Proof.
  intros Hc. apply (chain_block _ _ _ (free_list s)); [done..| |].
  - intros i Hi. unfold pd'. rewrite lookup_insert. case_decide as Hil.
    + assert (i = Z.of_nat n) as -> by lia. by rewrite Z.ltb_irrefl.
    + rewrite Hdesc. destruct (Hb i) as (nx & rc & Hd & Hnx); [lia|].
      rewrite Hd, Hnx by lia. zbool.
  - apply chain_insert; [apply Hdisj; lia|]. eapply chain_ext; [|done].
    intros q Hq. rewrite Hdesc.
    assert (~ (p <= q < p + Z.of_nat (S n))) as Hout by (intros Hin; by apply (Hdisj q)).
    zbool.
Qed.

Lemma add_back_inv :
  alloc_inv s l ->
  alloc_inv (set_pages_used (u64 (pages_used t - Z.of_nat (S n)))
               (set_descriptor last (PhysicalPage last (free_list s) 0) t))
    (seqZ p (Z.of_nat (S n)) ++ l).
Proof.
  intros [Hc Hnd Hct].
  assert (NoDup (seqZ p (Z.of_nat (S n)) ++ l)) as Hnd'.
  { apply list.NoDup_app. split_and!; [apply NoDup_seqZ| |done].
    intros i Hi%elem_of_seqZ. apply Hdisj. lia. }
  pose proof (add_back_chain Hc) as Hch. split; [|done|].
  - simpl. rewrite (sbd_free_list _ _ Hsame). done.
  - pose proof (chain_length _ _ _ Hch Hnd') as Hlen.
    unfold get_free_pages_count. simpl.
    rewrite (sbd_max_free _ _ Hsame), (sbd_used _ _ Hsame). simpl.
    rewrite length_app, length_seqZ in *.
    rewrite (count_add_back s _ (Z.of_nat (length l)));
      unfold MAX_PAGES in *; try done; lia.
Qed.
End add_back.

(** [add_back_free_pages] returns a block of [n >= 1] pages to the allocator:
    whenever the block is linked and none of its pages is free, the call
    succeeds, the free list becomes the block followed by the old list, and the
    count of free pages grows by [n]. *)
Theorem add_back_free_pages_refines s l p n :
  alloc_inv s l -> 0 <= p -> p + Z.of_nat (S n) <= MAX_PAGES ->
  block (page_descriptor s) p (S n) ->
  (forall i, p <= i < p + Z.of_nat (S n) -> i ∉ l) ->
  exists s', add_back_free_pages (p * PAGE_SIZE) (Z.of_nat (S n)) s = Ret (tt, s') /\
    alloc_inv s' (seqZ p (Z.of_nat (S n)) ++ l) /\ ram s' = ram s.
Proof.
  intros Hinv Hp Hmax Hb Hdisj.
  destruct (reset_refs_ok (set_free_list (Some p) s) p (S n)) as (t & Ht & Hs & Hj); [done..|].
  eexists. split_and!.
  - by apply add_back_run.
  - by apply add_back_inv.
  - simpl. by rewrite (sbd_ram _ _ Hs).
Qed.

(** ** Initialisation *)

(** The state [init_physical_memory] has built when its loop reaches page [k]. *)
Record init_inv (f max max_free k : Z) (r : gmap Z Z) (t : physmem) : Prop := {
  init_fl : free_list t = if f <? k then Some f else None;
  init_pd : forall j, page_descriptor t !! j =
    if (0 <=? j) && (j <? k)
    then Some (PhysicalPage j (if j <? max - 1 then Some (j + 1) else None) 0) else None;
  init_max : max_pages_available t = max;
  init_max_free : max_free_pages_available t = max_free;
  init_used : pages_used t = 0;
  init_ram : ram t = r
}.

Lemma init_descriptor_step f max max_free r k t :
  0 <= k < max -> k < MAX_PAGES -> max < 2 ^ 52 -> 0 <= f < 2 ^ 52 ->
  init_inv f max max_free k r t ->
  exists t', init_descriptor (f * PAGE_SIZE) k t = Ret (tt, t') /\
    init_inv f max max_free (k + 1) r t'.
Proof.
  intros Hk Hlim Hmax Hf [Hfl Hpd Hm Hmf Hu Hr].
  assert (page_descriptor t !! k = None) as Hnone by (rewrite Hpd; zbool).
  unfold init_descriptor, gets, modify. mstep. rewrite read_desc_in, Hnone by lia. simpl.
  rewrite write_desc_in, Hm, (u64_small (max - 1)) by lia. rewrite u64_small by (unfold PAGE_SIZE; lia).
  destruct (Z.eqb_spec (k * PAGE_SIZE) (f * PAGE_SIZE)) as [He|He];
    (eexists; split; [done|]); (split; simpl; try done).
  all: try (intros j; rewrite lookup_insert; case_decide; [subst|rewrite Hpd]; zbool).
  - assert (k = f) as -> by (unfold PAGE_SIZE in He; lia). zbool.
  - assert (k <> f) by congruence. rewrite Hfl. zbool.
Qed.

Definition init_prefix (f size : Z) (r : gmap Z Z) : physmem :=
  PhysMem None ∅ (size / PAGE_SIZE) ((size - f * PAGE_SIZE) / PAGE_SIZE) 0 size 0
    (memset0 (f * PAGE_SIZE) ((size - f * PAGE_SIZE) / PAGE_SIZE * PAGE_SIZE / 8) r).

Lemma init_physical_memory_loop f base length r :
  0 <= f -> 0 <= base + length < 2 ^ 62 -> f * PAGE_SIZE <= base + length ->
  init_physical_memory (f * PAGE_SIZE) base length (physmem_boot r) =
  for_loop (Z.to_nat ((base + length) / PAGE_SIZE)) 0 (init_descriptor (f * PAGE_SIZE))
    (init_prefix f (base + length) r).
Proof.
  intros Hf Hs Hle. unfold init_physical_memory, modify, gets. mstep.
  assert (0 <= (base + length - f * PAGE_SIZE) / PAGE_SIZE <= base + length) as Hd.
  { unfold PAGE_SIZE in *. pose proof (Z.div_mod (base + length - f * 4096) 4096).
    pose proof (Z.mod_pos_bound (base + length - f * 4096) 4096). lia. }
  assert ((base + length - f * PAGE_SIZE) / PAGE_SIZE * PAGE_SIZE <= base + length) as Hd2.
  { unfold PAGE_SIZE in *. pose proof (Z.div_mod (base + length - f * 4096) 4096).
    pose proof (Z.mod_pos_bound (base + length - f * 4096) 4096). lia. }
  unfold set_ram, set_max_pages, set_mem_size, init_prefix; simpl.
  rewrite !(u64_small (base + length)), u64_small by (unfold PAGE_SIZE in *; lia).
  by rewrite u64_small by (unfold PAGE_SIZE in *; lia).
Qed.

Lemma init_prefix_inv f size r :
  0 <= f ->
  init_inv f (size / PAGE_SIZE) ((size - f * PAGE_SIZE) / PAGE_SIZE) 0
    (memset0 (f * PAGE_SIZE) ((size - f * PAGE_SIZE) / PAGE_SIZE * PAGE_SIZE / 8) r)
    (init_prefix f size r).
Proof. intros. split; simpl; try done; [zbool|]. intros j. zbool. Qed.

Lemma init_loop_ok f base length r n :
  0 <= f -> 0 <= base + length < 2 ^ 62 -> f * PAGE_SIZE <= base + length ->
  Z.of_nat n <= (base + length) / PAGE_SIZE -> Z.of_nat n <= MAX_PAGES ->
  exists s, for_loop n 0 (init_descriptor (f * PAGE_SIZE)) (init_prefix f (base + length) r)
      = Ret (tt, s) /\
    init_inv f ((base + length) / PAGE_SIZE) ((base + length - f * PAGE_SIZE) / PAGE_SIZE)
      (Z.of_nat n) (memset0 (f * PAGE_SIZE)
        ((base + length - f * PAGE_SIZE) / PAGE_SIZE * PAGE_SIZE / 8) r) s.
Proof.
  intros Hf Hs Hle Hn Hlim.
  apply (for_loop_ind (fun k => init_inv _ _ _ k _)); [by apply init_prefix_inv|].
  intros k t Hk. apply init_descriptor_step; try lia; unfold PAGE_SIZE in *;
    pose proof (Z.div_mod (base + length) 4096);
    pose proof (Z.mod_pos_bound (base + length) 4096); lia.
Qed.

(** [init_physical_memory], run on the zero-initialised globals, builds the
    free list of all pages from [physfree] (page [f]) to the end of memory, in
    ascending order, provided the memory fits the descriptor array. *)
Theorem init_physical_memory_ok f base length r :
  0 <= f -> 0 <= base + length < 2 ^ 62 -> f < (base + length) / PAGE_SIZE <= MAX_PAGES ->
  exists s, init_physical_memory (f * PAGE_SIZE) base length (physmem_boot r) = Ret (tt, s) /\
    alloc_inv s (seqZ f ((base + length) / PAGE_SIZE - f)).
Proof.
  intros Hf Hs Hlim. set (max := (base + length) / PAGE_SIZE) in *.
  assert (f * PAGE_SIZE <= base + length) as Hle.
  { unfold max, PAGE_SIZE in *. pose proof (Z.div_mod (base + length) 4096).
    pose proof (Z.mod_pos_bound (base + length) 4096). lia. }
  destruct (init_loop_ok f base length r (Z.to_nat max)) as (s & Hrun & HI); [done..|lia|lia|].
  exists s. rewrite init_physical_memory_loop by done. split; [done|].
  fold max in HI. replace (Z.of_nat (Z.to_nat max)) with max in HI by lia.
  destruct HI as [Hfl Hpd Hm Hmf Hu Hr]. split.
  - rewrite Hfl. replace (f <? max) with true by (symmetry; zbool).
    replace (max - f) with (Z.of_nat (S (Z.to_nat (max - f - 1)))) by lia.
    rewrite <- (app_nil_r (seqZ _ _)). apply (chain_block _ _ _ None); [done|lia| |done].
    intros i Hi. rewrite Hpd. zbool.
  - apply NoDup_seqZ.
  - unfold get_free_pages_count. rewrite Hmf, Hu, length_seqZ.
    replace (base + length - f * PAGE_SIZE) with (base + length + (- f) * PAGE_SIZE) by lia.
    rewrite Z.div_add by (unfold PAGE_SIZE; lia). fold max.
    rewrite u64_small; unfold MAX_PAGES in *; lia.
Qed.

(** C40: [init_physical_memory] does not check the size of memory against the
    descriptor array: with more than [MAX_PAGES] pages it writes outside it. *)
Theorem init_physical_memory_overflow f base length r :
  0 <= f -> 0 <= base + length < 2 ^ 62 -> f * PAGE_SIZE <= base + length ->
  MAX_PAGES < (base + length) / PAGE_SIZE ->
  init_physical_memory (f * PAGE_SIZE) base length (physmem_boot r) = Fault.
Proof.
  intros Hf Hs Hle Hbig. rewrite init_physical_memory_loop by done.
  set (max := (base + length) / PAGE_SIZE) in *.
  assert (exists lim : nat, MAX_PAGES = Z.of_nat lim) as [lim Hlim].
  { exists (Z.to_nat MAX_PAGES). by rewrite Z2Nat.id. }
  replace (Z.to_nat max) with (lim + S (Z.to_nat (max - MAX_PAGES - 1)))%nat by lia.
  rewrite for_loop_app.
  destruct (init_loop_ok f base length r lim) as (s & Hrun & HI); [done..|lia|lia|].
  rewrite (bind_ret _ _ _ _ _ Hrun). simpl. unfold init_descriptor, gets. mstep.
  unfold read_desc. rewrite <- Hlim. zbool.
Qed.

(** *** What the boot-time [memset] clears *)

Lemma zero_words_lookup n a r k :
  ram_word (zero_words n a r) (a + 8 * k) =
  if (0 <=? k) && (k <? Z.of_nat n) then 0 else ram_word r (a + 8 * k).
Proof.
  revert a r k; induction n as [|n IH]; intros a r k; simpl zero_words; [zbool|].
  replace (a + 8 * k) with (a + 8 + 8 * (k - 1)) at 1 by lia. rewrite IH.
  unfold ram_word. replace (a + 8 + 8 * (k - 1)) with (a + 8 * k) by lia.
  destruct (decide (k = 0)) as [->|Hk].
  - replace (a + 8 * 0) with a by lia. rewrite lookup_insert_eq. zbool.
  - rewrite lookup_insert_ne by lia. zbool.
Qed.

(** the [memset] of [init_physical_memory] passes a number of 64-bit words to a
    function that clears bytes: of the [n] free pages only the first [n * 512]
    bytes (one eighth) are cleared; every other word of RAM keeps its contents. *)
Theorem init_clears_one_eighth f base length r k :
  0 <= f -> 0 <= base + length < 2 ^ 62 -> f < (base + length) / PAGE_SIZE <= MAX_PAGES ->
  0 <= k ->
  exists s, init_physical_memory (f * PAGE_SIZE) base length (physmem_boot r) = Ret (tt, s) /\
    ram_word (ram s) (f * PAGE_SIZE + 8 * k) =
      if 8 * k <? ((base + length) / PAGE_SIZE - f) * PAGE_SIZE / 8 then 0
      else ram_word r (f * PAGE_SIZE + 8 * k).
Proof.
  intros Hf Hs Hlim Hk. set (max := (base + length) / PAGE_SIZE) in *.
  assert (f * PAGE_SIZE <= base + length) as Hle.
  { unfold max, PAGE_SIZE in *. pose proof (Z.div_mod (base + length) 4096).
    pose proof (Z.mod_pos_bound (base + length) 4096). lia. }
  destruct (init_loop_ok f base length r (Z.to_nat max)) as (s & Hrun & HI); [done..|lia|lia|].
  exists s. rewrite init_physical_memory_loop by done. split; [done|].
  rewrite (init_ram _ _ _ _ _ _ HI). unfold memset0. rewrite zero_words_lookup.
  replace (base + length - f * PAGE_SIZE) with (base + length + (- f) * PAGE_SIZE) by lia.
  rewrite Z.div_add by (unfold PAGE_SIZE; lia). fold max.
  replace ((max + - f) * PAGE_SIZE) with ((max - f) * 512 * 8) by (unfold PAGE_SIZE; lia).
  replace ((max - f) * PAGE_SIZE) with ((max - f) * 512 * 8) by (unfold PAGE_SIZE; lia).
  rewrite Z.div_mul by lia. replace ((max - f) * 512) with ((max - f) * 64 * 8) by lia.
  rewrite Z.div_mul by lia.
  rewrite Z2Nat.id by lia. zbool.
Qed.

(** ** Taking several pages at once *)

(** the guard of [get_free_pages] subtracts unsigned numbers: a request for
    more pages than are free wraps around and is granted; the count of free pages
    it leaves is then wrapped as well, so that later guards pass too. *)
Theorem get_free_pages_underflow s p l n :
  alloc_inv s (p :: l) -> Z.of_nat (length (p :: l)) < n < 2 ^ 63 ->
  exists s', get_free_pages n s = Ret (p * PAGE_SIZE, s') /\
    free_list s' = Some (p + n) /\
    get_free_pages_count s' = 2 ^ 64 + Z.of_nat (length (p :: l)) - n.
Proof.
  intros [(Hfl & Hp & nx & Hd & Hc) Hnd Hct] Hn. set (c := Z.of_nat (length (p :: l))) in *.
  assert (u64 (c - n) = 2 ^ 64 + c - n) as Hw.
  { unfold u64. symmetry. apply Z.mod_unique with (q := -1); unfold c in *; lia. }
  eexists. split_and!.
  - unfold get_free_pages, gets, modify. mstep. rewrite Hct, Hw. fold c.
    destruct (Z.ltb_spec (2 ^ 64 + c - n) MIN_PAGES) as [Hlt|_];
      [unfold c, MIN_PAGES in *; lia|].
    rewrite Hfl; simpl. rewrite read_desc_in, Hd by done; simpl. by rewrite page_addr_small.
  - done.
  - unfold get_free_pages_count in *. simpl. rewrite <- Hw, <- Hct. unfold u64.
    rewrite Zminus_mod_idemp_r, Zminus_mod_idemp_l. f_equal. lia.
Qed.

(** ** Witnesses: a machine with 40 pages, free from page 2 *)

Fixpoint chainb (pd : gmap Z physical_page) (hd : option Z) (l : list Z) : bool :=
  match l, hd with
  | [], None => true
  | p :: l', Some q => (p =? q) && (0 <=? p) && (p <? MAX_PAGES) &&
      match pd !! p with
      | Some (PhysicalPage n nx rc) => (n =? p) && (rc =? 0) && chainb pd nx l'
      | None => false
      end
  | _, _ => false
  end.

Lemma chainb_sound pd hd l : chainb pd hd l = true -> chain pd hd l.
Proof.
  revert hd; induction l as [|p l IH]; intros [q|]; simpl; try done.
  destruct (pd !! p) as [[n nx rc]|] eqn:Hd; [|by rewrite andb_false_r].
  rewrite !andb_true_iff. intros (((Hq & H0) & Hm) & ((Hn & Hr) & Hc)).
  apply Z.eqb_eq in Hq as <-, Hn as ->, Hr as ->. split_and!; [done|lia|lia|].
  exists nx. eauto.
Qed.

Definition demo_physmem : physmem :=
  match init_physical_memory 8192 0 163840 (physmem_boot ∅) with
  | Ret (_, s) => s
  | _ => physmem_boot ∅
  end.

Lemma demo_physmem_inv : alloc_inv demo_physmem (seqZ 2 38).
Proof.
  split; [apply chainb_sound; vm_compute; reflexivity|apply NoDup_seqZ|by vm_compute].
Qed.

Lemma get_free_page_refines_witness :
  exists s', get_free_page demo_physmem = Ret (8192, s') /\ alloc_inv s' (seqZ 3 37).
Proof.
  destruct (get_free_page_refines demo_physmem (seqZ 2 38) demo_physmem_inv)
    as (s' & H1 & H2 & _).
  exists s'. split; [exact H1|exact H2].
Defined.

Lemma get_pages_distinct_witness :
  exists pages s', get_pages 5 demo_physmem = Ret (pages, s') /\ NoDup pages.
Proof.
  destruct (get_pages_distinct 5 demo_physmem (seqZ 2 38) demo_physmem_inv)
    as (pages & s' & H1 & _ & H2 & _); [by vm_compute|].
  exists pages, s'. split; [exact H1|exact H2].
Defined.

Lemma add_back_free_pages_refines_witness :
  exists s', add_back_free_pages 4096 1 demo_physmem = Ret (tt, s') /\
    alloc_inv s' (seqZ 1 1 ++ seqZ 2 38).
Proof.
  destruct (add_back_free_pages_refines demo_physmem (seqZ 2 38) 1 0 demo_physmem_inv)
    as (s' & H1 & H2 & _).
  - lia.
  - by vm_compute.
  - intros i Hi. assert (i = 0) as -> by lia. exists (Some 2), 0. split; [reflexivity|lia].
  - intros i Hi. rewrite elem_of_seqZ. lia.
  - exists s'. split; [exact H1|exact H2].
Defined.

Lemma init_physical_memory_ok_witness :
  exists s, init_physical_memory (2 * PAGE_SIZE) 0 163840 (physmem_boot ∅) = Ret (tt, s) /\
    alloc_inv s (seqZ 2 (163840 / PAGE_SIZE - 2)).
Proof. apply (init_physical_memory_ok 2 0 163840 ∅); by vm_compute. Defined.

Lemma init_physical_memory_overflow_witness :
  init_physical_memory (512 * PAGE_SIZE) 1048576 536870912 (physmem_boot ∅) = Fault.
Proof. apply (init_physical_memory_overflow 512 1048576 536870912 ∅); by vm_compute. Defined.

Lemma init_clears_one_eighth_witness :
  exists s, init_physical_memory (2 * PAGE_SIZE) 0 163840 (physmem_boot {[ 40960 := 7 ]})
      = Ret (tt, s) /\ ram_word (ram s) 40960 = 7.
Proof.
  destruct (init_clears_one_eighth 2 0 163840 {[ 40960 := 7 ]} 4096) as (s & H1 & H2);
    [lia|lia|by vm_compute|lia|].
  exists s. split; [exact H1|]. refine (eq_trans H2 _). vm_compute. reflexivity.
Defined.

Lemma get_free_pages_underflow_witness :
  exists s', get_free_pages 1000 demo_physmem = Ret (8192, s') /\ free_list s' = Some 1002.
Proof.
  pose proof demo_physmem_inv as Hinv.
  replace (seqZ 2 38) with (2 :: seqZ 3 37) in Hinv by (vm_compute; reflexivity).
  destruct (get_free_pages_underflow demo_physmem 2 (seqZ 3 37) 1000 Hinv)
    as (s' & H1 & H2 & _); [by vm_compute|].
  exists s'. split; [exact H1|exact H2].
Defined.
