(* ===== verification/Paging.v ===== *)
(** * Page tables and the kernel heap ([sys/paging.c], COW part of [sys/interrupt.c])

    The machine is the physical memory with its allocator ([PhysMem]), the [cr3]
    register and the two globals of [paging.c].  A kernel pointer [p] is a virtual
    address; the kernel reads and writes page tables through its direct map, where
    [kernel_virtual_base + a] denotes the physical word [a].  Accesses through
    other virtual addresses ([memset] in [kfree], [memcpy] in the page-fault
    handler) go through the page tables of [cr3]. *)

From S2P Require Import Prelude PhysMem.

Definition MASK : Z := 0xFFFFFFFFFFFFF000.
Definition GET_FLAGS : Z := 0x0000000000000FFF.
Definition COW_FLAG : Z := 0x0000000000000200.
Definition TURN_OFF_RW : Z := 0xFFFFFFFFFFFFFFFD.
Definition PHYS_VIDEO_MEM : Z := 0xB8000.
Definition PAGING_KERNEL_R_W_FLAGS : Z := 0x3.
Definition PAGING_USER_R_W_FLAGS : Z := 0x7.

Record machine := Machine {
  pm : physmem;
  cr3 : Z;
  kernel_virtual_base : Z;
  pml4_t : Z
}.

Definition set_pm (p : physmem) (m : machine) : machine :=
  Machine p (cr3 m) (kernel_virtual_base m) (pml4_t m).
Definition set_cr3 (x : Z) (m : machine) : machine :=
  Machine (pm m) x (kernel_virtual_base m) (pml4_t m).

(** Calls into [physical_memory.c]. *)
Definition call_pm {A} (c : M physmem A) : M machine A := zoom pm set_pm c.

(** The word at physical address [a]. *)
Definition word (m : machine) (a : Z) : Z := ram_word (ram (pm m)) a.
Definition set_word (a v : Z) (m : machine) : machine :=
  set_pm (set_ram (<[a := v]> (ram (pm m))) (pm m)) m.

(** Loads and stores through the direct map. *)
Definition load64 (p : Z) : M machine Z :=
  gets (fun m => word m (u64 (p - kernel_virtual_base m))).
Definition store64 (p v : Z) : M machine unit :=
  modify (fun m => set_word (u64 (p - kernel_virtual_base m)) v m).

(** [&tbl[i]] for a table of 64-bit entries. *)
Definition entry_ptr (tbl i : Z) : Z := u64 (tbl + 8 * i).

Definition get_cr3 : M machine Z := gets cr3.
Definition set_new_cr3 (cr3_addr : Z) : M machine unit := modify (set_cr3 cr3_addr).
(** The TLB is not modelled: reloading [cr3] with itself changes nothing. *)
Definition flush_tlb : M machine unit := c ← get_cr3; set_new_cr3 c.

(** Index of the table entry for a virtual address at a level of the walk:
    depth 0 is the PML4, depth 3 the page table. *)
Definition table_offset (depth : nat) (virt_addr : Z) : Z :=
  Z.land 0x1FF (Z.shiftr virt_addr (39 - 9 * Z.of_nat depth)).

Definition present (e : Z) : bool := Z.land e 1 =? 1.

#[global] Arguments load64 : simpl never.
#[global] Arguments store64 : simpl never.
#[global] Arguments entry_ptr : simpl never.
#[global] Arguments table_offset : simpl never.
#[global] Arguments call_pm : simpl never.

(** One level of [setup_page_tables]/[update_page_tables]: follow the entry [i]
    of [tbl], allocating the next table when it is absent, and rewrite the entry
    with [flags].  Returns the physical address of the next table. *)
Definition next_table (tbl i flags : Z) : M machine Z :=
  e ← load64 (entry_ptr tbl i);
  t ← (if present e then mret (Z.land e MASK) else call_pm get_free_page);
  store64 (entry_ptr tbl i) (Z.lor t flags) ≫= fun _ => mret t.

(** The common body of [setup_page_tables] and [update_page_tables], which differ
    in where they find the PML4. *)
Definition map_page (pml4 virt_addr physical_addr flags : Z) : M machine unit :=
  kvb ← gets kernel_virtual_base;
  pdpe ← next_table pml4 (table_offset 0 virt_addr) flags;
  let pdpe_t := u64 (kvb + pdpe) in
  pde ← next_table pdpe_t (table_offset 1 virt_addr) flags;
  let pde_t := u64 (kvb + pde) in
  pte ← next_table pde_t (table_offset 2 virt_addr) flags;
  let pte_t := u64 (kvb + pte) in
  store64 (entry_ptr pte_t (table_offset 3 virt_addr)) (Z.lor physical_addr flags).

Definition setup_page_tables (virt_addr physical_addr flags : Z) : M machine unit :=
  pml4 ← gets pml4_t; map_page pml4 virt_addr physical_addr flags.

Definition update_page_tables (virt_addr physical_addr flags : Z) : M machine unit :=
  c ← get_cr3; kvb ← gets kernel_virtual_base;
  map_page (u64 (c + kvb)) virt_addr physical_addr flags.

Definition setup_user_page_tables : M machine Z :=
  page ← call_pm get_free_page;
  kvb ← gets kernel_virtual_base; c ← get_cr3;
  let user_pml4 := u64 (page + kvb) in
  let current_pml4 := u64 (c + kvb) in
  e ← load64 (entry_ptr current_pml4 511);
  store64 (entry_ptr user_pml4 511) e ≫= fun _ => mret page.

(** Follow one present entry of a table; [None] when it is absent. *)
Definition follow (tbl i : Z) : M machine (option Z) :=
  e ← load64 (entry_ptr tbl i);
  mret (if present e then Some (Z.land e MASK) else None).

(** Address of the last-level entry of [virt_addr], when all levels are present. *)
Definition find_pte (virt_addr : Z) : M machine (option Z) :=
  c ← get_cr3; kvb ← gets kernel_virtual_base;
  t1 ← follow (u64 (c + kvb)) (table_offset 0 virt_addr);
  match t1 with None => mret None | Some pdpe =>
  t2 ← follow (u64 (kvb + pdpe)) (table_offset 1 virt_addr);
  match t2 with None => mret None | Some pde =>
  t3 ← follow (u64 (kvb + pde)) (table_offset 2 virt_addr);
  match t3 with None => mret None | Some pte =>
  mret (Some (entry_ptr (u64 (kvb + pte)) (table_offset 3 virt_addr)))
  end end end.

Definition walk_page_table (virt_addr : Z) : M machine Z :=
  o ← find_pte virt_addr;
  match o with None => mret 0 | Some p => e ← load64 p; mret (Z.land e MASK) end.

Definition get_flags (virt_addr : Z) : M machine Z :=
  o ← find_pte virt_addr;
  match o with None => mret 0 | Some p => e ← load64 p; mret (Z.land e GET_FLAGS) end.

Definition remove_page_table_mapping (virt_addr : Z) : M machine unit :=
  o ← find_pte virt_addr;
  match o with None => mret tt | Some p => store64 p 0 end.

(** [init_paging]: the loop maps memory page by page while [p_i] is below a bound
    that shrinks with every table allocated; the fuel is its initial distance. *)
Fixpoint init_paging_loop (fuel : nat) (physfree v_i p_i : Z) : M machine unit :=
  count ← gets (fun m => get_free_pages_count (pm m));
  if p_i <? u64 (physfree + count * PAGE_SIZE) then
    match fuel with
    | O => mfuel
    | S f => setup_page_tables v_i p_i PAGING_KERNEL_R_W_FLAGS ≫= fun _ =>
             init_paging_loop f physfree (u64 (v_i + PAGE_SIZE)) (u64 (p_i + PAGE_SIZE))
    end
  else mret tt.

Definition init_paging (kernmem physbase physfree : Z) : M machine unit :=
  cr3_addr ← call_pm get_free_page;
  modify (fun m => let kvb := u64 (kernmem - physbase) in
            Machine (pm m) (cr3 m) kvb (u64 (kvb + cr3_addr))) ≫= fun _ =>
  count ← gets (fun m => get_free_pages_count (pm m));
  let fuel := Z.to_nat (physfree / PAGE_SIZE + count + 1) in
  init_paging_loop fuel physfree kernmem physbase ≫= fun _ =>
  kvb ← gets kernel_virtual_base;
  setup_page_tables (u64 (kvb + PHYS_VIDEO_MEM)) PHYS_VIDEO_MEM PAGING_KERNEL_R_W_FLAGS ≫= fun _ =>
  set_new_cr3 cr3_addr.

(** [kmalloc]: the loop carries [allocated_addr]. *)
Fixpoint kmalloc_loop (n : nat) (i allocated_addr : Z) : M machine Z :=
  match n with
  | O => mret allocated_addr
  | S n' =>
      ph_addr ← call_pm get_free_page;
      let allocated_addr := if i =? 0 then ph_addr else allocated_addr in
      kvb ← gets kernel_virtual_base;
      update_page_tables (u64 (kvb + allocated_addr + u32 (i * PAGE_SIZE))) ph_addr
        PAGING_KERNEL_R_W_FLAGS ≫= fun _ =>
      kmalloc_loop n' (i + 1) allocated_addr
  end.

Definition pages_for (bytes_required : Z) : Z :=
  if bytes_required mod PAGE_SIZE =? 0 then bytes_required / PAGE_SIZE
  else bytes_required / PAGE_SIZE + 1.

Definition kmalloc (bytes_required : Z) : M machine Z :=
  let no_of_pages := pages_for bytes_required in
  allocated_addr ← kmalloc_loop (Z.to_nat no_of_pages) 0 0;
  kvb ← gets kernel_virtual_base; mret (u64 (kvb + allocated_addr)).

(** An access through the page tables of [cr3] to an 8-aligned virtual address;
    an unmapped page is a fault. *)
Definition translate (va : Z) : M machine Z :=
  page ← walk_page_table va;
  if page =? 0 then mfault else mret (page + va mod PAGE_SIZE).

Definition memset0_va (ptr bytes : Z) : M machine unit :=
  for_loop (Z.to_nat (bytes / 8)) 0 (fun i =>
    a ← translate (u64 (ptr + 8 * i)); modify (set_word a 0)).

Definition memcpy_va (dest src bytes : Z) : M machine unit :=
  for_loop (Z.to_nat (bytes / 8)) 0 (fun i =>
    s ← translate (u64 (src + 8 * i)); v ← gets (fun m => word m s);
    d ← translate (u64 (dest + 8 * i)); modify (set_word d v)).

Definition kfree (ptr : Z) : M machine unit :=
  phy_addr ← walk_page_table ptr;
  if phy_addr =? 0 then mret tt else
  rc ← call_pm (get_page_ref_count phy_addr);
  if 0 <? rc then mret tt else
  memset0_va ptr PAGE_SIZE ≫= fun _ =>
  call_pm (add_back_free_pages phy_addr 1) ≫= fun _ =>
  call_pm (update_max_pages 1) ≫= fun _ =>
  remove_page_table_mapping ptr ≫= fun _ =>
  flush_tlb.

(** ** Giving pages to a process *)

(** [update_page_tables(va, get_free_page(), flags)]. *)
Definition map_fresh_page (flags va : Z) : M machine unit :=
  a ← call_pm get_free_page; update_page_tables va a flags.

(** The same for a sequence of pages. *)
Fixpoint map_fresh (flags : Z) (vas : list Z) : M machine unit :=
  match vas with [] => mret tt | va :: r => map_fresh_page flags va ≫= fun _ => map_fresh flags r end.

(** ** Copy-on-write: [cow_page_tables], its four nested loops *)

Definition cow_pte_entry (child_pte parent_pte l : Z) : M machine unit :=
  e ← load64 (entry_ptr parent_pte l);
  if present e then
    store64 (entry_ptr parent_pte l) (Z.land e TURN_OFF_RW) ≫= fun _ =>
    e1 ← load64 (entry_ptr parent_pte l);
    store64 (entry_ptr parent_pte l) (Z.lor e1 COW_FLAG) ≫= fun _ =>
    e2 ← load64 (entry_ptr parent_pte l);
    store64 (entry_ptr child_pte l) e2 ≫= fun _ =>
    let physical_addr := Z.land e2 MASK in
    rc ← call_pm (get_page_ref_count physical_addr);
    if rc =? 1 then call_pm (set_page_ref_count physical_addr 2) else mret tt
  else mret tt.

(** One entry of an upper-level table: a fresh child table with the parent's flags,
    filled by [body child_table parent_table]. *)
Definition cow_table_entry (child parent i : Z) (body : Z -> Z -> M machine unit) : M machine unit :=
  e ← load64 (entry_ptr parent i);
  if present e then
    t ← call_pm get_free_page;
    e1 ← load64 (entry_ptr parent i);
    store64 (entry_ptr child i) (Z.lor t (Z.land e1 GET_FLAGS)) ≫= fun _ =>
    kvb ← gets kernel_virtual_base;
    e2 ← load64 (entry_ptr parent i);
    body (u64 (kvb + t)) (u64 (kvb + Z.land e2 MASK))
  else mret tt.

Definition cow_pte_loop (child_pte parent_pte : Z) : M machine unit :=
  for_loop 512 0 (cow_pte_entry child_pte parent_pte).
Definition cow_pde_loop (child_pde parent_pde : Z) : M machine unit :=
  for_loop 512 0 (fun k => cow_table_entry child_pde parent_pde k cow_pte_loop).
Definition cow_pdpe_loop (child_pdpe parent_pdpe : Z) : M machine unit :=
  for_loop 512 0 (fun j => cow_table_entry child_pdpe parent_pdpe j cow_pde_loop).

Definition cow_page_tables : M machine Z :=
  child_cr3 ← call_pm get_free_page;
  kvb ← gets kernel_virtual_base; c ← get_cr3;
  let child_pml4 := u64 (child_cr3 + kvb) in
  let parent_pml4 := u64 (c + kvb) in
  e ← load64 (entry_ptr parent_pml4 511);
  store64 (entry_ptr child_pml4 511) e ≫= fun _ =>
  for_loop 511 0 (fun i => cow_table_entry child_pml4 parent_pml4 i cow_pdpe_loop) ≫= fun _ =>
  mret child_cr3.

(** ** [clean_page_tables]: free the tables of an address space, leaves first *)

Definition clean_entry (tbl i : Z) (body : Z -> M machine unit) : M machine unit :=
  e ← load64 (entry_ptr tbl i);
  if present e then
    kvb ← gets kernel_virtual_base;
    let t := u64 (kvb + Z.land e MASK) in
    body t ≫= fun _ => kfree t
  else mret tt.

Definition clean_page_tables (root : Z) : M machine unit :=
  kvb ← gets kernel_virtual_base;
  let pml4 := u64 (root + kvb) in
  for_loop 512 0 (fun i => clean_entry pml4 i (fun pdpe =>
    for_loop 512 0 (fun j => clean_entry pdpe j (fun pde =>
      for_loop 512 0 (fun k => clean_entry pde k (fun _ => mret tt)))))) ≫= fun _ =>
  kfree pml4.

(** ** The copy-on-write branch of [page_fault_handler]

    Returns whether the fault was a copy-on-write fault (and was handled). *)
Definition page_fault_cow (fault_addr : Z) : M machine bool :=
  let addr := fault_addr / PAGE_SIZE * PAGE_SIZE in
  flags ← get_flags addr;
  if Z.land (Z.shiftr flags 9) 1 =? 1 then
    physical_addr ← walk_page_table addr;
    rc ← call_pm (get_page_ref_count physical_addr);
    (if rc =? 2 then
       v_page ← kmalloc PAGE_SIZE;
       p_page ← walk_page_table v_page;
       memcpy_va v_page addr PAGE_SIZE ≫= fun _ =>
       update_page_tables addr p_page PAGING_USER_R_W_FLAGS ≫= fun _ =>
       call_pm (set_page_ref_count physical_addr 1)
     else
       rc' ← call_pm (get_page_ref_count physical_addr);
       if rc' =? 1 then update_page_tables addr physical_addr PAGING_USER_R_W_FLAGS
       else mret tt) ≫= fun _ =>
    flush_tlb ≫= fun _ => mret true
  else mret false.
