(* ===== verification/PageTable.v ===== *)
(** * Theory of four-level page tables in physical memory

    The abstract view of an address space: [pte r root va] is the last-level entry
    that the walk of [va] from the table at [root] finds in the memory [r] (0 when a
    level is missing).  [separated] says that no table entry serves two purposes;
    the lemmas say what writing one entry does to the walks of all addresses in
    all address spaces. *)

From S2P Require Import Prelude PhysMem Paging.

(** ** Masks and flags *)

Lemma present_testbit e : present e = Z.testbit e 0.
Proof.
  unfold present. change 1 with (Z.ones 1) at 1. rewrite Z.land_ones by lia.
  change (2 ^ 1) with 2. rewrite <- Z.bit0_mod. by destruct (Z.testbit e 0).
Qed.

Lemma mask_testbit n : Z.testbit MASK n = (12 <=? n) && (n <? 64).
Proof.
  change MASK with (Z.shiftl (Z.ones 52) 12).
  destruct (Z.ltb_spec n 0); [rewrite Z.testbit_neg_r by done; zbool|].
  rewrite Z.shiftl_spec by done. destruct (Z.leb_spec 12 n).
  - rewrite Z.testbit_ones_nonneg by lia. zbool.
  - rewrite Z.testbit_neg_r by lia. done.
Qed.

Lemma aligned_testbit t n : t mod 4096 = 0 -> n < 12 -> Z.testbit t n = false.
Proof.
  intros Ht Hn. destruct (Z.ltb_spec n 0); [by apply Z.testbit_neg_r|].
  rewrite (Z.div_mod t 4096), Ht, Z.add_0_r by lia.
  change 4096 with (2 ^ 12). rewrite Z.mul_comm. by rewrite Z.mul_pow2_bits_low by lia.
Qed.

Lemma bounded_testbit x k n : 0 <= x < 2 ^ k -> 0 <= k <= n -> Z.testbit x n = false.
Proof.
  intros Hx Hn. rewrite <- (Z.mod_small x (2 ^ k)) by done. by apply Z.mod_pow2_bits_high.
Qed.

Lemma land_mask_aligned e : Z.land e MASK mod 4096 = 0.
Proof.
  change 4096 with (2 ^ 12). rewrite <- Z.land_ones by lia.
  apply Z.bits_inj'. intros n Hn. rewrite !Z.land_spec, mask_testbit, Z.bits_0.
  destruct (Z.leb_spec 12 n); simpl; [|by rewrite andb_false_r].
  rewrite Z.testbit_ones_nonneg by lia.
  destruct (Z.ltb_spec n 12); [lia|]. by rewrite !andb_false_r.
Qed.

Lemma land_mask_range e : 0 <= Z.land e MASK <= MASK.
Proof.
  assert (0 <= Z.land e MASK) as H0 by (apply Z.land_nonneg; right; done).
  split; [done|].
  destruct (Z.eq_dec (Z.land e MASK) 0) as [->|Hne]; [done|].
  assert (Z.land e MASK < 2 ^ 64) as Hlt.
  { apply Z.log2_lt_pow2; [lia|]. eapply Z.le_lt_trans; [apply Z.log2_le_mono|].
    - apply Z.le_refl.
    - destruct (Z.ltb_spec (Z.log2 (Z.land e MASK)) 64) as [|Hge]; [done|].
      pose proof (Z.bit_log2 (Z.land e MASK)) as Hb. rewrite Z.land_spec, mask_testbit in Hb.
      destruct (Z.ltb_spec (Z.log2 (Z.land e MASK)) 64); [lia|].
      rewrite !andb_false_r in Hb. specialize (Hb ltac:(lia)). done. }
  pose proof (land_mask_aligned e) as Hal.
  pose proof (Z.div_mod (Z.land e MASK) 4096). unfold MASK in *. lia.
Qed.

Section entry.
Context (t flags : Z).
Context (Ht : t mod 4096 = 0) (Ht64 : 0 <= t < 2 ^ 64) (Hf : 0 <= flags < 4096).

Lemma entry_mask : Z.land (Z.lor t flags) MASK = t.
Proof.
  apply Z.bits_inj'. intros n Hn. rewrite Z.land_spec, Z.lor_spec, mask_testbit.
  destruct (Z.leb_spec 12 n).
  - rewrite (bounded_testbit flags 12), orb_false_r by lia. simpl.
    destruct (Z.ltb_spec n 64); [by rewrite andb_true_r|].
    rewrite (bounded_testbit t 64) by lia. done.
  - rewrite (aligned_testbit t) by done. by rewrite andb_false_r.
Qed.

Lemma entry_flags : Z.land (Z.lor t flags) GET_FLAGS = flags.
Proof.
  change GET_FLAGS with (Z.ones 12). apply Z.bits_inj'. intros n Hn.
  rewrite Z.land_spec, Z.lor_spec, Z.testbit_ones_nonneg by lia.
  destruct (Z.ltb_spec n 12).
  - by rewrite (aligned_testbit t), andb_true_r by done.
  - by rewrite (bounded_testbit flags 12), andb_false_r by lia.
Qed.

Lemma entry_present : Z.testbit flags 0 = true -> present (Z.lor t flags) = true.
Proof. intros H. by rewrite present_testbit, Z.lor_spec, H, orb_true_r. Qed.
End entry.

Lemma table_offset_range d va : 0 <= table_offset d va < 512.
Proof.
  unfold table_offset. rewrite Z.land_comm. change 0x1FF with (Z.ones 9).
  rewrite Z.land_ones by lia. apply Z.mod_pos_bound. lia.
Qed.

(** ** Walks *)

Fixpoint table_at (r : gmap Z Z) (root va : Z) (d : nat) : option Z :=
  match d with
  | O => Some root
  | S d' =>
      match table_at r root va d' with
      | Some t => let e := ram_word r (t + 8 * table_offset d' va) in
                  if present e then Some (Z.land e MASK) else None
      | None => None
      end
  end.

(** The physical address of the entry used for [va] at depth [d]. *)
Definition slot (r : gmap Z Z) (root va : Z) (d : nat) : option Z :=
  (fun t => t + 8 * table_offset d va) <$> table_at r root va d.

Definition pte (r : gmap Z Z) (root va : Z) : Z :=
  match slot r root va 3 with Some a => ram_word r a | None => 0 end.

Definition aligned (a : Z) : Prop := 0 <= a <= MASK /\ a mod 4096 = 0.

Lemma table_at_aligned r root va d t :
  aligned root -> table_at r root va d = Some t -> aligned t.
Proof.
  intros Hr. destruct d as [|d]; simpl; [by intros [= <-]|].
  destruct (table_at r root va d) as [u|]; [|done].
  destruct (present _); [|done]. intros [= <-].
  split; [apply land_mask_range|apply land_mask_aligned].
Qed.

(** The addresses with the same indices down to depth [d]. *)
Definition agree (d : nat) (va va' : Z) : Prop :=
  forall i, (i <= d)%nat -> table_offset i va = table_offset i va'.

Definition vpn (va : Z) : Z * Z * Z * Z :=
  (table_offset 0 va, table_offset 1 va, table_offset 2 va, table_offset 3 va).

Lemma agree_vpn va va' : agree 3 va va' <-> vpn va = vpn va'.
Proof.
  unfold agree, vpn. split.
  - intros H. by rewrite (H 0%nat), (H 1%nat), (H 2%nat), (H 3%nat) by lia.
  - intros [= H0 H1 H2 H3] i Hi. do 4 (destruct i as [|i]; [done|]). lia.
Qed.

Lemma table_at_agree r root va va' d :
  (forall i, (i < d)%nat -> table_offset i va = table_offset i va') ->
  table_at r root va d = table_at r root va' d.
Proof.
  induction d as [|d IH]; intros H; [done|]. simpl.
  rewrite IH by (intros; apply H; lia). destruct (table_at r root va' d); [|done].
  by rewrite H by lia.
Qed.

Lemma slot_agree r root va va' d : agree d va va' -> slot r root va d = slot r root va' d.
Proof.
  intros H. unfold slot. rewrite (table_at_agree _ _ va va').
  - by rewrite (H d).
  - intros i Hi. apply H. lia.
Qed.

(** ** Separation of the tables of a set of address spaces

    Two walks that meet at an entry are at the same depth and agree on the indices
    down to it, in the same address space or below the shared kernel entry 511. *)
Definition separated (r : gmap Z Z) (roots : list Z) : Prop :=
  forall r1 r2 va1 va2 d1 d2 a,
    r1 ∈ roots -> r2 ∈ roots -> (d1 <= 3)%nat -> (d2 <= 3)%nat ->
    slot r r1 va1 d1 = Some a -> slot r r2 va2 d2 = Some a ->
    d1 = d2 /\ agree d1 va1 va2 /\
    (r1 = r2 \/ (d1 <> O /\ table_offset 0 va1 = 511)).

(** Page [p] holds no table of the address spaces. *)
Definition unused_frame (r : gmap Z Z) (roots : list Z) (p : Z) : Prop :=
  forall root va d a, root ∈ roots -> (d <= 3)%nat ->
    slot r root va d = Some a -> a / 4096 <> p.

Definition zero_frame (r : gmap Z Z) (p : Z) : Prop :=
  forall i, 0 <= i < 512 -> ram_word r (p * 4096 + 8 * i) = 0.

Lemma frame_of_word p i : 0 <= i < 512 -> (p * 4096 + 8 * i) / 4096 = p.
Proof. intros Hi. rewrite Z.div_add_l by lia. rewrite Z.div_small by lia. lia. Qed.

Lemma ram_word_insert r a v b :
  ram_word (<[a := v]> r) b = if decide (a = b) then v else ram_word r b.
Proof. unfold ram_word. rewrite lookup_insert. by case_decide. Qed.

(** A walk that does not read [a] is not affected by a write to [a]. *)
Lemma table_at_frame r root va d a v :
  (forall i, (i < d)%nat -> slot r root va i <> Some a) ->
  table_at (<[a := v]> r) root va d = table_at r root va d.
Proof.
  induction d as [|d IH]; intros H; [done|]. simpl.
  rewrite IH by (intros; apply H; lia).
  destruct (table_at r root va d) as [t|] eqn:Ht; [|done].
  rewrite ram_word_insert. case_decide as Ha; [|done].
  exfalso. apply (H d); [lia|]. unfold slot. by rewrite Ht, Ha.
Qed.

(** Rewriting the flags of an upper-level entry does not change any walk. *)
Lemma table_at_reflag r root va d a v :
  present (ram_word r a) = true -> present v = true ->
  Z.land v MASK = Z.land (ram_word r a) MASK ->
  table_at (<[a := v]> r) root va d = table_at r root va d.
Proof.
  intros Hp Hv Hm. induction d as [|d IH]; [done|]. simpl. rewrite IH.
  destruct (table_at r root va d) as [t|]; [|done].
  rewrite ram_word_insert. case_decide as Ha; [|done]. subst a. by rewrite Hp, Hv, Hm.
Qed.

(** ** Installing a fresh table *)

Section install.
Context (r : gmap Z Z) (roots : list Z) (root va : Z) (d : nat) (a p v : Z).
Context (Hsep : separated r roots) (Hroot : root ∈ roots).
Context (Hroots : forall x, x ∈ roots -> aligned x).
Context (Hd : (d < 3)%nat) (Hslot : slot r root va d = Some a).
Context (Habsent : present (ram_word r a) = false).
Context (Hunused : unused_frame r roots p) (Hzero : zero_frame r p).
Context (Hv : present v = true) (Hvm : Z.land v MASK = p * 4096).

Let r' := <[a := v]> r.

(** Walks that do not pass through the written entry keep their tables. *)
Lemma install_other root' va' d' :
  root' ∈ roots -> (d' <= 3)%nat -> (d' <= d)%nat \/ slot r root' va' d <> Some a ->
  table_at r' root' va' d' = table_at r root' va' d'.
Proof.
  intros Hr Hd' Hor. apply table_at_frame. intros i Hi Hs.
  destruct (Hsep root' root va' va i d a) as (Heq & _ & _); [done|done|lia|lia|done|done|].
  subst i. destruct Hor as [Hle|Hne]; [lia|done].
Qed.

Lemma new_frame_word i : 0 <= i < 512 -> ram_word r' (p * 4096 + 8 * i) = 0.
Proof.
  intros Hi. unfold r'. rewrite ram_word_insert. case_decide as Ha; [|by apply Hzero].
  exfalso. apply (Hunused root va d a Hroot); [lia|done|]. subst a. by apply frame_of_word.
Qed.

(** Walks through the written entry reach the new, empty table. *)
Lemma install_through root' va' d' :
  root' ∈ roots -> (d < d' <= 3)%nat -> slot r root' va' d = Some a ->
  table_at r' root' va' d' = if decide (d' = S d) then Some (p * 4096) else None.
Proof.
  intros Hr Hd' Hs.
  assert (table_at r' root' va' (S d) = Some (p * 4096)) as Hnext.
  { simpl. rewrite install_other by (try done; lia).
    unfold slot in Hs. destruct (table_at r root' va' d) as [t|]; [|done].
    injection Hs as Hs. simpl. rewrite Hs. unfold r'. rewrite ram_word_insert.
    rewrite decide_True by done. by rewrite Hv, Hvm. }
  induction d' as [|d' IH]; [lia|]. destruct (decide (S d' = S d)) as [->|Hne]; [done|].
  assert (table_at r' root' va' d' = if decide (d' = S d) then Some (p * 4096) else None) as Ht
    by (apply IH; lia).
  simpl. rewrite Ht. case_decide as Hdd; [|done].
  rewrite new_frame_word by apply table_offset_range. done.
Qed.

Lemma install_slot_cases root' va' d' b :
  root' ∈ roots -> (d' <= 3)%nat -> slot r' root' va' d' = Some b ->
  slot r root' va' d' = Some b \/
  (d' = S d /\ slot r root' va' d = Some a /\ b = p * 4096 + 8 * table_offset d' va').
Proof.
  intros Hr Hd'. unfold slot at 1.
  destruct (decide ((d < d')%nat /\ slot r root' va' d = Some a)) as [[Hlt Hs]|Hno].
  - rewrite install_through by (try done; lia). case_decide; [|done].
    intros [= <-]. by right.
  - rewrite install_other; [by left|done|done|].
    destruct (decide (d < d')%nat); [right; tauto|left; lia].
Qed.

Lemma new_slot_frame i : 0 <= i < 512 -> (p * 4096 + 8 * i) / 4096 = p.
Proof. apply frame_of_word. Qed.

Lemma install_separated : separated r' roots.
Proof.
  intros r1 r2 va1 va2 d1 d2 b H1 H2 Hd1 Hd2 Hs1 Hs2.
  destruct (install_slot_cases _ _ _ _ H1 Hd1 Hs1) as [Ho1|(-> & Hn1 & Hb1)];
  destruct (install_slot_cases _ _ _ _ H2 Hd2 Hs2) as [Ho2|(-> & Hn2 & Hb2)].
  - by apply (Hsep r1 r2 va1 va2 d1 d2 b).
  - exfalso. apply (Hunused r1 va1 d1 b); [done..|]. subst b. apply new_slot_frame, table_offset_range.
  - exfalso. apply (Hunused r2 va2 d2 b); [done..|]. subst b. apply new_slot_frame, table_offset_range.
  - destruct (Hsep r1 r2 va1 va2 d d a) as (_ & Hag & Hor); [done|done|lia|lia|done|done|].
    split_and!; [done| |].
    + intros i Hi. destruct (decide (i = S d)) as [->|]; [lia|apply Hag; lia].
    + destruct Hor as [->|[Hd0 H511]]; [by left|right]. done.
Qed.

(** The new table is empty: no address gains or loses a page. *)
Lemma install_pte root' va' : root' ∈ roots -> pte r' root' va' = pte r root' va'.
Proof.
  intros Hr. unfold pte, slot.
  destruct (decide (slot r root' va' d = Some a)) as [Hs|Hno].
  - rewrite install_through by (try done; lia).
    assert (table_at r root' va' (S d) = None) as Hnone.
    { simpl. unfold slot in Hs. destruct (table_at r root' va' d) as [t|]; [|done].
      injection Hs as Hs. rewrite Hs. by rewrite Habsent. }
    assert (table_at r root' va' 3 = None) as ->.
    { clear -Hnone Hd. assert (exists k, 3 = k + S d)%nat as [k ->] by (exists (3 - S d)%nat; lia).
      induction k as [|k IH]; [done|]. simpl. by rewrite IH. }
    simpl. case_decide; [|done]. simpl.
    apply new_frame_word, table_offset_range.
  - rewrite install_other by (try lia; auto).
    destruct (table_at r root' va' 3) as [t|] eqn:Ht; [|done]. simpl.
    unfold r'. rewrite ram_word_insert. case_decide as Ha; [|done].
    exfalso. destruct (Hsep root' root va' va 3%nat d a) as (Heq & _); [done|done|lia|lia| |done|lia].
    unfold slot. rewrite Ht, Ha. done.
Qed.


(** Pages that hold no table keep their contents. *)
Lemma install_data q :
  q <> p -> unused_frame r roots q ->
  unused_frame r' roots q /\
  (forall i, 0 <= i < 512 -> ram_word r' (q * 4096 + 8 * i) = ram_word r (q * 4096 + 8 * i)).
Proof.
  intros Hne Hq. split.
  - intros root' va' d' b Hr Hd' Hb.
    destruct (install_slot_cases _ _ _ _ Hr Hd' Hb) as [Ho|(-> & Hs & ->)]; [by eapply Hq|].
    rewrite new_slot_frame by apply table_offset_range. done.
  - intros i Hi. unfold r'. rewrite ram_word_insert. case_decide as Ha; [|done].
    exfalso. apply (Hq root va d a Hroot); [lia|done|]. subst a. by apply frame_of_word.
Qed.

Lemma install_frames q :
  q <> p -> unused_frame r roots q -> zero_frame r q ->
  unused_frame r' roots q /\ zero_frame r' q.
Proof.
  intros Hne Hq Hz. destruct (install_data q Hne Hq) as [Hu Hw].
  split; [done|]. intros i Hi. rewrite Hw by done. by apply Hz.
Qed.
End install.

(** ** Writes that keep all the tables in place *)

Section same_tables.
Context (r : gmap Z Z) (roots : list Z) (root va : Z) (d : nat) (a v : Z).
Context (Hsep : separated r roots) (Hroot : root ∈ roots) (Hd : (d <= 3)%nat).
Context (Hslot : slot r root va d = Some a).

Let r' := <[a := v]> r.

Context (Htables : forall root' va' d', root' ∈ roots -> (d' <= 3)%nat ->
  table_at r' root' va' d' = table_at r root' va' d').

Lemma same_slot root' va' d' :
  root' ∈ roots -> (d' <= 3)%nat -> slot r' root' va' d' = slot r root' va' d'.
Proof. intros. unfold slot. by rewrite Htables. Qed.

Lemma same_separated : separated r' roots.
Proof.
  intros r1 r2 va1 va2 d1 d2 b H1 H2 Hd1 Hd2. rewrite !same_slot by done. by apply Hsep.
Qed.

Lemma same_data q :
  unused_frame r roots q ->
  unused_frame r' roots q /\
  (forall i, 0 <= i < 512 -> ram_word r' (q * 4096 + 8 * i) = ram_word r (q * 4096 + 8 * i)).
Proof.
  intros Hq. split.
  - intros root' va' d' b Hr Hd'. rewrite same_slot by done. by apply Hq.
  - intros i Hi. unfold r'. rewrite ram_word_insert. case_decide as Ha; [|done].
    exfalso. apply (Hq root va d a Hroot Hd Hslot). subst a. by apply frame_of_word.
Qed.

Lemma same_frames q :
  unused_frame r roots q -> zero_frame r q -> unused_frame r' roots q /\ zero_frame r' q.
Proof.
  intros Hq Hz. destruct (same_data q Hq) as [Hu Hw].
  split; [done|]. intros i Hi. rewrite Hw by done. by apply Hz.
Qed.

(** An upper-level write changes no page; a leaf write changes the pages whose
    walk ends at the written entry. *)
Lemma same_pte root' va' :
  root' ∈ roots ->
  pte r' root' va' = if decide (slot r root' va' 3 = Some a) then v else pte r root' va'.
Proof.
  intros Hr. unfold pte. rewrite same_slot by (done || lia).
  destruct (slot r root' va' 3) as [b|] eqn:Hb; [|by rewrite decide_False].
  unfold r'. rewrite ram_word_insert.
  destruct (decide (a = b)) as [->|Hne]; [by rewrite decide_True|].
  rewrite decide_False by congruence. done.
Qed.
End same_tables.

(** A leaf entry is not read by any walk above the last level. *)
Lemma leaf_tables r roots root va a v root' va' d' :
  separated r roots -> root ∈ roots -> slot r root va 3 = Some a ->
  root' ∈ roots -> (d' <= 3)%nat ->
  table_at (<[a := v]> r) root' va' d' = table_at r root' va' d'.
Proof.
  intros Hsep Hroot Hslot Hr Hd'. apply table_at_frame. intros i Hi Hs.
  destruct (Hsep root' root va' va i 3%nat a) as (Heq & _); [done|done|lia|lia|done|done|lia].
Qed.

Lemma upper_slot r roots root va d a root' va' :
  separated r roots -> root ∈ roots -> (d < 3)%nat -> slot r root va d = Some a ->
  root' ∈ roots -> slot r root' va' 3 <> Some a.
Proof.
  intros Hsep Hroot Hd Hslot Hr Hs.
  destruct (Hsep root' root va' va 3%nat d a) as (Heq & _); [done|done|lia|lia|done|done|lia].
Qed.

(** ** The invariant of a set of address spaces

    [l] is the free list: its pages hold no table, and are zero. *)
Record spaces_inv (m : machine) (roots : list Z) (l : list Z) : Prop := {
  sp_alloc : alloc_inv (pm m) l;
  sp_sep : separated (ram (pm m)) roots;
  sp_roots : forall x, x ∈ roots -> aligned x;
  sp_free : forall p, p ∈ l -> unused_frame (ram (pm m)) roots p /\ zero_frame (ram (pm m)) p
}.

(** From memory [r] to memory [r'], pages outside [l] that hold no table still
    hold none and keep their contents. *)
Definition data_kept (roots l : list Z) (r r' : gmap Z Z) : Prop :=
  forall q, q ∉ l -> unused_frame r roots q ->
    unused_frame r' roots q /\
    (forall i, 0 <= i < 512 -> ram_word r' (q * 4096 + 8 * i) = ram_word r (q * 4096 + 8 * i)).

Lemma data_kept_trans roots l1 l2 r1 r2 r3 :
  (forall q, q ∈ l2 -> q ∈ l1) ->
  data_kept roots l1 r1 r2 -> data_kept roots l2 r2 r3 -> data_kept roots l1 r1 r3.
Proof.
  intros Hsub H12 H23 q Hq Hu. destruct (H12 q Hq Hu) as [Hu2 Hw2].
  destruct (H23 q) as [Hu3 Hw3]; [auto|done|]. split; [done|].
  intros i Hi. by rewrite Hw3, Hw2.
Qed.

(** ** Direct-map accesses *)

Lemma direct_ptr kvb t i :
  aligned t -> 0 <= i < 512 -> u64 (entry_ptr (u64 (kvb + t)) i - kvb) = t + 8 * i.
Proof.
  intros [Ht _] Hi. unfold entry_ptr, u64. rewrite Zplus_mod_idemp_l, Zminus_mod_idemp_l.
  replace (kvb + t + 8 * i - kvb) with (t + 8 * i) by lia.
  apply Z.mod_small. unfold MASK in Ht. lia.
Qed.

Lemma load64_table m t d va :
  aligned t ->
  load64 (entry_ptr (u64 (kernel_virtual_base m + t)) (table_offset d va)) m =
  Ret (word m (t + 8 * table_offset d va), m).
Proof.
  intros Ht. unfold load64, gets. by rewrite direct_ptr by (done || apply table_offset_range).
Qed.

Lemma store64_table m t d va v :
  aligned t ->
  store64 (entry_ptr (u64 (kernel_virtual_base m + t)) (table_offset d va)) v m =
  Ret (tt, set_word (t + 8 * table_offset d va) v m).
Proof.
  intros Ht. unfold store64, modify. by rewrite direct_ptr by (done || apply table_offset_range).
Qed.

(** What [next_table] does not touch. *)
Record same_regs (m m' : machine) : Prop := {
  sr_cr3 : cr3 m' = cr3 m;
  sr_kvb : kernel_virtual_base m' = kernel_virtual_base m;
  sr_pml4 : pml4_t m' = pml4_t m
}.

Lemma same_regs_trans m1 m2 m3 : same_regs m1 m2 -> same_regs m2 m3 -> same_regs m1 m3.
Proof. intros [] []. split; congruence. Qed.

Lemma page_aligned p : 0 <= p < MAX_PAGES -> aligned (p * 4096).
Proof.
  intros Hp. split; [unfold MASK, MAX_PAGES in *; lia|]. by apply Z.mod_mul.
Qed.
