(* ===== verification/PagingSpec.v ===== *)
(** * Correctness of the paging operations

    The operations of [paging.c] against the abstract view of [PageTable]: mapping a
    page changes exactly that page of exactly that address space; walks, flags,
    removal, allocation and release. *)

From S2P Require Import Prelude PhysMem Paging PageTable.

Definition flags_ok (flags : Z) : Prop := 0 <= flags < 4096 /\ Z.testbit flags 0 = true.

Lemma kernel_flags_ok : flags_ok PAGING_KERNEL_R_W_FLAGS.
Proof. by split. Qed.
Lemma user_flags_ok : flags_ok PAGING_USER_R_W_FLAGS.
Proof. by split. Qed.
#[export] Hint Resolve kernel_flags_ok user_flags_ok : snow.

(** Allocation inside the machine. *)
Lemma alloc_ok m p l :
  alloc_inv (pm m) (p :: l) -> MIN_PAGES <= Z.of_nat (length (p :: l)) ->
  exists s', call_pm get_free_page m = Ret (p * 4096, set_pm s' m) /\
    alloc_inv s' l /\ ram s' = ram (pm m) /\ 0 <= p < MAX_PAGES.
Proof.
  intros Hinv Hmin. destruct (get_free_page_ok _ _ _ Hinv Hmin) as (nx & Heq & Hinv').
  eexists. split; [by apply zoom_ret|]. split_and!; try done;
    destruct (inv_chain _ _ Hinv) as (_ & Hp & _); lia.
Qed.

Lemma set_word_ram a v m : ram (pm (set_word a v m)) = <[a := v]> (ram (pm m)).
Proof. done. Qed.

Lemma alloc_inv_set_ram s l r : alloc_inv s l -> alloc_inv (set_ram r s) l.
Proof. intros []. by split. Qed.

(** The postcondition of one level of the descent. *)
Record descended (roots l : list Z) (root va : Z) (d : nat) (m m' : machine) (t' : Z) (l' : list Z) : Prop := {
  de_inv : spaces_inv m' roots l';
  de_regs : same_regs m m';
  de_table : table_at (ram (pm m')) root va (S d) = Some t';
  de_pte : forall root' va', root' ∈ roots ->
    pte (ram (pm m')) root' va' = pte (ram (pm m)) root' va';
  de_data : data_kept roots l (ram (pm m)) (ram (pm m'));
  de_sub : suffix l' l;
  de_len : Z.of_nat (length l) <= Z.of_nat (length l') + 1;
  de_tables : forall root' va' d', root' ∈ roots -> (d' <= 3)%nat -> table_offset 0 va <> table_offset 0 va' ->
    table_at (ram (pm m')) root' va' d' = table_at (ram (pm m)) root' va' d';
  de_cost : is_Some (table_at (ram (pm m)) root va (S d)) -> l' = l;
  de_keep : forall root' va' d' x, root' ∈ roots -> (d' <= 3)%nat ->
    table_at (ram (pm m)) root' va' d' = Some x -> table_at (ram (pm m')) root' va' d' = Some x
}.

Section next_table.
Context (m : machine) (roots l : list Z) (root va t flags : Z) (d : nat).
Context (Hinv : spaces_inv m roots l) (Hroot : root ∈ roots) (Hd : (d < 3)%nat).
Context (Ht : table_at (ram (pm m)) root va d = Some t) (Hflags : flags_ok flags).

Let a := t + 8 * table_offset d va.

Lemma descent_slot : slot (ram (pm m)) root va d = Some a.
Proof. unfold slot. by rewrite Ht. Qed.

Lemma descent_aligned : aligned t.
Proof. eapply table_at_aligned; [|done]. by apply (sp_roots _ _ _ Hinv). Qed.

Lemma next_table_present :
  present (word m a) = true ->
  exists t' m', next_table (u64 (kernel_virtual_base m + t)) (table_offset d va) flags m = Ret (t', m') /\
    descended roots l root va d m m' t' l.
Proof.
  intros Hp. destruct Hflags as [Hf Hf0].
  set (t' := Z.land (word m a) MASK).
  assert (0 <= t' < 2 ^ 64) as Ht'.
  { pose proof (land_mask_range (word m a)) as Hr. unfold t', MASK in *. lia. }
  assert (present (Z.lor t' flags) = true) as Hpv by (by apply entry_present).
  assert (Z.land (Z.lor t' flags) MASK = Z.land (word m a) MASK) as Hmv.
  { by rewrite entry_mask by (done || apply land_mask_aligned). }
  assert (forall root' va' d', table_at (<[a := Z.lor t' flags]> (ram (pm m))) root' va' d'
            = table_at (ram (pm m)) root' va' d') as Htab.
  { intros. by apply table_at_reflag. }
  destruct Hinv as [Hal Hsep Hroots Hfree].
  exists t', (set_word a (Z.lor t' flags) m). split.
  { unfold next_table. rewrite (bind_ret _ _ _ _ _ (load64_table _ _ _ _ descent_aligned)).
    fold a. rewrite Hp. mstep.
    by rewrite direct_ptr by (apply descent_aligned || apply table_offset_range). }
  split; [split| | | | | |lia| | |]; rewrite ?set_word_ram; try done.
  - by apply alloc_inv_set_ram.
  - by apply same_separated.
  - intros p Hpl. destruct (Hfree p Hpl). 
    apply (same_frames _ _ root va d); first [done|lia|apply descent_slot|auto].
  - rewrite Htab. simpl. rewrite Ht. unfold word in Hp. fold a. by rewrite Hp.
  - intros root' va' Hr. rewrite (same_pte _ roots root va d); try first [done|lia|apply descent_slot].
    rewrite decide_False; [done|].
    apply (upper_slot _ roots root va d); first [done|apply descent_slot].
  - intros q _ Hq. apply (same_data _ _ root va d); first [done|lia|apply descent_slot|auto].
  - intros root' va' d' x _ _. by rewrite Htab.
Qed.

(** No walk goes through an absent entry. *)
Lemma absent_entry root' va' i d' :
  present (word m a) = false -> slot (ram (pm m)) root' va' i = Some a -> (i < d')%nat -> table_at (ram (pm m)) root' va' d' = None.
Proof.
  intros Hp Hs. induction d' as [|d' IH]; intros Hi; [lia|]. cbn [table_at]. destruct (decide (i = d')) as [->|Hne].
  - unfold slot in Hs. destruct (table_at (ram (pm m)) root' va' d') as [u|]; [|done]. injection Hs as ->. unfold word in Hp. by rewrite Hp.
  - by rewrite IH by lia.
Qed.

(** A free page becomes the missing table. *)
Lemma install_descended p l' s' :
  present (word m a) = false -> l = p :: l' -> alloc_inv s' l' -> ram s' = ram (pm m) -> 0 <= p < MAX_PAGES ->
  descended roots l root va d m (set_word a (Z.lor (p * 4096) flags) (set_pm s' m)) (p * 4096) l'.
Proof.
  intros Hp Hl Hal' Hram Hpr. pose proof descent_aligned as Htal. pose proof descent_slot as Hslot.
  destruct Hflags as [Hf Hf0], Hinv as [Hal Hsep Hroots Hfree]. clear Hinv. subst l.
  assert (aligned (p * 4096)) as Hpal by (by apply page_aligned).
  assert (p * 4096 < 2 ^ 64) as Hp64 by (unfold MAX_PAGES in *; lia).
  assert (present (Z.lor (p * 4096) flags) = true) as Hpv by (by apply entry_present).
  assert (Z.land (Z.lor (p * 4096) flags) MASK = p * 4096) as Hmv.
  { destruct Hpal. apply entry_mask; [done|lia|done]. }
  destruct (Hfree p) as [Hunused Hzero]; [by left|].
  split; [split| | | | | |simpl; lia| | |]; rewrite ?set_word_ram; cbn [pm set_pm ram table_at]; rewrite ?Hram; try done.
  - by apply alloc_inv_set_ram.
  - by eapply install_separated.
  - intros q Hq. destruct (Hfree q) as [Hu Hz]; [by right|].
    assert (q <> p) as Hqp.
    { intros ->. apply inv_nodup in Hal. apply list.NoDup_cons in Hal. tauto. }
    by apply (install_frames _ _ root va d a p).
  - change (table_at (<[a := Z.lor (p * 4096) flags]> (ram (pm m))) root va (S d) = Some (p * 4096)).
    rewrite (install_through _ roots root va d a p); try first [done|lia].
    by rewrite decide_True.
  - intros root' va' Hr. by apply (install_pte _ roots root va d a p).
  - intros q Hq Hu. apply not_elem_of_cons in Hq as [Hqp _].
    by apply (install_data _ _ root va d a p).
  - by apply suffix_cons_r.
  - intros root' va' d' Hr Hd' Hne. apply (install_other _ roots root va d); try done. right. intros Hs.
    destruct (Hsep root root' va va' d d a) as (_ & Hag & _); [done|done|lia|lia|done|done|]. apply Hne, (Hag 0%nat). lia.
  - intros [x Hx]. pose proof (absent_entry root va d (S d) Hp Hslot ltac:(lia)) as Hno. cbn [table_at] in Hno. congruence.
  - intros root' va' d' x Hr Hd' Hx. rewrite table_at_frame; [done|]. intros i Hi Hs.
    by rewrite (absent_entry root' va' i d' Hp Hs Hi) in Hx.
Qed.

Lemma next_table_absent p l' :
  present (word m a) = false -> l = p :: l' -> MIN_PAGES <= Z.of_nat (length l) ->
  exists m', next_table (u64 (kernel_virtual_base m + t)) (table_offset d va) flags m = Ret (p * 4096, m') /\
    descended roots l root va d m m' (p * 4096) l'.
Proof.
  intros Hp Hl Hmin. pose proof (sp_alloc _ _ _ Hinv) as Hal. rewrite Hl in Hal, Hmin.
  destruct (alloc_ok m p l') as (s' & Hrun & Hal' & Hram & Hpr); [done..|].
  exists (set_word a (Z.lor (p * 4096) flags) (set_pm s' m)). split; [|by apply install_descended].
  unfold next_table. rewrite (bind_ret _ _ _ _ _ (load64_table _ _ _ _ descent_aligned)).
  fold a. rewrite Hp, (bind_ret _ _ _ _ _ Hrun). mstep.
  by rewrite direct_ptr by (apply descent_aligned || apply table_offset_range).
Qed.

Lemma next_table_ok :
  MIN_PAGES <= Z.of_nat (length l) ->
  exists t' m' l', next_table (u64 (kernel_virtual_base m + t)) (table_offset d va) flags m = Ret (t', m') /\
    descended roots l root va d m m' t' l'.
Proof.
  intros Hmin. destruct (present (word m a)) eqn:Hp.
  - destruct next_table_present as (t' & m' & ? & ?); [done|]. by exists t', m', l.
  - assert (exists p l', l = p :: l') as (p & l' & Hl).
    { clear -Hmin. destruct l as [|p l']; [by vm_compute in Hmin|eauto]. }
    destruct (next_table_absent p l') as (m' & ? & ?); [done..|]. by eexists _, m', l'.
Qed.
End next_table.

(** ** Mapping a page *)

(** [mapped]: address space [root] maps the page of [va] to [e]; every other page of
    every address space is as before, and so is the page of [va] in the other address
    spaces when [va] is a user address (below kernel entry 511). *)
Record mapped (roots l : list Z) (root va e : Z) (m m' : machine) (l' : list Z) : Prop := {
  mp_inv : spaces_inv m' roots l';
  mp_regs : same_regs m m';
  mp_self : forall va', pte (ram (pm m')) root va' =
    if decide (vpn va = vpn va') then e else pte (ram (pm m)) root va';
  mp_others : forall root' va', root' ∈ roots -> root' <> root ->
    table_offset 0 va <> 511 \/ vpn va <> vpn va' ->
    pte (ram (pm m')) root' va' = pte (ram (pm m)) root' va';
  mp_data : data_kept roots l (ram (pm m)) (ram (pm m'));
  mp_sub : suffix l' l;
  mp_len : Z.of_nat (length l) <= Z.of_nat (length l') + 3;
  mp_tables : forall root' va' d', root' ∈ roots -> (d' <= 3)%nat -> table_offset 0 va <> table_offset 0 va' ->
    table_at (ram (pm m')) root' va' d' = table_at (ram (pm m)) root' va' d';
  mp_cost : forall k, (k <= 3)%nat -> is_Some (table_at (ram (pm m)) root va k) -> Z.of_nat (length l) <= Z.of_nat (length l') + 3 - Z.of_nat k
}.

Lemma suffix_elem {A} (l1 l2 : list A) x : suffix l1 l2 -> x ∈ l1 -> x ∈ l2.
Proof. intros [k ->] H. apply elem_of_app. by right. Qed.

Section leaf.
Context (m : machine) (roots l : list Z) (root va t e : Z).
Context (Hinv : spaces_inv m roots l) (Hroot : root ∈ roots).
Context (Ht : table_at (ram (pm m)) root va 3 = Some t).

Let a := t + 8 * table_offset 3 va.

Lemma leaf_slot : slot (ram (pm m)) root va 3 = Some a.
Proof. unfold slot. by rewrite Ht. Qed.

Lemma leaf_slot_iff va' : slot (ram (pm m)) root va' 3 = Some a <-> vpn va = vpn va'.
Proof.
  rewrite <- agree_vpn. split.
  - intros Hs. by destruct (sp_sep _ _ _ Hinv root root va va' 3%nat 3%nat a)
      as (_ & Hag & _); [done|done|lia|lia|apply leaf_slot|done|].
  - intros Hag. rewrite <- (slot_agree _ _ va va' 3 Hag). apply leaf_slot.
Qed.

Lemma leaf_other root' va' :
  root' ∈ roots -> root' <> root -> table_offset 0 va <> 511 \/ vpn va <> vpn va' ->
  slot (ram (pm m)) root' va' 3 <> Some a.
Proof.
  intros Hr Hne Hor Hs.
  destruct (sp_sep _ _ _ Hinv root root' va va' 3%nat 3%nat a)
    as (_ & Hag%agree_vpn & [->|[_ ?]]); [done|done|lia|lia|apply leaf_slot|done|done|].
  by destruct Hor.
Qed.

Lemma leaf_mapped : mapped roots l root va e m (set_word a e m) l.
Proof.
  pose proof leaf_slot as Hslot.
  assert (forall root' va' d', root' ∈ roots -> (d' <= 3)%nat ->
            table_at (<[a := e]> (ram (pm m))) root' va' d' =
            table_at (ram (pm m)) root' va' d') as Htab.
  { intros. apply (leaf_tables _ roots root va); try done. apply Hinv. }
  split; [split| | | | | |lia| |intros; lia]; rewrite ?set_word_ram; try done.
  - apply alloc_inv_set_ram, Hinv.
  - by apply same_separated; [apply Hinv|].
  - apply Hinv.
  - intros p Hp. destruct (sp_free _ _ _ Hinv p Hp).
    by apply (same_frames _ _ root va 3).
  - intros va'. rewrite (same_pte _ roots root va 3) by done.
    destruct (decide (vpn va = vpn va')) as [Hv|Hv].
    + rewrite decide_True; [done|]. by apply leaf_slot_iff.
    + rewrite decide_False; [done|]. by rewrite leaf_slot_iff.
  - intros root' va' Hr Hne H511. rewrite (same_pte _ roots root va 3) by done.
    rewrite decide_False; [done|]. by apply leaf_other.
  - intros q _ Hq. by apply (same_data _ _ root va 3).
  - intros. by apply Htab.
Qed.
End leaf.

Lemma table_at_prefix r root va k x : table_at r root va k = Some x -> forall j, (j <= k)%nat -> is_Some (table_at r root va j).
Proof.
  revert x; induction k as [|k IH]; intros x Hx j Hj; [replace j with 0%nat by lia; by eexists|].
  destruct (decide (j = S k)) as [->|Hne]; [by eexists|]. cbn [table_at] in Hx.
  destruct (table_at r root va k) as [u|]; [|done]. apply (IH u); [done|lia].
Qed.

Lemma map_page_ok m roots l root va pa flags :
  spaces_inv m roots l -> root ∈ roots -> flags_ok flags ->
  MIN_PAGES + 2 <= Z.of_nat (length l) ->
  exists m' l', map_page (u64 (kernel_virtual_base m + root)) va pa flags m = Ret (tt, m') /\
    mapped roots l root va (Z.lor pa flags) m m' l'.
Proof.
  intros Hinv Hroot Hf Hmin.
  destruct (next_table_ok m roots l root va root flags 0)
    as (t1 & m1 & l1 & Hr1 & [Hi1 Hg1 Ht1 Hp1 Hk1 Hs1 Hl1 Hn1 Hc1 Hm1]); [done|done|lia|done|done|lia|].
  destruct (next_table_ok m1 roots l1 root va t1 flags 1)
    as (t2 & m2 & l2 & Hr2 & [Hi2 Hg2 Ht2 Hp2 Hk2 Hs2 Hl2 Hn2 Hc2 Hm2]); [done|done|lia|done|done|lia|].
  destruct (next_table_ok m2 roots l2 root va t2 flags 2)
    as (t3 & m3 & l3 & Hr3 & [Hi3 Hg3 Ht3 Hp3 Hk3 Hs3 Hl3 Hn3 Hc3 Hm3]); [done|done|lia|done|done|lia|].
  destruct (leaf_mapped m3 roots l3 root va t3 (Z.lor pa flags) Hi3 Hroot Ht3) as [Hi Hg Hs Ho Hk _ _ Hn].
  assert (aligned t3) as Hal3 by (eapply table_at_aligned; [by apply Hinv|done]).
  eexists _, l3. split; [|split].
  - unfold map_page, gets. rewrite (bind_ret _ _ _ _ _ eq_refl).
    rewrite (bind_ret _ _ _ _ _ Hr1). rewrite <- (sr_kvb _ _ Hg1).
    rewrite (bind_ret _ _ _ _ _ Hr2). rewrite <- (sr_kvb _ _ Hg2).
    rewrite (bind_ret _ _ _ _ _ Hr3). rewrite <- (sr_kvb _ _ Hg3).
    by rewrite store64_table.
  - done.
  - eauto using same_regs_trans.
  - intros va'. by rewrite Hs, Hp3, Hp2, Hp1.
  - intros root' va' Hr Hne H511. by rewrite Ho, Hp3, Hp2, Hp1.
  - apply (data_kept_trans _ _ l1 _ (ram (pm m1))); [eauto using suffix_elem|done|].
    apply (data_kept_trans _ _ l2 _ (ram (pm m2))); [eauto using suffix_elem|done|].
    apply (data_kept_trans _ _ l3 _ (ram (pm m3))); [eauto using suffix_elem|done|done].
  - by do 2 (etransitivity; [|done]).
  - lia.
  - intros root' va' d' Hr Hd' Hne. by rewrite Hn, Hn3, Hn2, Hn1.
  - intros k Hk0 [x Hx]. assert (forall j, (j <= k)%nat -> is_Some (table_at (ram (pm m)) root va j)) as Hle by (by apply table_at_prefix with x).
    assert (forall j, (j <= k)%nat -> is_Some (table_at (ram (pm m1)) root va j)) as Hle1.
    { intros j Hj. destruct (Hle j Hj) as [y Hy]. exists y. apply Hm1; [done|lia|done]. }
    assert (forall j, (j <= k)%nat -> is_Some (table_at (ram (pm m2)) root va j)) as Hle2.
    { intros j Hj. destruct (Hle1 j Hj) as [y Hy]. exists y. apply Hm2; [done|lia|done]. }
    assert ((1 <= k)%nat -> length l1 = length l) by (intros; f_equal; apply Hc1, Hle; lia).
    assert ((2 <= k)%nat -> length l2 = length l1) by (intros; f_equal; apply Hc2, Hle1; lia).
    assert ((3 <= k)%nat -> length l3 = length l2) by (intros; f_equal; apply Hc3, Hle2; lia). lia.
Qed.

(** C19: [update_page_tables] refines the update of one page of the abstract address
    space: with enough free pages for the missing tables it succeeds; afterwards
    the current address space maps the page of [va] to [pa | flags] and every
    other page as before, no page of any other address space changes when [va] is
    a user address, and the invariant of the set of address spaces is kept. *)
Theorem update_page_tables_refines m roots l va pa flags :
  spaces_inv m roots l -> cr3 m ∈ roots -> flags_ok flags ->
  MIN_PAGES + 2 <= Z.of_nat (length l) ->
  exists m' l', update_page_tables va pa flags m = Ret (tt, m') /\
    mapped roots l (cr3 m) va (Z.lor pa flags) m m' l'.
Proof.
  intros Hinv Hroot Hf Hmin.
  destruct (map_page_ok m roots l (cr3 m) va pa flags) as (m' & l' & Hrun & Hm); [done..|].
  exists m', l'. split; [|done]. unfold update_page_tables, get_cr3, gets. mstep.
  by rewrite Z.add_comm.
Qed.

(** ** Walks *)

Lemma follow_ok m t d va :
  aligned t ->
  follow (u64 (kernel_virtual_base m + t)) (table_offset d va) m =
  Ret (let e := word m (t + 8 * table_offset d va) in
       if present e then Some (Z.land e MASK) else None, m).
Proof. intros Ht. unfold follow. by rewrite (bind_ret _ _ _ _ _ (load64_table _ _ _ _ Ht)). Qed.

Lemma find_pte_ok m va :
  aligned (cr3 m) ->
  find_pte va m =
  Ret ((fun t => entry_ptr (u64 (kernel_virtual_base m + t)) (table_offset 3 va)) <$>
         table_at (ram (pm m)) (cr3 m) va 3, m).
Proof.
  intros H0. unfold find_pte, get_cr3, gets. do 2 (rewrite (bind_ret _ _ _ _ _ eq_refl)).
  rewrite (Z.add_comm (cr3 m)).
  rewrite (bind_ret _ _ _ _ _ (follow_ok _ _ _ _ H0)). simpl table_at. unfold word.
  destruct (present _) eqn:E0; [|done].
  assert (aligned (Z.land (ram_word (ram (pm m)) (cr3 m + 8 * table_offset 0 va)) MASK)) as H1
    by (split; [apply land_mask_range|apply land_mask_aligned]).
  rewrite (bind_ret _ _ _ _ _ (follow_ok _ _ _ _ H1)). unfold word.
  destruct (present (ram_word _ (_ + 8 * table_offset 1 va))) eqn:E1; [|done].
  set (t1 := Z.land _ MASK) in *.
  assert (aligned (Z.land (ram_word (ram (pm m)) (t1 + 8 * table_offset 1 va)) MASK)) as H2
    by (split; [apply land_mask_range|apply land_mask_aligned]).
  rewrite (bind_ret _ _ _ _ _ (follow_ok _ _ _ _ H2)). unfold word.
  by destruct (present (ram_word _ (_ + 8 * table_offset 2 va))).
Qed.

Lemma walk_ok m va :
  aligned (cr3 m) ->
  walk_page_table va m = Ret (Z.land (pte (ram (pm m)) (cr3 m) va) MASK, m).
Proof.
  intros H0. unfold walk_page_table. rewrite (bind_ret _ _ _ _ _ (find_pte_ok _ _ H0)).
  unfold pte, slot. destruct (table_at _ _ _ _) as [t|] eqn:Ht; [|done].
  cbn [fmap option_fmap option_map]. rewrite (bind_ret _ _ _ _ _ (load64_table _ _ _ _ ltac:(
    by eapply table_at_aligned))). done.
Qed.

Lemma get_flags_ok m va :
  aligned (cr3 m) ->
  get_flags va m = Ret (Z.land (pte (ram (pm m)) (cr3 m) va) GET_FLAGS, m).
Proof.
  intros H0. unfold get_flags. rewrite (bind_ret _ _ _ _ _ (find_pte_ok _ _ H0)).
  unfold pte, slot. destruct (table_at _ _ _ _) as [t|] eqn:Ht; [|done].
  cbn [fmap option_fmap option_map]. rewrite (bind_ret _ _ _ _ _ (load64_table _ _ _ _ ltac:(
    by eapply table_at_aligned))). done.
Qed.

(** the walk returns what was mapped: after [update_page_tables va pa flags], for a
    page-aligned [pa], [walk_page_table] and [get_flags] on any address of the
    page return [pa] and [flags], and on any other address what they did before. *)
Theorem walk_after_update m roots l va pa flags :
  spaces_inv m roots l -> cr3 m ∈ roots -> flags_ok flags -> aligned pa ->
  MIN_PAGES + 2 <= Z.of_nat (length l) ->
  exists m', update_page_tables va pa flags m = Ret (tt, m') /\
    (forall va', vpn va = vpn va' ->
       walk_page_table va' m' = Ret (pa, m') /\ get_flags va' m' = Ret (flags, m')) /\
    (forall va' x, vpn va <> vpn va' ->
       walk_page_table va' m = Ret (x, m) -> walk_page_table va' m' = Ret (x, m')).
Proof.
  intros Hinv Hroot [Hf Hf0] [Hpa Hal] Hmin.
  destruct (map_page_ok m roots l (cr3 m) va pa flags) as (m' & l' & Hrun & Hm); [done..|].
  exists m'. split_and!.
  - unfold update_page_tables, get_cr3, gets. mstep. by rewrite Z.add_comm.
  - intros va' Hv. destruct Hm as [Hi Hg Hs _ _ _ _].
    assert (aligned (cr3 m')) as Hc by (rewrite (sr_cr3 _ _ Hg); by apply Hinv).
    rewrite walk_ok, get_flags_ok by done. rewrite (sr_cr3 _ _ Hg), Hs, decide_True by done.
    rewrite entry_mask, entry_flags by (done || unfold MASK in Hpa; lia). done.
  - intros va' x Hv. destruct Hm as [Hi Hg Hs _ _ _ _].
    assert (aligned (cr3 m)) as Hc by (by apply Hinv).
    assert (aligned (cr3 m')) as Hc' by (by rewrite (sr_cr3 _ _ Hg)).
    rewrite !walk_ok by done. rewrite (sr_cr3 _ _ Hg), Hs, decide_False by done.
    by intros [= <-].
Qed.

(** [remove_page_table_mapping] unmaps exactly the page of [va]: afterwards the
    walk finds nothing there, and every other page is mapped as before. *)
Theorem remove_page_table_mapping_ok m roots l va :
  spaces_inv m roots l -> cr3 m ∈ roots ->
  exists m', remove_page_table_mapping va m = Ret (tt, m') /\ spaces_inv m' roots l /\
    same_regs m m' /\
    (forall va', pte (ram (pm m')) (cr3 m) va' =
       if decide (vpn va = vpn va') then 0 else pte (ram (pm m)) (cr3 m) va') /\
    walk_page_table va m' = Ret (0, m').
Proof.
  intros Hinv Hroot. assert (aligned (cr3 m)) as Hc by (by apply Hinv).
  unfold remove_page_table_mapping. rewrite (bind_ret _ _ _ _ _ (find_pte_ok _ _ Hc)).
  destruct (table_at _ _ _ _) as [t|] eqn:Ht; cbn [fmap option_fmap option_map].
  - rewrite store64_table by (by eapply table_at_aligned).
    destruct (leaf_mapped m roots l (cr3 m) va t 0 Hinv Hroot Ht) as [Hi Hg Hs _ _ _ _].
    eexists. split_and!; [done..|]. rewrite walk_ok by done.
    rewrite (sr_cr3 _ _ Hg), Hs, decide_True by done. done.
  - exists m. assert (forall va', vpn va = vpn va' -> pte (ram (pm m)) (cr3 m) va' = 0) as Hz.
    { intros va' Hv%agree_vpn. unfold pte. rewrite <- (slot_agree _ _ va va' 3 Hv).
      unfold slot. by rewrite Ht. }
    split_and!; [done..| |by rewrite walk_ok, Hz].
    intros va'. case_decide; auto.
Qed.

(** ** Release: [kfree] and the reference counts *)

Definition refs (s : physmem) (p : Z) : Z :=
  ref_count (default zero_page (page_descriptor s !! p)).

Lemma get_page_ref_count_ok m p :
  0 <= p < MAX_PAGES -> call_pm (get_page_ref_count (p * 4096)) m = Ret (refs (pm m) p, m).
Proof.
  intros Hp. unfold call_pm, zoom, get_page_ref_count. mstep.
  change 4096 with PAGE_SIZE. rewrite page_addr_div, read_desc_in by done. by destruct m.
Qed.

Section heap_steps.
Context (l0 : list Z).

(** The allocator has handed out page [p] of the pages [l0] it started with. *)
Definition handed_out (m : machine) (p : Z) : Prop := p ∈ l0 /\ exists l, alloc_inv (pm m) l /\ (p ∉ l).

(** The steps of the kernel on its memory: allocating a page; giving a page that is handed out another positive count
    ([cow_page_tables], the page-fault handler); writing memory or registers; [kfree] of an address that is not mapped or is mapped to a
    page that is handed out, whatever its count. *)
Inductive heap_step : machine -> machine -> Prop :=
| step_alloc m a m' :
    call_pm get_free_page m = Ret (a, m') -> heap_step m m'
| step_ref m p n m' :
    handed_out m p -> 1 <= n ->
    call_pm (set_page_ref_count (p * 4096) n) m = Ret (tt, m') -> heap_step m m'
| step_memory m r c kvb root :
    heap_step m (Machine (set_ram r (pm m)) c kvb root)
| step_kfree m ptr a m' :
    walk_page_table ptr m = Ret (a, m) -> (a = 0 \/ exists p, a = p * 4096 /\ handed_out m p) ->
    kfree ptr m = Ret (tt, m') -> heap_step m m'.

Inductive heap_reachable (m0 : machine) : machine -> Prop :=
| reach_start : heap_reachable m0 m0
| reach_step m m' : heap_reachable m0 m -> heap_step m m' -> heap_reachable m0 m'.
End heap_steps.

(** Every page that is no longer free is referenced. *)
Definition heap_inv (l0 : list Z) (m : machine) : Prop :=
  exists l, alloc_inv (pm m) l /\ suffix l l0 /\
    forall p, p ∈ l0 -> p ∉ l -> 1 <= refs (pm m) p /\ 0 <= p < MAX_PAGES.

Lemma handed_out_start l0 m : alloc_inv (pm m) l0 -> heap_inv l0 m.
Proof. intros H. by exists l0. Qed.

Lemma handed_out_refs l0 m p : heap_inv l0 m -> handed_out l0 m p -> 1 <= refs (pm m) p /\ 0 <= p < MAX_PAGES.
Proof.
  intros (l & Hal & _ & Hr) (H0 & l' & Hal' & Hl'). rewrite (alloc_inv_det _ _ _ Hal' Hal) in Hl'. by apply Hr.
Qed.

Lemma kfree_referenced m ptr p :
  walk_page_table ptr m = Ret (p * 4096, m) -> 0 <= p < MAX_PAGES -> 1 <= refs (pm m) p ->
  kfree ptr m = Ret (tt, m).
Proof.
  intros Hw Hp Hr. unfold kfree. rewrite (bind_ret _ _ _ _ _ Hw).
  destruct (Z.eqb_spec (p * 4096) 0) as [|_]; [done|].
  rewrite (bind_ret _ _ _ _ _ (get_page_ref_count_ok _ _ Hp)).
  by destruct (Z.ltb_spec 0 (refs (pm m) p)); [|lia].
Qed.

Lemma kfree_unmapped m ptr : walk_page_table ptr m = Ret (0, m) -> kfree ptr m = Ret (tt, m).
Proof. intros Hw. unfold kfree. by rewrite (bind_ret _ _ _ _ _ Hw). Qed.

Lemma refs_insert s p d q :
  refs (set_descriptor p d s) q = if decide (p = q) then ref_count d else refs s q.
Proof. unfold refs. simpl. rewrite lookup_insert. by case_decide. Qed.

Lemma heap_inv_alloc l0 m a m' :
  heap_inv l0 m -> call_pm get_free_page m = Ret (a, m') -> heap_inv l0 m'.
Proof.
  intros (l & Hal & Hsub & Hrefs) Hrun.
  destruct (decide (MIN_PAGES <= Z.of_nat (length l))) as [Hmin|Hmin].
  2: { unfold call_pm, zoom in Hrun. rewrite (get_free_page_low _ l) in Hrun by (done || lia).
       injection Hrun as <- <-. by exists l; destruct m. }
  destruct l as [|p l']; [by vm_compute in Hmin|].
  destruct (get_free_page_ok _ _ _ Hal Hmin) as (nx & Heq & Hal').
  unfold call_pm in Hrun. rewrite (zoom_ret _ _ _ _ _ _ Heq) in Hrun. injection Hrun as <- <-.
  assert (0 <= p < MAX_PAGES) as Hp by (eapply chain_range; [apply Hal|by left]).
  exists l'. split_and!; [done|by eapply suffix_cons_l|].
  intros q Hq Hq'. change (1 <= refs (set_descriptor p (PhysicalPage p nx 1) (pm m)) q /\ 0 <= q < MAX_PAGES).
  rewrite refs_insert. case_decide as Hpq; [by subst|].
  apply Hrefs; [done|]. rewrite not_elem_of_cons. auto.
Qed.

Lemma heap_inv_ref l0 m p n m' :
  heap_inv l0 m -> handed_out l0 m p -> 1 <= n ->
  call_pm (set_page_ref_count (p * 4096) n) m = Ret (tt, m') -> heap_inv l0 m'.
Proof.
  intros Hinv Hout Hn. destruct (handed_out_refs _ _ _ Hinv Hout) as [Hr Hp]. destruct Hinv as (l & Hal & Hsub & Hrefs).
  unfold call_pm, zoom, set_page_ref_count. mstep.
  change 4096 with PAGE_SIZE. rewrite page_addr_div, read_desc_in by done. simpl.
  rewrite write_desc_in by done. intros [= <-].
  assert (p ∉ l) as Hpl.
  { intros Hin. destruct (chain_lookup _ _ _ _ (inv_chain _ _ Hal) Hin) as [nx Hd].
    unfold refs in Hr. rewrite Hd in Hr. simpl in Hr. lia. }
  exists l. split_and!; [|done|].
  - destruct Hal as [Hc Hnd Hct]. split; [|done|done]. simpl. by apply chain_insert.
  - intros q Hq Hq'. simpl. rewrite refs_insert. case_decide; [by subst|auto].
Qed.

(** [kfree] of what is handed out does nothing. *)
Lemma kfree_handed_out l0 m ptr p : heap_inv l0 m -> handed_out l0 m p -> walk_page_table ptr m = Ret (p * 4096, m) -> kfree ptr m = Ret (tt, m).
Proof. intros Hi Ho Hw. destruct (handed_out_refs _ _ _ Hi Ho). by apply (kfree_referenced _ _ p). Qed.

Lemma heap_inv_reachable l0 m0 m :
  heap_reachable l0 m0 m -> heap_inv l0 m0 -> heap_inv l0 m.
Proof.
  induction 1 as [|m m' Hreach IH Hstep]; [done|]. intros H0. specialize (IH H0).
  clear Hreach. revert IH.
  destruct Hstep as [m a m' Hrun|m p n m' Hp Hn Hrun|m r c kvb root|m ptr a m' Hw Hor Hrun];
    intros IH.
  - by eapply heap_inv_alloc.
  - by eapply heap_inv_ref.
  - destruct IH as (l & Hal & Hsub & Hrefs). exists l. split_and!; [|done|done].
    by apply alloc_inv_set_ram.
  - destruct Hor as [->|(p & -> & Hp)].
    + rewrite kfree_unmapped in Hrun by done. by injection Hrun as <-.
    + rewrite (kfree_handed_out l0 _ _ p) in Hrun by done. by injection Hrun as <-.
Qed.

(** C35: [kfree] never returns a page that the allocator has handed out: from any state whose free pages are [l0], in every state reached by
    allocating pages, giving positive counts to pages that are handed out, writing memory and calling [kfree] on addresses that are
    not mapped or mapped to such pages, a page of [l0] that is not free has a positive count, and [kfree] of an address that
    is mapped to it leaves the whole machine unchanged.  Pages that were never in [l0] are not covered. *)
Theorem kfree_never_reclaims l0 m0 m p ptr :
  alloc_inv (pm m0) l0 -> heap_reachable l0 m0 m -> handed_out l0 m p ->
  1 <= refs (pm m) p /\ (walk_page_table ptr m = Ret (p * 4096, m) -> kfree ptr m = Ret (tt, m)).
Proof.
  intros H0 Hreach Hp. pose proof (heap_inv_reachable l0 m0 m Hreach (handed_out_start _ _ H0)) as Hi.
  split; [apply (handed_out_refs _ _ _ Hi Hp)|by apply (kfree_handed_out l0)].
Qed.

(** ** A machine with an empty address space *)

Section empty_space.
Context (s : physmem) (l : list Z) (p kvb pml4 : Z).
Context (Hal : alloc_inv s l) (Hp : 0 <= p < MAX_PAGES) (Hpl : p ∉ l).
Context (Hzp : zero_frame (ram s) p) (Hz : forall q, q ∈ l -> zero_frame (ram s) q).

Lemma empty_table va d : (0 < d)%nat -> table_at (ram s) (p * 4096) va d = None.
Proof.
  intros Hd. induction d as [|[|d] IH]; [lia| |].
  - simpl. by rewrite Hzp by apply table_offset_range.
  - cbn [table_at] in *. rewrite IH by lia. done.
Qed.

Lemma empty_slot va d a :
  slot (ram s) (p * 4096) va d = Some a -> d = O /\ a = p * 4096 + 8 * table_offset 0 va.
Proof.
  unfold slot. destruct d as [|d]; [by intros [= <-]|]. by rewrite empty_table by lia.
Qed.

Lemma fresh_space_inv c : spaces_inv (Machine s c kvb pml4) [p * 4096] l.
Proof.
  split; simpl; [done| | |].
  - intros r1 r2 va1 va2 d1 d2 a ->%list_elem_of_singleton ->%list_elem_of_singleton _ _.
    intros [-> ->]%empty_slot [-> Heq]%empty_slot. split_and!; [done| |by left].
    intros [|i] Hi; [|lia]. lia.
  - intros x ->%list_elem_of_singleton. by apply page_aligned.
  - intros q Hq. split; [|by apply Hz].
    intros root va d a ->%list_elem_of_singleton _ [_ ->]%empty_slot.
    rewrite frame_of_word by apply table_offset_range. by intros ->.
Qed.
End empty_space.

Lemma empty_space_inv s l p kvb pml4 : alloc_inv s l -> 0 <= p < MAX_PAGES -> p ∉ l -> (forall a, ram_word (ram s) a = 0) ->
  spaces_inv (Machine s (p * 4096) kvb pml4) [p * 4096] l.
Proof. intros H1 H2 H3 H4. apply fresh_space_inv; try done; intros; by intros i _. Qed.

(** The kernel is linked at the top 2 GB ([linker.script]). *)
Definition KERNEL_BASE : Z := 0xffffffff80000000.

Definition demo_machine : machine := Machine demo_physmem 4096 KERNEL_BASE (KERNEL_BASE + 4096).

Lemma zero_ram (r : gmap Z Z) a :
  forallb (fun kv => kv.2 =? 0) (map_to_list r) = true -> ram_word r a = 0.
Proof.
  intros H. unfold ram_word. destruct (r !! a) as [v|] eqn:E; [|done].
  rewrite forallb_forall in H. apply Z.eqb_eq, (H (a, v)).
  by apply list_elem_of_In, elem_of_map_to_list.
Qed.

Lemma demo_ram a : ram_word (ram demo_physmem) a = 0.
Proof. apply zero_ram. vm_compute. reflexivity. Qed.

Lemma demo_machine_inv : spaces_inv demo_machine [4096] (seqZ 2 38).
Proof.
  apply (empty_space_inv demo_physmem (seqZ 2 38) 1).
  - apply demo_physmem_inv.
  - by vm_compute.
  - rewrite elem_of_seqZ. lia.
  - apply demo_ram.
Qed.

Lemma demo_root : cr3 demo_machine ∈ [4096].
Proof. by left. Qed.

Lemma update_page_tables_refines_witness :
  exists m' l', update_page_tables 0x400000 0x9000 PAGING_USER_R_W_FLAGS demo_machine = Ret (tt, m') /\
    spaces_inv m' [4096] l' /\
    pte (ram (pm m')) 4096 0x400123 = 0x9007.
Proof.
  destruct (update_page_tables_refines demo_machine [4096] (seqZ 2 38) 0x400000 0x9000
    PAGING_USER_R_W_FLAGS demo_machine_inv demo_root user_flags_ok ltac:(by vm_compute))
    as (m' & l' & Hrun & Hm).
  exists m', l'. split_and!; [exact Hrun|apply Hm|]. exact (mp_self _ _ _ _ _ _ _ _ Hm 0x400123).
Defined.

Lemma walk_after_update_witness :
  exists m', update_page_tables 0x400000 0x9000 PAGING_USER_R_W_FLAGS demo_machine = Ret (tt, m') /\
    walk_page_table 0x400fff m' = Ret (0x9000, m').
Proof.
  destruct (walk_after_update demo_machine [4096] (seqZ 2 38) 0x400000 0x9000
    PAGING_USER_R_W_FLAGS demo_machine_inv demo_root user_flags_ok (page_aligned 9 ltac:(by vm_compute))
    ltac:(by vm_compute)) as (m' & Hrun & Hw & _).
  exists m'. split; [exact Hrun|]. apply (Hw 0x400fff). reflexivity.
Defined.

Lemma remove_page_table_mapping_witness :
  exists m', remove_page_table_mapping 0x400000 demo_machine = Ret (tt, m') /\
    walk_page_table 0x400000 m' = Ret (0, m').
Proof.
  destruct (remove_page_table_mapping_ok demo_machine [4096] (seqZ 2 38) 0x400000
    demo_machine_inv demo_root) as (m' & Hrun & _ & _ & _ & Hw).
  exists m'. split; [exact Hrun|exact Hw].
Defined.

(** A machine in which [kmalloc] has allocated one page. *)
Definition demo_mapped : machine :=
  match kmalloc 4096 demo_machine with Ret (_, m) => m | _ => demo_machine end.

(** [demo_machine] with page 2 allocated and mapped as in [demo_mapped]. *)
Definition demo_taken : machine :=
  match call_pm get_free_page demo_machine with
  | Ret (_, m) => Machine (set_ram (ram (pm demo_mapped)) (pm m)) 4096 KERNEL_BASE (KERNEL_BASE + 4096)
  | _ => demo_machine
  end.

Lemma demo_taken_reachable : heap_reachable (seqZ 2 38) demo_machine demo_taken.
Proof.
  unfold demo_taken.
  destruct (call_pm get_free_page demo_machine) as [[a m]| |] eqn:Ha; [|constructor..].
  eapply reach_step; [|apply step_memory]. eapply reach_step; [constructor|]. by eapply step_alloc.
Qed.

Lemma demo_taken_inv : alloc_inv (pm demo_taken) (seqZ 3 37).
Proof.
  split; [apply chainb_sound; vm_compute; reflexivity|apply NoDup_seqZ|by vm_compute].
Qed.

Lemma demo_taken_walk : walk_page_table (KERNEL_BASE + 8192) demo_taken = Ret (2 * 4096, demo_taken).
Proof.
  rewrite walk_ok by (apply (page_aligned 1); by vm_compute).
  replace (Z.land _ _) with (2 * 4096); [done|]. vm_compute. reflexivity.
Qed.

Lemma kfree_never_reclaims_witness :
  kfree (KERNEL_BASE + 8192) demo_taken = Ret (tt, demo_taken).
Proof.
  apply (kfree_never_reclaims (seqZ 2 38) demo_machine demo_taken 2).
  - apply demo_physmem_inv.
  - apply demo_taken_reachable.
  - split; [rewrite elem_of_seqZ; lia|]. exists (seqZ 3 37). split; [apply demo_taken_inv|rewrite elem_of_seqZ; lia].
  - apply demo_taken_walk.
Defined.
