(* ===== verification/Cow.v ===== *)
(** * The kernel heap and copy-on-write faults

    [kmalloc] maps the pages it allocates at consecutive kernel addresses;
    the copy-on-write branch of the page-fault handler gives the faulting process a
    private copy and leaves the other address spaces alone, when the page has
    two sharers.  What the processes then see is in [Isolation]. *)

From S2P Require Import Prelude PhysMem Paging PageTable PagingSpec.

(** ** Page numbers of virtual addresses *)

Lemma table_offset_div d va :
  (d <= 3)%nat -> table_offset d va = va / 2 ^ (39 - 9 * Z.of_nat d) mod 512.
Proof.
  intros Hd. unfold table_offset. rewrite Z.land_comm. change 0x1FF with (Z.ones 9).
  rewrite Z.land_ones by lia. by rewrite Z.shiftr_div_pow2 by lia.
Qed.

Lemma vpn_inj va va' : vpn va = vpn va' -> va / 4096 mod 2 ^ 36 = va' / 4096 mod 2 ^ 36.
Proof.
  assert (forall x, x / 4096 mod 2 ^ 36 = table_offset 3 x +
    512 * (table_offset 2 x + 512 * (table_offset 1 x + 512 * table_offset 0 x))) as Hx.
  { intros x. rewrite !table_offset_div by lia.
    change (2 ^ (39 - 9 * Z.of_nat 3)) with 4096. change (2 ^ (39 - 9 * Z.of_nat 2)) with (4096 * 512).
    change (2 ^ (39 - 9 * Z.of_nat 1)) with (4096 * 512 * 512).
    change (2 ^ (39 - 9 * Z.of_nat 0)) with (4096 * 512 * 512 * 512).
    rewrite <- !Z.div_div by lia. change (2 ^ 36) with (512 * (512 * (512 * 512))).
    by rewrite !Z.rem_mul_r by lia. }
  intros [= H0 H1 H2 H3]. by rewrite !Hx, H0, H1, H2, H3.
Qed.

Lemma page_u64 x : u64 x / 4096 mod 2 ^ 36 = x / 4096 mod 2 ^ 36.
Proof.
  unfold u64. change (2 ^ 64) with (4096 * 2 ^ 52). rewrite Z.rem_mul_r by lia.
  rewrite (Z.mul_comm 4096), Z.div_add by lia.
  rewrite (Z.div_small (x mod 4096)) by (apply Z.mod_pos_bound; lia).
  rewrite Z.add_0_l. change (2 ^ 52) with (2 ^ 36 * 2 ^ 16). rewrite Z.rem_mul_r by lia.
  rewrite (Z.mul_comm (2 ^ 36)), Z.mod_add by lia. by rewrite Zmod_mod.
Qed.

(** The address [kmalloc] gives to its [i]-th page. *)
Definition heap_va (m : machine) (base i : Z) : Z :=
  u64 (kernel_virtual_base m + base + u32 (i * PAGE_SIZE)).

Lemma heap_va_inj m base i j :
  kernel_virtual_base m mod 4096 = 0 -> base mod 4096 = 0 ->
  0 <= i < 2 ^ 20 -> 0 <= j < 2 ^ 20 ->
  vpn (heap_va m base i) = vpn (heap_va m base j) -> i = j.
Proof.
  intros Hk Hb Hi Hj Hv%vpn_inj. unfold heap_va in Hv. rewrite !page_u64 in Hv.
  unfold PAGE_SIZE in Hv. rewrite !u32_small, !Z.div_add in Hv by lia.
  set (c := (kernel_virtual_base m + base) / 4096) in *.
  pose proof (Z.div_mod (c + i) (2 ^ 36) ltac:(lia)) as H1.
  pose proof (Z.div_mod (c + j) (2 ^ 36) ltac:(lia)) as H2.
  assert (i - j = 2 ^ 36 * ((c + i) / 2 ^ 36 - (c + j) / 2 ^ 36)) as Hd by lia.
  assert ((c + i) / 2 ^ 36 - (c + j) / 2 ^ 36 = 0) by nia. lia.
Qed.

(** ** [kmalloc] *)

(** Pages [phs] have been taken from the free list [l] (leaving [l']) and mapped, in
    order, at the kernel addresses [heap_va m base i], [i + 1], ...; no other
    page of the current address space changed. *)
Record heap_mapped (roots l : list Z) (base i : Z) (phs : list Z) (m m' : machine) (l' : list Z) : Prop := {
  hm_inv : spaces_inv m' roots l';
  hm_regs : same_regs m m';
  hm_pte : forall k p, phs !! k = Some p ->
    pte (ram (pm m')) (cr3 m) (heap_va m base (i + Z.of_nat k)) =
      Z.lor (p * 4096) PAGING_KERNEL_R_W_FLAGS;
  hm_other : forall root va', root ∈ roots ->
    (forall k, (k < length phs)%nat -> vpn (heap_va m base (i + Z.of_nat k)) <> vpn va') ->
    pte (ram (pm m')) root va' = pte (ram (pm m)) root va';
  hm_fresh : forall p, p ∈ phs -> p ∈ l /\ (p ∉ l') /\ unused_frame (ram (pm m')) roots p;
  hm_nodup : NoDup phs;
  hm_data : data_kept roots l (ram (pm m)) (ram (pm m'));
  hm_sub : suffix l' l;
  hm_len : Z.of_nat (length l) <= Z.of_nat (length l') + 4 * Z.of_nat (length phs);
  hm_tables : forall root' va' d', root' ∈ roots -> (d' <= 3)%nat ->
    (forall k, (k < length phs)%nat -> table_offset 0 (heap_va m base (i + Z.of_nat k)) <> table_offset 0 va') ->
    table_at (ram (pm m')) root' va' d' = table_at (ram (pm m)) root' va' d'
}.

Lemma spaces_inv_alloc m roots p l s' :
  spaces_inv m roots (p :: l) -> alloc_inv s' l -> ram s' = ram (pm m) ->
  spaces_inv (set_pm s' m) roots l.
Proof.
  intros [Hal Hsep Hroots Hfree] Hal' Hram. split; simpl; rewrite ?Hram; try done.
  intros q Hq. apply Hfree. by right.
Qed.

(** One iteration: a page is taken and mapped. *)
Lemma alloc_map_ok m roots l va flags :
  spaces_inv m roots l -> cr3 m ∈ roots -> flags_ok flags -> MIN_PAGES + 4 <= Z.of_nat (length l) ->
  exists p l1 m1 m2 l2,
    call_pm get_free_page m = Ret (p * 4096, m1) /\ l = p :: l1 /\ ram (pm m1) = ram (pm m) /\
    update_page_tables va (p * 4096) flags m1 = Ret (tt, m2) /\
    same_regs m m1 /\
    mapped roots l1 (cr3 m) va (Z.lor (p * 4096) flags) m1 m2 l2 /\
    (p ∉ l1) /\ unused_frame (ram (pm m1)) roots p.
Proof.
  intros Hinv Hroot Hf Hlen. destruct l as [|p l1]; [by vm_compute in Hlen|].
  destruct (alloc_ok m p l1) as (s' & Hrun & Hal' & Hram & Hp); [apply Hinv|lia|].
  assert (spaces_inv (set_pm s' m) roots l1) as Hinv1 by (by eapply spaces_inv_alloc).
  destruct (map_page_ok (set_pm s' m) roots l1 (cr3 m) va (p * 4096) flags)
    as (m2 & l2 & Hrun2 & Hm); [done|done|done|simpl in Hlen; lia|].
  exists p, l1, (set_pm s' m), m2, l2. split_and!; try done.
  - unfold update_page_tables, get_cr3, gets. mstep. rewrite Z.add_comm. done.
  - pose proof (inv_nodup _ _ (sp_alloc _ _ _ Hinv)) as Hnd. by apply list.NoDup_cons in Hnd as [? _].
  - simpl. rewrite Hram. apply (sp_free _ _ _ Hinv). by left.
Qed.

Lemma heap_va_regs m m' base i : same_regs m m' -> heap_va m' base i = heap_va m base i.
Proof. intros [_ Hk _]. unfold heap_va. by rewrite Hk. Qed.

Lemma heap_mapped_cons roots l l1 l2 l' base i p phs m m1 m2 m' :
  kernel_virtual_base m mod 4096 = 0 -> base mod 4096 = 0 -> cr3 m ∈ roots ->
  0 <= i -> i + Z.of_nat (S (length phs)) <= 2 ^ 20 ->
  l = p :: l1 -> ram (pm m1) = ram (pm m) -> same_regs m m1 -> p ∉ l1 ->
  unused_frame (ram (pm m1)) roots p ->
  mapped roots l1 (cr3 m) (heap_va m base i) (Z.lor (p * 4096) PAGING_KERNEL_R_W_FLAGS) m1 m2 l2 ->
  heap_mapped roots l2 base (i + 1) phs m2 m' l' ->
  heap_mapped roots l base i (p :: phs) m m' l'.
Proof.
  intros Hk Hb Hc Hi Hlim -> Hram Hregs Hp Hu [Hinv2 Hregs2 Hself Hoth Hdata2 Hsub2 Hlen2 Htab2]
    [Hinv' Hregs' Hpte Hother Hfresh Hnd Hdata' Hsub' Hlen' Htab'].
  assert (same_regs m m2) as Hr02 by eauto using same_regs_trans.
  assert (forall j, heap_va m2 base j = heap_va m base j) as Hva.
  { intros j. by apply heap_va_regs. }
  assert (cr3 m2 = cr3 m) as Hc2 by apply Hr02.
  assert (forall k, (k < length phs)%nat ->
    vpn (heap_va m2 base (i + 1 + Z.of_nat k)) <> vpn (heap_va m base i)) as Hne.
  { intros k Hkl Heq. rewrite Hva in Heq. apply heap_va_inj in Heq; [lia|done|done|lia|lia]. }
  assert (p ∉ l') as Hpl' by eauto using suffix_elem.
  destruct (Hdata2 p Hp Hu) as [Hu2 Hw2].
  destruct (Hdata' p) as [Hu' _]; [eauto using suffix_elem|done|].
  split.
  - done.
  - eauto using same_regs_trans.
  - intros [|k] q; simpl.
    + intros [= <-]. replace (i + Z.of_nat 0) with i by lia. rewrite Hother by auto.
      by rewrite Hself, decide_True.
    + intros Hq. apply Hpte in Hq. rewrite Hva, Hc2 in Hq.
      by replace (i + Z.of_nat (S k)) with (i + 1 + Z.of_nat k) by lia.
  - intros root va' Hr Hall. rewrite Hother; [|done|].
    2: { intros k Hkl. specialize (Hall (S k) ltac:(simpl; lia)). rewrite Hva.
         by replace (i + 1 + Z.of_nat k) with (i + Z.of_nat (S k)) by lia. }
    specialize (Hall 0%nat ltac:(simpl; lia)). replace (i + Z.of_nat 0) with i in Hall by lia.
    rewrite <- Hram. destruct (decide (root = cr3 m)) as [->|Hroot].
    + by rewrite Hself, decide_False.
    + by rewrite Hoth by auto.
  - intros q [->|Hq]%elem_of_cons; [split_and!; [by left|done|done]|].
    destruct (Hfresh q Hq) as (Hq1 & Hq2 & Hq3). split_and!; [|done|done].
    right. by eapply suffix_elem.
  - apply NoDup_cons_2; [|done]. intros (Hpl2 & _)%Hfresh. apply Hp. by eapply suffix_elem.
  - rewrite <- Hram. intros q Hq Huq. apply not_elem_of_cons in Hq as [Hqp Hq].
    apply (data_kept_trans _ l1 l2 _ (ram (pm m2)) _); [|done..].
    intros x. by apply suffix_elem.
  - etransitivity; [done|]. etransitivity; [done|]. by apply suffix_cons_r.
  - cbn [length]. clear -Hlen2 Hlen'. lia.
  - intros root' va' d' Hr Hd' Hall. rewrite Htab' by (done || (intros k Hkl; specialize (Hall (S k) ltac:(simpl; lia)); rewrite Hva;
      by replace (i + 1 + Z.of_nat k) with (i + Z.of_nat (S k)) by lia)).
    specialize (Hall 0%nat ltac:(simpl; lia)). replace (i + Z.of_nat 0) with i in Hall by lia. rewrite <- Hram. by apply Htab2.
Qed.

Lemma kmalloc_loop_ok n m roots l i base :
  spaces_inv m roots l -> cr3 m ∈ roots ->
  kernel_virtual_base m mod 4096 = 0 -> base mod 4096 = 0 ->
  0 < i -> i + Z.of_nat n <= 2 ^ 20 -> MIN_PAGES + 4 * Z.of_nat n <= Z.of_nat (length l) ->
  exists phs m' l', kmalloc_loop n i base m = Ret (base, m') /\ length phs = n /\
    heap_mapped roots l base i phs m m' l'.
Proof.
  revert m l i; induction n as [|n IH]; intros m l i Hinv Hroot Hk Hb Hi Hlim Hlen.
  { exists [], m, l. split_and!; [done|done|]. split; try done; simpl; try lia.
    - by intros p ?%not_elem_of_nil.
    - constructor. }
  destruct (alloc_map_ok m roots l (heap_va m base i) PAGING_KERNEL_R_W_FLAGS)
    as (p & l1 & m1 & m2 & l2 & Hr1 & Hl & Hram & Hr2 & Hg1 & Hm & Hp & Hu); [done|done|auto with snow|lia|].
  assert (same_regs m m2) as Hg2 by (destruct Hm; eauto using same_regs_trans).
  destruct (IH m2 l2 (i + 1)) as (phs & m' & l' & Hr3 & Hlp & Hh).
  - apply Hm.
  - by rewrite (sr_cr3 _ _ Hg2).
  - by rewrite (sr_kvb _ _ Hg2).
  - done.
  - lia.
  - lia.
  - pose proof (mp_len _ _ _ _ _ _ _ _ Hm). subst l. simpl in Hlen. lia.
  - exists (p :: phs), m', l'. split_and!; [|by rewrite <- Hlp|].
    + simpl. rewrite (bind_ret _ _ _ _ _ Hr1). destruct (Z.eqb_spec i 0); [lia|].
      unfold gets. rewrite (bind_ret _ _ _ _ _ eq_refl). rewrite (sr_kvb _ _ Hg1).
      rewrite (bind_ret _ _ _ _ _ Hr2). done.
    + eapply heap_mapped_cons; try done; lia.
Qed.

Lemma pages_for_pos bytes : 0 < bytes < 2 ^ 32 -> 0 < pages_for bytes <= 2 ^ 20.
Proof.
  intros Hb. unfold pages_for, PAGE_SIZE.
  pose proof (Z.div_mod bytes 4096 ltac:(lia)).
  pose proof (Z.mod_pos_bound bytes 4096 ltac:(lia)). zbool.
Qed.

(** [kmalloc] takes its pages from the free list and maps them consecutively. *)
Lemma kmalloc_spec m roots l bytes :
  spaces_inv m roots l -> cr3 m ∈ roots -> kernel_virtual_base m mod 4096 = 0 ->
  0 < bytes < 2 ^ 32 -> MIN_PAGES + 4 * pages_for bytes <= Z.of_nat (length l) ->
  exists p phs m' l',
    kmalloc bytes m = Ret (u64 (kernel_virtual_base m + p * 4096), m') /\
    Z.of_nat (length (p :: phs)) = pages_for bytes /\
    heap_mapped roots l (p * 4096) 0 (p :: phs) m m' l'.
Proof.
  intros Hinv Hroot Hk Hb Hlen. pose proof (pages_for_pos bytes Hb) as Hn.
  unfold kmalloc. remember (Z.to_nat (pages_for bytes)) as n eqn:En.
  destruct n as [|n]; [lia|]. cbn [kmalloc_loop].
  destruct l as [|p l1] eqn:El; [exfalso; cbn in Hlen; unfold MIN_PAGES in Hlen; lia|].
  rewrite <- El in *.
  destruct (alloc_map_ok m roots l (heap_va m (p * 4096) 0) PAGING_KERNEL_R_W_FLAGS)
    as (p' & l1' & m1 & m2 & l2 & Hr1 & Hl & Hram & Hr2 & Hg1 & Hm & Hp & Hu); [done|done|auto with snow|lia|].
  assert (p' = p /\ l1' = l1) as [-> ->] by (rewrite El in Hl; by injection Hl).
  assert (same_regs m m2) as Hg2 by (destruct Hm; eauto using same_regs_trans).
  assert (p * 4096 mod 4096 = 0) as Hpal by (by apply Z.mod_mul).
  destruct (kmalloc_loop_ok n m2 roots l2 1 (p * 4096)) as (phs & m' & l' & Hr3 & Hlp & Hh).
  - apply Hm.
  - by rewrite (sr_cr3 _ _ Hg2).
  - by rewrite (sr_kvb _ _ Hg2).
  - done.
  - lia.
  - lia.
  - pose proof (mp_len _ _ _ _ _ _ _ _ Hm). rewrite Hl in Hlen. cbn [length] in Hlen. lia.
  - assert (heap_mapped roots l (p * 4096) 0 (p :: phs) m m' l') as Hfin.
    { eapply heap_mapped_cons; try done; lia. }
    exists p, phs, m', l'. split_and!; [|cbn [length]; lia|done].
    rewrite (bind_ret _ _ _ (p * 4096) m').
    2: { rewrite (bind_ret _ _ _ _ _ Hr1). unfold gets. rewrite (bind_ret _ _ _ _ _ eq_refl).
         rewrite (sr_kvb _ _ Hg1). rewrite (bind_ret _ _ _ _ _ Hr2). exact Hr3. }
    unfold gets. mstep. by rewrite (sr_kvb _ _ (hm_regs _ _ _ _ _ _ _ _ Hfin)).
Qed.

(** C25: [kmalloc] of [bytes] (below 4 GB, and with enough free pages) returns an address
    from which the requested number of pages is accessible: the walk of the
    [k]-th page after it reaches the [k]-th of pairwise distinct frames, all of
    them free before and none of them free afterwards. *)
Theorem kmalloc_contiguous m roots l bytes :
  spaces_inv m roots l -> cr3 m ∈ roots -> kernel_virtual_base m mod 4096 = 0 ->
  0 < bytes < 2 ^ 32 -> MIN_PAGES + 4 * pages_for bytes <= Z.of_nat (length l) ->
  exists addr frames m' l', kmalloc bytes m = Ret (addr, m') /\
    spaces_inv m' roots l' /\
    Z.of_nat (length frames) = pages_for bytes /\ NoDup frames /\
    (forall f, f ∈ frames -> f ∈ l /\ (f ∉ l')) /\
    (forall k f, frames !! k = Some f ->
       walk_page_table (u64 (addr + Z.of_nat k * 4096)) m' = Ret (f * 4096, m')).
Proof.
  intros Hinv Hroot Hk Hb Hlen. pose proof (pages_for_pos bytes Hb) as Hn.
  destruct (kmalloc_spec m roots l bytes) as (p & phs & m' & l' & Hrun & Hlp & Hh); [done..|].
  exists (u64 (kernel_virtual_base m + p * 4096)), (p :: phs), m', l'.
  destruct Hh as [Hinv' Hregs Hpte _ Hfresh Hnd _ _ _]. split_and!; try done.
  - intros f Hf. by destruct (Hfresh f Hf) as (? & ? & _).
  - intros k f Hkf. pose proof (lookup_lt_Some _ _ _ Hkf) as Hkl.
    assert (aligned (cr3 m')) as Hc by (rewrite (sr_cr3 _ _ Hregs); by apply Hinv).
    rewrite walk_ok, (sr_cr3 _ _ Hregs) by done.
    replace (u64 (u64 (kernel_virtual_base m + p * 4096) + Z.of_nat k * 4096))
      with (heap_va m (p * 4096) (0 + Z.of_nat k)).
    2: { unfold heap_va, PAGE_SIZE. rewrite u32_small by lia. unfold u64.
         rewrite Zplus_mod_idemp_l. f_equal. }
    rewrite (Hpte _ _ Hkf). destruct (Hfresh f) as (Hfl & _); [by eapply list_elem_of_lookup_2|].
    pose proof (chain_range _ _ _ _ (inv_chain _ _ (sp_alloc _ _ _ Hinv)) Hfl) as Hfr.
    rewrite entry_mask; [done|by apply page_aligned|unfold MAX_PAGES in Hfr; lia|done].
Qed.

(** ** Writes to data pages *)

Lemma pte_vpn r root va va' : vpn va = vpn va' -> pte r root va = pte r root va'.
Proof. intros H%agree_vpn. unfold pte. by rewrite (slot_agree _ _ va va' 3 H). Qed.

Lemma vpn_in_page va j : va mod 4096 = 0 -> 0 <= j < 4096 -> vpn (va + j) = vpn va.
Proof.
  intros Hva Hj. assert ((va + j) / 4096 = va / 4096) as Hd.
  { rewrite (Z.div_mod va 4096) at 1 by lia. rewrite Hva, Z.add_0_r, Z.mul_comm.
    rewrite Z.div_add_l by lia. rewrite (Z.div_small j) by lia. lia. }
  unfold vpn. rewrite !table_offset_div by lia.
  change (2 ^ (39 - 9 * Z.of_nat 3)) with 4096. change (2 ^ (39 - 9 * Z.of_nat 2)) with (4096 * 512).
  change (2 ^ (39 - 9 * Z.of_nat 1)) with (4096 * (512 * 512)).
  change (2 ^ (39 - 9 * Z.of_nat 0)) with (4096 * (512 * 512 * 512)).
  rewrite <- !Z.div_div by lia. by rewrite Hd.
Qed.

Section data_write.
Context (m : machine) (roots l : list Z) (q a v : Z).
Context (Hinv : spaces_inv m roots l).
Context (Hq : unused_frame (ram (pm m)) roots q) (Hql : q ∉ l) (Ha : a / 4096 = q).

Lemma data_write_table root va d :
  root ∈ roots -> (d <= 3)%nat ->
  table_at (<[a := v]> (ram (pm m))) root va d = table_at (ram (pm m)) root va d.
Proof.
  intros Hr Hd. apply table_at_frame. intros i Hi Hs.
  by apply (Hq root va i a Hr ltac:(lia) Hs).
Qed.

Lemma data_write_slot root va d :
  root ∈ roots -> (d <= 3)%nat ->
  slot (<[a := v]> (ram (pm m))) root va d = slot (ram (pm m)) root va d.
Proof. intros. unfold slot. by rewrite data_write_table. Qed.

Lemma data_write_pte root va :
  root ∈ roots -> pte (<[a := v]> (ram (pm m))) root va = pte (ram (pm m)) root va.
Proof.
  intros Hr. unfold pte. rewrite data_write_slot by (done || lia).
  destruct (slot (ram (pm m)) root va 3) as [b|] eqn:Hb; [|done].
  rewrite ram_word_insert. case_decide as Hab; [|done]. subst b.
  by destruct (Hq root va 3%nat a Hr ltac:(lia) Hb).
Qed.

Lemma data_write_unused p :
  unused_frame (ram (pm m)) roots p -> unused_frame (<[a := v]> (ram (pm m))) roots p.
Proof. intros Hp root va d b Hr Hd. rewrite data_write_slot by done. by apply Hp. Qed.

Lemma data_write_inv : spaces_inv (set_word a v m) roots l.
Proof.
  destruct Hinv as [Hal Hsep Hroots Hfree]. split; rewrite ?set_word_ram; try done.
  - by apply alloc_inv_set_ram.
  - intros r1 r2 va1 va2 d1 d2 b H1 H2 Hd1 Hd2. rewrite !data_write_slot by done. by apply Hsep.
  - intros p Hp. destruct (Hfree p Hp) as [Hu Hz]. split; [by apply data_write_unused|].
    intros i Hi. rewrite ram_word_insert. case_decide as Hai; [|by apply Hz].
    exfalso. apply Hql. rewrite <- Ha, Hai, frame_of_word by done. done.
Qed.
End data_write.

(** Access through a mapped page. *)
Lemma translate_ok m va p i :
  aligned (cr3 m) -> aligned va -> 0 <= i < 512 -> p * 4096 <> 0 ->
  Z.land (pte (ram (pm m)) (cr3 m) va) MASK = p * 4096 ->
  translate (u64 (va + 8 * i)) m = Ret (p * 4096 + 8 * i, m).
Proof.
  intros Hc [Hva Hal] Hi Hp Hpte. rewrite u64_small by (unfold MASK in Hva; lia).
  unfold translate. rewrite (bind_ret _ _ _ _ _ (walk_ok _ _ Hc)).
  rewrite (pte_vpn _ _ _ va) by (apply vpn_in_page; [done|lia]).
  rewrite Hpte. destruct (Z.eqb_spec (p * 4096) 0); [done|].
  unfold PAGE_SIZE. rewrite <- Zplus_mod_idemp_l, Hal.
  by rewrite Z.mod_small by lia.
Qed.

(** ** Copying a page *)

(** The state of the copy of page [p] to page [q] after [k] words. *)
Record copying (roots l : list Z) (p q k : Z) (m t : machine) : Prop := {
  cp_inv : spaces_inv t roots l;
  cp_regs : same_regs m t;
  cp_pte : forall root va, root ∈ roots -> pte (ram (pm t)) root va = pte (ram (pm m)) root va;
  cp_unused : forall x, unused_frame (ram (pm m)) roots x -> unused_frame (ram (pm t)) roots x;
  cp_done : forall i, 0 <= i < k -> word t (q * 4096 + 8 * i) = word m (p * 4096 + 8 * i);
  cp_rest : forall a, a / 4096 <> q -> word t a = word m a;
  cp_alloc : page_descriptor (pm t) = page_descriptor (pm m)
}.

Section copy.
Context (m : machine) (roots l : list Z) (dest src p q : Z).
Context (Hinv : spaces_inv m roots l) (Hroot : cr3 m ∈ roots).
Context (Hdest : aligned dest) (Hsrc : aligned src).
Context (Hp0 : p * 4096 <> 0) (Hq0 : q * 4096 <> 0) (Hpq : p <> q) (Hql : q ∉ l).
Context (Hq : unused_frame (ram (pm m)) roots q).
Context (Hps : Z.land (pte (ram (pm m)) (cr3 m) src) MASK = p * 4096).
Context (Hqd : Z.land (pte (ram (pm m)) (cr3 m) dest) MASK = q * 4096).

Lemma copy_step k t :
  0 <= k < 512 -> copying roots l p q k m t ->
  exists t', (s ← translate (u64 (src + 8 * k)); v ← gets (fun m => word m s);
              d ← translate (u64 (dest + 8 * k)); modify (set_word d v)) t = Ret (tt, t') /\
    copying roots l p q (k + 1) m t'.
Proof.
  intros Hk [Hi Hg Hpt Hu Hd Hr Hal].
  assert (aligned (cr3 t)) as Hc by (rewrite (sr_cr3 _ _ Hg); by apply Hinv).
  assert ((q * 4096 + 8 * k) / 4096 = q) as Hfr by (by apply frame_of_word).
  exists (set_word (q * 4096 + 8 * k) (word t (p * 4096 + 8 * k)) t). split.
  { rewrite (bind_ret _ _ _ _ _ (translate_ok t src p k Hc Hsrc Hk Hp0 ltac:(
      rewrite (sr_cr3 _ _ Hg), Hpt by done; exact Hps))).
    unfold gets. rewrite (bind_ret _ _ _ _ _ eq_refl).
    rewrite (bind_ret _ _ _ _ _ (translate_ok t dest q k Hc Hdest Hk Hq0 ltac:(
      rewrite (sr_cr3 _ _ Hg), Hpt by done; exact Hqd))). done. }
  split; try done.
  - eapply data_write_inv; eauto.
  - by eapply same_regs_trans.
  - intros root va Hroot'. rewrite set_word_ram, (data_write_pte _ roots q) by eauto. auto.
  - intros x Hx. rewrite set_word_ram. apply (data_write_unused t roots q); auto.
  - intros i Hik. unfold word at 1. rewrite set_word_ram, ram_word_insert.
    case_decide as Hi'; [|apply Hd; lia]. assert (i = k) as -> by lia.
    apply Hr. rewrite frame_of_word by done. done.
  - intros a Ha. unfold word at 1. rewrite set_word_ram, ram_word_insert.
    case_decide as Ha'; [subst a; done|by apply Hr].
Qed.

Lemma memcpy_page :
  exists t, memcpy_va dest src PAGE_SIZE m = Ret (tt, t) /\ copying roots l p q 512 m t.
Proof.
  unfold memcpy_va. change (Z.to_nat (PAGE_SIZE / 8)) with 512%nat.
  apply (for_loop_ind (fun k => copying roots l p q k m)).
  - split; try done. lia.
  - intros k t Hk. apply copy_step. lia.
Qed.
End copy.

(** Reference counts of pages in use. *)
Lemma set_ref_ok m roots l p n :
  spaces_inv m roots l -> 0 <= p < MAX_PAGES -> p ∉ l ->
  exists m', call_pm (set_page_ref_count (p * 4096) n) m = Ret (tt, m') /\
    spaces_inv m' roots l /\ same_regs m m' /\ ram (pm m') = ram (pm m) /\
    refs (pm m') p = n.
Proof.
  intros [Hal Hsep Hroots Hfree] Hp Hpl. eexists. split.
  { apply zoom_ret. unfold set_page_ref_count. mstep. change 4096 with PAGE_SIZE.
    rewrite page_addr_div, read_desc_in by done. simpl. by rewrite write_desc_in. }
  split_and!; try done.
  - split; try done. destruct Hal as [Hc Hnd Hct]. split; [|done|done]. by apply chain_insert.
  - simpl. rewrite refs_insert. by rewrite decide_True.
Qed.

(** ** The kernel's part of the address space *)

Lemma kernel_va_offset x : 0 <= x < 2 ^ 31 -> table_offset 0 (u64 (KERNEL_BASE + x)) = 511.
Proof.
  intros Hx. rewrite u64_small by (unfold KERNEL_BASE; lia).
  rewrite table_offset_div by lia. change (2 ^ (39 - 9 * Z.of_nat 0)) with (2 ^ 39).
  replace ((KERNEL_BASE + x) / 2 ^ 39) with (2 ^ 25 - 1); [done|].
  apply Z.div_unique with (r := KERNEL_BASE + x - 2 ^ 39 * (2 ^ 25 - 1)); unfold KERNEL_BASE; lia.
Qed.

Lemma kernel_va_aligned x : 0 <= x < 2 ^ 31 -> x mod 4096 = 0 -> aligned (u64 (KERNEL_BASE + x)).
Proof.
  intros Hx Hal. rewrite u64_small by (unfold KERNEL_BASE; lia).
  split; [unfold KERNEL_BASE, MASK; pose proof (Z.div_mod x 4096); lia|].
  rewrite <- Zplus_mod_idemp_r, Hal. done.
Qed.

(** ** The copy-on-write fault *)

Lemma cow_bit e : (Z.land (Z.shiftr (Z.land e GET_FLAGS) 9) 1 =? 1) = Z.testbit e 9.
Proof.
  change (present (Z.shiftr (Z.land e GET_FLAGS) 9) = Z.testbit e 9).
  rewrite present_testbit, Z.shiftr_spec, Z.land_spec by lia.
  change (Z.testbit GET_FLAGS (0 + 9)) with true. by rewrite andb_true_r.
Qed.

(** The page at [addr] is a copy-on-write page of the current address space, backed by
    frame [p], which [n] mappings share. *)
Record cow_page (m : machine) (roots l : list Z) (addr p n : Z) : Prop := {
  cw_inv : spaces_inv m roots l;
  cw_root : cr3 m ∈ roots;
  cw_kvb : kernel_virtual_base m = KERNEL_BASE;
  cw_addr : aligned addr;
  cw_user : table_offset 0 addr <> 511;
  cw_flag : Z.testbit (pte (ram (pm m)) (cr3 m) addr) 9 = true;
  cw_frame : Z.land (pte (ram (pm m)) (cr3 m) addr) MASK = p * 4096;
  cw_range : 0 < p < MAX_PAGES;
  cw_used : p ∉ l;
  cw_data : unused_frame (ram (pm m)) roots p;
  cw_refs : refs (pm m) p = n;
  cw_zero : 0 ∉ l;
  cw_room : MIN_PAGES + 8 <= Z.of_nat (length l)
}.

(** The first half of the handler: a new page with a copy of the contents. *)
Lemma cow_copy m roots l addr p :
  cow_page m roots l addr p 2 ->
  exists q l1 m1 m2, kmalloc PAGE_SIZE m = Ret (u64 (KERNEL_BASE + q * 4096), m1) /\
    walk_page_table (u64 (KERNEL_BASE + q * 4096)) m1 = Ret (q * 4096, m1) /\
    memcpy_va (u64 (KERNEL_BASE + q * 4096)) addr PAGE_SIZE m1 = Ret (tt, m2) /\
    spaces_inv m2 roots l1 /\ same_regs m m2 /\ q ∈ l /\ (q ∉ l1) /\ (p ∉ l1) /\ p <> q /\
    Z.of_nat (length l) <= Z.of_nat (length l1) + 4 /\ suffix l1 l /\
    unused_frame (ram (pm m2)) roots p /\ unused_frame (ram (pm m2)) roots q /\
    (forall i, 0 <= i < 512 -> word m2 (q * 4096 + 8 * i) = word m (p * 4096 + 8 * i)) /\
    (forall i, 0 <= i < 512 -> word m2 (p * 4096 + 8 * i) = word m (p * 4096 + 8 * i)) /\
    (forall root va, root ∈ roots -> table_offset 0 va <> 511 ->
       pte (ram (pm m2)) root va = pte (ram (pm m)) root va).
Proof.
  intros [Hinv Hroot Hkvb Haddr Huser Hflag Hframe Hp Hused Hdata Hrefs H0 Hroom].
  destruct (kmalloc_spec m roots l PAGE_SIZE) as (q & phs & m1 & l1 & Hk & Hlen & Hh);
    [done|done|by rewrite Hkvb|done|by change (pages_for PAGE_SIZE) with 1; lia|].
  change (pages_for PAGE_SIZE) with 1 in Hlen. destruct phs; [|cbn in Hlen; lia].
  destruct Hh as [Hinv1 Hregs1 Hpte1 Hoth1 Hfresh1 _ Hdata1 Hsub1 Hlen1].
  destruct (Hfresh1 q) as (Hql & Hql1 & Hqu); [by left|].
  pose proof (chain_range _ _ _ _ (inv_chain _ _ (sp_alloc _ _ _ Hinv)) Hql) as Hqr.
  assert (q <> 0) as Hq0 by (intros ->; done).
  assert (p <> q) as Hpq by (intros ->; done).
  assert (p ∉ l1) as Hpl1 by (intros Hin; apply Hused; by eapply suffix_elem).
  assert (0 <= q * 4096 < 2 ^ 31) as Hq31 by (unfold MAX_PAGES in Hqr; lia).
  assert (heap_va m (q * 4096) 0 = u64 (KERNEL_BASE + q * 4096)) as Hva.
  { unfold heap_va. rewrite Hkvb. change (u32 (0 * PAGE_SIZE)) with 0. by rewrite Z.add_0_r. }
  assert (forall root va, root ∈ roots -> table_offset 0 va <> 511 ->
            pte (ram (pm m1)) root va = pte (ram (pm m)) root va) as Hpte'.
  { intros root va Hr Hva'. apply Hoth1; [done|]. intros k Hkl. cbn in Hkl.
    assert (k = 0%nat) as -> by lia. rewrite Z.add_0_r, Hva. intros Heq.
    apply Hva'. apply (f_equal (fun x => x.1.1.1)) in Heq. simpl in Heq.
    by rewrite kernel_va_offset in Heq. }
  assert (Z.land (pte (ram (pm m1)) (cr3 m1) (u64 (KERNEL_BASE + q * 4096))) MASK = q * 4096) as Hqd.
  { pose proof (Hpte1 0%nat q eq_refl) as He. change (0 + Z.of_nat 0) with 0 in He.
    rewrite (sr_cr3 _ _ Hregs1), <- Hva, He.
    apply entry_mask; [by apply page_aligned|lia|done]. }
  assert (aligned (cr3 m1)) as Hc1 by (rewrite (sr_cr3 _ _ Hregs1); by apply Hinv).
  destruct (Hdata1 p Hused Hdata) as [Hpu Hpw].
  destruct (memcpy_page m1 roots l1 (u64 (KERNEL_BASE + q * 4096)) addr p q)
    as (m2 & Hcp & [Hinv2 Hregs2 Hpte2 Hun2 Hdone2 Hrest2 _]); try done.
  - by rewrite (sr_cr3 _ _ Hregs1).
  - apply kernel_va_aligned; [done|]. by apply Z.mod_mul.
  - lia.
  - lia.
  - by rewrite (sr_cr3 _ _ Hregs1), Hpte'.
  - exists q, l1, m1, m2. split_and!; try done.
    + by rewrite Hk, Hkvb.
    + by rewrite walk_ok, Hqd.
    + by eapply same_regs_trans.
    + auto.
    + auto.
    + intros i Hi. rewrite Hdone2 by done. apply Hpw. done.
    + intros i Hi. rewrite Hrest2 by (by rewrite frame_of_word). by apply Hpw.
    + intros root va Hr Hv. rewrite Hpte2 by done. by apply Hpte'.
Qed.

Lemma update_ok m roots l va pa flags :
  spaces_inv m roots l -> cr3 m ∈ roots -> flags_ok flags ->
  MIN_PAGES + 2 <= Z.of_nat (length l) ->
  exists m' l', update_page_tables va pa flags m = Ret (tt, m') /\
    mapped roots l (cr3 m) va (Z.lor pa flags) m m' l'.
Proof.
  intros Hinv Hroot Hf Hmin.
  destruct (map_page_ok m roots l (cr3 m) va pa flags) as (m' & l' & Hrun & Hm); [done..|].
  exists m', l'. split; [|done].
  unfold update_page_tables, get_cr3, gets. mstep. by rewrite Z.add_comm.
Qed.

Lemma flush_tlb_ok m : flush_tlb m = Ret (tt, m).
Proof. by destruct m. Qed.

(** The handler recognises the page and reads its frame and count. *)
Lemma page_fault_cow_enter m roots l addr p n :
  cow_page m roots l addr p n ->
  get_flags addr m = Ret (Z.land (pte (ram (pm m)) (cr3 m) addr) GET_FLAGS, m) /\
  (Z.land (Z.shiftr (Z.land (pte (ram (pm m)) (cr3 m) addr) GET_FLAGS) 9) 1 =? 1) = true /\
  walk_page_table addr m = Ret (p * 4096, m) /\
  call_pm (get_page_ref_count (p * 4096)) m = Ret (n, m).
Proof.
  intros [Hinv Hroot _ _ _ Hflag Hframe Hp _ _ Hrefs _ _].
  assert (aligned (cr3 m)) as Hc by (by apply Hinv). split_and!.
  - by apply get_flags_ok.
  - by rewrite cow_bit.
  - by rewrite walk_ok, Hframe.
  - by rewrite get_page_ref_count_ok, Hrefs by lia.
Qed.

(** copy-on-write, two sharers: the handler gives the faulting process a fresh frame
    [q], mapped writable at the faulting page and holding a copy of the shared
    contents; the old frame keeps its contents and is left with one reference; every
    other user page of this address space, and every user page of every other
    address space, is mapped as before. *)
Theorem page_fault_cow_private m roots l addr p fault_addr :
  cow_page m roots l addr p 2 -> fault_addr / PAGE_SIZE * PAGE_SIZE = addr ->
  exists q m' l', page_fault_cow fault_addr m = Ret (true, m') /\
    spaces_inv m' roots l' /\ same_regs m m' /\ q ∈ l /\ (q ∉ l') /\
    walk_page_table addr m' = Ret (q * 4096, m') /\
    get_flags addr m' = Ret (PAGING_USER_R_W_FLAGS, m') /\
    (forall i, 0 <= i < 512 -> word m' (q * 4096 + 8 * i) = word m (p * 4096 + 8 * i)) /\
    (forall i, 0 <= i < 512 -> word m' (p * 4096 + 8 * i) = word m (p * 4096 + 8 * i)) /\
    refs (pm m') p = 1 /\
    (forall root va, root ∈ roots -> table_offset 0 va <> 511 ->
       root <> cr3 m \/ vpn addr <> vpn va ->
       pte (ram (pm m')) root va = pte (ram (pm m)) root va) /\
    (p ∉ l') /\ unused_frame (ram (pm m')) roots p /\ unused_frame (ram (pm m')) roots q /\ suffix l' l /\
    Z.of_nat (length l) <= Z.of_nat (length l') + 7.
Proof.
  intros Hcow Hfa. destruct (page_fault_cow_enter _ _ _ _ _ _ Hcow) as (Hf & Hbit & Hw & Hrc).
  destruct (cow_copy m roots l addr p Hcow) as (q & l1 & m1 & m2 & Hk & Hw1 & Hcp & Hinv2 & Hregs2
    & Hql & Hql1 & Hpl1 & Hpq & Hlen & Hsub1 & Hpu & Hqu & Hqc & Hpc & Hoth).
  destruct Hcow as [Hinv Hroot Hkvb Haddr Huser _ _ Hp Hused Hdata _ H0 Hroom].
  pose proof (chain_range _ _ _ _ (inv_chain _ _ (sp_alloc _ _ _ Hinv)) Hql) as Hqr.
  assert (cr3 m2 = cr3 m) as Hc2 by apply Hregs2.
  destruct (update_ok m2 roots l1 addr (q * 4096) PAGING_USER_R_W_FLAGS)
    as (m3 & l3 & Hup & [Hinv3 Hregs3 Hself3 Hoth3 Hdata3 Hsub3 Hlen3]);
    [done|by rewrite Hc2|auto with snow|lia|].
  assert (forall x, x ∉ l1 -> x ∉ l3) as Hsub by (intros x Hx Hx'; eauto using suffix_elem).
  destruct (set_ref_ok m3 roots l3 p 1) as (m4 & Hset & Hinv4 & Hregs4 & Hram4 & Hrefs4);
    [done|lia|by apply Hsub|].
  assert (same_regs m m4) as Hregs by eauto using same_regs_trans.
  assert (cr3 m4 = cr3 m) as Hc4 by apply Hregs.
  assert (aligned (cr3 m4)) as Hal4 by (rewrite Hc4; by apply Hinv).
  assert (aligned (q * 4096)) as [Hqa Hqm] by (by apply page_aligned).
  exists q, m4, l3. split_and!; try done.
  - unfold page_fault_cow. rewrite Hfa, (bind_ret _ _ _ _ _ Hf), Hbit.
    rewrite (bind_ret _ _ _ _ _ Hw), (bind_ret _ _ _ _ _ Hrc). simpl (2 =? 2).
    rewrite (bind_ret _ _ _ tt m4); [by rewrite (bind_ret _ _ _ _ _ (flush_tlb_ok _))|].
    rewrite (bind_ret _ _ _ _ _ Hk), (bind_ret _ _ _ _ _ Hw1), (bind_ret _ _ _ _ _ Hcp).
    by rewrite (bind_ret _ _ _ _ _ Hup).
  - by apply Hsub.
  - rewrite walk_ok, Hram4, Hc4, <- Hc2, Hself3, decide_True by done.
    rewrite entry_mask; [done|done|unfold MASK in Hqa; lia|done].
  - rewrite get_flags_ok, Hram4, Hc4, <- Hc2, Hself3, decide_True by done.
    rewrite entry_flags; done.
  - intros i Hi. destruct (Hdata3 q Hql1 Hqu) as [_ Hq3]. unfold word at 1.
    by rewrite Hram4, Hq3, <- Hqc.
  - intros i Hi. destruct (Hdata3 p Hpl1 Hpu) as [_ Hp3]. unfold word at 1.
    by rewrite Hram4, Hp3, <- Hpc.
  - intros root va Hr Hva Hne. rewrite Hram4, <- Hoth by done.
    destruct (decide (root = cr3 m2)) as [->|Hne2].
    + rewrite Hself3, decide_False; [done|]. destruct Hne; [by rewrite Hc2 in *|done].
    + apply Hoth3; auto.
  - by apply Hsub.
  - rewrite Hram4. by apply (Hdata3 p Hpl1 Hpu).
  - rewrite Hram4. by apply (Hdata3 q Hql1 Hqu).
  - by etransitivity.
  - lia.
Qed.

(** copy-on-write, last owner: when one reference is left the handler makes the page
    writable in place: it is mapped to the same frame, no page of data changes,
    and no other user page of any address space changes. *)
Theorem page_fault_cow_last m roots l addr p fault_addr :
  cow_page m roots l addr p 1 -> fault_addr / PAGE_SIZE * PAGE_SIZE = addr ->
  exists m' l', page_fault_cow fault_addr m = Ret (true, m') /\
    spaces_inv m' roots l' /\ same_regs m m' /\
    walk_page_table addr m' = Ret (p * 4096, m') /\
    get_flags addr m' = Ret (PAGING_USER_R_W_FLAGS, m') /\
    data_kept roots l (ram (pm m)) (ram (pm m')) /\
    (forall root va, root ∈ roots -> table_offset 0 va <> 511 ->
       root <> cr3 m \/ vpn addr <> vpn va ->
       pte (ram (pm m')) root va = pte (ram (pm m)) root va) /\
    suffix l' l.
Proof.
  intros Hcow Hfa. destruct (page_fault_cow_enter _ _ _ _ _ _ Hcow) as (Hf & Hbit & Hw & Hrc).
  destruct Hcow as [Hinv Hroot Hkvb Haddr Huser _ _ Hp Hused Hdata _ H0 Hroom].
  destruct (update_ok m roots l addr (p * 4096) PAGING_USER_R_W_FLAGS)
    as (m' & l' & Hup & [Hinv' Hregs Hself Hoth Hkept Hsub _]); [done|done|auto with snow|lia|].
  assert (cr3 m' = cr3 m) as Hc by apply Hregs.
  assert (aligned (cr3 m')) as Hal by (rewrite Hc; by apply Hinv).
  assert (aligned (p * 4096)) as [Hpa Hpm] by (apply page_aligned; lia).
  exists m', l'. split_and!; try done.
  - unfold page_fault_cow. rewrite Hfa, (bind_ret _ _ _ _ _ Hf), Hbit.
    rewrite (bind_ret _ _ _ _ _ Hw), (bind_ret _ _ _ _ _ Hrc). simpl (1 =? 2).
    rewrite (bind_ret _ _ _ tt m'); [by rewrite (bind_ret _ _ _ _ _ (flush_tlb_ok _))|].
    by rewrite (bind_ret _ _ _ _ _ Hrc).
  - rewrite walk_ok, Hc, Hself, decide_True by done.
    rewrite entry_mask; [done|done|unfold MASK in Hpa; lia|done].
  - rewrite get_flags_ok, Hc, Hself, decide_True by done. rewrite entry_flags; done.
  - intros root va Hr Hva Hne. destruct (decide (root = cr3 m)) as [->|Hne2].
    + rewrite Hself, decide_False; [done|]. by destruct Hne.
    + apply Hoth; auto.
Qed.

(** ** A machine with a shared page *)

Definition COW_USER_FLAGS : Z := 0x205.

Definition shared_page (n : Z) : M machine unit :=
  a ← call_pm get_free_page;
  update_page_tables 0x400000 a COW_USER_FLAGS ≫= fun _ =>
  call_pm (set_page_ref_count a n).

Definition demo_cow (n : Z) : machine :=
  match shared_page n demo_machine with Ret (_, m) => m | _ => demo_machine end.

Lemma shared_page_ok m root p l n :
  spaces_inv m [root] (p :: l) -> cr3 m = root -> kernel_virtual_base m = KERNEL_BASE ->
  0 ∉ p :: l -> MIN_PAGES + 12 <= Z.of_nat (length l) ->
  exists m' l', shared_page n m = Ret (tt, m') /\ cow_page m' [root] l' 0x400000 p n.
Proof.
  intros Hinv Hroot Hkvb H0 Hlen. pose proof (sp_alloc _ _ _ Hinv) as Hal.
  pose proof (inv_nodup _ _ Hal) as [Hpl _]%list.NoDup_cons.
  assert (0 <= p < MAX_PAGES) as Hp by (eapply chain_range; [apply Hal|by left]).
  apply not_elem_of_cons in H0 as [Hp0 H0].
  destruct (alloc_ok m p l) as (s1 & Hr1 & Hal1 & Hram1 & _); [done|cbn [length]; lia|].
  assert (spaces_inv (set_pm s1 m) [root] l) as Hinv1 by (by eapply spaces_inv_alloc).
  destruct (update_ok (set_pm s1 m) [root] l 0x400000 (p * 4096) COW_USER_FLAGS)
    as (m2 & l2 & Hr2 & [Hinv2 Hg2 Hself2 _ Hdata2 Hsub2 Hlen2]);
    [done|simpl; rewrite Hroot; by left|by split|lia|].
  assert (forall x, x ∉ l -> x ∉ l2) as Hl2 by eauto using suffix_elem.
  destruct (set_ref_ok m2 [root] l2 p n) as (m3 & Hr3 & Hinv3 & Hg3 & Hram3 & Hrefs3);
    [done|done|by apply Hl2|].
  assert (same_regs m (set_pm s1 m)) as Hg1 by done.
  assert (same_regs m m3) as Hg by eauto using same_regs_trans.
  assert (pte (ram (pm m3)) (cr3 m3) 0x400000 = Z.lor (p * 4096) COW_USER_FLAGS) as Hpte.
  { rewrite Hram3, (sr_cr3 _ _ Hg). exact (Hself2 0x400000). }
  exists m3, l2. split.
  { unfold shared_page. by rewrite (bind_ret _ _ _ _ _ Hr1), (bind_ret _ _ _ _ _ Hr2). }
  destruct (page_aligned p Hp) as [Hpa Hpm]. split; try done; try lia.
  - rewrite (sr_cr3 _ _ Hg), Hroot. by left.
  - by rewrite (sr_kvb _ _ Hg).
  - rewrite Hpte, Z.lor_spec. apply orb_true_r.
  - rewrite Hpte, entry_mask; [done|done|unfold MASK in Hpa; lia|done].
  - by apply Hl2.
  - rewrite Hram3. apply Hdata2; [done|]. simpl. rewrite Hram1.
    apply (sp_free _ _ _ Hinv). by left.
  - by apply Hl2.
Qed.

Lemma demo_cow_page n : exists l, cow_page (demo_cow n) [4096] l 0x400000 2 n.
Proof.
  destruct (shared_page_ok demo_machine 4096 2 (seqZ 3 37) n) as (m' & l' & Hrun & Hcow).
  - exact demo_machine_inv.
  - done.
  - done.
  - change (2 :: seqZ 3 37) with (seqZ 2 38). rewrite elem_of_seqZ. lia.
  - by vm_compute.
  - exists l'. unfold demo_cow. by rewrite Hrun.
Qed.

Lemma page_fault_cow_private_witness :
  exists q m', page_fault_cow 0x400123 (demo_cow 2) = Ret (true, m') /\
    walk_page_table 0x400000 m' = Ret (q * 4096, m') /\ refs (pm m') 2 = 1.
Proof.
  destruct (demo_cow_page 2) as [l Hcow].
  destruct (page_fault_cow_private (demo_cow 2) [4096] l 0x400000 2 0x400123 Hcow eq_refl)
    as (q & m' & l' & Hrun & _ & _ & _ & _ & Hw & _ & _ & _ & Hr & _).
  exists q, m'. split_and!; [exact Hrun|exact Hw|exact Hr].
Defined.

Lemma page_fault_cow_last_witness :
  exists m', page_fault_cow 0x400123 (demo_cow 1) = Ret (true, m') /\
    walk_page_table 0x400000 m' = Ret (2 * 4096, m').
Proof.
  destruct (demo_cow_page 1) as [l Hcow].
  destruct (page_fault_cow_last (demo_cow 1) [4096] l 0x400000 2 0x400123 Hcow eq_refl)
    as (m' & l' & Hrun & _ & _ & Hw & _).
  exists m'. split; [exact Hrun|exact Hw].
Defined.

Lemma kmalloc_contiguous_witness :
  exists addr (frames : list Z) m', kmalloc 10000 demo_machine = Ret (addr, m') /\
    Z.of_nat (length frames) = 3 /\ NoDup frames.
Proof.
  destruct (kmalloc_contiguous demo_machine [4096] (seqZ 2 38) 10000 demo_machine_inv demo_root
    eq_refl ltac:(lia) ltac:(by vm_compute)) as (addr & frames & m' & l' & Hrun & _ & Hlen & Hnd & _).
  exists addr, frames, m'. split_and!; [exact Hrun|exact Hlen|exact Hnd].
Defined.
