(* ===== verification/CowFork.v ===== *)
(** * [cow_page_tables]: sharing an address space

    The copy of the page tables of a process for its child ([sys/paging.c]) against the
    abstract view of [PageTable]: the child maps the pages of its parent, both mark them read-only and
    copy-on-write, and nothing else changes. *)

From S2P Require Import Prelude PhysMem Paging PageTable PagingSpec Cow.

(** ** Entries *)

(** What the parent's entry becomes, and the child's. *)
Definition cow_entry (e : Z) : Z := Z.lor (Z.land e TURN_OFF_RW) COW_FLAG.
Definition cow_parent (e : Z) : Z := if present e then cow_entry e else e.
Definition cow_child (e : Z) : Z := if present e then cow_entry e else 0.

Lemma cow_entry_present e : present (cow_entry e) = present e.
Proof.
  rewrite !present_testbit. unfold cow_entry. rewrite Z.lor_spec, Z.land_spec.
  change (Z.testbit TURN_OFF_RW 0) with true. change (Z.testbit COW_FLAG 0) with false.
  by rewrite andb_true_r, orb_false_r.
Qed.

Lemma turn_off_testbit n : 0 <= n < 64 -> Z.testbit TURN_OFF_RW n = negb (n =? 1).
Proof.
  intros Hn. change TURN_OFF_RW with (Z.lxor (Z.ones 64) 2). rewrite Z.lxor_spec, Z.testbit_ones_nonneg by lia.
  destruct (Z.ltb_spec n 64); [|lia]. change 2 with (2 ^ 1). rewrite Z.pow2_bits_eqb by lia.
  rewrite Z.eqb_sym. by destruct (n =? 1).
Qed.

Lemma cow_flag_testbit n : 0 <= n -> Z.testbit COW_FLAG n = (n =? 9).
Proof. intros Hn. change COW_FLAG with (2 ^ 9). rewrite Z.pow2_bits_eqb by lia. apply Z.eqb_sym. Qed.

Lemma cow_entry_bit e n : 0 <= n < 64 -> Z.testbit (cow_entry e) n = (Z.testbit e n && negb (n =? 1)) || (n =? 9).
Proof.
  intros Hn. unfold cow_entry. rewrite Z.lor_spec, Z.land_spec, turn_off_testbit, cow_flag_testbit by lia. done.
Qed.

Lemma cow_entry_mask e : Z.land (cow_entry e) MASK = Z.land e MASK.
Proof.
  apply Z.bits_inj'. intros n Hn. rewrite !Z.land_spec, mask_testbit.
  destruct (Z.leb_spec 12 n), (Z.ltb_spec n 64); cbn [andb]; rewrite ?andb_false_r; try done.
  rewrite cow_entry_bit by lia. destruct (Z.eqb_spec n 1), (Z.eqb_spec n 9); try lia. cbn [negb]. by rewrite andb_true_r, orb_false_r.
Qed.

Lemma cow_parent_present e : present (cow_parent e) = present e.
Proof. unfold cow_parent. destruct (present e) eqn:H; [by rewrite cow_entry_present|done]. Qed.

Lemma cow_parent_mask e : Z.land (cow_parent e) MASK = Z.land e MASK.
Proof. unfold cow_parent. destruct (present e); [apply cow_entry_mask|done]. Qed.

(** ** Addresses by their indices *)

Definition agree_lt (d : nat) (va va' : Z) : Prop := forall i, (i < d)%nat -> table_offset i va = table_offset i va'.

(** The address with the indices of [va], but [i] at depth [d]. *)
Definition with_index (d : nat) (i va : Z) : Z :=
  let f k := if decide (k = d) then i else table_offset k va in
  f 0%nat * 2 ^ 39 + f 1%nat * 2 ^ 30 + f 2%nat * 2 ^ 21 + f 3%nat * 2 ^ 12.

Lemma offset_of_indices k a b c e :
  (k <= 3)%nat -> 0 <= a < 512 -> 0 <= b < 512 -> 0 <= c < 512 -> 0 <= e < 512 ->
  table_offset k (a * 2 ^ 39 + b * 2 ^ 30 + c * 2 ^ 21 + e * 2 ^ 12) = nth k [a; b; c; e] 0.
Proof.
  intros Hk Ha Hb Hc He. rewrite table_offset_div by done.
  do 4 (destruct k as [|k]; [cbn [nth]; change (Z.of_nat 0) with 0; change (Z.of_nat 1) with 1;
    change (Z.of_nat 2) with 2; change (Z.of_nat 3) with 3; cbn; Z.div_mod_to_equations; lia|]). lia.
Qed.

Lemma table_offset_with d i va k : (d <= 3)%nat -> (k <= 3)%nat -> 0 <= i < 512 ->
  table_offset k (with_index d i va) = if decide (k = d) then i else table_offset k va.
Proof.
  intros Hd Hk Hi. unfold with_index. rewrite offset_of_indices;
    [|done|case_decide; [done|apply table_offset_range]..].
  do 4 (destruct k as [|k]; [done|]). lia.
Qed.

Lemma agree_lt_with d i va : (d <= 3)%nat -> 0 <= i < 512 -> agree_lt d (with_index d i va) va.
Proof. intros Hd Hi k Hk. rewrite table_offset_with by lia. by rewrite decide_False by lia. Qed.

(** The addresses below entry [i] of the table for [va] at depth [d]. *)
Lemma agree_lt_entry d i va va' : (d <= 3)%nat -> 0 <= i < 512 ->
  agree_lt (S d) (with_index d i va) va' <-> agree_lt d va va' /\ table_offset d va' = i.
Proof.
  intros Hd Hi. split.
  - intros H. split.
    + intros k Hk. rewrite <- (H k) by lia. rewrite table_offset_with by lia. by rewrite decide_False by lia.
    + rewrite <- (H d) by lia. rewrite table_offset_with by lia. by rewrite decide_True.
  - intros [H <-] k Hk. rewrite table_offset_with by lia. case_decide as E; [by subst|]. apply H. lia.
Qed.

(** ** One stretch of the copy *)

Section copy.
Context (roots : list Z) (root child : Z).

(** A user address whose page in the address space [root] is frame [p]. *)
Definition on_frame (m : machine) (va p : Z) : Prop :=
  present (pte (ram (pm m)) root va) = true /\ Z.land (pte (ram (pm m)) root va) MASK = p * 4096.

(** From [m] to [m'] the pages of the addresses in [P] have been shared; [l] and [l'] are the free lists. *)
Record shared (P : Z -> Prop) (m : machine) (l : list Z) (m' : machine) (l' : list Z) : Prop := {
  sh_inv : spaces_inv m' (child :: roots) l';
  sh_regs : same_regs m m';
  sh_sub : suffix l' l;
  sh_tables : forall x va d, x ∈ roots -> (d <= 3)%nat ->
    table_at (ram (pm m')) x va d = table_at (ram (pm m)) x va d;
  sh_child_tables : forall va d, ~ P va -> (d <= 3)%nat ->
    table_at (ram (pm m')) child va d = table_at (ram (pm m)) child va d;
  sh_rest : forall x va, x ∈ child :: roots -> ~ P va -> pte (ram (pm m')) x va = pte (ram (pm m)) x va;
  sh_others : forall x va, x ∈ roots -> x <> root -> pte (ram (pm m')) x va = pte (ram (pm m)) x va;
  sh_parent : forall va, P va -> pte (ram (pm m')) root va = cow_parent (pte (ram (pm m)) root va);
  sh_child : forall va, P va -> pte (ram (pm m')) child va = cow_child (pte (ram (pm m)) root va);
  sh_data : data_kept (child :: roots) l (ram (pm m)) (ram (pm m'));
  sh_refs : forall p, p ∉ l -> refs (pm m') p = refs (pm m) p \/
    (refs (pm m) p = 1 /\ refs (pm m') p = 2 /\ exists va, P va /\ on_frame m va p);
  sh_counted : forall va p, P va -> on_frame m va p -> p ∉ l -> refs (pm m) p = 1 -> refs (pm m') p = 2
}.

Lemma shared_ext P Q m l m' l' : (forall va, P va <-> Q va) -> shared P m l m' l' -> shared Q m l m' l'.
Proof.
  intros E [H1 H2 H3 H4 H5 H6 H7 H8 H9 H10 H11 H12]. split; try done.
  - intros va d Hn. apply H5. by rewrite E.
  - intros x va Hx Hn. apply H6; [done|]. by rewrite E.
  - intros va Hv. by apply H8, E.
  - intros va Hv. by apply H9, E.
  - intros p Hp. destruct (H11 p Hp) as [?|(? & ? & va & Hv & ?)]; [by left|right]. split_and!; [done..|].
    exists va. by rewrite <- E.
  - intros va p Hv. by apply H12, E.
Qed.

Context (Hroot : root ∈ roots).

Lemma shared_trans P Q m l m1 l1 m2 l2 :
  (forall va, P va -> ~ Q va) -> shared P m l m1 l1 -> shared Q m1 l1 m2 l2 ->
  (forall va, {P va} + {~ P va}) -> shared (fun va => P va \/ Q va) m l m2 l2.
Proof.
  intros Hd [I1 R1 S1 T1 C1 N1 O1 A1 B1 D1 F1 G1] [I2 R2 S2 T2 C2 N2 O2 A2 B2 D2 F2 G2] dec.
  assert (forall q, q ∉ l -> q ∉ l1) as Hl by (intros q Hq Hin; eauto using suffix_elem).
  assert (forall va p, ~ P va -> on_frame m1 va p <-> on_frame m va p) as Hof.
  { intros va p Hp. unfold on_frame. rewrite N1 by (done || by right). done. }
  split.
  - done.
  - by eapply same_regs_trans.
  - by etransitivity.
  - intros. by rewrite T2, T1.
  - intros va d HP Hd'. rewrite C2, C1; tauto.
  - intros x va Hx HP. rewrite N2, N1; tauto.
  - intros. by rewrite O2, O1.
  - intros va [HP|HQ]; [rewrite N2 by (by right || by apply Hd); auto|].
    rewrite A2 by done. rewrite N1; [done|by right|]. intros HP. by apply (Hd va).
  - intros va [HP|HQ]; [rewrite N2 by (by left || by apply Hd); auto|].
    rewrite B2 by done. rewrite N1; [done|by right|]. intros HP. by apply (Hd va).
  - eapply data_kept_trans; [|exact D1|exact D2]. eauto using suffix_elem.
  - intros p Hp. destruct (F2 p (Hl p Hp)) as [E2|(E1 & E2 & va & HQ & Hva)], (F1 p Hp) as [E1'|(E1' & E2' & va' & HP & Hva')].
    + left. congruence.
    + right. split_and!; [done|congruence|]. exists va'. split; [by left|done].
    + right. split_and!; [congruence|done|]. exists va. split; [by right|]. apply Hof; [|done]. intros HP. by apply (Hd va).
    + lia.
  - intros va p HPQ Hva Hp H1. destruct (dec va) as [HP|HnP].
    + destruct (F2 p (Hl p Hp)) as [E2|(E1 & E2 & _)]; [rewrite E2; eauto|done].
    + destruct HPQ as [?|HQ]; [done|]. destruct (F1 p Hp) as [E|(_ & E & _)].
      * apply (G2 va); [done|by apply Hof|auto|congruence].
      * destruct (F2 p (Hl p Hp)) as [E2|(E1 & E2 & _)]; congruence.
Qed.

Lemma shared_none P m l : spaces_inv m (child :: roots) l ->
  (forall va, P va -> present (pte (ram (pm m)) root va) = false /\ pte (ram (pm m)) child va = 0) ->
  shared P m l m l.
Proof.
  intros Hi HP. split; try done.
  - intros va Hva. unfold cow_parent. by rewrite (proj1 (HP va Hva)).
  - intros va Hva. unfold cow_child. rewrite (proj1 (HP va Hva)). apply (HP va Hva).
  - by left.
  - intros va p Hva [Hf _]. rewrite (proj1 (HP va Hva)) in Hf. done.
Qed.

(** ** Allocation and reference counts *)

Lemma alloc_refs m p l :
  alloc_inv (pm m) (p :: l) -> MIN_PAGES <= Z.of_nat (length (p :: l)) ->
  exists s', call_pm get_free_page m = Ret (p * 4096, set_pm s' m) /\ alloc_inv s' l /\ ram s' = ram (pm m) /\
    0 <= p < MAX_PAGES /\ (forall q, q <> p -> refs s' q = refs (pm m) q).
Proof.
  intros Hinv Hmin. destruct (get_free_page_ok _ _ _ Hinv Hmin) as (nx & Heq & Hinv').
  eexists. split; [by apply zoom_ret|]. split_and!; try done;
    [destruct (inv_chain _ _ Hinv) as (_ & Hp & _); lia..|].
  intros q Hq. unfold refs. simpl. by rewrite lookup_insert_ne.
Qed.

(** The reference count of a shared frame. *)
Definition count_sharer (a : Z) : M machine unit :=
  rc ← call_pm (get_page_ref_count a); if rc =? 1 then call_pm (set_page_ref_count a 2) else mret tt.

Lemma count_sharer_ok m rs l p :
  spaces_inv m rs l -> 0 <= p < MAX_PAGES -> p ∉ l ->
  exists m', count_sharer (p * 4096) m = Ret (tt, m') /\ spaces_inv m' rs l /\ same_regs m m' /\
    ram (pm m') = ram (pm m) /\
    refs (pm m') p = (if refs (pm m) p =? 1 then 2 else refs (pm m) p) /\
    (forall q, q <> p -> refs (pm m') q = refs (pm m) q).
Proof.
  intros Hinv Hp Hpl. unfold count_sharer. rewrite (bind_ret _ _ _ _ _ (get_page_ref_count_ok m p Hp)).
  destruct (refs (pm m) p =? 1) eqn:E; [|by exists m].
  destruct (set_ref_ok m rs l p 2 Hinv Hp Hpl) as (m' & Hrun & Hi & Hg & Hr & Hc). exists m'. split_and!; try done.
  intros q Hq. revert Hrun. unfold call_pm, zoom, set_page_ref_count. mstep. change 4096 with PAGE_SIZE.
  rewrite page_addr_div, read_desc_in by done. simpl. rewrite write_desc_in by done. intros [= <-]. simpl.
  rewrite refs_insert. by rewrite decide_False.
Qed.

(** ** One entry of a last-level table *)

Lemma set_word_twice a v w m : set_word a w (set_word a v m) = set_word a w m.
Proof. destruct m as [s ? ? ?]. destruct s. unfold set_word, set_pm, set_ram. simpl. by rewrite insert_insert_eq. Qed.

(** The frames of the user pages of [root] have a descriptor, and are not free. *)
Definition frames_used (m : machine) (l : list Z) : Prop :=
  forall va, table_offset 0 va <> 511 -> present (pte (ram (pm m)) root va) = true ->
    exists p, Z.land (pte (ram (pm m)) root va) MASK = p * 4096 /\ 0 <= p < MAX_PAGES /\ p ∉ l.

Lemma frames_used_shared P m l m' l' : (forall va, {P va} + {~ P va}) ->
  shared P m l m' l' -> frames_used m l -> frames_used m' l'.
Proof.
  intros dec H Hf va Hva Hp.
  assert (present (pte (ram (pm m)) root va) = true /\ Z.land (pte (ram (pm m')) root va) MASK = Z.land (pte (ram (pm m)) root va) MASK) as [Hp' Hm].
  { destruct (dec va) as [HP|HP].
    - rewrite (sh_parent _ _ _ _ _ H va HP), cow_parent_present in Hp. by rewrite (sh_parent _ _ _ _ _ H va HP), cow_parent_mask.
    - rewrite (sh_rest _ _ _ _ _ H root va) in * by (done || by right). done. }
  destruct (Hf va Hva Hp') as (p & E & Hr & Hl). exists p. rewrite Hm. split_and!; try done; try lia.
  intros Hin. apply Hl. eapply suffix_elem; [apply H|done].
Qed.

Context (Hnew : child ∉ roots).

Lemma root_not_child : root <> child.
Proof. intros ->. done. Qed.

(** Writing the same entry into the leaves for [va] of the parent and of the child. *)
Lemma share_leaf m l va tp tc e :
  spaces_inv m (child :: roots) l -> table_offset 0 va <> 511 ->
  table_at (ram (pm m)) root va 3 = Some tp -> table_at (ram (pm m)) child va 3 = Some tc ->
  let m' := set_word (tc + 8 * table_offset 3 va) e (set_word (tp + 8 * table_offset 3 va) e m) in
  spaces_inv m' (child :: roots) l /\
  (forall x va' d, x ∈ child :: roots -> (d <= 3)%nat -> table_at (ram (pm m')) x va' d = table_at (ram (pm m)) x va' d) /\
  (forall x va', x ∈ child :: roots -> pte (ram (pm m')) x va' =
     if decide (vpn va = vpn va' /\ (x = root \/ x = child)) then e else pte (ram (pm m)) x va') /\
  data_kept (child :: roots) l (ram (pm m)) (ram (pm m')).
Proof.
  intros Hinv Hva Htp Htc m'. pose proof root_not_child as Hne.
  assert (root ∈ child :: roots) as Hr by (by right). assert (child ∈ child :: roots) as Hc by (by left).
  set (m1 := set_word (tp + 8 * table_offset 3 va) e m).
  destruct (leaf_mapped m (child :: roots) l root va tp e Hinv Hr Htp) as [I1 _ A1 B1 D1 _ _]. fold m1 in I1, A1, B1, D1.
  assert (forall x va' d, x ∈ child :: roots -> (d <= 3)%nat -> table_at (ram (pm m1)) x va' d = table_at (ram (pm m)) x va' d) as T1.
  { intros x va' d Hx Hd. apply (leaf_tables _ (child :: roots) root va); try done; [apply Hinv|]. unfold slot. by rewrite Htp. }
  assert (table_at (ram (pm m1)) child va 3 = Some tc) as Htc1 by (by rewrite T1).
  destruct (leaf_mapped m1 (child :: roots) l child va tc e I1 Hc Htc1) as [I2 _ A2 B2 D2 _ _]. fold m' in I2, A2, B2, D2.
  split_and!; [done| | |].
  - intros x va' d Hx Hd. rewrite <- T1 by done. apply (leaf_tables (ram (pm m1)) (child :: roots) child va); try done; [apply I1|].
    unfold slot. by rewrite Htc1.
  - intros x va' Hx. destruct (decide (x = child)) as [->|Hxc].
    + rewrite A2. destruct (decide (vpn va = vpn va')) as [E|E].
      * rewrite decide_True by auto. done.
      * rewrite decide_False by tauto. by rewrite B1 by auto.
    + rewrite B2 by auto. destruct (decide (x = root)) as [->|Hxr].
      * rewrite A1. destruct (decide (vpn va = vpn va')) as [E|E].
        -- rewrite decide_True by auto. done.
        -- rewrite decide_False by tauto. done.
      * rewrite B1 by auto. rewrite decide_False by tauto. done.
  - by eapply data_kept_trans; [|exact D1|exact D2].
Qed.

Lemma agree_lt_vpn va va' : agree_lt 4 va va' <-> vpn va = vpn va'.
Proof. rewrite <- agree_vpn. unfold agree, agree_lt. split; intros H i Hi; apply H; lia. Qed.

Lemma cow_pte_entry_ok m l va tp tc :
  spaces_inv m (child :: roots) l -> frames_used m l -> table_offset 0 va <> 511 ->
  table_at (ram (pm m)) root va 3 = Some tp -> table_at (ram (pm m)) child va 3 = Some tc ->
  pte (ram (pm m)) child va = 0 ->
  exists m', cow_pte_entry (u64 (kernel_virtual_base m + tc)) (u64 (kernel_virtual_base m + tp)) (table_offset 3 va) m = Ret (tt, m') /\
    shared (agree_lt 4 va) m l m' l.
Proof.
  intros Hinv Hfr Hva Htp Htc H0. pose proof root_not_child as Hne.
  assert (aligned tp) as Hap by (eapply table_at_aligned; [by apply Hinv; right|exact Htp]).
  assert (aligned tc) as Hac by (eapply table_at_aligned; [by apply Hinv; left|exact Htc]).
  set (a := tp + 8 * table_offset 3 va). set (e := pte (ram (pm m)) root va).
  assert (word m a = e) as He by (unfold e, pte, slot; by rewrite Htp).
  unfold cow_pte_entry. rewrite (bind_ret _ _ _ _ _ (load64_table m tp 3 va Hap)). fold a. rewrite He.
  destruct (present e) eqn:Hp.
  2: { exists m. split; [done|]. apply shared_none; [done|]. intros va' Hv%agree_lt_vpn. rewrite <- !(pte_vpn _ _ va va') by done. done. }
  destruct (Hfr va Hva Hp) as (p & Hfp & Hpr & Hpl). fold e in Hfp.
  rewrite (bind_ret _ _ _ _ _ (store64_table m tp 3 va _ Hap)). fold a.
  rewrite (bind_ret _ _ _ _ _ (load64_table (set_word a _ m) tp 3 va Hap)). fold a.
  assert (forall v x, word (set_word a v x) a = v) as Hw by (intros v x; unfold word; rewrite set_word_ram, ram_word_insert; by rewrite decide_True).
  rewrite Hw. rewrite (bind_ret _ _ _ _ _ (store64_table (set_word a _ m) tp 3 va _ Hap)). fold a.
  rewrite set_word_twice. fold (cow_entry e).
  rewrite (bind_ret _ _ _ _ _ (load64_table (set_word a _ m) tp 3 va Hap)). fold a. rewrite Hw.
  rewrite (bind_ret _ _ _ _ _ (store64_table (set_word a _ m) tc 3 va _ Hac)). rewrite cow_entry_mask, Hfp. cbv zeta.
  destruct (share_leaf m l va tp tc (cow_entry e) Hinv Hva Htp Htc) as (I1 & T1 & P1 & D1). fold a in I1, T1, P1, D1.
  set (m1 := set_word _ _ _) in *.
  destruct (count_sharer_ok m1 _ l p I1 Hpr Hpl) as (m' & Hrun & I2 & G2 & R2 & C2 & N2).
  exists m'. split; [exact Hrun|].
  assert (forall q, refs (pm m1) q = refs (pm m) q) as Hrf by done.
  split; rewrite ?R2; try done.
  - by eapply same_regs_trans; [|exact G2].
  - intros. apply T1; [by right|done].
  - intros. apply T1; [by left|done].
  - intros x va' Hx HP. rewrite agree_lt_vpn in HP. rewrite P1 by done. by rewrite decide_False by tauto.
  - intros x va' Hx Hxr. rewrite P1 by (by right). rewrite decide_False; [done|]. intros [_ [?| ->]]; done.
  - intros va' Hv%agree_lt_vpn. rewrite P1 by (by right). rewrite decide_True by auto. rewrite <- (pte_vpn _ _ va va') by done. unfold cow_parent. fold e. by rewrite Hp.
  - intros va' Hv%agree_lt_vpn. rewrite P1 by (by left). rewrite decide_True by auto. rewrite <- (pte_vpn _ _ va va') by done. unfold cow_child. fold e. by rewrite Hp.
  - intros q Hq. destruct (decide (q = p)) as [->|Hqp]; [|left; by rewrite N2].
    rewrite C2, Hrf. destruct (Z.eqb_spec (refs (pm m) p) 1) as [E|E]; [right|by left]. split_and!; [done..|].
    exists va. split; [done|]. by split.
  - intros va' q Hv%agree_lt_vpn [_ Hq] _ H1. rewrite <- (pte_vpn _ _ va va') in Hq by done. fold e in Hq.
    assert (q = p) as -> by lia. rewrite C2, Hrf, H1. done.
Qed.

(** ** The tables of the parent *)

(** The number of tables below the entry for [va] in a table with [k] levels below it. *)
Fixpoint entry_tables (r : gmap Z Z) (k : nat) (va : Z) : nat :=
  match k with
  | O => O
  | S k' => match table_at r root va (3 - k') with
            | Some _ => S (list_sum ((fun i => entry_tables r k' (with_index (3 - k') i va)) <$> seqZ 0 512))
            | None => O
            end
  end.

(** ... below the first [n] entries of the table for [va] at depth [d]. *)
Definition tables_below (r : gmap Z Z) (d : nat) (n va : Z) : nat :=
  list_sum ((fun i => entry_tables r (3 - d) (with_index d i va)) <$> seqZ 0 n).

Lemma entry_tables_upper r d va : (d < 3)%nat ->
  entry_tables r (3 - d) va = match table_at r root va (S d) with Some _ => S (tables_below r (S d) 512 va) | None => O end.
Proof. intros Hd. do 3 (destruct d as [|d]; [done|]). lia. Qed.

Lemma entry_tables_same r r' k : (forall va d, (d <= 3)%nat -> table_at r' root va d = table_at r root va d) ->
  forall va, entry_tables r' k va = entry_tables r k va.
Proof.
  intros H. induction k as [|k IH]; intros va; [done|]. cbn [entry_tables]. rewrite H by lia.
  destruct (table_at r root va (3 - k)); [|done]. f_equal. f_equal. apply list_fmap_ext. intros. apply IH.
Qed.

Lemma tables_below_same r r' d n va : (forall va d, (d <= 3)%nat -> table_at r' root va d = table_at r root va d) ->
  tables_below r' d n va = tables_below r d n va.
Proof. intros H. unfold tables_below. f_equal. apply list_fmap_ext. intros. by apply entry_tables_same. Qed.

Lemma list_sum_app l1 l2 : list_sum (l1 ++ l2) = (list_sum l1 + list_sum l2)%nat.
Proof. induction l1 as [|x l1 IH]; [done|]. simpl. rewrite IH. lia. Qed.

Lemma sum_step (f : Z -> nat) i : 0 <= i ->
  list_sum (f <$> seqZ 0 (i + 1)) = (list_sum (f <$> seqZ 0 i) + f i)%nat.
Proof.
  intros Hi. rewrite seqZ_app by lia. rewrite fmap_app, list_sum_app. f_equal.
  rewrite Z.add_0_l, seqZ_cons by lia. simpl. lia.
Qed.

Lemma sum_mono (f : Z -> nat) i n : 0 <= i <= n -> (list_sum (f <$> seqZ 0 i) <= list_sum (f <$> seqZ 0 n))%nat.
Proof.
  intros Hi. replace n with (i + (n - i)) by lia. rewrite seqZ_app by lia. rewrite fmap_app, list_sum_app. lia.
Qed.

(** ** What entries and loops do *)

(** The child has nothing at the addresses in [P] below depth [d]. *)
Definition bare (m : machine) (d : nat) (P : Z -> Prop) : Prop :=
  forall va, P va -> pte (ram (pm m)) child va = 0 /\ ((d < 3)%nat -> table_at (ram (pm m)) child va (S d) = None).

(** Before the table for [va] at depth [d] is copied, from [tp] to [tc]. *)
Record before_copy (m : machine) (l : list Z) (va : Z) (d : nat) (tp tc : Z) : Prop := {
  bc_inv : spaces_inv m (child :: roots) l;
  bc_frames : frames_used m l;
  bc_parent : table_at (ram (pm m)) root va d = Some tp;
  bc_child : table_at (ram (pm m)) child va d = Some tc
}.

(** [f child_table parent_table i] copies entry [i] of a table at depth [d]. *)
Definition copies_entry (d : nat) (f : Z -> Z -> Z -> M machine unit) : Prop :=
  forall m l va tp tc, before_copy m l va d tp tc -> table_offset 0 va <> 511 -> bare m d (agree_lt (S d) va) ->
    MIN_PAGES + Z.of_nat (entry_tables (ram (pm m)) (3 - d) va) <= Z.of_nat (length l) ->
    exists m' l', f (u64 (kernel_virtual_base m + tc)) (u64 (kernel_virtual_base m + tp)) (table_offset d va) m = Ret (tt, m') /\
      shared (agree_lt (S d) va) m l m' l' /\ length l = (length l' + entry_tables (ram (pm m)) (3 - d) va)%nat.

(** [f child_table parent_table] copies the first [n] entries of a table at depth [d]. *)
Definition below (d : nat) (n va va' : Z) : Prop := agree_lt d va va' /\ table_offset d va' < n.
Definition copies_table (d : nat) (n : Z) (f : Z -> Z -> M machine unit) : Prop :=
  forall m l va tp tc, before_copy m l va d tp tc -> ((0 < d)%nat -> table_offset 0 va <> 511) -> bare m d (below d n va) ->
    MIN_PAGES + Z.of_nat (tables_below (ram (pm m)) d n va) <= Z.of_nat (length l) ->
    exists m' l', f (u64 (kernel_virtual_base m + tc)) (u64 (kernel_virtual_base m + tp)) m = Ret (tt, m') /\
      shared (below d n va) m l m' l' /\ length l = (length l' + tables_below (ram (pm m)) d n va)%nat.

Lemma agree_lt_dec d va va' : {agree_lt d va va'} + {~ agree_lt d va va'}.
Proof.
  induction d as [|d IH]; [by left; intros i Hi; lia|].
  destruct IH as [H|H]; [|right; intros H'; apply H; intros i Hi; apply H'; lia].
  destruct (Z.eq_dec (table_offset d va) (table_offset d va')) as [E|E].
  - left. intros i Hi. destruct (decide (i = d)) as [->|]; [done|]. apply H. lia.
  - right. intros H'. apply E, H'. lia.
Qed.

Lemma below_dec d n va va' : {below d n va va'} + {~ below d n va va'}.
Proof.
  destruct (agree_lt_dec d va va') as [H|H]; [|right; intros [? _]; done].
  destruct (Z_lt_dec (table_offset d va') n) as [E|E]; [by left|right; by intros [_ ?]].
Qed.

(** A loop over entries copies the table. *)
Lemma copies_loop d n f : (d <= 3)%nat -> 0 <= n <= 512 -> (d = O -> n <= 511) -> copies_entry d f ->
  copies_table d n (fun c p => for_loop (Z.to_nat n) 0 (f c p)).
Proof.
  intros Hd Hn H511 Hf m l va tp tc [Hinv Hfr Htp Htc] Hva Hbare Hlen.
  set (cost := fun i => entry_tables (ram (pm m)) (3 - d) (with_index d i va)).
  destruct (for_loop_ind (fun i t => exists l', shared (below d i va) m l t l' /\
      length l = (length l' + list_sum (cost <$> seqZ 0 i))%nat)
    (f (u64 (kernel_virtual_base m + tc)) (u64 (kernel_virtual_base m + tp))) (Z.to_nat n) 0 m) as (m' & Hrun & l' & Hsh & Hl).
  - exists l. split; [|simpl; lia]. apply shared_none; [done|]. intros va' [_ H]. pose proof (table_offset_range d va'). lia.
  - intros i t Hi (l1 & Hsh & Hl1). rewrite Z2Nat.id in Hi by lia. set (vi := with_index d i va).
    assert (0 <= i < 512) as Hi' by lia. assert (table_offset d vi = i) as Hoi by (unfold vi; rewrite table_offset_with by lia; by rewrite decide_True).
    assert (forall va', agree_lt (S d) vi va' -> ~ below d i va va') as Hnb.
    { intros va' Ha [_ Hlt]. apply agree_lt_entry in Ha as [_ E]; lia. }
    assert (agree_lt d vi va) as Hag by (by apply agree_lt_with).
    assert (kernel_virtual_base t = kernel_virtual_base m) as Hk by apply Hsh.
    assert (forall va', entry_tables (ram (pm t)) (3 - d) va' = entry_tables (ram (pm m)) (3 - d) va') as Hsame.
    { apply entry_tables_same. intros va' k Hk'. by apply Hsh. }
    destruct (Hf t l1 vi tp tc) as (t' & l2 & Hrun & Hsh' & Hl2).
    + split; [apply Hsh|eapply frames_used_shared; [apply below_dec|exact Hsh|exact Hfr]| |].
      * rewrite (sh_tables _ _ _ _ _ Hsh) by done. rewrite (table_at_agree _ _ vi va) by exact Hag. done.
      * rewrite (sh_child_tables _ _ _ _ _ Hsh) by (try done; by apply Hnb). rewrite (table_at_agree _ _ vi va) by exact Hag. done.
    + destruct d as [|d]; [rewrite Hoi; specialize (H511 eq_refl); lia|]. rewrite (Hag 0%nat) by lia. apply Hva. lia.
    + intros va' Ha. pose proof (proj1 (agree_lt_entry d i va va' Hd Hi') Ha) as [Ha1 Ha2]. destruct (Hbare va') as [B1 B2]; [split; [done|lia]|].
      rewrite (sh_rest _ _ _ _ _ Hsh) by (by left || by apply Hnb). split; [done|]. intros Hd3.
      rewrite (sh_child_tables _ _ _ _ _ Hsh) by (lia || by apply Hnb). by apply B2.
    + rewrite Hsame. change (entry_tables (ram (pm m)) (3 - d) vi) with (cost i). pose proof (sum_mono cost (i + 1) n ltac:(lia)) as Hm. rewrite sum_step in Hm by lia.
      change (tables_below (ram (pm m)) d n va) with (list_sum (cost <$> seqZ 0 n)) in Hlen. lia.
    + exists t'. rewrite Hk, Hoi in Hrun. split; [exact Hrun|]. exists l2. split; [|rewrite sum_step by lia; rewrite Hsame in Hl2; change (entry_tables (ram (pm m)) (3 - d) vi) with (cost i) in Hl2; lia].
      eapply shared_ext; [|eapply shared_trans; [|exact Hsh|exact Hsh'|apply below_dec]].
      * intros va'. unfold vi. rewrite agree_lt_entry by (lia || done). unfold below. split; [intros [[? ?]|[? ?]]; split; [done|lia|done|lia]|].
        intros [Ha Hlt]. destruct (Z.eq_dec (table_offset d va') i) as [E|E]; [by right|left; split; [done|lia]].
      * intros va' Hb Ha. by apply (Hnb va').
  - exists m', l'. split; [exact Hrun|]. rewrite Z2Nat.id, Z.add_0_l in * by lia. split; [exact Hsh|exact Hl].
Qed.

(** The last level. *)
Lemma copies_pte : copies_entry 3 cow_pte_entry.
Proof.
  intros m l va tp tc [Hinv Hfr Htp Htc] Hva Hbare Hlen. change (entry_tables (ram (pm m)) (3 - 3) va) with O.
  destruct (cow_pte_entry_ok m l va tp tc Hinv Hfr Hva Htp Htc) as (m' & Hrun & Hsh); [by apply Hbare|].
  exists m', l. split_and!; [done..|lia].
Qed.

Lemma copies_table_ext d n f g : (forall c p, f c p = g c p) -> copies_table d n f -> copies_table d n g.
Proof. intros E H m l va tp tc. rewrite <- E. apply H. Qed.

(** ** One entry of an upper table *)

Lemma table_at_none r x va d d' : (d <= d')%nat -> table_at r x va d = None -> table_at r x va d' = None.
Proof. induction 1 as [|d' Hd IH]; [done|]. intros H. simpl. by rewrite IH. Qed.

Lemma pte_none r x va d : (d <= 3)%nat -> table_at r x va d = None -> pte r x va = 0.
Proof. intros Hd H. unfold pte, slot. by rewrite (table_at_none r x va d 3 Hd H). Qed.

Lemma entry_flags_ok e : present e = true -> flags_ok (Z.land e GET_FLAGS).
Proof.
  rewrite present_testbit. intros H. split; [|rewrite Z.land_spec, H; done].
  change GET_FLAGS with (Z.ones 12). rewrite Z.land_ones by lia. apply Z.mod_pos_bound. lia.
Qed.

(** A new, empty table for the child: no page changes, and the walks of the other address spaces and of the
    addresses that do not pass through it are as before. *)
Section new_table.
Context (m : machine) (l : list Z) (va : Z) (d : nat) (tp tc p : Z) (s' : physmem) (flags : Z).
Context (Hb : before_copy m (p :: l) va d tp tc) (Hva : table_offset 0 va <> 511) (Hd : (d < 3)%nat).
Context (Hbare : bare m d (agree_lt (S d) va)) (Hflags : flags_ok flags).
Context (Hal : alloc_inv s' l) (Hram : ram s' = ram (pm m)) (Hp : 0 <= p < MAX_PAGES).
Context (Hrefs : forall q, q <> p -> refs s' q = refs (pm m) q).

Let a := tc + 8 * table_offset d va.
Let m1 := set_word a (Z.lor (p * 4096) flags) (set_pm s' m).

Lemma child_slot : slot (ram (pm m)) child va d = Some a.
Proof. unfold slot. by rewrite (bc_child _ _ _ _ _ _ Hb). Qed.

Lemma child_absent : present (word m a) = false.
Proof.
  destruct (Hbare va) as [_ H]; [done|]. specialize (H Hd). simpl in H. rewrite (bc_child _ _ _ _ _ _ Hb) in H.
  unfold word. fold a in H. by destruct (present (ram_word (ram (pm m)) a)).
Qed.

Lemma new_descended : descended (child :: roots) (p :: l) child va d m m1 (p * 4096) l.
Proof.
  destruct Hb as [Hinv _ _ Htc]. apply install_descended; try done; [by left|exact child_absent].
Qed.

Lemma new_ram : ram (pm m1) = <[a := Z.lor (p * 4096) flags]> (ram (pm m)).
Proof. unfold m1. rewrite set_word_ram. simpl. by rewrite Hram. Qed.

Lemma new_tables x va' d' : x ∈ child :: roots -> (d' <= 3)%nat -> x <> child \/ ~ agree_lt (S d) va va' ->
  table_at (ram (pm m1)) x va' d' = table_at (ram (pm m)) x va' d'.
Proof.
  intros Hx Hd' Hor. pose proof (bc_inv _ _ _ _ _ _ Hb) as Hinv. rewrite new_ram.
  apply (install_other (ram (pm m)) (child :: roots) child va d a); try done; [apply Hinv|by left|apply child_slot|].
  right. intros Hs. destruct (sp_sep _ _ _ Hinv child x va va' d d a) as (_ & Hag & Hor'); try done; try lia; [by left|apply child_slot|].
  destruct Hor as [Hne|Hn].
  - destruct Hor' as [->|[_ ?]]; done.
  - apply Hn. intros i Hi. apply Hag. lia.
Qed.

Lemma new_parent_entry : word m1 (tp + 8 * table_offset d va) = word m (tp + 8 * table_offset d va).
Proof.
  pose proof (bc_inv _ _ _ _ _ _ Hb) as Hinv. unfold word. rewrite new_ram, ram_word_insert. case_decide as E; [|done].
  exfalso. destruct (sp_sep _ _ _ Hinv child root va va d d a) as (_ & _ & [H|[_ H]]); try done; try lia;
    [by left|by right|apply child_slot| |by apply root_not_child].
  unfold slot. rewrite (bc_parent _ _ _ _ _ _ Hb). simpl. by rewrite E.
Qed.

Lemma new_bare : bare m1 (S d) (below (S d) 512 va).
Proof.
  intros va' [Hag _]. destruct (Hbare va' Hag) as [H1 _]. split.
  - rewrite (de_pte _ _ _ _ _ _ _ _ _ new_descended) by (by left). done.
  - intros Hd3. pose proof (bc_inv _ _ _ _ _ _ Hb) as Hinv. rewrite new_ram.
    destruct (sp_free _ _ _ Hinv p) as [Hu Hz]; [by left|]. destruct Hflags as [Hf Hf0].
    rewrite (install_through (ram (pm m)) (child :: roots) child va d a p);
      [by rewrite decide_False by lia|apply Hinv|by left|done|apply child_slot|exact child_absent|done|done|by apply entry_present| |by left|lia|].
    + apply entry_mask; [by apply Z.mod_mul|unfold MAX_PAGES in Hp; lia|done].
    + rewrite (slot_agree _ _ va' va d); [apply child_slot|]. intros i Hi. symmetry. apply Hag. lia.
Qed.

Lemma new_before tp' : table_at (ram (pm m)) root va (S d) = Some tp' -> before_copy m1 l va (S d) tp' (p * 4096).
Proof.
  intros Htp. pose proof new_descended as D. split; [apply D| | |apply D].
  - intros v Hv. rewrite (de_pte _ _ _ _ _ _ _ _ _ D) by (by right). intros Hp'.
    destruct (bc_frames _ _ _ _ _ _ Hb v Hv Hp') as (q & E & Hq & Hl). exists q. split_and!; [done|lia|lia|].
    intros Hin. apply Hl. by right.
  - rewrite new_tables; [done|by right|lia|left; apply root_not_child].
Qed.

Lemma shared_new P m' l' : (forall va', P va' <-> agree_lt (S d) va va') -> shared P m1 l m' l' ->
  shared (agree_lt (S d) va) m (p :: l) m' l'.
Proof.
  intros E [I R S T C N O A B D F G]. pose proof new_descended as ND.
  assert (forall x v, x ∈ child :: roots -> pte (ram (pm m1)) x v = pte (ram (pm m)) x v) as Hpte by apply ND.
  assert (forall v q, on_frame m1 v q <-> on_frame m v q) as Hof by (intros v q; unfold on_frame; by rewrite Hpte by (by right)).
  split; try done.
  - by eapply same_regs_trans; [apply ND|].
  - by apply suffix_cons_r.
  - intros x v k Hx Hk. rewrite T by done. apply new_tables; [by right|done|left; by intros ->].
  - intros v k Hn Hk. rewrite C by (done || by rewrite E). apply new_tables; [by left|done|by right].
  - intros x v Hx Hn. rewrite N by (done || by rewrite E). by apply Hpte.
  - intros x v Hx Hne. rewrite O by done. apply Hpte. by right.
  - intros v Hv%E. rewrite A by done. by rewrite Hpte by (by right).
  - intros v Hv%E. rewrite B by done. by rewrite Hpte by (by right).
  - eapply data_kept_trans; [|apply ND|exact D]. intros q Hq. by right.
  - intros q [Hqp Hq]%not_elem_of_cons. rewrite <- (Hrefs q Hqp).
    destruct (F q Hq) as [?|(? & ? & v & Hv & Hq')]; [by left|right]. split_and!; [done..|]. exists v. split; [by apply E|by apply Hof].
  - intros v q Hv Hq [Hqp Hl]%not_elem_of_cons H1. apply (G v); [by apply E|by apply Hof|done|]. change (refs s' q = 1). by rewrite Hrefs.
Qed.
End new_table.

Lemma copies_upper d body : (d < 3)%nat -> copies_table (S d) 512 body ->
  copies_entry d (fun c p i => cow_table_entry c p i body).
Proof.
  intros Hd Hbody m l va tp tc Hb Hva Hbare Hlen. pose proof Hb as [Hinv Hfr Htp Htc].
  assert (aligned tp) as Hap by (eapply table_at_aligned; [by apply Hinv; right|exact Htp]).
  assert (aligned tc) as Hac by (eapply table_at_aligned; [by apply Hinv; left|exact Htc]).
  set (e := word m (tp + 8 * table_offset d va)).
  assert (table_at (ram (pm m)) root va (S d) = if present e then Some (Z.land e MASK) else None) as Hnext by (simpl; by rewrite Htp).
  rewrite entry_tables_upper in * by done. rewrite Hnext in *.
  unfold cow_table_entry. rewrite (bind_ret _ _ _ _ _ (load64_table m tp d va Hap)). fold e.
  destruct (present e) eqn:Hp.
  2: { exists m, l. split_and!; [done| |lia]. apply shared_none; [done|]. intros va' Ha. split; [|by apply Hbare].
       rewrite (pte_none _ _ va' (S d)); [done|lia|]. rewrite <- Hnext. apply table_at_agree. intros i Hi. symmetry. by apply Ha. }
  destruct l as [|p l]; [by vm_compute in Hlen|]. cbn [length] in Hlen.
  destruct (alloc_refs m p l) as (s' & Hrun & Hal & Hram & Hpr & Hrf); [apply Hinv|cbn [length]; lia|].
  rewrite (bind_ret _ _ _ _ _ Hrun). rewrite (bind_ret _ _ _ _ _ (load64_table (set_pm s' m) tp d va Hap)).
  assert (word (set_pm s' m) (tp + 8 * table_offset d va) = e) as -> by (unfold e, word; simpl; by rewrite Hram).
  rewrite (bind_ret _ _ _ _ _ (store64_table (set_pm s' m) tc d va _ Hac)). set (flags := Z.land e GET_FLAGS).
  assert (flags_ok flags) as Hfl by (by apply entry_flags_ok).
  set (m1 := set_word (tc + 8 * table_offset d va) (Z.lor (p * 4096) flags) (set_pm s' m)).
  unfold gets at 1. rewrite (bind_ret _ _ _ _ _ eq_refl). rewrite (bind_ret _ _ _ _ _ (load64_table m1 tp d va Hap)).
  assert (word m1 (tp + 8 * table_offset d va) = e) as -> by (by apply (new_parent_entry m l)).
  assert (tables_below (ram (pm m1)) (S d) 512 va = tables_below (ram (pm m)) (S d) 512 va) as Hsame.
  { apply tables_below_same. intros v k Hk. apply (new_tables m l va d tp tc p s' flags); try done; [by right|left; apply root_not_child]. }
  destruct (Hbody m1 l va (Z.land e MASK) (p * 4096)) as (m' & l' & Hr & Hsh & Hl).
  - by apply (new_before m l va d tp tc p s' flags).
  - done.
  - by apply (new_bare m l va d tp tc p s' flags).
  - rewrite Hsame. lia.
  - exists m', l'. split_and!; [exact Hr| |cbn [length]; rewrite Hsame in Hl; lia].
    apply (shared_new m l va d tp tc p s' flags Hb Hva Hd Hbare Hfl Hal Hram Hpr Hrf (below (S d) 512 va)); [|exact Hsh].
    intros va'. split; [by intros [? _]|]. intros Ha. split; [done|]. apply table_offset_range.
Qed.
End copy.

(** ** The new address space *)

Section new_space.
Context (m : machine) (roots l : list Z) (root p : Z) (s' : physmem).
Context (Hinv : spaces_inv m roots (p :: l)) (Hroot : root ∈ roots).
Context (Hal : alloc_inv s' l) (Hram : ram s' = ram (pm m)) (Hp : 0 <= p < MAX_PAGES).

Let child := p * 4096.
Let e := word m (root + 8 * 511).
Let m1 := set_word (child + 8 * 511) e (set_pm s' m).

Lemma space_ram : ram (pm m1) = <[child + 8 * 511 := e]> (ram (pm m)).
Proof. unfold m1. rewrite set_word_ram. simpl. by rewrite Hram. Qed.

Lemma space_unused : unused_frame (ram (pm m)) roots p /\ zero_frame (ram (pm m)) p.
Proof. apply (sp_free _ _ _ Hinv). by left. Qed.

Lemma space_frame i : 0 <= i < 512 -> (child + 8 * i) / 4096 = p.
Proof. intros Hi. by apply frame_of_word. Qed.

Lemma space_new : child ∉ roots.
Proof.
  intros Hin. destruct space_unused as [Hu _]. apply (Hu child 0 0%nat (child + 8 * table_offset 0 0)); [done|lia|done|].
  apply space_frame, table_offset_range.
Qed.

Lemma space_tables x va d : x ∈ roots -> (d <= 3)%nat -> table_at (ram (pm m1)) x va d = table_at (ram (pm m)) x va d.
Proof.
  intros Hx Hd. rewrite space_ram. apply table_at_frame. intros i Hi Hs. destruct space_unused as [Hu _].
  apply (Hu x va i _ Hx ltac:(lia) Hs). by apply space_frame.
Qed.

Lemma space_entry i : 0 <= i < 512 -> ram_word (ram (pm m1)) (child + 8 * i) = if decide (i = 511) then e else 0.
Proof.
  intros Hi. rewrite space_ram, ram_word_insert. destruct (decide (i = 511)) as [->|Hne].
  - by rewrite decide_True.
  - rewrite decide_False by lia. by apply space_unused.
Qed.

(** The new space has the kernel's part of the old one and nothing else. *)
Lemma space_child va d : (d < 3)%nat ->
  table_at (ram (pm m1)) child va (S d) = if decide (table_offset 0 va = 511) then table_at (ram (pm m)) root va (S d) else None.
Proof.
  intros Hd. case_decide as Ho.
  - rewrite <- (space_tables root) by (done || lia). induction d as [|d IH].
    + cbn [table_at]. rewrite space_entry by apply table_offset_range. rewrite Ho, decide_True by done.
      assert (ram_word (ram (pm m1)) (root + 8 * 511) = e) as ->; [|done].
      rewrite space_ram, ram_word_insert. case_decide as E; [done|done].
    + cbn [table_at] in *. by rewrite IH by lia.
  - eapply (table_at_none _ _ _ 1); [lia|]. cbn [table_at]. rewrite space_entry by apply table_offset_range.
    by rewrite decide_False.
Qed.

Lemma space_slot va d a : (d <= 3)%nat -> slot (ram (pm m1)) child va d = Some a ->
  (d = O /\ a = child + 8 * table_offset 0 va) \/
  (d <> O /\ table_offset 0 va = 511 /\ slot (ram (pm m)) root va d = Some a).
Proof.
  intros Hd. destruct d as [|d]; [intros [= <-]; by left|]. unfold slot. rewrite space_child by lia.
  case_decide as Ho; [|done]. intros H. by right.
Qed.

Lemma space_slot_old x va d : x ∈ roots -> (d <= 3)%nat -> slot (ram (pm m1)) x va d = slot (ram (pm m)) x va d.
Proof. intros Hx Hd. unfold slot. by rewrite space_tables. Qed.

Lemma space_separated : separated (ram (pm m1)) (child :: roots).
Proof.
  pose proof (sp_sep _ _ _ Hinv) as Hsep. destruct space_unused as [Hu _].
  assert (forall x va d, x ∈ roots -> (d <= 3)%nat -> forall i, 0 <= i < 512 -> slot (ram (pm m)) x va d <> Some (child + 8 * i)) as Hno.
  { intros x va d Hx Hd i Hi Hs. apply (Hu x va d _ Hx Hd Hs). by apply space_frame. }
  intros r1 r2 va1 va2 d1 d2 a H1 H2 Hd1 Hd2 Hs1 Hs2.
  apply elem_of_cons in H1 as [->|H1], H2 as [->|H2]; try rewrite space_slot_old in Hs1 by done; try rewrite space_slot_old in Hs2 by done.
  - apply space_slot in Hs1 as [[-> ->]|(Hn1 & Ho1 & Hs1)], Hs2 as [[-> E]|(Hn2 & Ho2 & Hs2)]; try done.
    + split_and!; [done| |by left]. intros i Hi. assert (i = O) as -> by lia. lia.
    + exfalso. by eapply Hno, Hs2; [|done|apply table_offset_range].
    + subst a. exfalso. by eapply Hno, Hs1; [|done|apply table_offset_range].
    + destruct (Hsep root root va1 va2 d1 d2 a) as (-> & Hag & _); [done..|]. split_and!; [done..|by left].
  - apply space_slot in Hs1 as [[-> ->]|(Hn1 & Ho1 & Hs1)]; [|destruct (Hsep root r2 va1 va2 d1 d2 a) as (-> & Hag & _); [done..|]; split_and!; [done..|by right]|done].
    exfalso. by eapply Hno, Hs2; [|done|apply table_offset_range].
  - apply space_slot in Hs2 as [[-> ->]|(Hn2 & Ho2 & Hs2)]; [|destruct (Hsep r1 root va1 va2 d1 d2 a) as (-> & Hag & _); [done..|]|done].
    + exfalso. by eapply Hno, Hs1; [|done|apply table_offset_range].
    + split_and!; [done..|]. right. split; [done|]. rewrite (Hag 0%nat) by lia. done.
  - by apply (Hsep r1 r2 va1 va2 d1 d2 a).
Qed.

(** A page that held no table holds none of the new space, and keeps its contents. *)
Lemma space_data q : q <> p -> unused_frame (ram (pm m)) roots q ->
  unused_frame (ram (pm m1)) (child :: roots) q /\
  (forall i, 0 <= i < 512 -> ram_word (ram (pm m1)) (q * 4096 + 8 * i) = ram_word (ram (pm m)) (q * 4096 + 8 * i)).
Proof.
  intros Hq Hu. split.
  - intros x va d a Hx Hd Hs. apply elem_of_cons in Hx as [->|Hx].
    + apply space_slot in Hs as [[-> ->]|(_ & _ & Hs)]; [|by eapply Hu|done].
      rewrite space_frame by apply table_offset_range. congruence.
    + rewrite space_slot_old in Hs by done. by eapply Hu.
  - intros i Hi. rewrite space_ram, ram_word_insert. case_decide as E; [|done]. exfalso. apply Hq.
    rewrite <- (space_frame 511) by lia. rewrite E. by rewrite frame_of_word.
Qed.

Lemma space_inv : spaces_inv m1 (child :: roots) l.
Proof.
  split.
  - by apply alloc_inv_set_ram.
  - apply space_separated.
  - intros x [->|Hx]%elem_of_cons; [by apply page_aligned|by apply Hinv].
  - intros q Hq. assert (q <> p) as Hqp.
    { intros ->. pose proof (inv_nodup _ _ (sp_alloc _ _ _ Hinv)) as [? _]%list.NoDup_cons. done. }
    destruct (sp_free _ _ _ Hinv q) as [Hu Hz]; [by right|]. destruct (space_data q Hqp Hu) as [Hu' Hw].
    split; [done|]. intros i Hi. rewrite Hw by done. by apply Hz.
Qed.

Lemma space_pte x va : x ∈ roots -> pte (ram (pm m1)) x va = pte (ram (pm m)) x va.
Proof.
  intros Hx. unfold pte. rewrite space_slot_old by (done || lia). destruct (slot (ram (pm m)) x va 3) as [a|] eqn:Hs; [|done].
  rewrite space_ram, ram_word_insert. case_decide as E; [|done]. exfalso. destruct space_unused as [Hu _].
  apply (Hu x va 3%nat a Hx ltac:(lia) Hs). rewrite <- E. by apply space_frame.
Qed.

Lemma space_child_pte va : pte (ram (pm m1)) child va = if decide (table_offset 0 va = 511) then pte (ram (pm m)) root va else 0.
Proof.
  unfold pte at 1, slot. rewrite space_child by lia. case_decide as Ho; [|done].
  rewrite <- (space_pte root) by done. unfold pte, slot. by rewrite space_tables by (done || lia).
Qed.
End new_space.

(** ** The copy *)

Lemma copies_all roots root child : root ∈ roots -> child ∉ roots ->
  copies_table roots root child 0 511 (fun c p => for_loop 511 0 (fun i => cow_table_entry c p i cow_pdpe_loop)).
Proof.
  intros Hr Hn. apply (copies_loop roots root child Hr 0 511); [lia..|].
  apply (copies_upper roots root child Hr Hn 0); [lia|]. apply (copies_loop roots root child Hr 1 512); [lia..|].
  apply (copies_upper roots root child Hr Hn 1); [lia|]. apply (copies_loop roots root child Hr 2 512); [lia..|].
  apply (copies_upper roots root child Hr Hn 2); [lia|]. apply (copies_loop roots root child Hr 3 512); [lia..|].
  by apply copies_pte.
Qed.

Definition user (va : Z) : Prop := table_offset 0 va <> 511.

(** The number of tables of the user part of the address space [root]. *)
Definition user_tables (m : machine) (root : Z) : nat := tables_below root (ram (pm m)) 0 511 0.

(** The address space [child] shares the user pages of [root], all marked read-only and copy-on-write. *)
Record forked (m : machine) (roots l : list Z) (root child : Z) (m' : machine) (l' : list Z) : Prop := {
  fk_new : child ∉ roots;
  fk_inv : spaces_inv m' (child :: roots) l';
  fk_regs : same_regs m m';
  fk_sub : suffix l' l;
  fk_child : forall va, user va -> pte (ram (pm m')) child va = cow_child (pte (ram (pm m)) root va);
  fk_parent : forall va, user va -> pte (ram (pm m')) root va = cow_parent (pte (ram (pm m)) root va);
  fk_kernel : forall va, ~ user va -> pte (ram (pm m')) child va = pte (ram (pm m)) root va;
  fk_others : forall x va, x ∈ roots -> x <> root \/ ~ user va -> pte (ram (pm m')) x va = pte (ram (pm m)) x va;
  fk_data : forall q, q ∉ l -> unused_frame (ram (pm m)) roots q ->
    unused_frame (ram (pm m')) (child :: roots) q /\
    (forall i, 0 <= i < 512 -> word m' (q * 4096 + 8 * i) = word m (q * 4096 + 8 * i));
  fk_counts : forall va p, user va -> on_frame root m va p -> p ∉ l -> refs (pm m) p = 1 -> refs (pm m') p = 2;
  fk_refs : forall p, p ∉ l -> refs (pm m) p <> 1 -> refs (pm m') p = refs (pm m) p;
  fk_tables : forall x va d, x ∈ roots -> (d <= 3)%nat -> table_at (ram (pm m')) x va d = table_at (ram (pm m)) x va d
}.

Lemma cow_page_tables_ok m roots l :
  spaces_inv m roots l -> cr3 m ∈ roots -> frames_used (cr3 m) m l ->
  MIN_PAGES + 1 + Z.of_nat (user_tables m (cr3 m)) <= Z.of_nat (length l) ->
  exists child m' l', cow_page_tables m = Ret (child, m') /\ forked m roots l (cr3 m) child m' l' /\
    length l = (length l' + 1 + user_tables m (cr3 m))%nat /\ (child / 4096 ∈ l) /\ (child / 4096 ∉ l').
Proof.
  intros Hinv Hroot Hfr Hlen. set (root := cr3 m) in *. destruct l as [|p l]; [assert (0 < MIN_PAGES) by done; cbn [length] in Hlen; lia|]. cbn [length] in Hlen.
  destruct (alloc_refs m p l) as (s' & Hrun & Hal & Hram & Hp & Hrf); [apply Hinv|cbn [length]; lia|].
  pose proof (inv_nodup _ _ (sp_alloc _ _ _ Hinv)) as [Hpl _]%list.NoDup_cons.
  assert (aligned root) as Har by (by apply Hinv). assert (aligned (p * 4096)) as Hac by (by apply page_aligned).
  assert (table_offset 0 (2 ^ 48 - 1) = 511) as H511 by done.
  set (m1 := set_word (p * 4096 + 8 * 511) (word m (root + 8 * 511)) (set_pm s' m)).
  pose proof (space_new m roots l root p Hinv) as Hnew. pose proof (space_inv m roots l root p s' Hinv Hroot Hal Hram Hp) as Hinv1. fold m1 in Hinv1.
  assert (forall x va, x ∈ roots -> pte (ram (pm m1)) x va = pte (ram (pm m)) x va) as Hpte by (intros; by apply (space_pte m roots l root p s')).
  assert (tables_below root (ram (pm m1)) 0 511 0 = user_tables m root) as Hsame.
  { apply tables_below_same. intros v k Hk. by apply (space_tables m roots l root p s'). }
  destruct (copies_all roots root (p * 4096) Hroot Hnew m1 l 0 root (p * 4096)) as (m' & l' & Hr & Hsh & Hl).
  - split; [done| |done|done]. intros v Hv. rewrite Hpte by done. intros Hv'. destruct (Hfr v Hv Hv') as (q & E & Hq & Hql).
    exists q. split_and!; [done|lia|lia|]. intros Hin. apply Hql. by right.
  - lia.
  - intros v [_ Hv]. unfold m1. rewrite (space_child_pte m roots l root p s') by done. rewrite decide_False by lia. split; [done|].
    intros _. rewrite (space_child m roots l root p s') by (done || lia). by rewrite decide_False by lia.
  - rewrite Hsame. lia.
  - exists (p * 4096), m', l'. rewrite Z.div_mul by done. split_and!.
    + unfold cow_page_tables. rewrite (bind_ret _ _ _ _ _ Hrun). unfold get_cr3, gets. do 2 rewrite (bind_ret _ _ _ _ _ eq_refl).
      change (cr3 (set_pm s' m)) with root. change (kernel_virtual_base (set_pm s' m)) with (kernel_virtual_base m).
      rewrite (Z.add_comm root), (Z.add_comm (p * 4096)), <- H511.
      rewrite (bind_ret _ _ _ _ _ (load64_table (set_pm s' m) root 0 _ Har)).
      rewrite (bind_ret _ _ _ _ _ (store64_table (set_pm s' m) (p * 4096) 0 _ _ Hac)). rewrite H511.
      assert (word (set_pm s' m) (root + 8 * 511) = word m (root + 8 * 511)) as -> by (unfold word; simpl; by rewrite Hram).
      by rewrite (bind_ret _ _ _ _ _ Hr).
    + destruct Hsh as [I R S T C N O A B D F G].
      assert (forall va, user va <-> below 0 511 0 va) as Hu.
      { intros va. unfold user, below. pose proof (table_offset_range 0 va). split; [intros; split; [intros i Hi; lia|lia]|intros [_ ?]; lia]. }
      assert (forall va q, on_frame root m1 va q <-> on_frame root m va q) as Hof by (intros va q; unfold on_frame; by rewrite Hpte).
      split; try done.
      * by destruct R.
      * by apply suffix_cons_r.
      * intros va Hv%Hu. rewrite B by done. by rewrite Hpte.
      * intros va Hv%Hu. rewrite A by done. by rewrite Hpte.
      * intros va Hv. rewrite N by (by left || by rewrite <- Hu). unfold m1. rewrite (space_child_pte m roots l root p s') by done.
        unfold user in Hv. by rewrite decide_True by (by destruct (Z.eq_dec (table_offset 0 va) 511)).
      * intros x va Hx [Hne|Hv]; [rewrite O by done|rewrite N by (by right || by rewrite <- Hu)]; by apply Hpte.
      * intros q [Hqp Hql]%not_elem_of_cons Hun. destruct (space_data m roots l root p s' Hinv Hroot Hram q Hqp Hun) as [Hu1 Hw1].
        destruct (D q Hql Hu1) as [Hu2 Hw2]. split; [done|]. intros i Hi. unfold word. rewrite Hw2 by done. by apply Hw1.
      * intros va q Hv%Hu Hq%Hof [Hqp Hql]%not_elem_of_cons H1. apply (G va); [done..|]. change (refs s' q = 1). by rewrite Hrf.
      * intros q [Hqp Hql]%not_elem_of_cons H1. rewrite <- (Hrf q Hqp) in *. by destruct (F q Hql) as [?|[? _]].
      * intros x va d Hx Hd. rewrite T by done. by apply (space_tables m roots l root p s').
    + cbn [length]. rewrite Hsame in Hl. lia.
    + by left.
    + intros Hin. apply Hpl. eapply suffix_elem; [apply Hsh|done].
Qed.

(** ** A page of a process *)

(** The page at [addr] of the current process, on the frame [p] of its own. *)
Record own_page (m : machine) (roots l : list Z) (addr p : Z) : Prop := {
  ow_addr : aligned addr;
  ow_user : user addr;
  ow_frame : on_frame (cr3 m) m addr p;
  ow_range : 0 < p < MAX_PAGES;
  ow_used : p ∉ l;
  ow_data : unused_frame (ram (pm m)) roots p;
  ow_refs : refs (pm m) p = 1
}.

Lemma spaces_inv_cr3 m roots l c : spaces_inv m roots l -> spaces_inv (set_cr3 c m) roots l.
Proof. intros []. by split. Qed.

(** A process with one page, on a machine whose memory is zero. *)
Definition empty_machine (s : physmem) : machine := Machine s 4096 KERNEL_BASE (KERNEL_BASE + 4096).
Definition one_page (s : physmem) : machine :=
  match map_fresh_page PAGING_USER_R_W_FLAGS 0x400000 (empty_machine s) with Ret (_, m) => m | _ => empty_machine s end.

Lemma user_page : aligned 0x400000 /\ user 0x400000.
Proof. split; by vm_compute. Qed.

Lemma one_page_ok s p l : alloc_inv s (p :: l) -> (forall a, ram_word (ram s) a = 0) -> 0 < p -> 1 ∉ p :: l -> 0 ∉ l ->
  MIN_PAGES + 4 <= Z.of_nat (length (p :: l)) -> refs (pm (one_page s)) p = 1 ->
  exists l', spaces_inv (one_page s) [4096] l' /\ same_regs (empty_machine s) (one_page s) /\ frames_used 4096 (one_page s) l' /\
    own_page (one_page s) [4096] l' 0x400000 p /\ suffix l' l /\ Z.of_nat (length l) <= Z.of_nat (length l') + 3.
Proof.
  intros Hal Hz Hp0 H1 H0 Hlen Hrf. assert (0 <= 1 < MAX_PAGES) as H1r by done.
  pose proof (empty_space_inv s (p :: l) 1 KERNEL_BASE (KERNEL_BASE + 4096) Hal H1r H1 Hz) as Hi. change (1 * 4096) with 4096 in Hi. fold (empty_machine s) in Hi.
  assert (0 <= p < MAX_PAGES) as Hpr by (eapply chain_range; [apply Hal|by left]).
  destruct (alloc_map_ok (empty_machine s) [4096] (p :: l) 0x400000 PAGING_USER_R_W_FLAGS Hi ltac:(by left) user_flags_ok Hlen)
    as (p' & l1 & m1 & m2 & l2 & R1 & El & Hram & R2 & G1 & [I G Hs _ Hd Hsub Hl] & Hpl & Hu). injection El as <- <-.
  assert (one_page s = m2) as E by (unfold one_page, map_fresh_page; by rewrite (bind_ret _ _ _ _ _ R1), R2). rewrite E in *.
  assert (Z.land (Z.lor (p * 4096) PAGING_USER_R_W_FLAGS) MASK = p * 4096) as Hm.
  { destruct (page_aligned p Hpr). apply entry_mask; [done|unfold MAX_PAGES in Hpr; lia|done]. }
  assert (present (Z.lor (p * 4096) PAGING_USER_R_W_FLAGS) = true) as Hpre by (apply entry_present; done).
  assert (forall va, pte (ram (pm m1)) (cr3 (empty_machine s)) va = 0) as Hpte.
  { intros va. rewrite Hram. unfold pte. destruct (slot _ _ va 3) as [a|] eqn:Ea; [|done]. by apply (empty_slot s 1 (fun i _ => Hz _)) in Ea as [? _]. }
  assert (p ∉ l2) as Hp2 by eauto using suffix_elem.
  exists l2. split_and!; [exact I|by eapply same_regs_trans| | |exact Hsub|exact Hl].
  - intros va _. change 4096 with (cr3 (empty_machine s)) at 1 2. rewrite Hs. case_decide; [|by rewrite Hpte].
    intros _. exists p. split_and!; [exact Hm|lia|lia|exact Hp2].
  - split; [apply user_page|apply user_page| |lia|exact Hp2| |exact Hrf].
    + rewrite (sr_cr3 _ _ G), (sr_cr3 _ _ G1). unfold on_frame. rewrite Hs, decide_True by reflexivity. split; [exact Hpre|exact Hm].
    + by apply Hd.
Qed.
