(* ===== verification/Isolation.v ===== *)
(** * Isolation of address spaces after [fork]

    What a program sees of its pages: a store is checked by the processor against the page-table entry, goes through when the entry
    allows it, and otherwise enters the page-fault handler and is repeated.  With two sharers of a page, parent and child of one
    [fork], each keeps what it wrote; with three, a store of the parent reaches the second child. *)

From S2P Require Import Prelude PhysMem Paging PageTable PagingSpec Cow CowFork.

(** ** Accesses of user mode

    The processor reads the tables that [cr3] points to.  Writing needs an entry that is present, writable and for user mode (the
    tables above the last level always are: [next_table] installs them so).  After the handler the instruction is repeated. *)

Definition page_entry (m : machine) (va : Z) : Z := pte (ram (pm m)) (cr3 m) va.
Definition writable (e : Z) : bool := Z.testbit e 0 && Z.testbit e 1 && Z.testbit e 2.

Definition store_word (va v : Z) : M machine unit := a ← translate va; modify (set_word a v).

Definition user_store (va v : Z) : M machine unit :=
  e ← gets (fun m => page_entry m va);
  if writable e then store_word va v else
  page_fault_cow va ≫= fun _ =>
  e' ← gets (fun m => page_entry m va);
  if writable e' then store_word va v else mfault.

Definition user_load (va : Z) : M machine Z :=
  e ← gets (fun m => page_entry m va);
  if present e then a ← translate va; gets (fun m => word m a) else mfault.

(** The process with the address space [root] reads the words [f] in the page at [addr]. *)
Definition sees (m : machine) (root addr : Z) (f : Z -> Z) : Prop :=
  forall i, 0 <= i < 512 -> user_load (addr + 8 * i) (set_cr3 root m) = Ret (f i, set_cr3 root m).

(** The words of frame [p], with [v] at index [i]. *)
Definition frame_words (m : machine) (p i : Z) : Z := word m (p * 4096 + 8 * i).
Definition with_word (i v : Z) (f : Z -> Z) (k : Z) : Z := if k =? i then v else f k.

(** The address space [root] maps [addr] to the frame [p], with [flags]. *)
Definition maps (m : machine) (root addr p flags : Z) : Prop :=
  Z.land (pte (ram (pm m)) root addr) MASK = p * 4096 /\ Z.land (pte (ram (pm m)) root addr) GET_FLAGS = flags.

(** ** One access *)

Lemma in_page addr i : aligned addr -> 0 <= i < 512 ->
  (addr + 8 * i) / PAGE_SIZE * PAGE_SIZE = addr /\ vpn (addr + 8 * i) = vpn addr /\ u64 (addr + 8 * i) = addr + 8 * i.
Proof.
  intros [Ha Hm] Hi. split_and!.
  - unfold PAGE_SIZE. pose proof (Z.div_mod addr 4096 ltac:(lia)) as E. rewrite Hm in E. set (k := addr / 4096) in *. rewrite E.
    replace (4096 * k + 0 + 8 * i) with (k * 4096 + 8 * i) by lia. rewrite Z.div_add_l, (Z.div_small (8 * i)) by lia. lia.
  - apply vpn_in_page; [done|lia].
  - apply u64_small. unfold MASK in Ha. lia.
Qed.

Lemma flag_bit e n : 0 <= n < 12 -> Z.testbit e n = Z.testbit (Z.land e GET_FLAGS) n.
Proof.
  intros Hn. rewrite Z.land_spec. change GET_FLAGS with (Z.ones 12). rewrite Z.testbit_ones_nonneg by lia.
  destruct (Z.ltb_spec n 12); [by rewrite andb_true_r|lia].
Qed.

Lemma maps_writable m root addr p : maps m root addr p PAGING_USER_R_W_FLAGS ->
  writable (pte (ram (pm m)) root addr) = true /\ present (pte (ram (pm m)) root addr) = true.
Proof.
  intros [_ H]. unfold writable. rewrite present_testbit, !(flag_bit (pte _ _ _)), H by lia. done.
Qed.

Lemma cow_entry_flag e : Z.testbit (cow_entry e) 9 = true.
Proof. rewrite cow_entry_bit by lia. apply orb_true_r. Qed.

(** A shared page is not writable. *)
Lemma cow_entry_protected e : writable (cow_entry e) = false.
Proof. unfold writable. rewrite !cow_entry_bit by lia. by destruct (Z.testbit e 0), (Z.testbit e 1). Qed.

Lemma store_word_ok m addr q i v : aligned (cr3 m) -> aligned addr -> 0 <= i < 512 -> q <> 0 ->
  Z.land (pte (ram (pm m)) (cr3 m) addr) MASK = q * 4096 -> store_word (addr + 8 * i) v m = Ret (tt, set_word (q * 4096 + 8 * i) v m).
Proof.
  intros Hc Ha Hi Hq Hm. destruct (in_page addr i Ha Hi) as (_ & _ & E). unfold store_word. rewrite <- E.
  by rewrite (bind_ret _ _ _ _ _ (translate_ok m addr q i Hc Ha Hi ltac:(lia) Hm)).
Qed.

(** A process reads the frame it maps. *)
Lemma sees_frame m root addr q : aligned root -> aligned addr -> q <> 0 -> present (pte (ram (pm m)) root addr) = true ->
  Z.land (pte (ram (pm m)) root addr) MASK = q * 4096 -> sees m root addr (frame_words m q).
Proof.
  intros Hr Ha Hq Hp Hm i Hi. destruct (in_page addr i Ha Hi) as (_ & Hv & E). unfold user_load, page_entry, gets.
  rewrite (bind_ret _ _ _ _ _ eq_refl). cbn [pm cr3 set_cr3]. rewrite (pte_vpn _ _ _ addr Hv), Hp. rewrite <- E at 1.
  by rewrite (bind_ret _ _ _ _ _ (translate_ok (set_cr3 root m) addr q i Hr Ha Hi ltac:(lia) Hm)).
Qed.

(** A store to a protected page goes through the handler. *)
Lemma user_store_fault m m1 addr q i v : aligned (cr3 m) -> aligned addr -> 0 <= i < 512 -> q <> 0 ->
  writable (pte (ram (pm m)) (cr3 m) addr) = false -> page_fault_cow (addr + 8 * i) m = Ret (true, m1) -> cr3 m1 = cr3 m ->
  maps m1 (cr3 m) addr q PAGING_USER_R_W_FLAGS ->
  user_store (addr + 8 * i) v m = Ret (tt, set_word (q * 4096 + 8 * i) v m1).
Proof.
  intros Hc Ha Hi Hq Hw Hf Hc1 Hm. destruct (in_page addr i Ha Hi) as (_ & Hv & _). unfold user_store, page_entry, gets.
  rewrite (bind_ret _ _ _ _ _ eq_refl), (pte_vpn _ _ _ addr Hv), Hw, (bind_ret _ _ _ _ _ Hf), (bind_ret _ _ _ _ _ eq_refl).
  rewrite (pte_vpn _ _ _ addr Hv), Hc1. destruct (maps_writable _ _ _ _ Hm) as [-> _].
  apply store_word_ok; [by rewrite Hc1|done..|]. rewrite Hc1. apply Hm.
Qed.

(** ** The two kinds of faults, with the store *)

Lemma maps_walk m roots l addr q flags c : spaces_inv m roots l -> cr3 m = c -> c ∈ roots ->
  walk_page_table addr m = Ret (q * 4096, m) -> get_flags addr m = Ret (flags, m) -> maps m c addr q flags.
Proof.
  intros Hi <- Hc. rewrite walk_ok, get_flags_ok by (by apply Hi). intros Hw Hf. split; congruence.
Qed.

(** What one store leaves: the process writes to frame [q], the other user pages are mapped as before. *)
Record stored (roots l : list Z) (addr q i v : Z) (m m' : machine) (l' : list Z) : Prop := {
  so_inv : spaces_inv m' roots l';
  so_regs : same_regs m m';
  so_maps : maps m' (cr3 m) addr q PAGING_USER_R_W_FLAGS;
  so_others : forall root va, root ∈ roots -> user va -> root <> cr3 m \/ vpn addr <> vpn va ->
    pte (ram (pm m')) root va = pte (ram (pm m)) root va;
  so_unused : (q ∉ l') /\ unused_frame (ram (pm m')) roots q
}.

Lemma page_words m q i v p k : 0 <= i < 512 -> 0 <= k < 512 ->
  frame_words (set_word (q * 4096 + 8 * i) v m) p k = if decide (p = q) then with_word i v (frame_words m p) k else frame_words m p k.
Proof.
  intros Hi Hk. unfold frame_words, with_word, word. rewrite set_word_ram, ram_word_insert.
  case_decide as E; [assert (p = q /\ k = i) as [-> ->] by lia; by rewrite decide_True, Z.eqb_refl|].
  case_decide; [|done]. subst. destruct (Z.eqb_spec k i); [subst; lia|done].
Qed.

(** The first of two sharers. *)
Lemma store_private m roots l addr p i v : cow_page m roots l addr p 2 -> writable (pte (ram (pm m)) (cr3 m) addr) = false -> 0 <= i < 512 ->
  exists q m' l', user_store (addr + 8 * i) v m = Ret (tt, m') /\ stored roots l addr q i v m m' l' /\ q <> p /\ q <> 0 /\
    (forall k, 0 <= k < 512 -> frame_words m' q k = with_word i v (frame_words m p) k) /\
    (forall k, 0 <= k < 512 -> frame_words m' p k = frame_words m p k) /\
    refs (pm m') p = 1 /\ (p ∉ l') /\ unused_frame (ram (pm m')) roots p /\ suffix l' l /\ Z.of_nat (length l) <= Z.of_nat (length l') + 7.
Proof.
  intros Hc Hw Hi. pose proof Hc as [Hinv Hroot _ Ha _ _ _ _ Hpl _ _ H0 _]. destruct (in_page addr i Ha Hi) as (Hf & _ & _).
  destruct (page_fault_cow_private _ _ _ _ _ _ Hc Hf)
    as (q & m1 & l1 & R1 & Hi1 & Hg & Hql & Hql1 & Hwk & Hfl & Hcq & Hcp & Href & Hoth & Hpl1 & Hpu & Hqu & Hsub & Hlen).
  assert (q <> p) as Hne by (by intros ->). assert (q <> 0) as Hq0 by (by intros ->).
  assert (cr3 m1 = cr3 m) as Hc1 by apply Hg. assert (maps m1 (cr3 m) addr q PAGING_USER_R_W_FLAGS) as Hm by (by eapply maps_walk).
  assert ((q * 4096 + 8 * i) / 4096 = q) as Hfr by (by apply frame_of_word).
  exists q, (set_word (q * 4096 + 8 * i) v m1), l1. split_and!; try done.
  - apply (user_store_fault m m1 addr q i v (sp_roots _ _ _ Hinv _ Hroot) Ha Hi Hq0 Hw R1 Hc1 Hm).
  - split; [by eapply data_write_inv|by eapply same_regs_trans| | |].
    + unfold maps. rewrite set_word_ram, !(data_write_pte m1 roots q) by done. exact Hm.
    + intros root va Hr Hu Hor. rewrite set_word_ram, (data_write_pte m1 roots q) by done. by apply Hoth.
    + split; [done|]. rewrite set_word_ram. by apply (data_write_unused m1 roots q).
  - intros k Hk. rewrite page_words, decide_True by done. unfold with_word. destruct (k =? i); [done|]. by apply Hcq.
  - intros k Hk. rewrite page_words, decide_False by done. by apply Hcp.
  - rewrite set_word_ram. by apply (data_write_unused m1 roots q).
Qed.

(** The last owner. *)
Lemma store_last m roots l addr p i v : cow_page m roots l addr p 1 -> writable (pte (ram (pm m)) (cr3 m) addr) = false -> 0 <= i < 512 ->
  exists m' l', user_store (addr + 8 * i) v m = Ret (tt, m') /\ stored roots l addr p i v m m' l' /\
    (forall k, 0 <= k < 512 -> frame_words m' p k = with_word i v (frame_words m p) k) /\
    (forall q k, q <> p -> q ∉ l -> unused_frame (ram (pm m)) roots q -> 0 <= k < 512 -> frame_words m' q k = frame_words m q k).
Proof.
  intros Hc Hw Hi. pose proof Hc as [Hinv Hroot _ Ha _ _ _ Hpr Hpl Hpu _ H0 _]. destruct (in_page addr i Ha Hi) as (Hf & _ & _).
  destruct (page_fault_cow_last _ _ _ _ _ _ Hc Hf) as (m1 & l1 & R1 & Hi1 & Hg & Hwk & Hfl & Hd & Hoth & Hsub).
  assert (cr3 m1 = cr3 m) as Hc1 by apply Hg. assert (maps m1 (cr3 m) addr p PAGING_USER_R_W_FLAGS) as Hm by (by eapply maps_walk).
  destruct (Hd p Hpl Hpu) as [Hpu1 Hpw]. assert (p ∉ l1) as Hpl1 by eauto using suffix_elem.
  assert ((p * 4096 + 8 * i) / 4096 = p) as Hfr by (by apply frame_of_word).
  exists (set_word (p * 4096 + 8 * i) v m1), l1. split_and!; try done.
  - apply (user_store_fault m m1 addr p i v (sp_roots _ _ _ Hinv _ Hroot) Ha Hi ltac:(lia) Hw R1 Hc1 Hm).
  - split; [by eapply data_write_inv|by eapply same_regs_trans| | |].
    + unfold maps. rewrite set_word_ram, !(data_write_pte m1 roots p) by done. exact Hm.
    + intros root va Hr Hu Hor. rewrite set_word_ram, (data_write_pte m1 roots p) by done. by apply Hoth.
    + split; [done|]. rewrite set_word_ram. by apply (data_write_unused m1 roots p).
  - intros k Hk. rewrite page_words, decide_True by done. unfold with_word. destruct (k =? i); [done|]. by apply Hpw.
  - intros q k Hq Hql Hqu Hk. rewrite page_words, decide_False by done. by apply (Hd q).
Qed.

Lemma sees_ext m root addr f g : sees m root addr f -> (forall i, 0 <= i < 512 -> f i = g i) -> sees m root addr g.
Proof. intros H E i Hi. rewrite <- E by done. by apply H. Qed.

Lemma sees_maps m roots l root addr q : spaces_inv m roots l -> root ∈ roots -> aligned addr -> q <> 0 ->
  maps m root addr q PAGING_USER_R_W_FLAGS -> sees m root addr (frame_words m q).
Proof.
  intros Hi Hr Ha Hq Hm. apply sees_frame; [by apply Hi|done|done|apply (maps_writable _ _ _ _ Hm)|apply Hm].
Qed.

(** ** Sharing *)

(** The address space [root] maps [addr] to frame [p], protected and marked copy-on-write. *)
Definition shares_page (m : machine) (root addr p : Z) : Prop :=
  exists e, pte (ram (pm m)) root addr = cow_entry e /\ present e = true /\ Z.land e MASK = p * 4096.

Lemma shares_same m m' root addr p : pte (ram (pm m')) root addr = pte (ram (pm m)) root addr -> shares_page m root addr p -> shares_page m' root addr p.
Proof. intros E (e & He & H). exists e. by rewrite E. Qed.

Lemma shares_sees m roots l root addr p : spaces_inv m roots l -> root ∈ roots -> aligned addr -> p <> 0 ->
  shares_page m root addr p -> sees m root addr (frame_words m p).
Proof.
  intros Hi Hr Ha Hp (e & He & He1 & He2). apply sees_frame; [by apply Hi|done|done|by rewrite He, cow_entry_present|by rewrite He, cow_entry_mask].
Qed.

Lemma shares_protected m root addr p : shares_page m root addr p -> writable (pte (ram (pm m)) root addr) = false.
Proof. intros (e & -> & _). apply cow_entry_protected. Qed.

(** [fork] shares the page, whether or not it was shared before. *)
Lemma forked_shares m roots l child m' l' addr p who : forked m roots l (cr3 m) child m' l' -> user addr -> on_frame (cr3 m) m addr p ->
  who = cr3 m \/ who = child -> shares_page m' who addr p.
Proof.
  intros F Hu [Hp Hm] Hw. exists (pte (ram (pm m)) (cr3 m) addr). split; [|done].
  destruct Hw as [->| ->]; [rewrite (fk_parent _ _ _ _ _ _ _ F) by done; unfold cow_parent|rewrite (fk_child _ _ _ _ _ _ _ F) by done; unfold cow_child]; by rewrite Hp.
Qed.

(** What the page-fault handler finds. *)
Lemma shares_cow_page m roots l who addr p n : spaces_inv m roots l -> who ∈ roots -> kernel_virtual_base m = KERNEL_BASE -> aligned addr -> user addr ->
  shares_page m who addr p -> 0 < p < MAX_PAGES -> p ∉ l -> unused_frame (ram (pm m)) roots p -> refs (pm m) p = n -> 0 ∉ l ->
  MIN_PAGES + 8 <= Z.of_nat (length l) -> cow_page (set_cr3 who m) roots l addr p n.
Proof.
  intros Hi Hw Hk Ha Hu (e & He & _ & Hm) Hp Hl Hd Hr H0 Hlen. split; cbn [pm cr3 set_cr3 kernel_virtual_base]; try done.
  - by apply spaces_inv_cr3.
  - rewrite He. apply cow_entry_flag.
  - by rewrite He, cow_entry_mask.
Qed.

(** ** Two stores *)

(** Two processes, the first of which writes to a page they share, and then the second. *)
Definition both_write (first second va1 v1 va2 v2 : Z) : M machine unit :=
  set_new_cr3 first ≫= fun _ => user_store va1 v1 ≫= fun _ => set_new_cr3 second ≫= fun _ => user_store va2 v2.

(** Two address spaces share a frame that counts two owners: the first to write gets frame [q], the second keeps [p]. *)
Lemma both_write_ok m roots l first second addr p i1 v1 i2 v2 :
  spaces_inv m roots l -> first ∈ roots -> second ∈ roots -> first <> second -> kernel_virtual_base m = KERNEL_BASE -> aligned addr -> user addr ->
  shares_page m first addr p -> shares_page m second addr p -> 0 < p < MAX_PAGES -> p ∉ l -> unused_frame (ram (pm m)) roots p ->
  refs (pm m) p = 2 -> 0 ∉ l -> MIN_PAGES + 15 <= Z.of_nat (length l) -> 0 <= i1 < 512 -> 0 <= i2 < 512 ->
  exists q m' l', both_write first second (addr + 8 * i1) v1 (addr + 8 * i2) v2 m = Ret (tt, m') /\ spaces_inv m' roots l' /\ q <> p /\ q <> 0 /\
    maps m' first addr q PAGING_USER_R_W_FLAGS /\ maps m' second addr p PAGING_USER_R_W_FLAGS /\
    (forall k, 0 <= k < 512 -> frame_words m' q k = with_word i1 v1 (frame_words m p) k) /\
    (forall k, 0 <= k < 512 -> frame_words m' p k = with_word i2 v2 (frame_words m p) k) /\
    (forall root va, root ∈ roots -> user va -> (root <> first /\ root <> second) \/ vpn addr <> vpn va ->
       pte (ram (pm m')) root va = pte (ram (pm m)) root va).
Proof.
  intros Hi H1 H2 Hne Hk Ha Hu S1 S2 Hp Hl Hd Hr H0 Hlen Hi1 Hi2.
  pose proof (shares_cow_page m roots l first addr p 2 Hi H1 Hk Ha Hu S1 Hp Hl Hd Hr H0 ltac:(lia)) as C1.
  destruct (store_private _ _ _ _ _ i1 v1 C1 (shares_protected _ _ _ _ S1) Hi1)
    as (q & m1 & l1 & R1 & [I1 G1 M1 O1 [Q1 U1]] & Hqp & Hq0 & W1 & P1 & F1 & L1 & D1 & Z1 & N1). cbn [cr3 set_cr3] in M1, O1.
  assert (shares_page m1 second addr p) as S3 by (eapply (shares_same m); [apply O1; auto|done]).
  assert (kernel_virtual_base m1 = KERNEL_BASE) as K1 by (rewrite (sr_kvb _ _ G1); exact Hk).
  assert (0 ∉ l1) as Z0 by eauto using suffix_elem.
  pose proof (shares_cow_page m1 roots l1 second addr p 1 I1 H2 K1 Ha Hu S3 Hp L1 D1 F1 Z0 ltac:(lia)) as C2.
  destruct (store_last _ _ _ _ _ i2 v2 C2 (shares_protected _ _ _ _ S3) Hi2) as (m2 & l2 & R2 & [I2 G2 M2 O2 _] & W2 & P2). cbn [cr3 set_cr3] in M2, O2.
  assert (pte (ram (pm m2)) first addr = pte (ram (pm m1)) first addr) as E1 by (apply O2; auto).
  exists q, m2, l2. split_and!; try done.
  - unfold both_write, set_new_cr3, modify. rewrite (bind_ret _ _ _ _ _ eq_refl), (bind_ret _ _ _ _ _ R1). by rewrite (bind_ret _ _ _ _ _ eq_refl).
  - unfold maps. by rewrite E1.
  - intros k Hkk. rewrite P2 by done. by apply W1.
  - intros k Hkk. rewrite W2 by done. unfold with_word. destruct (k =? i2); [done|]. by apply P1.
  - intros root va Hro Hv Hor. rewrite O2, O1; [done|done|done|tauto|done|done|tauto].
Qed.

(** ** One [fork] *)

Lemma forked_kept m roots l root child m' l' addr p : forked m roots l root child m' l' -> own_page m roots l addr p ->
  (p ∉ l') /\ unused_frame (ram (pm m')) (child :: roots) p /\ (forall k, 0 <= k < 512 -> frame_words m' p k = frame_words m p k).
Proof.
  intros F O. destruct (fk_data _ _ _ _ _ _ _ F p (ow_used _ _ _ _ _ O) (ow_data _ _ _ _ _ O)) as [Hu Hw]. split_and!; [|done|exact Hw].
  intros Hin. apply (ow_used _ _ _ _ _ O). eapply suffix_elem; [apply F|done].
Qed.

(** C20: [fork] isolates: after [cow_page_tables] parent and child map a page of the parent to the same frame, which neither may write to.  When one of them, the child
    or the parent, stores a word in the page and then the other one does, each store going through the protection check of the processor and
    the page-fault handler, the two end up on different frames, both writable: each reads its own word and otherwise what the page
    held at the fork, and no other user page of any process is remapped. *)
Theorem fork_isolates_pages m roots l addr p i1 v1 i2 v2 :
  spaces_inv m roots l -> cr3 m ∈ roots -> kernel_virtual_base m = KERNEL_BASE -> frames_used (cr3 m) m l -> 0 ∉ l ->
  MIN_PAGES + 16 + Z.of_nat (user_tables m (cr3 m)) <= Z.of_nat (length l) -> own_page m roots l addr p ->
  0 <= i1 < 512 -> 0 <= i2 < 512 ->
  exists child m1, cow_page_tables m = Ret (child, m1) /\ (child ∉ roots) /\
    (forall who, who = cr3 m \/ who = child -> shares_page m1 who addr p /\ writable (pte (ram (pm m1)) who addr) = false) /\
    forall first second, (first = cr3 m /\ second = child) \/ (first = child /\ second = cr3 m) ->
    exists q m2, both_write first second (addr + 8 * i1) v1 (addr + 8 * i2) v2 m1 = Ret (tt, m2) /\ q <> p /\
      maps m2 first addr q PAGING_USER_R_W_FLAGS /\ maps m2 second addr p PAGING_USER_R_W_FLAGS /\
      sees m2 first addr (with_word i1 v1 (frame_words m p)) /\ sees m2 second addr (with_word i2 v2 (frame_words m p)) /\
      (forall root va, root ∈ child :: roots -> user va -> (root <> first /\ root <> second) \/ vpn addr <> vpn va ->
         pte (ram (pm m2)) root va = pte (ram (pm m1)) root va).
Proof.
  intros Hinv Hroot Hk Hfr H0 Hlen Hown Hi1 Hi2.
  destruct (cow_page_tables_ok m roots l) as (child & m1 & l1 & Hrun & F & Hl & _); [done..|lia|].
  destruct (forked_kept _ _ _ _ _ _ _ _ _ F Hown) as (Hp1 & Hd1 & Hw1). pose proof Hown as [Ha Hu Hof Hpr Hpl _ Hrf].
  assert (forall who, who = cr3 m \/ who = child -> shares_page m1 who addr p) as Hsh by (intros who; by apply (forked_shares m roots l child m1 l1)).
  exists child, m1. split_and!; [done|apply F| |].
  { intros who Hwho. split; [|eapply shares_protected]; by apply Hsh. }
  intros first second Hwho.
  assert (first <> second) as Hne.
  { intros ->. apply (fk_new _ _ _ _ _ _ _ F). destruct Hwho as [[-> <-]|[<- ->]]; done. }
  assert (first ∈ child :: roots /\ second ∈ child :: roots) as [Hin1 Hin2].
  { destruct Hwho as [[-> ->]|[-> ->]]; split; by (left || right). }
  destruct (both_write_ok m1 (child :: roots) l1 first second addr p i1 v1 i2 v2) as (q & m2 & l2 & R & I2 & Hqp & Hq0 & M1 & M2 & W1 & W2 & O);
    try done; try (apply Hsh; tauto).
  - apply F.
  - rewrite (sr_kvb _ _ (fk_regs _ _ _ _ _ _ _ F)). exact Hk.
  - exact (fk_counts _ _ _ _ _ _ _ F addr p Hu Hof Hpl Hrf).
  - intros Hin. apply H0. eapply suffix_elem; [apply F|done].
  - lia.
  - exists q, m2. split_and!; try done.
    + eapply sees_ext; [by apply (sees_maps m2 _ _ first addr q I2)|]. intros k Hkk. rewrite W1 by done. unfold with_word. destruct (k =? i1); [done|]. by apply Hw1.
    + eapply sees_ext; [apply (sees_maps m2 _ _ second addr p I2); try done; lia|]. intros k Hkk. rewrite W2 by done. unfold with_word. destruct (k =? i2); [done|]. by apply Hw1.
Qed.

(** ** Two forks *)

Definition fork_twice : M machine (Z * Z) := a ← cow_page_tables; b ← cow_page_tables; mret (a, b).

(** A process that shares its pages can fork again. *)
Lemma forked_again m roots l child m' l' : forked m roots l (cr3 m) child m' l' -> cr3 m ∈ roots -> frames_used (cr3 m) m l ->
  frames_used (cr3 m') m' l' /\ user_tables m' (cr3 m') = user_tables m (cr3 m).
Proof.
  intros F Hr Hf. rewrite (sr_cr3 _ _ (fk_regs _ _ _ _ _ _ _ F)). split.
  - intros va Hv. rewrite (fk_parent _ _ _ _ _ _ _ F) by done. rewrite cow_parent_present, cow_parent_mask. intros Hp.
    destruct (Hf va Hv Hp) as (q & E & Hq & Hl). exists q. split_and!; [done|lia|lia|]. intros Hin. apply Hl. eapply suffix_elem; [apply F|done].
  - apply tables_below_same. intros va d Hd. by apply (fk_tables _ _ _ _ _ _ _ F).
Qed.

(** C33: with three sharers copy-on-write does not isolate: [cow_page_tables] never counts beyond 2, so when a process has forked twice and
    the first child has written to a page, the parent is taken for the last owner of the frame: its next store goes into the
    frame that the second child still maps, and the second child reads it. *)
Theorem cow_three_sharers_not_isolated m roots l addr p i1 v1 i2 v2 :
  spaces_inv m roots l -> cr3 m ∈ roots -> kernel_virtual_base m = KERNEL_BASE -> frames_used (cr3 m) m l -> 0 ∉ l ->
  MIN_PAGES + 17 + 2 * Z.of_nat (user_tables m (cr3 m)) <= Z.of_nat (length l) -> own_page m roots l addr p ->
  0 <= i1 < 512 -> 0 <= i2 < 512 ->
  exists a b m2, fork_twice m = Ret ((a, b), m2) /\ b <> a /\ b <> cr3 m /\ sees m2 b addr (frame_words m p) /\
    exists m3, both_write a (cr3 m) (addr + 8 * i1) v1 (addr + 8 * i2) v2 m2 = Ret (tt, m3) /\
      sees m3 b addr (with_word i2 v2 (frame_words m p)).
Proof.
  intros Hinv Hroot Hk Hfr H0 Hlen Hown Hi1 Hi2.
  destruct (cow_page_tables_ok m roots l) as (a & m1 & l1 & R1 & F1 & L1 & _); [done..|lia|].
  destruct (forked_kept _ _ _ _ _ _ _ _ _ F1 Hown) as (Hp1 & Hd1 & Hw1). pose proof Hown as [Ha Hu Hof Hpr Hpl _ Hrf].
  destruct (forked_again _ _ _ _ _ _ F1 Hroot Hfr) as [Hfr1 Ht1]. pose proof (sr_cr3 _ _ (fk_regs _ _ _ _ _ _ _ F1)) as C1.
  assert (cr3 m1 ∈ a :: roots) as Hr1 by (rewrite C1; by right).
  destruct (cow_page_tables_ok m1 (a :: roots) l1) as (b & m2 & l2 & R2 & F2 & L2 & _); [apply F1|done|done|rewrite Ht1; lia|]. rewrite Ht1 in L2.
  destruct (fk_data _ _ _ _ _ _ _ F2 p Hp1 Hd1) as [Hd2 Hw2].
  pose proof (forked_shares m roots l a m1 l1 addr p a F1 Hu Hof (or_intror eq_refl)) as Sa1.
  pose proof (forked_shares m roots l a m1 l1 addr p (cr3 m1) F1 Hu Hof (or_introl C1)) as (e & He & He1 & He2).
  assert (on_frame (cr3 m1) m1 addr p) as Hof1 by (unfold on_frame; by rewrite He, cow_entry_present, cow_entry_mask).
  assert (forall who, who = cr3 m1 \/ who = b -> shares_page m2 who addr p) as Hsh by (intros who; by apply (forked_shares m1 (a :: roots) l1 b m2 l2)).
  assert (a <> cr3 m1) as Hne by (rewrite C1; intros ->; by apply (fk_new _ _ _ _ _ _ _ F1)).
  assert (shares_page m2 a addr p) as Sa.
  { eapply (shares_same m1); [|exact Sa1]. apply (fk_others _ _ _ _ _ _ _ F2); [by left|by left]. }
  pose proof (fk_new _ _ _ _ _ _ _ F2) as [Hba Hbr]%not_elem_of_cons. pose proof (fk_inv _ _ _ _ _ _ _ F2) as I2.
  assert (b <> cr3 m) as Hbm by (by intros ->). assert (p ∉ l2) as Hp2 by (intros Hin; apply Hp1; eapply suffix_elem; [apply F2|done]).
  assert (refs (pm m2) p = 2) as Hr2.
  { pose proof (fk_counts _ _ _ _ _ _ _ F1 addr p Hu Hof Hpl Hrf) as H. rewrite (fk_refs _ _ _ _ _ _ _ F2 p Hp1) by lia. exact H. }
  assert (forall k, 0 <= k < 512 -> frame_words m2 p k = frame_words m p k) as Hw by (intros k Hkk; rewrite <- Hw1 by done; by apply Hw2).
  exists a, b, m2. split_and!; [by unfold fork_twice; rewrite (bind_ret _ _ _ _ _ R1), (bind_ret _ _ _ _ _ R2)|done|done| |].
  { eapply sees_ext; [|exact Hw]. eapply shares_sees; [exact I2|by left|done|lia|by apply Hsh; right]. }
  rewrite <- C1. destruct (both_write_ok m2 (b :: a :: roots) l2 a (cr3 m1) addr p i1 v1 i2 v2) as (q & m3 & l3 & R3 & I3 & _ & _ & _ & _ & _ & W3 & O3);
    try done; try (by apply Hsh; left).
  - right. by left.
  - by right.
  - rewrite (sr_kvb _ _ (fk_regs _ _ _ _ _ _ _ F2)), (sr_kvb _ _ (fk_regs _ _ _ _ _ _ _ F1)). exact Hk.
  - intros Hin. apply H0. do 2 (eapply suffix_elem; [by eapply fk_sub|]). exact Hin.
  - lia.
  - exists m3. split; [done|]. eapply sees_ext; [eapply (shares_sees m3 _ _ b addr p I3); [by left|done|lia|]|].
    + eapply (shares_same m2); [|by apply Hsh; right]. apply O3; [by left|done|]. left. split; [done|]. by rewrite C1.
    + intros k Hkk. rewrite W3 by done. unfold with_word. destruct (k =? i2); [done|]. by apply Hw.
Qed.

(** ** Witnesses *)

Abbreviation demo_process := (one_page demo_physmem).

Lemma demo_refs : refs (pm demo_process) 2 = 1.
Proof. by vm_compute. Qed.

Lemma demo_tables : user_tables demo_process 4096 = 3%nat.
Proof. by vm_compute. Qed.

Lemma shared_demo_word : frame_words demo_process 2 2 = 0.
Proof. by vm_compute. Qed.

Lemma demo_process_ok : exists l, spaces_inv demo_process [4096] l /\ same_regs demo_machine demo_process /\
  frames_used 4096 demo_process l /\ own_page demo_process [4096] l 0x400000 2 /\ (0 ∉ l) /\ 34 <= Z.of_nat (length l).
Proof.
  destruct (one_page_ok demo_physmem 2 (seqZ 3 37)) as (l & Hi & Hg & Hf & Ho & Hsub & Hl).
  - apply demo_physmem_inv.
  - apply demo_ram.
  - lia.
  - change (2 :: seqZ 3 37) with (seqZ 2 38). rewrite elem_of_seqZ. lia.
  - rewrite elem_of_seqZ. lia.
  - by vm_compute.
  - exact demo_refs.
  - exists l. split_and!; [exact Hi|exact Hg|exact Hf|exact Ho| |rewrite length_seqZ in Hl; lia].
    intros H. eapply suffix_elem in H; [|exact Hsub]. apply elem_of_seqZ in H. lia.
Qed.

Lemma fork_isolates_pages_witness : exists child m1, cow_page_tables demo_process = Ret (child, m1) /\
  exists m2, both_write 4096 child (0x400000 + 8 * 2) 11 (0x400000 + 8 * 511) 22 m1 = Ret (tt, m2) /\
    user_load (0x400000 + 8 * 2) (set_cr3 4096 m2) = Ret (11, set_cr3 4096 m2) /\
    user_load (0x400000 + 8 * 2) (set_cr3 child m2) = Ret (0, set_cr3 child m2).
Proof.
  destruct demo_process_ok as (l & Hi & Hg & Hf & Ho & H0 & Hl). pose proof (sr_cr3 _ _ Hg) as Hc.
  destruct (fork_isolates_pages demo_process [4096] l 0x400000 2 2 11 511 22 Hi) as (child & m1 & R1 & _ & _ & H).
  - rewrite Hc. apply demo_root.
  - rewrite (sr_kvb _ _ Hg). reflexivity.
  - rewrite Hc. exact Hf.
  - exact H0.
  - rewrite Hc. change (cr3 demo_machine) with 4096. rewrite demo_tables. unfold MIN_PAGES. lia.
  - exact Ho.
  - lia.
  - lia.
  - exists child, m1. split; [exact R1|]. destruct (H 4096 child) as (q & m2 & R2 & _ & _ & _ & S1 & S2 & _); [left; split; [exact (eq_sym Hc)|reflexivity]|].
    exists m2. split_and!; [exact R2|exact (S1 2 ltac:(lia))|]. rewrite (S2 2 ltac:(lia)). unfold with_word. cbn [Z.eqb Pos.eqb]. by rewrite shared_demo_word.
Defined.

Lemma cow_three_sharers_not_isolated_witness : exists a b m2, fork_twice demo_process = Ret ((a, b), m2) /\
  exists m3, both_write a 4096 (0x400000 + 8 * 2) 11 (0x400000 + 8 * 511) 22 m2 = Ret (tt, m3) /\
    user_load (0x400000 + 8 * 511) (set_cr3 b m3) = Ret (22, set_cr3 b m3).
Proof.
  destruct demo_process_ok as (l & Hi & Hg & Hf & Ho & H0 & Hl). pose proof (sr_cr3 _ _ Hg) as Hc.
  destruct (cow_three_sharers_not_isolated demo_process [4096] l 0x400000 2 2 11 511 22 Hi) as (a & b & m2 & R & _ & _ & _ & m3 & R3 & S3).
  - rewrite Hc. apply demo_root.
  - rewrite (sr_kvb _ _ Hg). reflexivity.
  - rewrite Hc. exact Hf.
  - exact H0.
  - rewrite Hc. change (cr3 demo_machine) with 4096. rewrite demo_tables. unfold MIN_PAGES. lia.
  - exact Ho.
  - lia.
  - lia.
  - rewrite Hc in R3. exists a, b, m2. split; [exact R|]. exists m3. split; [exact R3|exact (S3 511 ltac:(lia))].
Defined.
