(* ===== verification/MapRange.v ===== *)
(** * Mapping fresh pages

    The loops that give a process memory (the growth of its stack, [user_malloc], the
    segments of a program) take a page from the allocator and map it, for a sequence of
    virtual pages. *)

From S2P Require Import Prelude PhysMem Paging PageTable PagingSpec Cow.

(** The pages [vas] of the current address space are mapped to the frames [phs], which were
    free; every other page, and every user page of the other address spaces, is as before. *)
Record fresh_mapped (roots l : list Z) (flags : Z) (vas phs : list Z) (m m' : machine) (l' : list Z) : Prop := {
  fm_inv : spaces_inv m' roots l';
  fm_regs : same_regs m m';
  fm_pte : Forall2 (fun va p => pte (ram (pm m')) (cr3 m) va = Z.lor (p * 4096) flags) vas phs;
  fm_other : forall va', Forall (fun va => vpn va <> vpn va') vas ->
    pte (ram (pm m')) (cr3 m) va' = pte (ram (pm m)) (cr3 m) va';
  fm_spaces : forall root va', root ∈ roots -> root <> cr3 m -> Forall (fun va => table_offset 0 va <> 511) vas ->
    pte (ram (pm m')) root va' = pte (ram (pm m)) root va';
  fm_fresh : forall p, p ∈ phs -> p ∈ l /\ (p ∉ l');
  fm_nodup : NoDup phs;
  fm_sub : suffix l' l;
  fm_data : data_kept roots l (ram (pm m)) (ram (pm m'));
  fm_frames : forall p, p ∈ phs -> unused_frame (ram (pm m')) roots p /\ zero_frame (ram (pm m')) p;
  fm_len : Z.of_nat (length l) <= Z.of_nat (length l') + 4 * Z.of_nat (length vas)
}.

Lemma map_fresh_ok flags vas m roots l :
  spaces_inv m roots l -> cr3 m ∈ roots -> flags_ok flags -> NoDup (vpn <$> vas) ->
  MIN_PAGES + 4 * Z.of_nat (length vas) <= Z.of_nat (length l) ->
  exists phs m' l', map_fresh flags vas m = Ret (tt, m') /\ fresh_mapped roots l flags vas phs m m' l'.
Proof.
  revert m l; induction vas as [|va vas IH]; intros m l Hinv Hroot Hf Hnd Hlen.
  { exists [], m, l. split; [done|].
    split; [done|done|constructor|done|done|by intros p ?%not_elem_of_nil|constructor|done|done
      |by intros p ?%not_elem_of_nil|simpl; lia]. }
  cbn [fmap list_fmap length] in *. apply list.NoDup_cons in Hnd as [Hva Hnd].
  destruct (alloc_map_ok m roots l va flags)
    as (p & l1 & m1 & m2 & l2 & Hr1 & Hl & Hram & Hr2 & Hg1 & Hm & Hp & Hu); [done|done|done|lia|].
  destruct Hm as [Hinv2 Hregs2 Hself2 Hoth2 Hdata2 Hsub2 Hlen2].
  assert (same_regs m m2) as Hg2 by eauto using same_regs_trans.
  assert (cr3 m2 = cr3 m) as Hc2 by apply Hg2.
  destruct (IH m2 l2) as (phs & m' & l' & Hrun & [Hinv' Hregs' Hpte' Hoth' Hsp' Hfr' Hnd' Hsub' Hdata' Hfs' Hlen']);
    [done|by rewrite Hc2|done|done|subst l; cbn [length] in Hlen; lia|].
  rewrite Hc2 in *. assert (suffix l' l1) as Hsub1 by (by etransitivity).
  assert (unused_frame (ram (pm m')) roots p /\ zero_frame (ram (pm m')) p) as Hpz.
  { destruct (Hdata2 p Hp Hu) as [Hu2 Hw2]. destruct (Hdata' p) as [Hu3 Hw3]; [eauto using suffix_elem|done|].
    split; [done|]. intros i Hi. rewrite Hw3, Hw2, Hram by done.
    apply (sp_free _ _ _ Hinv p); [subst l; by left|done]. }
  exists (p :: phs), m', l'. split.
  { cbn [map_fresh]. unfold map_fresh_page. rewrite (bind_ret _ _ _ tt m2); [done|].
    by rewrite (bind_ret _ _ _ _ _ Hr1). }
  split; try done.
  - by eapply same_regs_trans.
  - constructor; [|done]. rewrite Hoth'; [by rewrite Hself2, decide_True|].
    apply List.Forall_forall. intros x Hx Heq. apply Hva. rewrite <- Heq.
    by apply list_elem_of_fmap_2, list_elem_of_In.
  - intros va' Hall. apply Forall_cons_1 in Hall as [Hne Hall]. rewrite Hoth' by done.
    rewrite Hself2, decide_False by done. by rewrite Hram.
  - intros root va' Hr Hne Hall. apply Forall_cons_1 in Hall as [H0 Hall]. rewrite Hsp' by done.
    rewrite Hoth2 by auto. by rewrite Hram.
  - intros q [->|Hq]%elem_of_cons.
    + subst l. split; [by left|]. intros Hin. apply Hp. by eapply suffix_elem.
    + destruct (Hfr' q Hq) as [H1 H2]. split; [|done]. subst l. right. by apply (suffix_elem l2).
  - apply list.NoDup_cons. split; [|done]. intros Hq. destruct (Hfr' p Hq) as [H1 _].
    apply Hp. by apply (suffix_elem l2).
  - subst l. etransitivity; [done|]. by apply suffix_cons_r.
  - rewrite <- Hram. subst l. intros q Hq Huq. apply not_elem_of_cons in Hq as [_ Hq].
    apply (data_kept_trans _ l1 l2 _ (ram (pm m2)) _); [|done..]. intros x. by apply suffix_elem.
  - intros q [->|Hq]%elem_of_cons; [done|by apply Hfs'].
  - subst l. cbn [length] in *. lia.
Qed.

(** Consecutive page addresses. *)
Definition page_range (start : Z) (n : nat) : list Z := (fun i => start + i * 4096) <$> seqZ 0 (Z.of_nat n).

Lemma vpn_page_inj start i j :
  0 <= i < 2 ^ 20 -> 0 <= j < 2 ^ 20 -> vpn (start + i * 4096) = vpn (start + j * 4096) -> i = j.
Proof.
  intros Hi Hj Hv%vpn_inj. rewrite !Z.div_add in Hv by lia. set (c := start / 4096) in *.
  pose proof (Z.div_mod (c + i) (2 ^ 36) ltac:(lia)) as H1.
  pose proof (Z.div_mod (c + j) (2 ^ 36) ltac:(lia)) as H2.
  assert (i - j = 2 ^ 36 * ((c + i) / 2 ^ 36 - (c + j) / 2 ^ 36)) as Hd by lia.
  assert ((c + i) / 2 ^ 36 - (c + j) / 2 ^ 36 = 0) by nia. lia.
Qed.

Lemma page_range_nodup start n :
  Z.of_nat n <= 2 ^ 20 -> NoDup (vpn <$> page_range start n).
Proof.
  intros Hn. unfold page_range. rewrite <- list_fmap_compose.
  apply NoDup_fmap_2_strong; [|apply NoDup_seqZ]. intros i j Hi%elem_of_seqZ Hj%elem_of_seqZ Hv.
  eapply (vpn_page_inj start); [lia|lia|exact Hv].
Qed.

Lemma fresh_length roots l flags start n phs m m' l' :
  fresh_mapped roots l flags (page_range start n) phs m m' l' -> length phs = n.
Proof.
  intros Hfm. pose proof (fm_pte _ _ _ _ _ _ _ _ Hfm) as Hp. apply Forall2_length in Hp. rewrite <- Hp.
  unfold page_range. rewrite length_fmap, length_seqZ. lia.
Qed.
