(* ===== verification/VaMem.v ===== *)
(** * Bytes through the page tables

    The kernel stores the image and the arguments of a new program through the page tables of
    its address space.  Physical memory is an array of 64-bit words; [phys_byte] is its view as
    bytes, [phys] the physical address behind a virtual one when [fr] gives the frames of
    the pages. *)

From S2P Require Import Prelude BitField PhysMem Paging PageTable PagingSpec Cow MapRange.

(** ** Accesses *)

Definition ld8_va (va : Z) : M machine Z :=
  a ← translate va; gets (fun m => field (8 * (a mod 8)) 8 (word m (a - a mod 8))).

Definition st8_va (va b : Z) : M machine unit :=
  a ← translate va;
  modify (fun m => set_word (a - a mod 8) (set_field (8 * (a mod 8)) 8 b (word m (a - a mod 8))) m).

(** A store to an 8-aligned address. *)
Definition st64_va (va v : Z) : M machine unit := a ← translate va; modify (set_word a v).

(** [memcpy] of the bytes [bs] to [dst]. *)
Fixpoint copy_in (dst : Z) (bs : list Z) : M machine unit :=
  match bs with [] => mret tt | b :: r => st8_va (u64 dst) b ≫= fun _ => copy_in (dst + 1) r end.

(** ** Physical bytes *)

Definition phys_byte (m : machine) (x : Z) : Z := field (8 * (x mod 8)) 8 (word m (x - x mod 8)).

Lemma word_of_byte x : (x - x mod 8) mod 8 = 0.
Proof. rewrite Zminus_mod_idemp_r. by rewrite Z.sub_diag. Qed.

Lemma word_frame x : (x - x mod 8) / 4096 = x / 4096.
Proof.
  pose proof (Z.div_mod x 8 ltac:(lia)). replace (x - x mod 8) with (x / 8 * 8) by lia.
  change 4096 with (8 * 512). rewrite <- !Z.div_div by lia. by rewrite Z.div_mul.
Qed.

(** Writing one byte of a word. *)
Lemma phys_byte_write m a b x :
  phys_byte (set_word (a - a mod 8) (set_field (8 * (a mod 8)) 8 b (word m (a - a mod 8))) m) x =
  if decide (x = a) then u8 b else phys_byte m x.
Proof.
  unfold phys_byte, word at 1. rewrite set_word_ram, ram_word_insert.
  pose proof (Z.mod_pos_bound a 8). pose proof (Z.mod_pos_bound x 8).
  destruct (decide (a - a mod 8 = x - x mod 8)) as [E|E].
  - destruct (decide (x = a)) as [->|Hne].
    + rewrite field_set_part by lia. rewrite Z.sub_diag. unfold u8. by rewrite field_mod, Z.div_1_r by lia.
    + rewrite field_set_other by lia. by rewrite E.
  - rewrite decide_False; [done|]. by intros ->.
Qed.

(** ** Regions of data pages *)

(** The pages of [dst .. dst + n) are data pages of the current address space with the
    frames [fr], a different one for every page. *)
Record region (m : machine) (roots l : list Z) (fr : Z -> Z) (dst n : Z) : Prop := {
  rg_pte : forall va, dst <= va < dst + n ->
    Z.land (pte (ram (pm m)) (cr3 m) va) MASK = fr (va / 4096) * 4096;
  rg_pos : forall va, dst <= va < dst + n -> 0 < fr (va / 4096);
  rg_unused : forall va, dst <= va < dst + n -> unused_frame (ram (pm m)) roots (fr (va / 4096));
  rg_free : forall va, dst <= va < dst + n -> fr (va / 4096) ∉ l;
  rg_inj : forall va va', dst <= va < dst + n -> dst <= va' < dst + n ->
    fr (va / 4096) = fr (va' / 4096) -> va / 4096 = va' / 4096
}.

Definition phys (fr : Z -> Z) (va : Z) : Z := fr (va / 4096) * 4096 + va mod 4096.

Lemma phys_frame fr va : phys fr va / 4096 = fr (va / 4096).
Proof. unfold phys. rewrite Z.div_add_l by lia. rewrite (Z.div_small (va mod 4096)); [lia|]. apply Z.mod_pos_bound. lia. Qed.

Lemma phys_inj m roots l fr dst n va va' :
  region m roots l fr dst n -> dst <= va < dst + n -> dst <= va' < dst + n -> phys fr va = phys fr va' -> va = va'.
Proof.
  intros Hr H1 H2 Heq. assert (fr (va / 4096) = fr (va' / 4096)) as Hf by (by rewrite <- !phys_frame, Heq).
  apply (rg_inj _ _ _ _ _ _ Hr) in Hf; [|done..]. unfold phys in Heq. rewrite Hf in Heq.
  pose proof (Z.div_mod va 4096). pose proof (Z.div_mod va' 4096). lia.
Qed.

Lemma region_sub m roots l fr dst n dst' n' :
  region m roots l fr dst n -> dst <= dst' -> dst' + n' <= dst + n -> region m roots l fr dst' n'.
Proof. intros [H1 H2 H3 H4 H5] Hlo Hhi. split; intros; [apply H1|apply H2|apply H3|apply H4|apply H5]; try done; lia. Qed.

(** Data writes in the frames [F]: the tables, the registers and the allocator do not notice. *)
Record data_written (roots l : list Z) (F : Z -> Prop) (m m' : machine) : Prop := {
  dw_inv : spaces_inv m' roots l;
  dw_regs : same_regs m m';
  dw_pte : forall root va, root ∈ roots -> pte (ram (pm m')) root va = pte (ram (pm m)) root va;
  dw_unused : forall x, unused_frame (ram (pm m)) roots x -> unused_frame (ram (pm m')) roots x;
  dw_desc : page_descriptor (pm m') = page_descriptor (pm m);
  dw_words : forall a, ~ F (a / 4096) -> word m' a = word m a
}.

Lemma data_written_refl roots l F m : spaces_inv m roots l -> data_written roots l F m m.
Proof. intros H. by split. Qed.

Lemma data_written_trans roots l F G m1 m2 m3 :
  data_written roots l F m1 m2 -> data_written roots l G m2 m3 -> (forall x, G x -> F x) -> data_written roots l F m1 m3.
Proof.
  intros [I1 R1 P1 U1 D1 W1] [I2 R2 P2 U2 D2 W2] HFG. split; [done|by eapply same_regs_trans| | |congruence|].
  - intros root va Hr. rewrite P2 by done. by apply P1.
  - auto.
  - intros a Ha. rewrite W2 by auto. by apply W1.
Qed.

Lemma data_written_mono roots l F G m m' :
  data_written roots l F m m' -> (forall x, F x -> G x) -> data_written roots l G m m'.
Proof. intros [I R P U D W] HFG. split; auto. Qed.

Lemma region_written m m' roots l l1 F fr dst n :
  cr3 m ∈ roots -> data_written roots l F m m' -> region m roots l1 fr dst n -> region m' roots l1 fr dst n.
Proof.
  intros Hc [I R P U D W] [H1 H2 H3 H4 H5]. split; auto.
  intros va Hva. rewrite (sr_cr3 _ _ R), P by done. auto.
Qed.

(** One word of a data page. *)
Lemma data_word_written m roots l q a v :
  spaces_inv m roots l -> unused_frame (ram (pm m)) roots q -> q ∉ l -> a / 4096 = q ->
  data_written roots l (fun x => x = q) m (set_word a v m).
Proof.
  intros Hinv Hq Hql Ha. split; try done.
  - by eapply data_write_inv.
  - intros root va Hr. by rewrite set_word_ram, (data_write_pte m roots q).
  - intros x Hx. rewrite set_word_ram. by apply (data_write_unused m roots q).
  - intros b Hb. unfold word. rewrite set_word_ram, ram_word_insert. case_decide; [subst b; done|done].
Qed.

Lemma translate_byte m va p :
  aligned (cr3 m) -> 0 < p -> Z.land (pte (ram (pm m)) (cr3 m) va) MASK = p * 4096 ->
  translate va m = Ret (p * 4096 + va mod 4096, m).
Proof.
  intros Hc Hp Hpte. unfold translate. rewrite (bind_ret _ _ _ _ _ (walk_ok _ _ Hc)), Hpte.
  by destruct (Z.eqb_spec (p * 4096) 0); [lia|].
Qed.

Section in_region.
Context (roots l : list Z) (fr : Z -> Z).

(** The frames of a region. *)
Definition frames_of (dst n x : Z) : Prop := exists va, dst <= va < dst + n /\ x = fr (va / 4096).

Lemma translate_region m dst n va :
  spaces_inv m roots l -> cr3 m ∈ roots -> region m roots l fr dst n -> dst <= va < dst + n ->
  translate va m = Ret (phys fr va, m).
Proof.
  intros Hinv Hroot [H1 H2 _ _ _] Hva. apply translate_byte; [by apply Hinv|auto|auto].
Qed.

Lemma ld8_va_ok m dst n va :
  spaces_inv m roots l -> cr3 m ∈ roots -> region m roots l fr dst n -> dst <= va < dst + n ->
  ld8_va va m = Ret (phys_byte m (phys fr va), m).
Proof.
  intros Hinv Hroot Hr Hva. unfold ld8_va. by rewrite (bind_ret _ _ _ _ _ (translate_region _ _ _ _ Hinv Hroot Hr Hva)).
Qed.

Lemma st8_va_ok m dst n va b :
  spaces_inv m roots l -> cr3 m ∈ roots -> region m roots l fr dst n -> dst <= va < dst + n ->
  exists m', st8_va va b m = Ret (tt, m') /\ data_written roots l (fun x => x = fr (va / 4096)) m m' /\
    forall x, phys_byte m' x = if decide (x = phys fr va) then u8 b else phys_byte m x.
Proof.
  intros Hinv Hroot Hr Hva. unfold st8_va.
  rewrite (bind_ret _ _ _ _ _ (translate_region _ _ _ _ Hinv Hroot Hr Hva)). eexists. split; [reflexivity|]. split.
  - apply data_word_written; [done|by eapply rg_unused|by eapply rg_free|]. by rewrite word_frame, phys_frame.
  - intros x. apply phys_byte_write.
Qed.

(** The bytes [bs] are at [dst], all other bytes are as before. *)
Record copied (dst : Z) (bs : list Z) (m m' : machine) : Prop := {
  co_data : data_written roots l (frames_of dst (Z.of_nat (length bs))) m m';
  co_done : forall k b, bs !! k = Some b -> phys_byte m' (phys fr (dst + Z.of_nat k)) = u8 b;
  co_rest : forall x, (forall va, dst <= va < dst + Z.of_nat (length bs) -> x <> phys fr va) ->
    phys_byte m' x = phys_byte m x
}.

Lemma copy_in_ok bs dst m :
  spaces_inv m roots l -> cr3 m ∈ roots -> region m roots l fr dst (Z.of_nat (length bs)) ->
  0 <= dst -> dst + Z.of_nat (length bs) <= 2 ^ 64 ->
  exists m', copy_in dst bs m = Ret (tt, m') /\ copied dst bs m m'.
Proof.
  revert dst m; induction bs as [|b bs IH]; intros dst m Hinv Hroot Hr Hlo Hhi; cbn [length] in *.
  - exists m. split; [done|]. split; [by apply data_written_refl|done|done].
  - destruct (st8_va_ok m dst (Z.of_nat (S (length bs))) dst b) as (m1 & Hrun & Hw & Hb); [done|done|done|lia|].
    assert (region m1 roots l fr (dst + 1) (Z.of_nat (length bs))) as Hr1.
    { eapply (region_sub _ _ _ _ dst (Z.of_nat (S (length bs)))); [by eapply region_written|lia|lia]. }
    destruct (IH (dst + 1) m1) as (m2 & Hrun2 & [Hd Hdone Hrest]);
      [apply Hw|by rewrite (sr_cr3 _ _ (dw_regs _ _ _ _ _ Hw))|done|lia|lia|].
    exists m2. split.
    { cbn [copy_in]. rewrite u64_small by lia. by rewrite (bind_ret _ _ _ _ _ Hrun). }
    split.
    + eapply data_written_trans; [eapply data_written_mono; [exact Hw|]|exact Hd|].
      * intros x ->. exists dst. cbn [length]. split; [lia|done].
      * intros x (va & Hva & ->). exists va. cbn [length]. split; [lia|done].
    + intros [|k] b' Hk.
      * injection Hk as ->. change (Z.of_nat 0) with 0. rewrite Z.add_0_r. rewrite Hrest.
        -- by rewrite Hb, decide_True.
        -- intros va Hva Heq. apply (phys_inj _ _ _ _ _ _ _ _ Hr) in Heq; lia.
      * rewrite <- (Hdone k b' Hk). do 2 f_equal. lia.
    + cbn [length]. intros x Hx. rewrite Hrest by (intros va Hva; apply Hx; lia).
      rewrite Hb, decide_False; [done|]. apply Hx. lia.
Qed.

(** Copying is reading back. *)
Lemma copied_read dst bs m m' va b :
  spaces_inv m roots l -> cr3 m ∈ roots -> region m roots l fr dst (Z.of_nat (length bs)) -> copied dst bs m m' ->
  bs !! Z.to_nat (va - dst) = Some b -> dst <= va -> 0 <= b < 256 -> ld8_va va m' = Ret (b, m').
Proof.
  intros Hinv Hroot Hr [Hd Hdone _] Hb Hva Hbr. pose proof (lookup_lt_Some _ _ _ Hb).
  rewrite (ld8_va_ok m' dst (Z.of_nat (length bs)) va); [|apply Hd| |by eapply region_written|lia].
  - pose proof (Hdone _ _ Hb) as Hx. replace (dst + Z.of_nat (Z.to_nat (va - dst))) with va in Hx by lia.
    rewrite Hx. do 2 f_equal. unfold u8. by apply Z.mod_small.
  - by rewrite (sr_cr3 _ _ (dw_regs _ _ _ _ _ Hd)).
Qed.
End in_region.

(** ** Regions of freshly mapped pages *)

(** The frame of the page with number [pn] when the pages from [pn0] on are backed by [phs]. *)
Definition frame_list (pn0 : Z) (phs : list Z) (pn : Z) : Z := default 0 (phs !! Z.to_nat (pn - pn0)).

Lemma fresh_region roots l m m' l' start n phs :
  fresh_mapped roots l PAGING_USER_R_W_FLAGS (page_range start n) phs m m' l' ->
  spaces_inv m roots l -> start mod 4096 = 0 -> 0 ∉ l ->
  region m' roots l' (frame_list (start / 4096) phs) start (Z.of_nat n * 4096).
Proof.
  intros Hfm Hinv Hal H0. pose proof (fresh_length _ _ _ _ _ _ _ _ _ Hfm) as Hlen.
  destruct Hfm as [Hinv' Hregs Hpte _ _ Hfr Hnd _ _ Hfs _].
  assert (forall va, start <= va < start + Z.of_nat n * 4096 ->
    exists i f, 0 <= i < Z.of_nat n /\ va / 4096 = start / 4096 + i /\ phs !! Z.to_nat i = Some f /\
      frame_list (start / 4096) phs (va / 4096) = f /\ vpn va = vpn (start + i * 4096)) as Hva.
  { intros va Hva. pose proof (Z.div_mod start 4096 ltac:(lia)). pose proof (Z.div_mod va 4096 ltac:(lia)).
    pose proof (Z.mod_pos_bound va 4096 ltac:(lia)). set (i := va / 4096 - start / 4096).
    assert (0 <= i < Z.of_nat n) as Hi by (unfold i; lia).
    destruct (lookup_lt_is_Some_2 phs (Z.to_nat i)) as [f Hf]; [lia|]. exists i, f.
    split_and!; [lia|lia|unfold i; lia|done| |].
    - unfold frame_list. fold i. by rewrite Hf.
    - replace va with (start + i * 4096 + va mod 4096) by (unfold i; lia). apply vpn_in_page; [|lia].
      rewrite Z.mod_add by lia. done. }
  assert (forall i f, phs !! Z.to_nat i = Some f -> f ∈ phs) as Hin by (intros; by eapply list_elem_of_lookup_2).
  split.
  - intros va H. destruct (Hva va H) as (i & f & Hi & _ & Hf & -> & Hv).
    rewrite (sr_cr3 _ _ Hregs), (pte_vpn _ _ _ _ Hv).
    destruct (Forall2_lookup_r _ _ _ _ _ Hpte Hf) as (x & Hx & Hp). unfold page_range in Hx.
    rewrite list_lookup_fmap in Hx. rewrite lookup_seqZ_lt in Hx by lia. injection Hx as <-.
    replace (start + i * 4096) with (start + (0 + Z.of_nat (Z.to_nat i)) * 4096) by lia. rewrite Hp.
    destruct (Hfr f (Hin _ _ Hf)) as [Hfl _].
    pose proof (chain_range _ _ _ _ (inv_chain _ _ (sp_alloc _ _ _ Hinv)) Hfl) as Hr.
    apply entry_mask; [by apply page_aligned|unfold MAX_PAGES in Hr; lia|done].
  - intros va H. destruct (Hva va H) as (i & f & Hi & _ & Hf & -> & Hv). destruct (Hfr f (Hin _ _ Hf)) as [Hfl _].
    pose proof (chain_range _ _ _ _ (inv_chain _ _ (sp_alloc _ _ _ Hinv)) Hfl) as Hr.
    assert (f <> 0) by (by intros ->). lia.
  - intros va H. destruct (Hva va H) as (i & f & Hi & _ & Hf & -> & Hv). apply Hfs. eauto.
  - intros va H. destruct (Hva va H) as (i & f & Hi & _ & Hf & -> & Hv). apply Hfr. eauto.
  - intros va va' H H'. destruct (Hva va H) as (i & f & Hi & Hd & Hf & -> & _).
    destruct (Hva va' H') as (i' & f' & Hi' & Hd' & Hf' & -> & _). intros ->.
    assert (Z.to_nat i = Z.to_nat i') as E by (eapply NoDup_lookup; done). lia.
Qed.

(** Fresh pages are zero. *)
Lemma fresh_zero roots l flags m m' l' start n phs va :
  fresh_mapped roots l flags (page_range start n) phs m m' l' -> start mod 4096 = 0 -> start <= va < start + Z.of_nat n * 4096 ->
  phys_byte m' (phys (frame_list (start / 4096) phs) va) = 0.
Proof.
  intros Hfm Hal Hva. pose proof (fresh_length _ _ _ _ _ _ _ _ _ Hfm) as Hlen.
  pose proof (Z.div_mod start 4096 ltac:(lia)). pose proof (Z.div_mod va 4096 ltac:(lia)).
  pose proof (Z.mod_pos_bound va 4096 ltac:(lia)).
  destruct (lookup_lt_is_Some_2 phs (Z.to_nat (va / 4096 - start / 4096))) as [f Hf]; [lia|].
  destruct (fm_frames _ _ _ _ _ _ _ _ Hfm f) as [_ Hz]; [by eapply list_elem_of_lookup_2|].
  unfold phys_byte, phys, frame_list. rewrite Hf. simpl. set (x := f * 4096 + va mod 4096).
  assert (x - x mod 8 = f * 4096 + 8 * (va mod 4096 / 8)) as ->.
  { assert (x mod 8 = va mod 4096 mod 8) as ->.
    { unfold x. replace (f * 4096) with (f * 512 * 8) by lia. by rewrite Z.add_comm, Z.mod_add. }
    pose proof (Z.div_mod (va mod 4096) 8 ltac:(lia)). unfold x. lia. }
  unfold word. rewrite Hz; [apply field_0|].
  split; [apply Z.div_pos; lia|apply Z.div_lt_upper_bound; lia].
Qed.
