(* ===== verification/Image.v ===== *)
(** * The memory image of a program

    [holds start bs]: the bytes [bs] are readable from [start] on in the current address space, on
    data pages of their own.  [kept] is a step that may remap the addresses in [V] and use
    free pages, and leaves everything else alone; what is held elsewhere stays held.  The
    step of the loader, mapping fresh pages and copying into them, makes the copied bytes held,
    followed by zeros. *)

From S2P Require Import Prelude BitField PhysMem Paging PageTable PagingSpec Cow MapRange VaMem.

Section image.
Context (roots : list Z).

(** ** Steps that keep what is there *)

Record kept (V : Z -> Prop) (m : machine) (l : list Z) (m' : machine) (l' : list Z) : Prop := {
  kp_inv : spaces_inv m' roots l';
  kp_regs : same_regs m m';
  kp_sub : suffix l' l;
  kp_pte : forall va, ~ V va -> pte (ram (pm m')) (cr3 m) va = pte (ram (pm m)) (cr3 m) va;
  kp_data : data_kept roots l (ram (pm m)) (ram (pm m'))
}.

Lemma kept_trans V W m1 l1 m2 l2 m3 l3 :
  kept V m1 l1 m2 l2 -> kept W m2 l2 m3 l3 -> kept (fun va => V va \/ W va) m1 l1 m3 l3.
Proof.
  intros [I1 R1 S1 P1 D1] [I2 R2 S2 P2 D2]. split; [done|by eapply same_regs_trans|by etransitivity| |].
  - intros va Hv. rewrite (sr_cr3 _ _ R1) in P2. rewrite P2 by tauto. apply P1. tauto.
  - eapply data_kept_trans; [|exact D1|exact D2]. intros q. by apply suffix_elem.
Qed.

Lemma kept_mono (V W : Z -> Prop) m l m' l' : kept V m l m' l' -> (forall va, V va -> W va) -> kept W m l m' l'.
Proof. intros [I R S P D] H. split; auto. Qed.

Lemma kept_refl V m l : spaces_inv m roots l -> kept V m l m l.
Proof. intros H. by split. Qed.

(** ** Held bytes *)

Definition holds (m : machine) (l : list Z) (start : Z) (bs : list Z) : Prop :=
  exists fr, region m roots l fr start (Z.of_nat (length bs)) /\
    forall k b, bs !! k = Some b -> phys_byte m (phys fr (start + Z.of_nat k)) = b.

Lemma phys_byte_kept l m m' x :
  data_kept roots l (ram (pm m)) (ram (pm m')) -> x / 4096 ∉ l -> unused_frame (ram (pm m)) roots (x / 4096) ->
  phys_byte m' x = phys_byte m x.
Proof.
  intros Hd Hl Hu. destruct (Hd _ Hl Hu) as [_ Hw]. unfold phys_byte, word. f_equal.
  pose proof (Z.div_mod x 4096 ltac:(lia)). pose proof (Z.mod_pos_bound x 4096 ltac:(lia)).
  assert (x - x mod 8 = x / 4096 * 4096 + 8 * (x mod 4096 / 8)) as ->.
  { assert (x mod 8 = x mod 4096 mod 8) as ->.
    { rewrite (Z.div_mod x 4096) at 1 by lia. rewrite Z.add_comm, (Z.mul_comm 4096).
      replace (x / 4096 * 4096) with (x / 4096 * 512 * 8) by lia. by rewrite Z.mod_add. }
    pose proof (Z.div_mod (x mod 4096) 8 ltac:(lia)). lia. }
  apply Hw. split; [apply Z.div_pos; lia|apply Z.div_lt_upper_bound; lia].
Qed.

(** The held bytes avoid the pages that were free before, too. *)
Lemma holds_kept_from V m l m' l' l0 start bs :
  kept V m l m' l' -> (forall q, q ∈ l -> q ∈ l0) -> holds m l0 start bs ->
  (forall va, start <= va < start + Z.of_nat (length bs) -> ~ V va) -> holds m' l0 start bs.
Proof.
  intros [I R S P D] Hsub (fr & [H1 H2 H3 H4 H5] & Hb) HV.
  assert (forall va, start <= va < start + Z.of_nat (length bs) -> fr (va / 4096) ∉ l) as Hl by (intros va Hva Hin; apply (H4 va Hva); auto).
  exists fr. split.
  - split; auto.
    + intros va Hva. rewrite (sr_cr3 _ _ R), P by auto. auto.
    + intros va Hva. by destruct (D (fr (va / 4096)) (Hl va Hva) (H3 va Hva)) as [? _].
  - intros k b Hk. rewrite <- (Hb k b Hk). pose proof (lookup_lt_Some _ _ _ Hk).
    apply (phys_byte_kept l); rewrite ?phys_frame; [done|apply Hl; lia|apply H3; lia].
Qed.

Lemma holds_weaken m l l' start bs : (forall q, q ∈ l' -> q ∈ l) -> holds m l start bs -> holds m l' start bs.
Proof. intros Hsub (fr & [H1 H2 H3 H4 H5] & Hb). exists fr. split; [|done]. split; try done. intros va Hva Hin. apply (H4 va Hva); auto. Qed.

Lemma holds_kept V m l m' l' start bs :
  kept V m l m' l' -> holds m l start bs ->
  (forall va, start <= va < start + Z.of_nat (length bs) -> ~ V va) -> holds m' l' start bs.
Proof.
  intros Hk Hh HV. apply (holds_weaken m' l l'); [intros q; apply suffix_elem, Hk|]. by eapply holds_kept_from.
Qed.

(** The frames of the addresses [start .. start + n) are pages of [l]. *)
Definition backed (m : machine) (l : list Z) (start n : Z) : Prop :=
  forall va, start <= va < start + n -> exists f, f ∈ l /\ Z.land (pte (ram (pm m)) (cr3 m) va) MASK = f * 4096.

Lemma holds_app m l start b1 b2 : holds m l start (b1 ++ b2) -> holds m l start b1.
Proof.
  intros (fr & Hr & Hb). exists fr. split.
  - eapply region_sub; [exact Hr|lia|rewrite length_app; lia].
  - intros k b Hk. apply Hb. by apply lookup_app_l_Some.
Qed.

(** What is held is what a load returns. *)
Lemma holds_read m l start bs k b :
  spaces_inv m roots l -> cr3 m ∈ roots -> holds m l start bs -> bs !! k = Some b ->
  ld8_va (start + Z.of_nat k) m = Ret (b, m).
Proof.
  intros Hinv Hroot (fr & Hr & Hb) Hk. pose proof (lookup_lt_Some _ _ _ Hk).
  rewrite (ld8_va_ok roots l fr m start (Z.of_nat (length bs))) by (done || lia). by rewrite (Hb k b Hk).
Qed.

(** Data written to a held region. *)
Lemma holds_written m m' l l1 F start bs :
  data_written roots l F m m' -> cr3 m ∈ roots -> holds m l1 start bs ->
  (forall fr va, region m roots l1 fr start (Z.of_nat (length bs)) -> start <= va < start + Z.of_nat (length bs) -> ~ F (fr (va / 4096))) ->
  holds m' l1 start bs.
Proof.
  intros Hd Hroot (fr & Hr & Hb) HF. exists fr. split; [by eapply region_written|].
  intros k b Hk. rewrite <- (Hb k b Hk). pose proof (lookup_lt_Some _ _ _ Hk).
  unfold phys_byte. f_equal. apply (dw_words _ _ _ _ _ Hd). rewrite word_frame, phys_frame. apply HF; [done|lia].
Qed.

(** ** Mapping fresh pages *)

(** The addresses on the pages of [vas]. *)
Definition on_pages (vas : list Z) (va : Z) : Prop := exists x, x ∈ vas /\ vpn x = vpn va.

Lemma fresh_kept flags vas phs m l m' l' :
  fresh_mapped roots l flags vas phs m m' l' -> kept (on_pages vas) m l m' l'.
Proof.
  intros [I R _ P _ _ _ S D _ _]. split; try done. intros va Hv. apply P. apply List.Forall_forall.
  intros x Hx Heq. apply Hv. exists x. split; [by apply list_elem_of_In|done].
Qed.

(** The pages with numbers from [pn] to [pn + n - 1]; addresses of the lower half are told apart
    by their page number. *)
Lemma on_pages_number start n va :
  start mod 4096 = 0 -> 0 <= start -> start + Z.of_nat n * 4096 <= 2 ^ 47 -> 0 <= va < 2 ^ 48 ->
  on_pages (page_range start n) va -> start / 4096 <= va / 4096 < start / 4096 + Z.of_nat n.
Proof.
  intros Hal H0 Hhi Hva (x & Hx & Hv). unfold page_range in Hx. apply list_elem_of_fmap in Hx as (i & -> & Hi%elem_of_seqZ).
  apply vpn_inj in Hv. rewrite Z.div_add in Hv by lia.
  assert (forall y, 0 <= y < 2 ^ 48 -> 0 <= y / 4096 < 2 ^ 36) as Hr.
  { intros y Hy. split; [apply Z.div_pos; lia|apply Z.div_lt_upper_bound; lia]. }
  pose proof (Hr va Hva). pose proof (Hr (start + i * 4096) ltac:(lia)) as Hs. rewrite Z.div_add in Hs by lia.
  rewrite !Z.mod_small in Hv by lia. lia.
Qed.

(** ** Mapping and copying *)

Lemma copy_kept m l fr dst bs m' l0 :
  copied roots l fr dst bs m m' -> region m roots l fr dst (Z.of_nat (length bs)) -> cr3 m ∈ roots ->
  (forall va, dst <= va < dst + Z.of_nat (length bs) -> fr (va / 4096) ∈ l0) ->
  data_kept roots l0 (ram (pm m)) (ram (pm m')).
Proof.
  intros [Hd _ _] Hr Hroot Hl0 q Hq Hu. split; [by apply (dw_unused _ _ _ _ _ Hd)|].
  intros i Hi. apply (dw_words _ _ _ _ _ Hd). rewrite frame_of_word by done.
  intros (va & Hva & ->). apply Hq. by apply Hl0.
Qed.

(** The page of an address. *)
Definition page_base (va : Z) : Z := va / 4096 * 4096.

Lemma page_base_facts va : page_base va mod 4096 = 0 /\ page_base va / 4096 = va / 4096 /\ page_base va <= va < page_base va + 4096.
Proof.
  unfold page_base. rewrite Z.mod_mul, Z.div_mul by lia. pose proof (Z.div_mod va 4096 ltac:(lia)).
  pose proof (Z.mod_pos_bound va 4096 ltac:(lia)). split_and!; lia.
Qed.

Lemma map_copy_ok m l start n bs z :
  spaces_inv m roots l -> cr3 m ∈ roots -> 0 ∉ l -> 0 <= start ->
  start + Z.of_nat (length bs) + Z.of_nat z <= page_base start + Z.of_nat n * 4096 ->
  page_base start + Z.of_nat n * 4096 <= 2 ^ 47 -> Z.of_nat n <= 2 ^ 20 ->
  Forall (fun b => 0 <= b < 256) bs -> MIN_PAGES + 4 * Z.of_nat n <= Z.of_nat (length l) ->
  exists m1 m2 l', map_fresh PAGING_USER_R_W_FLAGS (page_range (page_base start) n) m = Ret (tt, m1) /\
    copy_in start bs m1 = Ret (tt, m2) /\
    kept (on_pages (page_range (page_base start) n)) m l m2 l' /\
    holds m2 l' start (bs ++ replicate z 0) /\
    Z.of_nat (length l) <= Z.of_nat (length l') + 4 * Z.of_nat n /\
    backed m2 l start (Z.of_nat (length bs) + Z.of_nat z).
Proof.
  intros Hinv Hroot H0 Hs Hfit Hhi Hn Hbs Hlen. destruct (page_base_facts start) as (Hal & Hpn & Hpb).
  destruct (map_fresh_ok PAGING_USER_R_W_FLAGS (page_range (page_base start) n) m roots l)
    as (phs & m1 & l' & Hrun & Hfm); [done|done|auto with snow|by apply page_range_nodup| |].
  { unfold page_range. rewrite length_fmap, length_seqZ. lia. }
  pose proof (fresh_region _ _ _ _ _ _ _ _ Hfm Hinv Hal H0) as Hreg.
  set (fr := frame_list (page_base start / 4096) phs) in *.
  assert (cr3 m1 ∈ roots) as Hroot1 by (by rewrite (sr_cr3 _ _ (fm_regs _ _ _ _ _ _ _ _ Hfm))).
  destruct (copy_in_ok roots l' fr bs start m1) as (m2 & Hrun2 & Hco);
    [apply Hfm|done|eapply region_sub; [exact Hreg|lia|lia]|lia|lia|].
  assert (forall va, start <= va < page_base start + Z.of_nat n * 4096 -> fr (va / 4096) ∈ l) as Hfl.
  { intros va Hva. destruct (fm_fresh _ _ _ _ _ _ _ _ Hfm (fr (va / 4096))) as [? _]; [|done].
    unfold fr, frame_list.
    pose proof (fresh_length _ _ _ _ _ _ _ _ _ Hfm) as Hlp.
    pose proof (Z.div_mod va 4096 ltac:(lia)). pose proof (Z.mod_pos_bound va 4096 ltac:(lia)).
    destruct (lookup_lt_is_Some_2 phs (Z.to_nat (va / 4096 - page_base start / 4096))) as [f Hf]; [unfold page_base in *; lia|].
    rewrite Hf. by eapply list_elem_of_lookup_2. }
  exists m1, m2, l'. split_and!; [done|done| | | |].
  - destruct (fresh_kept _ _ _ _ _ _ _ Hfm) as [I R S P D]. pose proof (co_data _ _ _ _ _ _ _ Hco) as Hd.
    split; [apply Hd|by eapply same_regs_trans; [|apply Hd]|done| |].
    + intros va Hv. rewrite (dw_pte _ _ _ _ _ Hd) by done. by apply P.
    + intros q Hq Hu. destruct (D q Hq Hu) as [Hu1 Hw1].
      destruct (copy_kept m1 l' fr start bs m2 l Hco) with (q := q) as [Hu2 Hw2]; [eapply region_sub; [exact Hreg|lia|lia]|done| |done|done|].
      * intros va Hva. apply Hfl. lia.
      * split; [done|]. intros i Hi. by rewrite Hw2, Hw1.
  - exists fr. rewrite length_app, length_replicate. split.
    + eapply region_written; [done|apply Hco|]. eapply region_sub; [exact Hreg|lia|lia].
    + intros k b Hk. pose proof (lookup_lt_Some _ _ _ Hk) as Hkl. rewrite length_app, length_replicate in Hkl.
      apply lookup_app_Some in Hk as [Hk|[Hge Hk]].
      * rewrite (co_done _ _ _ _ _ _ _ Hco k b Hk). unfold u8. apply Z.mod_small.
        rewrite Forall_lookup in Hbs. by apply (Hbs k).
      * apply lookup_replicate in Hk as [-> Hk]. rewrite (co_rest _ _ _ _ _ _ _ Hco).
        -- apply (fresh_zero _ _ _ _ _ _ _ _ _ _ Hfm); [done|lia].
        -- intros va Hva Heq. apply (phys_inj _ _ _ _ _ _ _ _ Hreg) in Heq; lia.
  - pose proof (fm_len _ _ _ _ _ _ _ _ Hfm) as Hl. unfold page_range in Hl. rewrite length_fmap, length_seqZ in Hl. lia.
  - intros va Hva. exists (fr (va / 4096)). split; [apply Hfl; lia|].
    pose proof (co_data _ _ _ _ _ _ _ Hco) as Hd. rewrite (sr_cr3 _ _ (dw_regs _ _ _ _ _ Hd)), (dw_pte _ _ _ _ _ Hd) by done.
    apply (rg_pte _ _ _ _ _ _ Hreg). lia.
Qed.

(** ** A kernel page for a record *)

(** The direct-map address of frame [p]. *)
Definition kva (p : Z) : Z := u64 (KERNEL_BASE + p * 4096).

Lemma kva_inj p q : 0 <= p < MAX_PAGES -> 0 <= q < MAX_PAGES -> kva p = kva q -> p = q.
Proof. unfold kva, MAX_PAGES, KERNEL_BASE. intros Hp Hq. rewrite !u64_small by lia. lia. Qed.

Lemma kva_nonzero p : 0 <= p < MAX_PAGES -> kva p <> 0.
Proof. unfold kva, MAX_PAGES, KERNEL_BASE. intros Hp. rewrite u64_small by lia. lia. Qed.

(** A user address is not on a page of the kernel. *)
Lemma user_offset va : 0 <= va < 2 ^ 47 -> table_offset 0 va <> 511.
Proof.
  intros Hva. rewrite table_offset_div by lia. change (2 ^ (39 - 9 * Z.of_nat 0)) with (2 ^ 39).
  assert (0 <= va / 2 ^ 39 < 2 ^ 8) by (split; [apply Z.div_pos; lia|apply Z.div_lt_upper_bound; lia]).
  rewrite Z.mod_small by lia. lia.
Qed.

Definition kernel_va (va : Z) : Prop := table_offset 0 va = 511.

Lemma kva_kernel p va : 0 <= p < MAX_PAGES -> vpn (kva p) = vpn va -> kernel_va va.
Proof.
  intros Hp Heq. unfold kernel_va. unfold vpn in Heq. injection Heq as <- _ _ _.
  apply kernel_va_offset. unfold MAX_PAGES in Hp. lia.
Qed.

Lemma kva_vpn p q : 0 <= p < MAX_PAGES -> 0 <= q < MAX_PAGES -> vpn (kva p) = vpn (kva q) -> p = q.
Proof.
  unfold kva, MAX_PAGES, KERNEL_BASE. intros Hp Hq. rewrite !u64_small by lia. intros H.
  apply (vpn_page_inj 0xffffffff80000000) in H; lia.
Qed.

(** The page of [kva p] is mapped to the frame [p]. *)
Definition at_frame (m : machine) (p : Z) : Prop := Z.land (pte (ram (pm m)) (cr3 m) (kva p)) MASK = p * 4096.

Lemma kmalloc_page m l bytes :
  spaces_inv m roots l -> cr3 m ∈ roots -> kernel_virtual_base m = KERNEL_BASE ->
  0 < bytes <= 4096 -> MIN_PAGES + 4 <= Z.of_nat (length l) ->
  exists p m1 l1, kmalloc bytes m = Ret (kva p, m1) /\ kept (fun va => vpn (kva p) = vpn va) m l m1 l1 /\
    at_frame m1 p /\ p ∈ l /\ (p ∉ l1) /\ 0 <= p < MAX_PAGES /\ Z.of_nat (length l) <= Z.of_nat (length l1) + 4.
Proof.
  intros Hinv Hroot Hk Hb Hlen.
  assert (pages_for bytes = 1) as Hp1.
  { unfold pages_for, PAGE_SIZE. pose proof (Z.div_mod bytes 4096 ltac:(lia)).
    pose proof (Z.mod_pos_bound bytes 4096 ltac:(lia)). zbool. }
  destruct (kmalloc_spec m roots l bytes) as (p & phs & m1 & l1 & Hrun & Hl & Hh);
    [done|done|by rewrite Hk|lia|rewrite Hp1; lia|].
  rewrite Hp1 in Hl. destruct phs as [|? phs]; [|cbn [length] in Hl; lia].
  destruct Hh as [I R Hself Hoth Hfr _ D S Hlen1]. cbn [length] in Hlen1.
  destruct (Hfr p) as (Hpl & Hpl1 & _); [by left|].
  pose proof (chain_range _ _ _ _ (inv_chain _ _ (sp_alloc _ _ _ Hinv)) Hpl) as Hpr.
  assert (heap_va m (p * 4096) 0 = kva p) as Hva by (unfold heap_va, kva; rewrite Hk; simpl; by rewrite Z.add_0_r).
  exists p, m1, l1. split_and!; try done; try lia.
  - rewrite Hrun. unfold kva. by rewrite Hk.
  - split; try done. intros va Hv. apply Hoth; [done|]. intros [|k] Hk'; [|cbn [length] in Hk'; lia].
    change (0 + Z.of_nat 0) with 0. by rewrite Hva.
  - unfold at_frame. rewrite (sr_cr3 _ _ R), <- Hva. pose proof (Hself 0%nat p eq_refl) as Hp.
    change (0 + Z.of_nat 0) with 0 in Hp. rewrite Hp.
    apply entry_mask; [by apply page_aligned|unfold MAX_PAGES in Hpr; lia|done].
Qed.
End image.

(** ** Allocated pages are referenced *)

Lemma heap_inv_ram l0 m r c kvb root : heap_inv l0 m -> heap_inv l0 (Machine (set_ram r (pm m)) c kvb root).
Proof. intros (l & Hal & Hs & Hr). exists l. split_and!; [by apply alloc_inv_set_ram|done|done]. Qed.

Lemma heap_gets {A} l0 (f : machine -> A) : triple (heap_inv l0) (gets f) (fun _ => heap_inv l0).
Proof. intros m a m' H [= _ <-]. exact H. Qed.

Lemma heap_store l0 p v : triple (heap_inv l0) (store64 p v) (fun _ => heap_inv l0).
Proof. intros m [] m' H [= <-]. unfold set_word, set_pm. by apply heap_inv_ram. Qed.

Lemma heap_alloc l0 : triple (heap_inv l0) (call_pm get_free_page) (fun _ => heap_inv l0).
Proof. intros m a m' H. by apply heap_inv_alloc. Qed.

Lemma heap_next_table l0 t i f : triple (heap_inv l0) (next_table t i f) (fun _ => heap_inv l0).
Proof.
  eapply triple_bind; [apply heap_gets|]. intros e.
  eapply triple_bind with (Q := fun _ => heap_inv l0); [destruct (present e); [by apply triple_ret|apply heap_alloc]|].
  intros n. eapply triple_bind; [apply heap_store|]. intros []. by apply triple_ret.
Qed.

Lemma heap_update l0 va pa f : triple (heap_inv l0) (update_page_tables va pa f) (fun _ => heap_inv l0).
Proof.
  eapply triple_bind; [apply heap_gets|]. intros c. eapply triple_bind; [apply heap_gets|]. intros k.
  eapply triple_bind; [apply heap_gets|]. intros k'.
  do 3 (eapply triple_bind; [apply heap_next_table|]; intros ?). apply heap_store.
Qed.

Lemma heap_kmalloc l0 bytes : triple (heap_inv l0) (kmalloc bytes) (fun _ => heap_inv l0).
Proof.
  assert (forall n i a, triple (heap_inv l0) (kmalloc_loop n i a) (fun _ => heap_inv l0)) as H.
  { induction n as [|n IH]; intros i a; cbn [kmalloc_loop]; [by apply triple_ret|].
    eapply triple_bind; [apply heap_alloc|]. intros p. eapply triple_bind; [apply heap_gets|]. intros k.
    eapply triple_bind; [apply heap_update|]. intros []. apply IH. }
  eapply triple_bind; [apply H|]. intros a. eapply triple_bind; [apply heap_gets|]. intros k. by apply triple_ret.
Qed.

Lemma heap_inv_start m l : alloc_inv (pm m) l -> heap_inv l m.
Proof. intros H. exists l. split_and!; [done..|]. by intros p Hp Hn. Qed.

(** A page that was free and no longer is has a positive count. *)
Lemma heap_inv_refs l0 m l p : heap_inv l0 m -> alloc_inv (pm m) l -> p ∈ l0 -> p ∉ l -> 1 <= refs (pm m) p.
Proof. intros (l' & Hal & _ & Hr) Hal' H1 H2. apply Hr; [done|]. by rewrite (alloc_inv_det _ _ _ Hal Hal'). Qed.
