(* ===== verification/KernelMap.v ===== *)
(** * The page tables of the kernel ([init_paging] of [sys/paging.c])

    [init_paging] builds the first address space: every page of physical memory, from the start of the kernel on, is mapped at
    [KERNEL_BASE] plus its address.  The bound of its loop shrinks with every table that is allocated.  The theorem gives the
    address space, and with it the invariant that the other components start from. *)

From S2P Require Import Prelude PhysMem Paging PageTable PagingSpec Cow MapRange VaMem Image.

Lemma free_count s l : alloc_inv s l -> get_free_pages_count s = Z.of_nat (length l).
Proof. by intros []. Qed.

Lemma setup_page_tables_ok m roots l root va pa flags :
  spaces_inv m roots l -> root ∈ roots -> pml4_t m = u64 (kernel_virtual_base m + root) -> flags_ok flags ->
  MIN_PAGES + 2 <= Z.of_nat (length l) ->
  exists m' l', setup_page_tables va pa flags m = Ret (tt, m') /\ mapped roots l root va (Z.lor pa flags) m m' l'.
Proof.
  intros Hinv Hr Hp Hf Hl. destruct (map_page_ok m roots l root va pa flags Hinv Hr Hf Hl) as (m' & l' & R & Hm).
  exists m', l'. split; [|done]. unfold setup_page_tables, gets. by rewrite (bind_ret _ _ _ _ _ eq_refl), Hp.
Qed.

(** ** Pages that share tables *)

Ltac div_lia := Z.to_euclidean_division_equations; lia.

Ltac pow_consts :=
  change (2 ^ (39 - 9 * Z.of_nat 0)) with 549755813888; change (2 ^ (39 - 9 * Z.of_nat 1)) with 1073741824;
  change (2 ^ (39 - 9 * Z.of_nat 2)) with 2097152; change (2 ^ (27 - 9 * Z.of_nat 0)) with 134217728;
  change (2 ^ (27 - 9 * Z.of_nat 1)) with 262144; change (2 ^ (27 - 9 * Z.of_nat 2)) with 512.

Lemma kva_offset d p : (d <= 2)%nat -> 0 <= p < MAX_PAGES ->
  table_offset d (kva p) = (KERNEL_BASE / 2 ^ (39 - 9 * Z.of_nat d) + p / 2 ^ (27 - 9 * Z.of_nat d)) mod 512.
Proof.
  intros Hd Hp. unfold kva, MAX_PAGES in *. rewrite u64_small by (unfold KERNEL_BASE; lia). rewrite table_offset_div by lia. f_equal.
  destruct d as [|[|[|d]]]; [| | |lia]; pow_consts; unfold KERNEL_BASE; div_lia.
Qed.

(** Two pages of the same 2 MB are in the same table, two pages of the same 1 GB in the same directory. *)
Lemma kva_same_table p q : 0 <= p < MAX_PAGES -> 0 <= q < MAX_PAGES -> p / 512 = q / 512 ->
  forall i, (i < 3)%nat -> table_offset i (kva p) = table_offset i (kva q).
Proof.
  intros Hp Hq He i Hi. rewrite !kva_offset by (done || lia). do 2 f_equal. unfold MAX_PAGES in *.
  destruct i as [|[|[|i]]]; [| | |lia]; pow_consts; div_lia.
Qed.

Lemma kva_same_directory p q : 0 <= p < MAX_PAGES -> 0 <= q < MAX_PAGES ->
  forall i, (i < 2)%nat -> table_offset i (kva p) = table_offset i (kva q).
Proof.
  intros Hp Hq i Hi. rewrite !kva_offset by (done || lia). do 2 f_equal. unfold MAX_PAGES in *.
  destruct i as [|[|i]]; [| |lia]; pow_consts; div_lia.
Qed.

Lemma pte_table r root va : pte r root va <> 0 -> is_Some (table_at r root va 3).
Proof. unfold pte, slot. destruct (table_at r root va 3); [by eexists|done]. Qed.

(** The levels that need no new table when page [q] is mapped. *)
Lemma present_level r root p q : 0 <= p < MAX_PAGES -> 0 <= q < MAX_PAGES -> pte r root (kva q) <> 0 ->
  is_Some (table_at r root (kva p) (if p / 512 =? q / 512 then 3 else 2)).
Proof.
  intros Hp Hq Hm. apply pte_table in Hm. destruct (Z.eqb_spec (p / 512) (q / 512)) as [He|_].
  - by rewrite (table_at_agree r root (kva p) (kva q) 3) by (by apply kva_same_table).
  - rewrite (table_at_agree r root (kva p) (kva q) 2) by (by apply kva_same_directory).
    destruct Hm as [x Hx]. apply (table_at_prefix _ _ _ 3 x); [done|lia].
Qed.

(** ** The loop *)

(** The address space [root] maps exactly the pages from [b] to [e]. *)
Record kernel_map (root b e : Z) (m : machine) (l : list Z) : Prop := {
  km_inv : spaces_inv m [root] l;
  km_kvb : kernel_virtual_base m = KERNEL_BASE;
  km_pml4 : pml4_t m = u64 (KERNEL_BASE + root);
  km_pages : forall q, b <= q < e -> pte (ram (pm m)) root (kva q) = Z.lor (q * 4096) PAGING_KERNEL_R_W_FLAGS;
  km_rest : forall va, (forall q, b <= q < e -> vpn (kva q) <> vpn va) -> pte (ram (pm m)) root va = 0
}.

Lemma kernel_entry_nonzero q : 0 <= q -> Z.lor (q * 4096) PAGING_KERNEL_R_W_FLAGS <> 0.
Proof. intros Hq H. apply Z.lor_eq_0_iff in H as [_ H]. done. Qed.

Lemma map_next root b e m l : kernel_map root b e m l -> 0 <= b <= e -> e < MAX_PAGES -> MIN_PAGES + 2 <= Z.of_nat (length l) ->
  exists m' l', setup_page_tables (kva e) (e * 4096) PAGING_KERNEL_R_W_FLAGS m = Ret (tt, m') /\ kernel_map root b (e + 1) m' l' /\ suffix l' l /\
    cr3 m' = cr3 m /\
    Z.of_nat (length l) <= Z.of_nat (length l') + (if b =? e then 3 else e / 512 - (e - 1) / 512).
Proof.
  intros [Hinv Hk Hp Hpg Hre] Hb He Hl.
  destruct (setup_page_tables_ok m [root] l root (kva e) (e * 4096) PAGING_KERNEL_R_W_FLAGS) as (m' & l' & R & [I G S _ _ Su L T C]);
    [done|by left|by rewrite Hk|apply kernel_flags_ok|done|].
  exists m', l'. split_and!; [done| |done|apply G|].
  - split; [done|by rewrite (sr_kvb _ _ G)|by rewrite (sr_pml4 _ _ G)| |].
    + intros q Hq. rewrite S. case_decide as Hv.
      * apply kva_vpn in Hv; [by subst|lia..].
      * apply Hpg. destruct (decide (q = e)) as [->|]; [done|lia].
    + intros va Hva. rewrite S. rewrite decide_False by (apply Hva; lia). apply Hre. intros q Hq. apply Hva. lia.
  - destruct (Z.eqb_spec b e) as [|Hne]; [lia|].
    pose proof (present_level (ram (pm m)) root e (e - 1) ltac:(lia) ltac:(lia)) as Hlev.
    rewrite Hpg in Hlev by lia. specialize (Hlev (kernel_entry_nonzero (e - 1) ltac:(lia))).
    destruct (Z.eqb_spec (e / 512) ((e - 1) / 512)).
    + specialize (C 3%nat ltac:(lia) Hlev). div_lia.
    + specialize (C 2%nat ltac:(lia) Hlev). div_lia.
Qed.

(** The tables that are still needed: three for the first page, one for every 2 MB. *)
Definition tables_left (b e top : Z) : Z := (if b =? e then 3 else 0) + (top / 512 - (e - 1) / 512).

Lemma init_paging_loop_ok root b f top : forall fuel e m l, kernel_map root b e m l -> 0 <= b <= e -> 0 <= f -> top <= MAX_PAGES ->
  f + Z.of_nat (length l) <= top -> e <= top -> top - e < Z.of_nat fuel -> MIN_PAGES + 2 + tables_left b e top <= Z.of_nat (length l) ->
  exists m' l' e', init_paging_loop fuel (f * 4096) (kva e) (e * 4096) m = Ret (tt, m') /\ kernel_map root b e' m' l' /\ suffix l' l /\
    cr3 m' = cr3 m /\ e <= e' <= top /\ f + Z.of_nat (length l') <= e' /\
    Z.of_nat (length l) <= Z.of_nat (length l') + tables_left b e top /\ MIN_PAGES + 2 <= Z.of_nat (length l').
Proof.
  induction fuel as [|fuel IH]; intros e m l Hk Hb Hf Ht Hl He Hfu Hroom; [lia|].
  assert (0 <= tables_left b e top) as Hpos by (unfold tables_left; destruct (b =? e); div_lia). unfold MAX_PAGES in Ht.
  cbn [init_paging_loop]. unfold gets at 1. rewrite (bind_ret _ _ _ _ _ eq_refl), (free_count _ _ (sp_alloc _ _ _ (km_inv _ _ _ _ _ Hk))).
  unfold PAGE_SIZE. rewrite u64_small by lia. destruct (Z.ltb_spec (e * 4096) (f * 4096 + Z.of_nat (length l) * 4096)) as [Hlt|Hge].
  - destruct (map_next root b e m l Hk) as (m1 & l1 & R & Hk1 & Hs1 & C1 & L1); [lia|unfold MAX_PAGES; lia|lia|].
    rewrite (bind_ret _ _ _ _ _ R). assert (u64 (kva e + 4096) = kva (e + 1)) as ->.
    { unfold kva, KERNEL_BASE. rewrite (u64_small (_ + e * 4096)) by lia. rewrite !u64_small by lia. lia. }
    assert (u64 (e * 4096 + 4096) = (e + 1) * 4096) as -> by (rewrite u64_small by lia; lia).
    pose proof (suffix_length _ _ Hs1) as Hle.
    assert (tables_left b e top = tables_left b (e + 1) top + (if b =? e then 3 else 0) + (e / 512 - (e - 1) / 512)) as Et.
    { unfold tables_left. replace (b =? e + 1) with false by (symmetry; apply Z.eqb_neq; lia). replace (e + 1 - 1) with e by lia. lia. }
    assert (0 <= e / 512 - (e - 1) / 512) by div_lia.
    destruct (IH (e + 1) m1 l1) as (m' & l' & e' & R' & H1 & H2 & H3 & H4 & H5 & H6 & H7); try done; try lia; [destruct (b =? e); lia|].
    exists m', l', e'. split_and!; try done; try lia; first [by etransitivity|congruence|destruct (b =? e); lia].
  - exists m, l, e. split_and!; try done; lia.
Qed.

(** ** The first address space *)

Definition VIDEO_PAGE : Z := PHYS_VIDEO_MEM / 4096.

Record first_space (root b e : Z) (m : machine) (l : list Z) : Prop := {
  fs_inv : spaces_inv m [root] l;
  fs_cr3 : cr3 m = root;
  fs_kvb : kernel_virtual_base m = KERNEL_BASE;
  fs_pages : forall q, b <= q < e \/ q = VIDEO_PAGE -> pte (ram (pm m)) root (kva q) = Z.lor (q * 4096) PAGING_KERNEL_R_W_FLAGS;
  fs_rest : forall va, (forall q, b <= q < e \/ q = VIDEO_PAGE -> vpn (kva q) <> vpn va) -> pte (ram (pm m)) root va = 0
}.

(** The first page becomes the empty root table. *)
Lemma empty_kernel_map m p l b : alloc_inv (pm m) (p :: l) -> MIN_PAGES <= Z.of_nat (length (p :: l)) ->
  (forall q, q ∈ p :: l -> zero_frame (ram (pm m)) q) ->
  exists s, call_pm get_free_page m = Ret (p * 4096, set_pm s m) /\
    kernel_map (p * 4096) b b (Machine s (cr3 m) KERNEL_BASE (u64 (KERNEL_BASE + p * 4096))) l.
Proof.
  intros Hal Hl Hz. destruct (alloc_ok m p l Hal Hl) as (s & R & Hal' & Hram & Hp). exists s. split; [done|].
  assert (zero_frame (ram s) p) as Hzp by (rewrite Hram; apply Hz; by left).
  split; try done; [|lia|].
  - apply fresh_space_inv; [done..| |done|].
    + pose proof (inv_nodup _ _ Hal) as Hnd. by apply list.NoDup_cons in Hnd as [? _].
    + intros q Hq. rewrite Hram. apply Hz. by right.
  - intros va _. unfold pte. destruct (slot _ _ va 3) as [a|] eqn:Ea; [|done]. by apply (empty_slot s p Hzp) in Ea as [? _].
Qed.

(** [init_paging] builds the kernel's address space: with the kernel linked at [KERNEL_BASE], free pages that hold zeros and
    enough of them for the tables, it maps each page of physical memory from the start of the kernel on, and the page of the
    video memory, at [KERNEL_BASE] plus its address, and nothing else; this is the address space that the processor uses afterwards,
    and the invariant of address spaces holds.  The mapped pages end at [e], which is at least the page that the free pages left
    would reach when counted from the end of the kernel: the last pages of memory, as many as there are tables, may be missing. *)
Theorem init_paging_maps_memory m p l b f : alloc_inv (pm m) (p :: l) -> (forall q, q ∈ p :: l -> zero_frame (ram (pm m)) q) ->
  0 <= b <= f -> f + Z.of_nat (length (p :: l)) <= MAX_PAGES ->
  MIN_PAGES + 6 + (f + Z.of_nat (length l)) / 512 <= Z.of_nat (length l) ->
  exists m' l' e, init_paging (kva b) (b * PAGE_SIZE) (f * PAGE_SIZE) m = Ret (tt, m') /\ first_space (p * PAGE_SIZE) b e m' l' /\
    suffix l' l /\ f + Z.of_nat (length l') <= e <= f + Z.of_nat (length l) /\
    Z.of_nat (length l) <= Z.of_nat (length l') + 7 + (f + Z.of_nat (length l)) / 512.
Proof.
  unfold PAGE_SIZE. intros Hal Hz Hb Hmax Hroom. cbn [length] in Hmax. set (top := f + Z.of_nat (length l)) in *.
  assert (0 <= top / 512) as Hpos by (unfold top; div_lia). unfold MAX_PAGES in Hmax.
  destruct (empty_kernel_map m p l b Hal) as (s & R0 & Hk0); [cbn [length]; lia|done|].
  set (m0 := Machine s (cr3 m) KERNEL_BASE (u64 (KERNEL_BASE + p * 4096))) in *.
  assert (tables_left b b top <= 4 + top / 512) as Htl by (unfold tables_left; rewrite Z.eqb_refl; div_lia).
  destruct (init_paging_loop_ok (p * 4096) b f top (Z.to_nat (f + Z.of_nat (length l) + 1)) b m0 l) as (m1 & l1 & e & R1 & Hk1 & Hs1 & C1 & He & He2 & L1 & L2);
    [done|lia|lia|unfold top, MAX_PAGES; lia|lia|unfold top; lia|unfold top; lia|lia|].
  destruct Hk1 as [I1 K1 P1 Hpg Hre].
  destruct (setup_page_tables_ok m1 [p * 4096] l1 (p * 4096) (kva VIDEO_PAGE) PHYS_VIDEO_MEM PAGING_KERNEL_R_W_FLAGS) as (m2 & l2 & R2 & [I2 G2 S2 _ _ Su2 L3 _ _]);
    [done|by left|by rewrite K1|apply kernel_flags_ok|done|].
  assert (0 <= VIDEO_PAGE < MAX_PAGES) as Hv by done. unfold MAX_PAGES in Hv.
  pose proof (suffix_length _ _ Su2) as Hle.
  exists (set_cr3 (p * 4096) m2), l2, e. split_and!; try lia; [|split; try done|by etransitivity].
  - unfold init_paging. rewrite (bind_ret _ _ _ _ _ R0). unfold modify, gets.
    assert (u64 (kva b - b * 4096) = KERNEL_BASE) as Eb.
    { unfold kva, KERNEL_BASE. rewrite (u64_small (_ + b * 4096)) by lia. rewrite u64_small by lia. lia. }
    rewrite (bind_ret _ _ _ tt m0) by (cbv zeta; by rewrite Eb). rewrite (bind_ret _ _ _ _ _ eq_refl).
    rewrite (free_count _ _ (sp_alloc _ _ _ (km_inv _ _ _ _ _ Hk0))). unfold PAGE_SIZE. rewrite Z.div_mul by lia.
    rewrite (bind_ret _ _ _ _ _ R1). rewrite (bind_ret _ _ _ _ _ eq_refl), K1.
    change (u64 (KERNEL_BASE + PHYS_VIDEO_MEM)) with (kva VIDEO_PAGE). by rewrite (bind_ret _ _ _ _ _ R2).
  - destruct I2 as [A1 A2 A3 A4]. by split.
  - simpl. by rewrite (sr_kvb _ _ G2).
  - intros q Hq. simpl. rewrite S2. case_decide as Hvp.
    + destruct Hq as [Hq| ->]; [|done]. apply kva_vpn in Hvp; [by subst|done|unfold MAX_PAGES; lia].
    + destruct Hq as [Hq| ->]; [by apply Hpg|done].
  - intros va Hva. simpl. rewrite S2, decide_False by (apply Hva; by right). apply Hre. intros q Hq. apply Hva. by left.
Qed.
