(* ===== verification/Descriptors.v ===== *)
(** * Interrupt and segment descriptors ([sys/interrupt.c], [sys/gdt.c])

    The two tables the processor reads: the interrupt descriptor table filled by
    [init_idt], and the global descriptor table, whose task-state descriptor is filled by
    [init_gdt].  Bit fields of packed structures are [field] and [set_field] of one
    number; the processor's reading of a descriptor is written independently, from the bit positions of
    the architecture. *)

From S2P Require Import Prelude BitField.

(** ** The interrupt descriptor table *)

Definition PAGE_FAULT : Z := 14.
Definition IRQ0 : Z := 32.
Definition IRQ1 : Z := 33.
Definition SOFT_INTR : Z := 128.
Definition DOUBLE_PAGE_FAULT : Z := 8.

Record idt_struct := Idt {
  offset_1 : Z;
  selector : Z;
  zero : Z;
  type_attr : Z;
  offset_2 : Z;
  offset_3 : Z;
  reserved : Z
}.

Definition idt_null : idt_struct := Idt 0 0 0 0 0 0 0.

(** The table and the register [idtr] (limit, offset). *)
Record idt_state := IdtState {
  idt_t : list idt_struct;
  idtr_limit : Z;
  idtr_offset : Z
}.

Definition set_irq (int_n addr sel attr : Z) : M idt_state unit := fun s =>
  let g := Idt (Z.land (u16 addr) 0xFFFF) (u16 sel) 0 (u8 attr)
             (u16 (Z.land (Z.shiftr addr 16) 0xFFFF)) (u32 (Z.land (Z.shiftr addr 32) 0xFFFFFFFF)) 0 in
  match idt_t s !! Z.to_nat int_n with
  | Some _ => Ret (tt, IdtState (<[Z.to_nat int_n := g]> (idt_t s)) (idtr_limit s) (idtr_offset s))
  | None => Fault
  end.

(** Addresses of the assembly stubs and of the table. *)
Record stubs := Stubs {
  timer_isr : Z;
  keyboard_isr : Z;
  syscall_isr : Z;
  page_fault_isr : Z;
  idt_address : Z
}.

Definition SIZEOF_IDT : Z := 16.

Definition init_idt (a : stubs) : M idt_state unit :=
  modify (fun s => IdtState (replicate 256 idt_null) (u16 (SIZEOF_IDT * 256 - 1)) (idt_address a)) ≫= fun _ =>
  set_irq IRQ0 (timer_isr a) 0x8 0x8E ≫= fun _ =>
  set_irq IRQ1 (keyboard_isr a) 0x8 0x8E ≫= fun _ =>
  set_irq SOFT_INTR (syscall_isr a) 0x8 0xEE ≫= fun _ =>
  set_irq PAGE_FAULT (page_fault_isr a) 0x8 0x8E ≫= fun _ =>
  set_irq DOUBLE_PAGE_FAULT (page_fault_isr a) 0x8 0x8E.

(** The packed structure in memory, as one 128-bit number. *)
Definition gate_bits (g : idt_struct) : Z :=
  set_field 96 32 (reserved g) (set_field 64 32 (offset_3 g) (set_field 48 16 (offset_2 g)
    (set_field 40 8 (type_attr g) (set_field 32 8 (zero g) (set_field 16 16 (selector g)
      (set_field 0 16 (offset_1 g) 0)))))).

(** *** What the processor does with vector [v]

    A gate without the present bit, or one whose privilege level is below that of the
    [int] instruction, raises a protection fault instead. *)
Definition hw_offset (x : Z) : Z := field 0 16 x + field 48 16 x * 2 ^ 16 + field 64 32 x * 2 ^ 32.

Record hw_gate := HwGate { hw_target : Z; hw_cs : Z; hw_dpl : Z; hw_type : Z }.

Definition hw_read_gate (x : Z) : option hw_gate :=
  if field 47 1 x =? 1 then Some (HwGate (hw_offset x) (field 16 16 x) (field 45 2 x) (field 40 4 x)) else None.

Definition hw_interrupt (s : idt_state) (v : Z) : option hw_gate :=
  if idtr_limit s <? 16 * v + 15 then None else
  match idt_t s !! Z.to_nat v with Some g => hw_read_gate (gate_bits g) | None => None end.

(** [int v] at privilege level [cpl]. *)
Definition hw_int (s : idt_state) (cpl v : Z) : option Z :=
  match hw_interrupt s v with Some g => if cpl <=? hw_dpl g then Some (hw_target g) else None | None => None end.

(** ** The global descriptor table *)

Definition GDT_CS : Z := 0x00180000000000.
Definition GDT_DS : Z := 0x00100000000000.
Definition DPL0 : Z := 0x00000000000000.
Definition DPL3 : Z := 0x00600000000000.
Definition GDT_P : Z := 0x00800000000000.
Definition GDT_L : Z := 0x20000000000000.
Definition GDT_W : Z := 0x00020000000000.
Definition MAX_GDT : nat := 32.

Definition gdt_init : list Z :=
  [ 0;
    Z.lor (Z.lor (Z.lor GDT_CS GDT_P) DPL0) GDT_L;
    Z.lor (Z.lor (Z.lor GDT_DS GDT_P) GDT_W) DPL0;
    0;
    Z.lor (Z.lor (Z.lor GDT_DS GDT_P) GDT_W) DPL3;
    Z.lor (Z.lor (Z.lor GDT_CS GDT_P) DPL3) GDT_L;
    0; 0 ] ++ replicate 24 0.

(** [struct tss_t]: only [rsp0] is ever written. *)
Definition SIZEOF_TSS : Z := 104.

Record gdt_state := GdtState {
  gdt : list Z;
  tss_rsp0 : Z
}.

(** The 16 bytes of a system descriptor at entries [i] and [i + 1]. *)
Definition sd_bits (t : list Z) (i : nat) : option Z :=
  match t !! i, t !! S i with
  | Some a, Some b => Some (set_field 64 64 b (set_field 0 64 a 0))
  | _, _ => None
  end.
Definition sd_store (i : nat) (x : Z) (t : list Z) : list Z :=
  <[S i := field 64 64 x]> (<[i := field 0 64 x]> t).

(** [tss] is the address of the task-state segment. *)
Definition init_gdt (tss : Z) : M gdt_state unit := fun s =>
  match sd_bits (gdt s) 6 with
  | Some x =>
      let x := set_field 0 16 (SIZEOF_TSS - 1) x in
      let x := set_field 16 24 tss x in
      let x := set_field 40 5 9 x in
      let x := set_field 45 2 0 x in
      let x := set_field 47 1 1 x in
      let x := set_field 48 4 0 x in
      let x := set_field 55 1 0 x in
      let x := set_field 56 40 (Z.shiftr tss 24) x in
      Ret (tt, GdtState (sd_store 6 x (gdt s)) (tss_rsp0 s))
  | None => Fault
  end.

Definition set_tss_rsp (rsp : Z) : M gdt_state unit := modify (fun s => GdtState (gdt s) rsp).

(** *** The processor's reading of descriptors *)

Record hw_segment := HwSegment {
  seg_base : Z;
  seg_limit : Z;
  seg_type : Z;
  seg_dpl : Z;
  seg_present : bool
}.

(** A 16-byte system descriptor ([ltr]). *)
Definition hw_system (x : Z) : hw_segment :=
  HwSegment (field 16 24 x + field 56 8 x * 2 ^ 24 + field 64 32 x * 2 ^ 32)
    (field 0 16 x + field 48 4 x * 2 ^ 16) (field 40 5 x) (field 45 2 x) (field 47 1 x =? 1).

(** A code or data descriptor: executable, writable or readable, long mode, privilege level. *)
Definition hw_code (x : Z) : option (bool * Z) :=
  if (field 47 1 x =? 1) && (field 43 2 x =? 3) then Some (field 53 1 x =? 1, field 45 2 x) else None.
Definition hw_data (x : Z) : option (bool * Z) :=
  if (field 47 1 x =? 1) && (field 43 2 x =? 2) then Some (field 41 1 x =? 1, field 45 2 x) else None.

(** ** Interrupt gates *)

(** Three parts of a 64-bit number put together. *)
Lemma parts_16_16_32 x :
  0 <= x < 2 ^ 64 -> field 0 16 x + field 16 16 x * 2 ^ 16 + field 32 32 x * 2 ^ 32 = x.
Proof.
  intros Hx. rewrite !field_mod by lia. change (2 ^ 0) with 1. rewrite Z.div_1_r.
  pose proof (Z.div_mod x (2 ^ 16) ltac:(lia)). pose proof (Z.div_mod (x / 2 ^ 16) (2 ^ 16) ltac:(lia)) as H1.
  rewrite Z.div_div in H1 by lia. change (2 ^ 16 * 2 ^ 16) with (2 ^ 32) in H1.
  rewrite (Z.mod_small (x / 2 ^ 32)); [lia|]. split; [apply Z.div_pos; lia|apply Z.div_lt_upper_bound; lia].
Qed.

(** The gate that [set_irq] writes, as the processor reads it. *)
Lemma hw_read_set_irq addr sel attr :
  0 <= addr < 2 ^ 64 -> 0 <= sel < 2 ^ 16 -> 0 <= attr < 2 ^ 8 ->
  hw_read_gate (gate_bits (Idt (Z.land (u16 addr) 0xFFFF) (u16 sel) 0 (u8 attr)
      (u16 (Z.land (Z.shiftr addr 16) 0xFFFF)) (u32 (Z.land (Z.shiftr addr 32) 0xFFFFFFFF)) 0)) =
  if field 7 1 attr =? 1 then Some (HwGate addr sel (field 5 2 attr) (field 0 4 attr)) else None.
Proof.
  intros Ha Hs Ht. change 0xFFFF with (Z.ones 16). change 0xFFFFFFFF with (Z.ones 32).
  assert (forall y, Z.land (u16 y) (Z.ones 16) = field 0 16 (u16 y)) as H16 by done.
  fold (field 16 16 addr) (field 32 32 addr). rewrite H16.
  unfold hw_read_gate, hw_offset, gate_bits, u8, u16, u32. cbn [offset_1 selector zero type_attr offset_2 offset_3 reserved].
  fields. cbn [Z.sub Z.opp Z.add Z.pos_sub Pos.pred_double].
  change (47 - 40) with 7. change (45 - 40) with 5. change (40 - 40) with 0. change (48 - 48) with 0.
  change (64 - 64) with 0. change (16 - 16) with 0. change (0 - 0) with 0.
  rewrite !field_of_u by lia. rewrite !field_field by lia. rewrite ?Z.add_0_r, ?field_of_u by lia.
  rewrite parts_16_16_32 by done. by rewrite (field_small 16 sel).
Qed.

Lemma set_irq_ok s int_n addr sel attr :
  0 <= int_n < Z.of_nat (length (idt_t s)) -> 
  exists g, set_irq int_n addr sel attr s =
      Ret (tt, IdtState (<[Z.to_nat int_n := g]> (idt_t s)) (idtr_limit s) (idtr_offset s)) /\
    (0 <= addr < 2 ^ 64 -> 0 <= sel < 2 ^ 16 -> 0 <= attr < 2 ^ 8 ->
     hw_read_gate (gate_bits g) =
       if field 7 1 attr =? 1 then Some (HwGate addr sel (field 5 2 attr) (field 0 4 attr)) else None).
Proof.
  intros Hn. unfold set_irq. destruct (lookup_lt_is_Some_2 (idt_t s) (Z.to_nat int_n)) as [g0 ->]; [lia|].
  eexists. split; [reflexivity|]. intros. by apply hw_read_set_irq.
Qed.

(** A table of full size. *)
Definition idt_ok (s : idt_state) : Prop := length (idt_t s) = 256%nat /\ idtr_limit s = 4095.

Lemma hw_interrupt_insert s n g v :
  idt_ok s -> 0 <= n < 256 -> 0 <= v < 256 ->
  hw_interrupt (IdtState (<[Z.to_nat n := g]> (idt_t s)) (idtr_limit s) (idtr_offset s)) v =
  if v =? n then hw_read_gate (gate_bits g) else hw_interrupt s v.
Proof.
  intros [Hlen Hlim] Hn Hv. unfold hw_interrupt. cbn [idt_t idtr_limit]. rewrite Hlim.
  destruct (Z.ltb_spec 4095 (16 * v + 15)); [lia|]. destruct (Z.eqb_spec v n) as [->|Hne].
  - by rewrite list_lookup_insert_eq by lia.
  - by rewrite list_lookup_insert_ne by lia.
Qed.

(** [set_irq] and the processor agree on the layout of a gate: the handler address, the
    selector and the attributes written are the ones read, and no other vector changes. *)
Theorem set_irq_roundtrip s int_n addr sel attr :
  idt_ok s -> 0 <= int_n < 256 -> 0 <= addr < 2 ^ 64 -> 0 <= sel < 2 ^ 16 -> 0 <= attr < 2 ^ 8 ->
  exists s', set_irq int_n addr sel attr s = Ret (tt, s') /\ idt_ok s' /\
    hw_interrupt s' int_n =
      (if field 7 1 attr =? 1 then Some (HwGate addr sel (field 5 2 attr) (field 0 4 attr)) else None) /\
    forall v, 0 <= v < 256 -> v <> int_n -> hw_interrupt s' v = hw_interrupt s v.
Proof.
  intros Hok Hn Ha Hs Ht. pose proof Hok as [Hlen Hlim].
  destruct (set_irq_ok s int_n addr sel attr) as (g & -> & Hg); [lia|]. eexists. split_and!; [done| | |].
  - split; [by rewrite <- Hlen; apply length_insert|done].
  - rewrite hw_interrupt_insert by done. rewrite Z.eqb_refl. by apply Hg.
  - intros v Hv Hne. rewrite hw_interrupt_insert by done. by destruct (Z.eqb_spec v int_n).
Qed.

(** The vectors of the kernel. *)
Definition handler_of (a : stubs) (v : Z) : option (Z * Z) :=
  if v =? DOUBLE_PAGE_FAULT then Some (page_fault_isr a, 0)
  else if v =? PAGE_FAULT then Some (page_fault_isr a, 0)
  else if v =? IRQ0 then Some (timer_isr a, 0)
  else if v =? IRQ1 then Some (keyboard_isr a, 0)
  else if v =? SOFT_INTR then Some (syscall_isr a, 3)
  else None.

Record stubs_ok (a : stubs) : Prop := {
  so_timer : 0 <= timer_isr a < 2 ^ 64;
  so_keyboard : 0 <= keyboard_isr a < 2 ^ 64;
  so_syscall : 0 <= syscall_isr a < 2 ^ 64;
  so_page_fault : 0 <= page_fault_isr a < 2 ^ 64
}.

Lemma set_irq_step s int_n addr attr dpl :
  idt_ok s -> 0 <= int_n < 256 -> 0 <= addr < 2 ^ 64 -> (attr, dpl) = (0x8E, 0) \/ (attr, dpl) = (0xEE, 3) ->
  exists s', set_irq int_n addr 8 attr s = Ret (tt, s') /\ idt_ok s' /\
    forall v, 0 <= v < 256 ->
      hw_interrupt s' v = if v =? int_n then Some (HwGate addr 8 dpl 14) else hw_interrupt s v.
Proof.
  intros Hok Hn Ha Hattr. pose proof Hok as [Hlen Hlim].
  destruct (set_irq_ok s int_n addr 8 attr) as (g & -> & Hg); [lia|]. eexists. split_and!; [done| |].
  - split; [by rewrite <- Hlen; apply length_insert|done].
  - intros v Hv. rewrite hw_interrupt_insert by done. destruct (v =? int_n); [|done].
    destruct Hattr as [[= -> ->]|[= -> ->]]; by rewrite Hg by lia.
Qed.

Lemma init_idt_gates a s :
  stubs_ok a -> exists s', init_idt a s = Ret (tt, s') /\ idt_ok s' /\
    forall v, 0 <= v < 256 ->
      hw_interrupt s' v = (fun hd => HwGate hd.1 8 hd.2 14) <$> handler_of a v.
Proof.
  intros [H1 H2 H3 H4]. unfold init_idt.
  rewrite (bind_ret _ _ _ tt (IdtState (replicate 256 idt_null) 4095 (idt_address a))) by done.
  set (s0 := IdtState _ _ _). assert (idt_ok s0) as Hok by done.
  assert (forall v, 0 <= v < 256 -> hw_interrupt s0 v = None) as Hnone.
  { intros v Hv. unfold hw_interrupt, s0. cbn [idt_t idtr_limit]. destruct (4095 <? 16 * v + 15); [done|].
    rewrite lookup_replicate_2 by lia. done. }
  destruct (set_irq_step s0 IRQ0 (timer_isr a) 0x8E 0) as (s1 & Hr1 & Hok1 & Hv1); [done|done|done|by left|].
  destruct (set_irq_step s1 IRQ1 (keyboard_isr a) 0x8E 0) as (s2 & Hr2 & Hok2 & Hv2); [done|done|done|by left|].
  destruct (set_irq_step s2 SOFT_INTR (syscall_isr a) 0xEE 3) as (s3 & Hr3 & Hok3 & Hv3); [done|done|done|by right|].
  destruct (set_irq_step s3 PAGE_FAULT (page_fault_isr a) 0x8E 0) as (s4 & Hr4 & Hok4 & Hv4); [done|done|done|by left|].
  destruct (set_irq_step s4 DOUBLE_PAGE_FAULT (page_fault_isr a) 0x8E 0) as (s5 & Hr5 & Hok5 & Hv5); [done|done|done|by left|].
  rewrite (bind_ret _ _ _ _ _ Hr1), (bind_ret _ _ _ _ _ Hr2), (bind_ret _ _ _ _ _ Hr3), (bind_ret _ _ _ _ _ Hr4).
  exists s5. split_and!; [done|done|]. intros v Hv.
  rewrite Hv5, Hv4, Hv3, Hv2, Hv1, Hnone by done. unfold handler_of.
  destruct (Z.eqb_spec v DOUBLE_PAGE_FAULT), (Z.eqb_spec v PAGE_FAULT), (Z.eqb_spec v IRQ0), (Z.eqb_spec v IRQ1),
    (Z.eqb_spec v SOFT_INTR); subst; done.
Qed.

(** after [init_idt] every vector leads to the handler meant for it, with the kernel's code
    segment and interrupts off, all others are absent, and the only one that user code
    can raise with [int] is the system call. *)
Theorem init_idt_dispatch a s :
  stubs_ok a -> exists s', init_idt a s = Ret (tt, s') /\
    (forall v, 0 <= v < 256 -> hw_interrupt s' v = (fun hd => HwGate hd.1 8 hd.2 14) <$> handler_of a v) /\
    (forall v, 0 <= v < 256 -> hw_int s' 3 v = if v =? SOFT_INTR then Some (syscall_isr a) else None).
Proof.
  intros Ha. destruct (init_idt_gates a s Ha) as (s' & Hr & _ & Hv). exists s'. split_and!; [done|done|].
  intros v Hv'. unfold hw_int. rewrite Hv by done. unfold handler_of.
  destruct (Z.eqb_spec v DOUBLE_PAGE_FAULT), (Z.eqb_spec v PAGE_FAULT), (Z.eqb_spec v IRQ0), (Z.eqb_spec v IRQ1),
    (Z.eqb_spec v SOFT_INTR); subst; done.
Qed.

(** ** Segments *)

Lemma parts_24_8_32 x :
  0 <= x < 2 ^ 64 -> field 0 24 x + field 24 8 x * 2 ^ 24 + field 32 32 x * 2 ^ 32 = x.
Proof.
  intros Hx. rewrite !field_mod by lia. change (2 ^ 0) with 1. rewrite Z.div_1_r.
  pose proof (Z.div_mod x (2 ^ 24) ltac:(lia)). pose proof (Z.div_mod (x / 2 ^ 24) (2 ^ 8) ltac:(lia)) as H1.
  rewrite Z.div_div in H1 by lia. change (2 ^ 24 * 2 ^ 8) with (2 ^ 32) in H1.
  rewrite (Z.mod_small (x / 2 ^ 32)); [lia|]. split; [apply Z.div_pos; lia|apply Z.div_lt_upper_bound; lia].
Qed.

(** Storing a descriptor and reading it back. *)
Lemma sd_bits_store t i x :
  (S i < length t)%nat -> 
  exists y, sd_bits (sd_store i x t) i = Some y /\
    forall lo w, 0 <= lo -> 0 <= w -> (lo + w <= 64 \/ 64 <= lo /\ lo + w <= 128) -> field lo w y = field lo w x.
Proof.
  intros Hi. unfold sd_bits, sd_store. rewrite list_lookup_insert_ne, list_lookup_insert_eq by lia.
  rewrite list_lookup_insert_eq by (rewrite length_insert; lia). eexists. split; [done|].
  intros lo w Hlo Hw [Hl|[Hl Hh]].
  - rewrite field_set_other, field_set_part by lia. rewrite field_field by lia. f_equal. lia.
  - rewrite field_set_part by lia. rewrite field_field by lia. f_equal. lia.
Qed.

(** the task-state descriptor that [init_gdt] writes is read back by the processor with the
    address of the structure as base, its size as limit, the type of an available 64-bit
    task-state segment and privilege level 0; the other descriptors stay as they were. *)
Theorem init_gdt_tss s tss :
  length (gdt s) = MAX_GDT -> 0 <= tss < 2 ^ 64 ->
  exists s' x, init_gdt tss s = Ret (tt, s') /\ sd_bits (gdt s') 6 = Some x /\
    hw_system x = HwSegment tss (SIZEOF_TSS - 1) 9 0 true /\
    forall i, i <> 6%nat -> i <> 7%nat -> gdt s' !! i = gdt s !! i.
Proof.
  intros Hlen Htss. unfold MAX_GDT in Hlen. unfold init_gdt.
  assert (exists x, sd_bits (gdt s) 6 = Some x) as [x0 Hx0].
  { unfold sd_bits. destruct (lookup_lt_is_Some_2 (gdt s) 6) as [a ->]; [lia|].
    destruct (lookup_lt_is_Some_2 (gdt s) 7) as [b ->]; [lia|]. by eexists. }
  rewrite Hx0. set (x := set_field 56 40 _ _).
  destruct (sd_bits_store (gdt s) 6 x) as (y & Hy & Hf); [lia|].
  eexists _, y. split_and!; [reflexivity|exact Hy| |].
  - unfold hw_system. rewrite !Hf by lia. unfold x. fields.
    assert (forall k w, 0 <= k -> 0 <= w -> field k w (Z.shiftr tss 24) = field (24 + k) w tss) as Hsh.
    { intros k w Hk Hw. rewrite !field_mod, Z.shiftr_div_pow2, Z.div_div by lia. do 2 f_equal. by rewrite <- Z.pow_add_r by lia. }
    rewrite !Hsh by lia. change (24 + (56 - 56)) with 24. change (24 + (64 - 56)) with 32. change (16 - 16) with 0.
    rewrite parts_24_8_32 by done. done.
  - intros i H6 H7. cbn [gdt]. unfold sd_store. rewrite !list_lookup_insert_ne by lia. done.
Qed.

(** the selectors with which the kernel enters user mode ([0x2B] for code, [0x23] for the
    stack) name a present 64-bit code segment and a present writable data segment of privilege level
    3, and its own selectors 8 and 16 the same kinds at level 0. *)
Theorem gdt_selectors :
  (hw_code <$> gdt_init !! 5%nat) = Some (Some (true, 3)) /\ (hw_data <$> gdt_init !! 4%nat) = Some (Some (true, 3)) /\
  (hw_code <$> gdt_init !! 1%nat) = Some (Some (true, 0)) /\ (hw_data <$> gdt_init !! 2%nat) = Some (Some (true, 0)) /\
  Z.shiftr 0x2B 3 = 5 /\ Z.shiftr 0x23 3 = 4.
Proof. done. Qed.

(** ** Witnesses *)

Definition demo_stubs : stubs := Stubs 0xffffffff80201000 0xffffffff80201100 0xffffffff80201200 0xffffffff80201300 0xffffffff80300000.
Definition demo_idt : idt_state := IdtState (replicate 256 idt_null) 4095 0.

Lemma set_irq_roundtrip_witness :
  exists s', set_irq 33 0xffffffff80201100 8 0x8E demo_idt = Ret (tt, s') /\
    hw_interrupt s' 33 = Some (HwGate 0xffffffff80201100 8 0 14).
Proof.
  destruct (set_irq_roundtrip demo_idt 33 0xffffffff80201100 8 0x8E) as (s' & H1 & _ & H2 & _); [done|lia..|].
  exists s'. split; [exact H1|exact H2].
Defined.

Lemma init_idt_dispatch_witness :
  exists s', init_idt demo_stubs demo_idt = Ret (tt, s') /\ hw_int s' 3 128 = Some 0xffffffff80201200.
Proof.
  destruct (init_idt_dispatch demo_stubs demo_idt) as (s' & H1 & _ & H2).
  - split; vm_compute; split; congruence.
  - exists s'. split; [exact H1|]. rewrite H2 by lia. reflexivity.
Defined.

Lemma init_gdt_tss_witness :
  exists s' x, init_gdt 0xffffffff80400000 (GdtState gdt_init 0) = Ret (tt, s') /\ sd_bits (gdt s') 6 = Some x /\
    seg_base (hw_system x) = 0xffffffff80400000.
Proof.
  destruct (init_gdt_tss (GdtState gdt_init 0) 0xffffffff80400000) as (s' & x & H1 & H2 & H3 & _); [reflexivity|lia|].
  exists s', x. split; [exact H1|]. split; [exact H2|]. rewrite H3. reflexivity.
Defined.
