(* ===== verification/Cpu.v ===== *)
(** * The processor: registers, stack and ring transitions

    What the assembly of the kernel uses of the processor: the general registers, a memory of 8-byte words
    (an access outside the mapped words is a fault), [push], [pop], [ret], [int] and [iretq].  The lemmas say what
    sequences of pushes and pops do; a [frame] is a sequence of saved registers in memory. *)

From S2P Require Import Prelude.

Inductive reg := RAX | RCX | RDX | RBX | RBP | RSI | RDI | R8 | R9 | R10 | R11 | R12 | R13 | R14 | R15 | RSP.

#[export] Instance reg_eq_dec : EqDecision reg.
Proof. solve_decision. Defined.

Record cpu := Cpu {
  regs : reg -> Z;
  pc : Z;
  cs : Z;
  ss : Z;
  flags : Z;
  words : gmap Z Z
}.

Definition upd (r : reg) (v : Z) (f : reg -> Z) : reg -> Z := fun x => if decide (x = r) then v else f x.

Definition set_regs (f : reg -> Z) (c : cpu) : cpu := Cpu f (pc c) (cs c) (ss c) (flags c) (words c).
Definition set_words (w : gmap Z Z) (c : cpu) : cpu := Cpu (regs c) (pc c) (cs c) (ss c) (flags c) w.
Definition set_pc (v : Z) (c : cpu) : cpu := Cpu (regs c) v (cs c) (ss c) (flags c) (words c).

Definition getr (r : reg) : M cpu Z := gets (fun c => regs c r).
Definition setr (r : reg) (v : Z) : M cpu unit := modify (fun c => set_regs (upd r v (regs c)) c).
Definition movr (dst src : reg) : M cpu unit := v ← getr src; setr dst v.

Definition ldq (a : Z) : M cpu Z := fun c => match words c !! a with Some v => Ret (v, c) | None => Fault end.
Definition stq (a v : Z) : M cpu unit := fun c =>
  match words c !! a with Some _ => Ret (tt, set_words (<[a := v]> (words c)) c) | None => Fault end.

Definition push_val (v : Z) : M cpu unit :=
  sp ← getr RSP; setr RSP (u64 (sp - 8)) ≫= fun _ => stq (u64 (sp - 8)) v.
Definition pushq (r : reg) : M cpu unit := v ← getr r; push_val v.
Definition pop_val : M cpu Z :=
  sp ← getr RSP; v ← ldq sp; setr RSP (u64 (sp + 8)) ≫= fun _ => mret v.
Definition popq (r : reg) : M cpu unit := v ← pop_val; setr r v.
Definition retq : M cpu unit := v ← pop_val; modify (set_pc v).

(** [iretq] in 64-bit mode: instruction pointer, code segment, flags, stack pointer, stack segment. *)
Definition iretq : M cpu unit :=
  ip ← pop_val; c ← pop_val; f ← pop_val; sp ← pop_val; s ← pop_val;
  modify (fun st => Cpu (upd RSP sp (regs st)) ip c s f (words st)).

(** An interrupt that comes from user mode: the processor takes the stack of the task state segment, aligned to 16
    bytes, pushes the interrupted context and enters the handler with the kernel's code segment and the null stack segment. *)
Definition interrupt_entry (rsp0 target : Z) : M cpu unit :=
  st ← gets (fun c => c);
  setr RSP (rsp0 / 16 * 16) ≫= fun _ =>
  push_val (ss st) ≫= fun _ => push_val (regs st RSP) ≫= fun _ => push_val (flags st) ≫= fun _ =>
  push_val (cs st) ≫= fun _ => push_val (pc st) ≫= fun _ =>
  modify (fun c => Cpu (regs c) target 8 0 (flags c) (words c)).

Fixpoint pushes (l : list reg) : M cpu unit :=
  match l with [] => mret tt | r :: k => pushq r ≫= fun _ => pushes k end.
Fixpoint pops (l : list reg) : M cpu unit :=
  match l with [] => mret tt | r :: k => popq r ≫= fun _ => pops k end.

(** ** What they do *)

Definition mapped_words (w : gmap Z Z) (a n : Z) : Prop := forall k, 0 <= k < n -> is_Some (w !! (a + 8 * k)).

(** The registers of [l], as [f] says, lie in memory from [a] upwards. *)
Definition frame (w : gmap Z Z) (a : Z) (l : list reg) (f : reg -> Z) : Prop :=
  forall k r, l !! k = Some r -> w !! (a + 8 * Z.of_nat k) = Some (f r).

(** Everything but the general registers and the memory. *)
Definition same_mode (c c' : cpu) : Prop := pc c' = pc c /\ cs c' = cs c /\ ss c' = ss c /\ flags c' = flags c.

Lemma upd_same r v f : upd r v f r = v.
Proof. unfold upd. by rewrite decide_True. Qed.

Lemma upd_other r v f x : x <> r -> upd r v f x = f x.
Proof. intros H. unfold upd. by rewrite decide_False. Qed.

Lemma ldq_ok c a v : words c !! a = Some v -> ldq a c = Ret (v, c).
Proof. intros H. unfold ldq. by rewrite H. Qed.

Lemma stq_ok c a v : is_Some (words c !! a) -> stq a v c = Ret (tt, set_words (<[a := v]> (words c)) c).
Proof. intros [x H]. unfold stq. by rewrite H. Qed.

(** The state after a push. *)
Definition pushv (v : Z) (c : cpu) : cpu :=
  set_words (<[regs c RSP - 8 := v]> (words c)) (set_regs (upd RSP (regs c RSP - 8) (regs c)) c).

Lemma pushv_rsp v c : regs (pushv v c) RSP = regs c RSP - 8.
Proof. apply upd_same. Qed.

Lemma pushv_reg v c r : r <> RSP -> regs (pushv v c) r = regs c r.
Proof. apply upd_other. Qed.

Lemma pushv_words v c a : words (pushv v c) !! a = if decide (a = regs c RSP - 8) then Some v else words c !! a.
Proof. simpl. rewrite lookup_insert. repeat case_decide; congruence. Qed.

Lemma push_val_ok c v : 8 <= regs c RSP < 2 ^ 64 -> is_Some (words c !! (regs c RSP - 8)) -> push_val v c = Ret (tt, pushv v c).
Proof.
  intros Hs Hm. unfold push_val, getr, setr, gets, modify. do 2 rewrite (bind_ret _ _ _ _ _ eq_refl).
  rewrite u64_small by lia. by rewrite stq_ok.
Qed.

Lemma pop_val_ok c v : 0 <= regs c RSP -> regs c RSP + 8 < 2 ^ 64 -> words c !! regs c RSP = Some v ->
  pop_val c = Ret (v, set_regs (upd RSP (regs c RSP + 8) (regs c)) c).
Proof.
  intros H1 H2 Hv. unfold pop_val, getr, setr, gets, modify. rewrite (bind_ret _ _ _ _ _ eq_refl), (bind_ret _ _ _ _ _ (ldq_ok _ _ _ Hv)).
  by rewrite u64_small by lia.
Qed.

(** The state after pushes: the registers are in memory, the last one lowest. *)
Record pushed (l : list reg) (c c' : cpu) : Prop := {
  pu_rsp : regs c' RSP = regs c RSP - 8 * Z.of_nat (length l);
  pu_regs : forall r, r <> RSP -> regs c' r = regs c r;
  pu_mode : same_mode c c';
  pu_frame : frame (words c') (regs c RSP - 8 * Z.of_nat (length l)) (rev l) (regs c);
  pu_words : forall a, ~ (regs c RSP - 8 * Z.of_nat (length l) <= a < regs c RSP) -> words c' !! a = words c !! a;
  pu_mapped : forall a, is_Some (words c !! a) -> is_Some (words c' !! a)
}.

Lemma pushes_ok l c : RSP ∉ l -> 8 * Z.of_nat (length l) <= regs c RSP < 2 ^ 64 ->
  mapped_words (words c) (regs c RSP - 8 * Z.of_nat (length l)) (Z.of_nat (length l)) ->
  exists c', pushes l c = Ret (tt, c') /\ pushed l c c'.
Proof.
  revert c; induction l as [|r l IH]; intros c Hl Hs Hm; cbn [pushes length] in *.
  { exists c. split; [done|]. split; try done; cbn [length]; lia. }
  apply not_elem_of_cons in Hl as [Hr Hl].
  set (sp := regs c RSP) in *. set (c1 := set_words (<[sp - 8 := regs c r]> (words c)) (set_regs (upd RSP (sp - 8) (regs c)) c)).
  assert (is_Some (words c !! (sp - 8))) as Hm0.
  { destruct (Hm (Z.of_nat (length l))) as [x Hx]; [lia|]. exists x. rewrite <- Hx. f_equal. lia. }
  assert (regs c1 RSP = sp - 8) as Hsp by apply upd_same.
  destruct (IH c1 Hl) as (c' & Hrun & [P1 P2 P3 P4 P5 P6]).
  - rewrite Hsp. lia.
  - rewrite Hsp. intros k Hk. simpl. rewrite lookup_insert. case_decide; [by eexists|].
    destruct (Hm k) as [x Hx]; [lia|]. exists x. rewrite <- Hx. f_equal. lia.
  - rewrite Hsp in *. exists c'. split.
    { unfold pushq, getr, gets. rewrite (bind_ret _ _ _ tt c1); [done|]. rewrite (bind_ret _ _ _ _ _ eq_refl). by apply push_val_ok; [lia|]. }
    split; cbn [length].
    + lia.
    + intros x Hx. rewrite P2 by done. by apply upd_other.
    + exact P3.
    + intros k x Hx. cbn [rev] in Hx. apply lookup_app_Some in Hx as [Hx|[Hk Hx]].
      * assert (x <> RSP) as Hxr by (intros ->; apply Hl, list_elem_of_In, in_rev, list_elem_of_In; by eapply list_elem_of_lookup_2).
        rewrite <- (upd_other RSP (sp - 8) (regs c) x Hxr). etransitivity; [|exact (P4 k x Hx)]. f_equal. lia.
      * rewrite length_rev in *. destruct (k - length l)%nat eqn:E; [|done]. injection Hx as <-.
        rewrite P5 by lia. simpl. rewrite <- (lookup_insert_eq (words c) (sp - 8) (regs c r)). f_equal. lia.
    + intros a Ha. rewrite P5 by lia. simpl. apply lookup_insert_ne. lia.
    + intros a Ha. apply P6. simpl. rewrite lookup_insert. case_decide; [by eexists|done].
Qed.

Lemma pops_ok l f c : RSP ∉ l -> 0 <= regs c RSP -> regs c RSP + 8 * Z.of_nat (length l) < 2 ^ 64 ->
  frame (words c) (regs c RSP) l f ->
  exists g, pops l c = Ret (tt, set_regs g c) /\ g RSP = regs c RSP + 8 * Z.of_nat (length l) /\
    (forall r, r ∈ l -> g r = f r) /\ (forall r, r <> RSP -> r ∉ l -> g r = regs c r).
Proof.
  revert c; induction l as [|r l IH]; intros c Hl H0 Hs Hf; cbn [pops length] in *.
  { exists (regs c). split_and!; [by destruct c|lia|by intros r ?%not_elem_of_nil|done]. }
  apply not_elem_of_cons in Hl as [Hr Hl]. set (sp := regs c RSP) in *.
  set (c1 := set_regs (upd r (f r) (upd RSP (sp + 8) (regs c))) c).
  assert (words c !! sp = Some (f r)) as Hv.
  { specialize (Hf 0%nat r eq_refl). by replace (sp + 8 * Z.of_nat 0) with sp in Hf by lia. }
  assert (regs c1 RSP = sp + 8) as Hsp by (unfold c1; simpl; rewrite upd_other by congruence; apply upd_same).
  destruct (IH c1 Hl) as (g & Hrun & G1 & G2 & G3); [lia|lia| |].
  - intros k x Hx. rewrite Hsp. rewrite <- (Hf (S k) x Hx). simpl. f_equal. lia.
  - exists g. split_and!.
    + unfold popq. rewrite (bind_ret _ _ _ tt c1); [exact Hrun|]. rewrite (bind_ret _ _ _ _ _ (pop_val_ok c (f r) H0 ltac:(lia) Hv)). done.
    + lia.
    + intros x [->|Hx]%elem_of_cons; [|by apply G2]. destruct (decide (r ∈ l)); [by apply G2|].
      rewrite G3 by done. apply upd_same.
    + intros x Hx [Hxr Hxl]%not_elem_of_cons. rewrite G3 by done. simpl. by rewrite !upd_other by done.
Qed.

(** Registers from words that may be anything: each gets one of them. *)
Lemma pops_any l c : RSP ∉ l -> 0 <= regs c RSP -> regs c RSP + 8 * Z.of_nat (length l) < 2 ^ 64 ->
  mapped_words (words c) (regs c RSP) (Z.of_nat (length l)) ->
  exists g, pops l c = Ret (tt, set_regs g c) /\ g RSP = regs c RSP + 8 * Z.of_nat (length l) /\
    (forall r, r ∈ l -> exists k, 0 <= k < Z.of_nat (length l) /\ words c !! (regs c RSP + 8 * k) = Some (g r)) /\
    (forall r, r <> RSP -> r ∉ l -> g r = regs c r).
Proof.
  revert c; induction l as [|r l IH]; intros c Hl H0 Hs Hm; cbn [pops length] in *.
  { exists (regs c). split_and!; [by destruct c|lia|by intros r ?%not_elem_of_nil|done]. }
  apply not_elem_of_cons in Hl as [Hr Hl]. set (sp := regs c RSP) in *.
  destruct (Hm 0 ltac:(lia)) as [v Hv]. replace (sp + 8 * 0) with sp in Hv by lia.
  set (c1 := set_regs (upd r v (upd RSP (sp + 8) (regs c))) c).
  assert (regs c1 RSP = sp + 8) as Hsp by (unfold c1; simpl; rewrite upd_other by congruence; apply upd_same).
  destruct (IH c1 Hl) as (g & Hrun & G1 & G2 & G3); [lia|lia| |].
  - intros k Hk. rewrite Hsp. destruct (Hm (k + 1) ltac:(lia)) as [x Hx]. exists x. rewrite <- Hx. simpl. f_equal. lia.
  - exists g. split_and!.
    + unfold popq. rewrite (bind_ret _ _ _ tt c1); [exact Hrun|]. rewrite (bind_ret _ _ _ _ _ (pop_val_ok c v H0 ltac:(lia) Hv)). done.
    + lia.
    + intros x Hx. destruct (decide (x ∈ l)) as [Hxl|Hxl].
      * destruct (G2 x Hxl) as (k & Hk & E). exists (k + 1). split; [lia|]. rewrite <- E, Hsp. simpl. f_equal. lia.
      * apply elem_of_cons in Hx as [->|?]; [|done]. exists 0. split; [lia|]. rewrite G3 by done. simpl. rewrite upd_same, <- Hv. f_equal. lia.
    + intros x Hx [Hxr Hxl]%not_elem_of_cons. rewrite G3 by done. simpl. by rewrite !upd_other by done.
Qed.

Lemma retq_ok c v : 0 <= regs c RSP -> regs c RSP + 8 < 2 ^ 64 -> words c !! regs c RSP = Some v ->
  retq c = Ret (tt, set_pc v (set_regs (upd RSP (regs c RSP + 8) (regs c)) c)).
Proof. intros H1 H2 Hv. unfold retq. by rewrite (bind_ret _ _ _ _ _ (pop_val_ok c v H1 H2 Hv)). Qed.
