(* ===== verification/CStr.v ===== *)
(** * Byte memory and C strings ([sys/string.c], [sys/defs.c], [libc/string.c])

    Byte-addressed memory is a finite map from addresses to bytes (0 to 255); an access
    outside its domain is a [Fault].  Pointers are addresses, [char] is a signed byte.
    The string routines are loops over this memory.  Their fuel is the
    size of the memory: a string walk visits a new mapped address at every step, so it
    stops before ([strlen_total]).  [libc/string.c] repeats the code of the kernel;
    only the error value of [atoi] differs. *)

From S2P Require Import Prelude.

Abbreviation bytes := (gmap Z Z).

(** ** Accesses *)

Definition ld8 (p : Z) : M bytes Z := fun m =>
  match m !! p with Some b => Ret (b, m) | None => Fault end.
Definition st8 (p v : Z) : M bytes unit := fun m =>
  match m !! p with Some _ => Ret (tt, <[p := u8 v]> m) | None => Fault end.
(** Reading a [char]. *)
Definition ldc (p : Z) : M bytes Z := b ← ld8 p; mret (i8 b).

(** A little-endian number of [n] bytes, and [n] bytes in order. *)
Fixpoint ld_le (n : nat) (p : Z) : M bytes Z :=
  match n with O => mret 0 | S n' => b ← ld8 p; r ← ld_le n' (p + 1); mret (b + 256 * r) end.
Fixpoint load_bytes (n : nat) (p : Z) : M bytes (list Z) :=
  match n with O => mret [] | S n' => b ← ld8 p; r ← load_bytes n' (p + 1); mret (b :: r) end.

Definition str_fuel : M bytes nat := gets (fun m => S (size m)).

(** ** [sys/defs.c] *)

Definition memset (a v b : Z) : M bytes Z :=
  for_loop (Z.to_nat b) 0 (fun i => st8 (a + i) v) ≫= fun _ => mret a.

(** [memset_byte] stores [b] words of 8 bytes each. *)
Definition memset_byte (a v b : Z) : M bytes Z :=
  for_loop (Z.to_nat b) 0 (fun i =>
    for_loop 8 0 (fun k => st8 (a + 8 * i + k) (Z.shiftr v (8 * k)))) ≫= fun _ => mret a.

Definition memcpy (dest src n : Z) : M bytes Z :=
  for_loop (Z.to_nat n) 0 (fun i => b ← ld8 (src + i); st8 (dest + i) b) ≫= fun _ => mret dest.

(** ** [sys/string.c] *)

Fixpoint strlen_loop (fuel : nat) (s len : Z) : M bytes Z :=
  match fuel with
  | O => mfuel
  | S f => c ← ldc s; if c =? 0 then mret len else strlen_loop f (s + 1) (len + 1)
  end.

Definition strlen (s : Z) : M bytes Z :=
  if s =? 0 then mret 0 else
  c ← ldc s;
  if c =? 0 then mret 0 else
  fuel ← str_fuel; strlen_loop fuel s 0.

(** [while ( *s != 0) s++]. *)
Fixpoint str_end (fuel : nat) (s : Z) : M bytes Z :=
  match fuel with
  | O => mfuel
  | S f => c ← ldc s; if c =? 0 then mret s else str_end f (s + 1)
  end.

(** [while ( *t) { *s = *t; s++; t++; } *s = 0]. *)
Fixpoint str_copy (fuel : nat) (s t : Z) : M bytes unit :=
  match fuel with
  | O => mfuel
  | S f =>
      c ← ldc t;
      if c =? 0 then st8 s 0
      else c' ← ldc t; st8 s c' ≫= fun _ => str_copy f (s + 1) (t + 1)
  end.

Definition strcat (s1 s2 : Z) : M bytes Z :=
  fuel ← str_fuel; s ← str_end fuel s1; str_copy fuel s s2 ≫= fun _ => mret s1.

Definition strcpy (dest src : Z) : M bytes Z :=
  fuel ← str_fuel; str_copy fuel dest src ≫= fun _ => mret dest.

Fixpoint kstrcmp_loop (fuel : nat) (s1 s2 : Z) : M bytes Z :=
  match fuel with
  | O => mfuel
  | S f =>
      a ← ldc s1;
      if a =? 0 then b ← ldc s2; mret (a - b) else
      b ← ldc s2;
      if negb (b =? 0) && (a =? b) then kstrcmp_loop f (s1 + 1) (s2 + 1)
      else mret (a - b)
  end.

Definition kstrcmp (s1 s2 : Z) : M bytes Z :=
  fuel ← str_fuel; kstrcmp_loop fuel s1 s2.

(** [bad] is what is returned for a character that is not a digit; [int] arithmetic
    wraps. *)
Fixpoint atoi_loop (fuel : nat) (bad str ans sign : Z) : M bytes Z :=
  match fuel with
  | O => mfuel
  | S f =>
      c ← ldc str;
      if c =? 0 then mret (i32 (ans * sign)) else
      if (48 <=? c) && (c <=? 57)
      then atoi_loop f bad (str + 1) (i32 (ans * 10 + c - 48)) sign
      else mret bad
  end.

Definition atoi_gen (bad str : Z) : M bytes Z :=
  c ← ldc str; fuel ← str_fuel;
  if c =? 45 then atoi_loop fuel bad (str + 1) 0 (-1)
  else if c =? 43 then atoi_loop fuel bad (str + 1) 0 1
  else atoi_loop fuel bad str 0 1.

Definition atoi : Z -> M bytes Z := atoi_gen 0.

(** Number of iterations of [while (bkup) { bkup /= 10; n_digits++; }]; a 64-bit
    value has at most 20 digits. *)
Fixpoint n_digits (fuel : nat) (bkup : Z) : Z :=
  match fuel with
  | O => 0
  | S f => if bkup =? 0 then 0 else 1 + n_digits f (bkup / 10)
  end.

(** [do { buf[i--] = 48 + numCopy % 10; numCopy /= 10; } while (numCopy)]; returns [i]. *)
Fixpoint put_digits (fuel : nat) (buf i numCopy : Z) : M bytes Z :=
  match fuel with
  | O => mfuel
  | S f =>
      st8 (buf + i) (48 + numCopy mod 10) ≫= fun _ =>
      let numCopy := numCopy / 10 in
      if numCopy =? 0 then mret (i - 1) else put_digits f buf (i - 1) numCopy
  end.

Definition itoa (buf val : Z) : M bytes unit :=
  if val =? 0 then st8 buf 48 ≫= fun _ => st8 (buf + 1) 0 else
  let bkup := if 0 <=? val then val else u64 (- val) in
  let n := n_digits 20 bkup in
  let i := if val <? 0 then n + 1 else n in
  st8 (buf + i) 0 ≫= fun _ =>
  i' ← put_digits 20 buf (i - 1) bkup;
  if val <? 0 then st8 (buf + i') 45 else mret tt.

(** [pow] with [b] nonnegative. *)
Fixpoint pow_loop (b : nat) (a ans : Z) : Z :=
  match b with O => ans | S b' => pow_loop b' a (u64 (ans * a)) end.
Definition pow (a b : Z) : Z := pow_loop (Z.to_nat b) a 1.

(** Octal digits read as a decimal number; [int] has at most 10 digits. *)
Fixpoint o_to_d_loop (fuel : nat) (n i ans : Z) : outcome Z :=
  if 0 <? n then
    match fuel with
    | O => OutOfFuel
    | S f => let r := Z.rem n 10 in
             o_to_d_loop f (Z.quot n 10) (i + 1) (i32 (u64 (ans + u64 (r * pow 8 i))))
    end
  else Ret ans.
Definition o_to_d (n : Z) : outcome Z := o_to_d_loop 10 n 0 0.

(** ** [libc/string.c] *)

Definition libc_strcat : Z -> Z -> M bytes Z := strcat.
Definition libc_strcmp : Z -> Z -> M bytes Z := kstrcmp.
Definition libc_itoa_cl : Z -> Z -> M bytes unit := itoa.
Definition libc_atoi : Z -> M bytes Z := atoi_gen (-1).
Definition libc_strlen : Z -> M bytes Z := strlen.
Definition libc_strcpy : Z -> Z -> M bytes Z := strcpy.
Definition libc_memcpy : Z -> Z -> Z -> M bytes Z := memcpy.
Definition libc_memset : Z -> Z -> Z -> M bytes Z := memset.

#[global] Arguments ld8 : simpl never.
#[global] Arguments st8 : simpl never.
#[global] Arguments ldc : simpl never.

(** ** Strings in memory *)

(** Memory holds the characters of [s], then a zero byte, from address [p]. *)
Fixpoint cstr (m : bytes) (p : Z) (s : list Z) : Prop :=
  match s with
  | [] => m !! p = Some 0
  | c :: s' => 0 < c < 256 /\ m !! p = Some c /\ cstr m (p + 1) s'
  end.

Fixpoint cstrb (m : bytes) (p : Z) (s : list Z) : bool :=
  match s with
  | [] => bool_decide (m !! p = Some 0)
  | c :: s' => (0 <? c) && (c <? 256) && bool_decide (m !! p = Some c) && cstrb m (p + 1) s'
  end.

Lemma cstrb_sound m p s : cstrb m p s = true -> cstr m p s.
Proof.
  revert p; induction s as [|c s IH]; simpl; intros p.
  - apply bool_decide_eq_true_1.
  - rewrite !andb_true_iff, bool_decide_eq_true. intros [[[? ?] ?] ?].
    split_and!; [lia..|done|auto].
Qed.

Lemma i8_byte c : 0 <= c < 256 -> (i8 c =? 0) = (c =? 0).
Proof.
  intros Hc. unfold i8, signed. change (2 ^ (8 - 1)) with 128. change (2 ^ 8) with 256.
  assert ((c + 128) mod 256 = if 128 <=? c then c - 128 else c + 128) as ->.
  { destruct (Z.leb_spec 128 c); [|apply Z.mod_small; lia].
    rewrite <- (Z.mod_small (c - 128) 256) by lia.
    replace (c + 128) with (c - 128 + 1 * 256) by lia. apply Z.mod_add. lia. }
  destruct (Z.leb_spec 128 c), (Z.eqb_spec c 0); zbool.
Qed.

Lemma i8_inj a b : 0 <= a < 256 -> 0 <= b < 256 -> i8 a = i8 b -> a = b.
Proof.
  intros Ha Hb. unfold i8, signed. change (2 ^ (8 - 1)) with 128. change (2 ^ 8) with 256.
  pose proof (Z.div_mod (a + 128) 256). pose proof (Z.div_mod (b + 128) 256). nia.
Qed.

Lemma u8_i8 c : 0 <= c < 256 -> u8 (i8 c) = c.
Proof.
  intros Hc. unfold u8, i8, signed. change (2 ^ (8 - 1)) with 128. change (2 ^ 8) with 256.
  rewrite Zminus_mod_idemp_l. replace (c + 128 - 128) with c by lia. by apply Z.mod_small.
Qed.

Lemma ldc_ok m p c : m !! p = Some c -> ldc p m = Ret (i8 c, m).
Proof. intros H. unfold ldc, ld8, mbind, M_bind. by rewrite H. Qed.

Lemma ld8_ok m p c : m !! p = Some c -> ld8 p m = Ret (c, m).
Proof. intros H. unfold ld8. by rewrite H. Qed.

Lemma st8_ok m p v : is_Some (m !! p) -> st8 p v m = Ret (tt, <[p := u8 v]> m).
Proof. intros [x H]. unfold st8. by rewrite H. Qed.

Lemma cstr_lookup m p s i c :
  cstr m p s -> (s ++ [0]) !! i = Some c -> m !! (p + Z.of_nat i) = Some c.
Proof.
  revert p i; induction s as [|d s IH]; intros p i; simpl.
  - intros H. destruct i as [|i]; simpl; [|done]. rewrite Z.add_0_r. by intros [= <-].
  - intros (_ & Hd & Hs). destruct i as [|i]; simpl.
    + rewrite Z.add_0_r. by intros [= <-].
    + intros Hi. rewrite <- (IH (p + 1) i) by done. f_equal. lia.
Qed.

Lemma cstr_mapped m p s i : cstr m p s -> 0 <= i <= Z.of_nat (length s) -> is_Some (m !! (p + i)).
Proof.
  intros Hs Hi. destruct (lookup_lt_is_Some_2 (s ++ [0]) (Z.to_nat i)) as [c Hc].
  { rewrite length_app. simpl. lia. }
  exists c. rewrite <- (cstr_lookup m p s (Z.to_nat i) c Hs Hc). f_equal. lia.
Qed.

Lemma cstr_chars m p s : cstr m p s -> Forall (fun c => 0 < c < 256) s.
Proof. revert p; induction s as [|c s IH]; simpl; intros p H; [done|]. constructor; [|eapply IH]; apply H. Qed.

Lemma cstr_of_lookup m p s :
  Forall (fun c => 0 < c < 256) s ->
  (forall i c, (s ++ [0]) !! i = Some c -> m !! (p + Z.of_nat i) = Some c) -> cstr m p s.
Proof.
  intros Hall. revert p; induction Hall as [|c s Hc Hall IH]; simpl; intros p Hl.
  - specialize (Hl 0%nat 0 eq_refl). by rewrite Z.add_0_r in Hl.
  - split_and!; [lia..| |].
    + specialize (Hl 0%nat c eq_refl). by rewrite Z.add_0_r in Hl.
    + apply IH. intros i d Hi. rewrite <- (Hl (S i) d) by done. f_equal. lia.
Qed.

(** A memory that agrees with [m] on the bytes of a string holds the string. *)
Lemma cstr_agree m m' p s :
  cstr m p s -> (forall i, 0 <= i <= Z.of_nat (length s) -> m' !! (p + i) = m !! (p + i)) ->
  cstr m' p s.
Proof.
  intros Hs Hag. apply cstr_of_lookup; [by eapply cstr_chars|]. intros i c Hi.
  rewrite Hag; [by eapply cstr_lookup|].
  apply lookup_lt_Some in Hi. rewrite length_app in Hi. simpl in Hi. lia.
Qed.

(** A larger memory holds the same strings and numbers. *)
Lemma cstr_mono m0 m p l : m0 ⊆ m -> cstr m0 p l -> cstr m p l.
Proof.
  intros Hs. revert p; induction l as [|c l IH]; intros p; cbn [cstr]; [intros H; by eapply lookup_weaken|].
  intros (A & B & C). split_and!; [lia..|by eapply lookup_weaken|auto].
Qed.

Lemma ld_le_mono n p m0 m v : m0 ⊆ m -> ld_le n p m0 = Ret (v, m0) -> ld_le n p m = Ret (v, m).
Proof.
  intros Hs. revert p v; induction n as [|n IH]; intros p v; cbn [ld_le]; [by intros [= <-]|].
  unfold mbind, M_bind, ld8. destruct (m0 !! p) as [b|] eqn:Hb; [|done].
  rewrite (lookup_weaken _ _ _ _ Hb Hs). destruct (ld_le n (p + 1) m0) as [[r m1]| |] eqn:Hr; [|done..].
  intros [= <- ->]. by rewrite (IH _ _ Hr).
Qed.

Lemma load_bytes_mono n p m0 m l : m0 ⊆ m -> load_bytes n p m0 = Ret (l, m0) -> load_bytes n p m = Ret (l, m).
Proof.
  intros Hs. revert p l; induction n as [|n IH]; intros p l; cbn [load_bytes]; [by intros [= <-]|].
  unfold mbind, M_bind, ld8. destruct (m0 !! p) as [b|] eqn:Hb; [|done].
  rewrite (lookup_weaken _ _ _ _ Hb Hs). destruct (load_bytes n (p + 1) m0) as [[r m1]| |] eqn:Hr; [|done..].
  intros [= <- ->]. by rewrite (IH _ _ Hr).
Qed.

(** A memory with [n] consecutive mapped addresses has at least [n] elements. *)
Lemma mapped_size (m : bytes) p n :
  (forall i, 0 <= i < Z.of_nat n -> is_Some (m !! (p + i))) -> (n <= size m)%nat.
Proof.
  intros H. rewrite <- (size_dom (D := gset Z)).
  assert (size (list_to_set (C := gset Z) (seqZ p (Z.of_nat n))) = n) as Hn.
  { rewrite size_list_to_set by apply NoDup_seqZ. rewrite length_seqZ. lia. }
  rewrite <- Hn at 1. apply subseteq_size. intros x Hx.
  apply elem_of_list_to_set, elem_of_seqZ in Hx.
  apply elem_of_dom. replace x with (p + (x - p)) by lia. apply H. lia.
Qed.

Lemma cstr_size m p s : cstr m p s -> (length s < size m)%nat.
Proof. intros Hs. apply (mapped_size m p (S (length s))). intros i Hi. eapply cstr_mapped; [done|lia]. Qed.

(** ** [strlen] *)

Lemma strlen_loop_ok fuel m p s len :
  cstr m p s -> (length s < fuel)%nat ->
  strlen_loop fuel p len m = Ret (len + Z.of_nat (length s), m).
Proof.
  revert fuel p len; induction s as [|c s IH]; intros [|f] p len Hs Hf; simpl in Hf; try lia;
    cbn [strlen_loop].
  - rewrite (bind_ret _ _ _ _ _ (ldc_ok _ _ _ Hs)). by rewrite Z.add_0_r.
  - destruct Hs as (Hc & Hl & Hs). rewrite (bind_ret _ _ _ _ _ (ldc_ok _ _ _ Hl)), i8_byte by lia.
    destruct (Z.eqb_spec c 0); [lia|]. rewrite IH by (done || lia). f_equal. f_equal. simpl. lia.
Qed.

Lemma strlen_ok m p s : p <> 0 -> cstr m p s -> strlen p m = Ret (Z.of_nat (length s), m).
Proof.
  intros Hp Hs. unfold strlen. destruct (Z.eqb_spec p 0); [done|].
  pose proof (cstr_size _ _ _ Hs) as Hf. pose proof (strlen_loop_ok (S (size m)) m p s 0 Hs) as Hrun.
  destruct s as [|c s].
  - by rewrite (bind_ret _ _ _ _ _ (ldc_ok _ _ _ Hs)).
  - destruct Hs as (Hc & Hl & Hs). rewrite (bind_ret _ _ _ _ _ (ldc_ok _ _ _ Hl)), i8_byte by lia.
    destruct (Z.eqb_spec c 0); [lia|]. unfold str_fuel, gets.
    rewrite (bind_ret _ _ _ _ _ eq_refl). rewrite Hrun by lia. done.
Qed.

(** The fuel of a walk is never exhausted: with [k] mapped addresses behind [p] and fuel
    for the others, the walk finds the end of the string or faults. *)
Lemma strlen_loop_total fuel m p k len :
  (forall i, 0 <= i < Z.of_nat k -> is_Some (m !! (p - Z.of_nat k + i))) ->
  (size m < fuel + k)%nat -> strlen_loop fuel p len m <> OutOfFuel.
Proof.
  revert p k len; induction fuel as [|f IH]; intros p k len Hk Hf.
  - pose proof (mapped_size m _ k Hk). lia.
  - cbn [strlen_loop]. unfold ldc, ld8, mbind, M_bind, mret, M_ret.
    destruct (m !! p) as [b|] eqn:Hb; [|done]. destruct (i8 b =? 0); [done|].
    apply (IH (p + 1) (S k)); [|lia]. intros i Hi.
    destruct (decide (i = Z.of_nat k)) as [->|Hne].
    + exists b. rewrite <- Hb. f_equal. lia.
    + destruct (Hk i) as [x Hx]; [lia|]. exists x. rewrite <- Hx. f_equal. lia.
Qed.

(** [strlen] returns or faults, on every pointer into every memory. *)
Lemma strlen_total m p : strlen p m <> OutOfFuel.
Proof.
  unfold strlen. destruct (p =? 0); [done|].
  unfold ldc at 1, ld8, str_fuel, gets, mbind, M_bind, mret, M_ret.
  destruct (m !! p) as [b|]; [|done]. destruct (i8 b =? 0); [done|].
  apply (strlen_loop_total _ m p 0); [intros; lia|lia].
Qed.

(** ** [strcat], [strcpy] *)

Lemma str_end_ok fuel m p s :
  cstr m p s -> (length s < fuel)%nat -> str_end fuel p m = Ret (p + Z.of_nat (length s), m).
Proof.
  revert fuel p; induction s as [|c s IH]; intros [|f] p Hs Hf; simpl in Hf; try lia;
    cbn [str_end].
  - rewrite (bind_ret _ _ _ _ _ (ldc_ok _ _ _ Hs)). by rewrite Z.add_0_r.
  - destruct Hs as (Hc & Hl & Hs). rewrite (bind_ret _ _ _ _ _ (ldc_ok _ _ _ Hl)), i8_byte by lia.
    destruct (Z.eqb_spec c 0); [lia|]. rewrite IH by (done || lia). f_equal. f_equal. simpl. lia.
Qed.

(** The bytes of [l] written from [p] on. *)
Fixpoint write_bytes (p : Z) (l : list Z) (m : bytes) : bytes :=
  match l with [] => m | b :: l' => write_bytes (p + 1) l' (<[p := b]> m) end.

Lemma write_bytes_lookup p l m a :
  write_bytes p l m !! a =
  if decide (p <= a < p + Z.of_nat (length l)) then l !! Z.to_nat (a - p) else m !! a.
Proof.
  revert p m; induction l as [|b l IH]; simpl; intros p m.
  - by rewrite decide_False by lia.
  - rewrite IH. destruct (decide (p + 1 <= a < p + 1 + Z.of_nat (length l))).
    + rewrite decide_True by lia. by replace (Z.to_nat (a - p)) with (S (Z.to_nat (a - (p + 1)))) by lia.
    + rewrite lookup_insert. destruct (decide (p = a)) as [->|].
      * rewrite decide_True by lia. by replace (a - a) with 0 by lia.
      * rewrite decide_False by lia. done.
Qed.

Lemma write_bytes_cstr p l m :
  Forall (fun c => 0 < c < 256) l -> cstr (write_bytes p (l ++ [0]) m) p l.
Proof.
  intros Hl. apply cstr_of_lookup; [done|]. intros i c Hi. rewrite write_bytes_lookup.
  pose proof (lookup_lt_Some _ _ _ Hi). rewrite decide_True by lia.
  by replace (Z.to_nat (p + Z.of_nat i - p)) with i by lia.
Qed.

(** The [n] addresses from [p] on are mapped. *)
Definition room (m : bytes) (p n : Z) : Prop := forall i, 0 <= i < n -> is_Some (m !! (p + i)).

(** Two regions do not meet. *)
Definition disjoint_regions (p n q k : Z) : Prop := p + n <= q \/ q + k <= p.

Lemma str_copy_ok fuel m p q s :
  cstr m q s -> room m p (Z.of_nat (length s) + 1) -> (length s < fuel)%nat ->
  disjoint_regions p (Z.of_nat (length s) + 1) q (Z.of_nat (length s) + 1) ->
  str_copy fuel p q m = Ret (tt, write_bytes p (s ++ [0]) m).
Proof.
  revert fuel m p q; induction s as [|c s IH]; intros [|f] m p q Hs Hroom Hf Hdis;
    simpl in Hf; try lia; cbn [str_copy].
  - rewrite (bind_ret _ _ _ _ _ (ldc_ok _ _ _ Hs)). simpl. apply st8_ok.
    destruct (Hroom 0) as [x Hx]; [simpl; lia|]. exists x. by rewrite Z.add_0_r in Hx.
  - destruct Hs as (Hc & Hl & Hs). rewrite (bind_ret _ _ _ _ _ (ldc_ok _ _ _ Hl)), i8_byte by lia.
    destruct (Z.eqb_spec c 0); [lia|]. rewrite (bind_ret _ _ _ _ _ (ldc_ok _ _ _ Hl)).
    assert (is_Some (m !! p)) as Hp.
    { destruct (Hroom 0) as [x Hx]; [simpl; lia|]. exists x. by rewrite Z.add_0_r in Hx. }
    rewrite (bind_ret _ _ _ _ _ (st8_ok _ _ _ Hp)), u8_i8 by lia. simpl.
    unfold disjoint_regions in Hdis. cbn [length] in *. apply IH; [| |lia|red; lia].
    + eapply cstr_agree; [done|]. intros i Hi. apply lookup_insert_ne. lia.
    + intros i Hi. rewrite lookup_insert. case_decide; [by eexists|].
      destruct (Hroom (i + 1)) as [x Hx]; [lia|]. exists x. rewrite <- Hx. f_equal. lia.
Qed.

Lemma strcat_spec m p q a b :
  cstr m p a -> cstr m q b ->
  room m (p + Z.of_nat (length a)) (Z.of_nat (length b) + 1) ->
  disjoint_regions (p + Z.of_nat (length a)) (Z.of_nat (length b) + 1) q (Z.of_nat (length b) + 1) ->
  strcat p q m = Ret (p, write_bytes (p + Z.of_nat (length a)) (b ++ [0]) m).
Proof.
  intros Ha Hb Hroom Hdis. unfold strcat, str_fuel, gets. rewrite (bind_ret _ _ _ _ _ eq_refl).
  pose proof (cstr_size _ _ _ Ha). pose proof (cstr_size _ _ _ Hb).
  rewrite (bind_ret _ _ _ _ _ (str_end_ok (S (size m)) _ _ _ Ha ltac:(lia))).
  rewrite (bind_ret _ _ _ _ _ (str_copy_ok (S (size m)) _ _ _ _ Hb Hroom ltac:(lia) Hdis)). done.
Qed.

Lemma strcat_ok m p q a b :
  cstr m p a -> cstr m q b ->
  room m (p + Z.of_nat (length a)) (Z.of_nat (length b) + 1) ->
  disjoint_regions (p + Z.of_nat (length a)) (Z.of_nat (length b) + 1) q (Z.of_nat (length b) + 1) ->
  exists m', strcat p q m = Ret (p, m') /\ cstr m' p (a ++ b) /\
    (forall x, ~ (p + Z.of_nat (length a) <= x <= p + Z.of_nat (length a + length b)) ->
       m' !! x = m !! x).
Proof.
  intros Ha Hb Hroom Hdis. rewrite (strcat_spec m p q a b) by done. eexists. split_and!; [done| |].
  - apply cstr_of_lookup.
    { apply Forall_app. split; by eapply cstr_chars. }
    intros i c Hi. rewrite write_bytes_lookup, length_app. cbn [length].
    rewrite <- app_assoc, lookup_app in Hi. case_decide as Hd.
    + destruct (a !! i) as [x|] eqn:Hx; [apply lookup_lt_Some in Hx; lia|].
      rewrite <- Hi. f_equal. lia.
    + destruct (a !! i) as [x|] eqn:Hx.
      * injection Hi as ->. eapply cstr_lookup; [done|]. by apply lookup_app_l_Some.
      * apply lookup_ge_None in Hx. apply lookup_lt_Some in Hi. rewrite length_app in Hi.
        simpl in Hi. lia.
  - intros x Hx. rewrite write_bytes_lookup, length_app. cbn [length]. by rewrite decide_False by lia.
Qed.

(** [strcat] appends: with room for the second string behind the first one, and the
    two not overlapping, it returns its first argument, which then holds the
    concatenation; no byte outside the appended region changes. *)
Theorem strcat_appends m p q a b :
  cstr m p a -> cstr m q b ->
  room m (p + Z.of_nat (length a)) (Z.of_nat (length b) + 1) ->
  disjoint_regions (p + Z.of_nat (length a)) (Z.of_nat (length b) + 1) q (Z.of_nat (length b) + 1) ->
  exists m', strcat p q m = Ret (p, m') /\ cstr m' p (a ++ b) /\
    (forall x, ~ (p + Z.of_nat (length a) <= x <= p + Z.of_nat (length a + length b)) ->
       m' !! x = m !! x).
Proof. apply strcat_ok. Qed.

Lemma strcpy_ok m p q s :
  cstr m q s -> room m p (Z.of_nat (length s) + 1) ->
  disjoint_regions p (Z.of_nat (length s) + 1) q (Z.of_nat (length s) + 1) ->
  exists m', strcpy p q m = Ret (p, m') /\ cstr m' p s /\
    (forall x, ~ (p <= x <= p + Z.of_nat (length s)) -> m' !! x = m !! x).
Proof.
  intros Hs Hroom Hdis. exists (write_bytes p (s ++ [0]) m). split_and!.
  - unfold strcpy, str_fuel, gets. rewrite (bind_ret _ _ _ _ _ eq_refl).
    pose proof (cstr_size _ _ _ Hs).
    by rewrite (bind_ret _ _ _ _ _ (str_copy_ok (S (size m)) _ _ _ _ Hs Hroom ltac:(lia) Hdis)).
  - apply write_bytes_cstr. by eapply cstr_chars.
  - intros x Hx. rewrite write_bytes_lookup, length_app. cbn [length]. by rewrite decide_False by lia.
Qed.

(** ** [kstrcmp] *)

Lemma kstrcmp_loop_ok fuel m p q a b :
  cstr m p a -> cstr m q b -> (length a < fuel)%nat ->
  exists d, kstrcmp_loop fuel p q m = Ret (d, m) /\ (d = 0 <-> a = b).
Proof.
  revert fuel p q b; induction a as [|c a IH]; intros [|f] p q b Ha Hb Hf; simpl in Hf; try lia;
    cbn [kstrcmp_loop].
  - rewrite (bind_ret _ _ _ _ _ (ldc_ok _ _ _ Ha)). simpl. destruct b as [|c' b].
    + rewrite (bind_ret _ _ _ _ _ (ldc_ok _ _ _ Hb)). by eexists.
    + destruct Hb as (Hc & Hl & _). rewrite (bind_ret _ _ _ _ _ (ldc_ok _ _ _ Hl)).
      eexists. split; [done|]. split; [|done].
      change (i8 0) with 0. pose proof (i8_byte c' ltac:(lia)). intros ?. exfalso. zbool.
  - destruct Ha as (Hc & Hl & Ha). rewrite (bind_ret _ _ _ _ _ (ldc_ok _ _ _ Hl)), i8_byte by lia.
    destruct (Z.eqb_spec c 0); [lia|]. destruct b as [|c' b].
    + rewrite (bind_ret _ _ _ _ _ (ldc_ok _ _ _ Hb)). simpl. eexists. split; [done|].
      split; [|done].
      change (i8 0) with 0. pose proof (i8_byte c ltac:(lia)). intros ?. exfalso. zbool.
    + destruct Hb as (Hc' & Hl' & Hb). rewrite (bind_ret _ _ _ _ _ (ldc_ok _ _ _ Hl')).
      rewrite i8_byte by lia. destruct (Z.eqb_spec c' 0); [lia|]. simpl.
      destruct (Z.eqb_spec (i8 c) (i8 c')) as [Heq|Hne].
      * apply i8_inj in Heq as ->; [|lia..]. destruct (IH f (p + 1) (q + 1) b) as (d & Hd & Hiff);
          [done|done|lia|]. exists d. split; [done|]. rewrite Hiff. split; congruence.
      * eexists. split; [done|]. split; [lia|]. intros [= -> _]. done.
Qed.

Lemma kstrcmp_ok m p q a b :
  cstr m p a -> cstr m q b ->
  exists d, kstrcmp p q m = Ret (d, m) /\ (d = 0 <-> a = b).
Proof.
  intros Ha Hb. unfold kstrcmp, str_fuel, gets. rewrite (bind_ret _ _ _ _ _ eq_refl).
  apply kstrcmp_loop_ok; [done..|]. pose proof (cstr_size _ _ _ Ha). lia.
Qed.

(** [kstrcmp] (and [strcmp] of the C library) decides equality of strings: it always
    returns, and returns 0 exactly when the two strings are the same. *)
Theorem kstrcmp_decides m p q a b :
  cstr m p a -> cstr m q b ->
  exists d, kstrcmp p q m = Ret (d, m) /\ (d = 0 <-> a = b).
Proof. apply kstrcmp_ok. Qed.

(** ** Decimal numbers *)

(** The decimal digits of [n], most significant first. *)
Fixpoint dec (fuel : nat) (n : Z) : list Z :=
  match fuel with
  | O => []
  | S f => if n / 10 =? 0 then [48 + n mod 10] else dec f (n / 10) ++ [48 + n mod 10]
  end.

Definition is_digit (c : Z) : Prop := 48 <= c <= 57.

Lemma dec_digits fuel n : Forall is_digit (dec fuel n).
Proof.
  revert n; induction fuel as [|f IH]; simpl; intros n; [done|].
  assert (is_digit (48 + n mod 10)) by (unfold is_digit; pose proof (Z.mod_pos_bound n 10); lia).
  destruct (n / 10 =? 0); [by apply Forall_singleton|]. apply Forall_app.
  split; [done|by apply Forall_singleton].
Qed.

Lemma dec_nonempty f n : dec (S f) n <> [].
Proof. cbn [dec]. destruct (n / 10 =? 0); [done|]. by destruct (dec f (n / 10)). Qed.

Lemma digits_chars l : Forall is_digit l -> Forall (fun c => 0 < c < 256) l.
Proof. apply Forall_impl. unfold is_digit. lia. Qed.

Definition dec_value (acc : Z) (l : list Z) : Z := foldl (fun a c => a * 10 + c - 48) acc l.

Lemma dec_value_dec fuel n : 0 <= n < 10 ^ Z.of_nat fuel -> dec_value 0 (dec fuel n) = n.
Proof.
  revert n; induction fuel as [|f IH]; intros n Hn; cbn [dec].
  - change (10 ^ Z.of_nat 0) with 1 in Hn. simpl. lia.
  - rewrite Nat2Z.inj_succ, Z.pow_succ_r in Hn by lia. pose proof (Z.div_mod n 10 ltac:(lia)).
    destruct (Z.eqb_spec (n / 10) 0); [unfold dec_value; simpl; lia|].
    unfold dec_value in *. rewrite foldl_app. simpl. rewrite IH; [lia|].
    split; [apply Z.div_pos; lia|]. apply Z.div_lt_upper_bound; lia.
Qed.

Lemma dec_length fuel n : 0 < n -> n < 10 ^ Z.of_nat fuel ->
  n_digits fuel n = Z.of_nat (length (dec fuel n)).
Proof.
  revert n; induction fuel as [|f IH]; intros n Hn Hlt; cbn [dec n_digits].
  - change (10 ^ Z.of_nat 0) with 1 in Hlt. lia.
  - rewrite Nat2Z.inj_succ, Z.pow_succ_r in Hlt by lia. destruct (Z.eqb_spec n 0); [lia|].
    pose proof (Z.div_pos n 10 ltac:(lia) ltac:(lia)). destruct (Z.eqb_spec (n / 10) 0) as [->|].
    + by destruct f.
    + rewrite IH, length_app; [simpl; lia|lia|]. apply Z.div_lt_upper_bound; lia.
Qed.

Lemma dec_length_le fuel n k : 0 <= n < 10 ^ Z.of_nat k -> (0 < k)%nat -> (length (dec fuel n) <= k)%nat.
Proof.
  revert n k; induction fuel as [|f IH]; intros n k Hn Hk; cbn [dec]; [simpl; lia|].
  destruct k as [|k]; [lia|]. rewrite Nat2Z.inj_succ, Z.pow_succ_r in Hn by lia.
  pose proof (Z.div_pos n 10 ltac:(lia) ltac:(lia)). destruct (Z.eqb_spec (n / 10) 0); [simpl; lia|].
  assert (n / 10 < 10 ^ Z.of_nat k) by (apply Z.div_lt_upper_bound; lia).
  destruct k as [|k]; [change (10 ^ Z.of_nat 0) with 1 in *; lia|].
  specialize (IH (n / 10) (S k) ltac:(lia) ltac:(lia)). rewrite length_app. simpl in *. lia.
Qed.

Lemma dec_value_mono l acc : Forall is_digit l -> 0 <= acc -> acc <= dec_value acc l.
Proof.
  intros Hl. revert acc; induction Hl as [|c l Hc Hl IH]; intros acc Hacc; simpl; [lia|].
  unfold is_digit in Hc. change (acc <= dec_value (acc * 10 + c - 48) l).
  specialize (IH (acc * 10 + c - 48)). lia.
Qed.

(** [atoi] reads a string of digits. *)
Lemma atoi_loop_ok fuel bad m p l acc sign :
  cstr m p l -> Forall is_digit l -> (length l < fuel)%nat ->
  0 <= acc -> dec_value acc l < 2 ^ 31 ->
  atoi_loop fuel bad p acc sign m = Ret (i32 (dec_value acc l * sign), m).
Proof.
  revert fuel p acc; induction l as [|c l IH]; intros [|f] p acc Hs Hd Hf Hacc Hv;
    simpl in Hf; try lia; cbn [atoi_loop].
  - by rewrite (bind_ret _ _ _ _ _ (ldc_ok _ _ _ Hs)).
  - destruct Hs as (Hc & Hl & Hs). apply Forall_cons_1 in Hd as [Hdc Hd]. unfold is_digit in Hdc.
    rewrite (bind_ret _ _ _ _ _ (ldc_ok _ _ _ Hl)), i8_small by lia.
    destruct (Z.eqb_spec c 0); [lia|]. destruct (Z.leb_spec 48 c); [|lia].
    destruct (Z.leb_spec c 57); [|lia]. simpl.
    change (dec_value acc (c :: l)) with (dec_value (acc * 10 + c - 48) l) in *.
    pose proof (dec_value_mono l (acc * 10 + c - 48) Hd ltac:(lia)).
    rewrite i32_small by lia. rewrite IH; [done|done|done|lia|lia|lia].
Qed.

(** [atoi] on a string of digits without a sign. *)
Lemma atoi_digits bad m p l :
  cstr m p l -> Forall is_digit l -> l <> [] -> dec_value 0 l < 2 ^ 31 ->
  atoi_gen bad p m = Ret (dec_value 0 l, m).
Proof.
  intros Hs Hd Hne Hv. pose proof (cstr_size _ _ _ Hs) as Hf. unfold atoi_gen, str_fuel, gets.
  destruct l as [|c l]; [done|]. pose proof Hs as (_ & Hl & _).
  pose proof Hd as [Hdc _]%Forall_cons_1. unfold is_digit in Hdc.
  rewrite (bind_ret _ _ _ _ _ (ldc_ok _ _ _ Hl)), (bind_ret _ _ _ _ _ eq_refl), i8_small by lia.
  destruct (Z.eqb_spec c 45); [lia|]. destruct (Z.eqb_spec c 43); [lia|].
  rewrite (atoi_loop_ok _ _ _ _ _ _ _ Hs); [|done|lia|lia|lia].
  pose proof (dec_value_mono (c :: l) 0 Hd ltac:(lia)).
  rewrite Z.mul_1_r, i32_small by lia. done.
Qed.

(** The text of an integer. *)
Definition int_text (val : Z) : list Z :=
  if val <? 0 then 45 :: dec 20 (- val) else dec 20 val.

Lemma atoi_text bad m p val :
  - 2 ^ 31 < val < 2 ^ 31 -> cstr m p (int_text val) -> atoi_gen bad p m = Ret (val, m).
Proof.
  intros Hval Hs. pose proof (cstr_size _ _ _ Hs) as Hf. unfold int_text in *.
  unfold atoi_gen, str_fuel, gets.
  assert (dec_value 0 (dec 20 (Z.abs val)) = Z.abs val) as Hv by (apply dec_value_dec; simpl; lia).
  pose proof (dec_digits 20 (Z.abs val)) as Hd. destruct (Z.ltb_spec val 0).
  - rewrite <- (Z.abs_neq val) in Hs, Hf by lia. destruct Hs as (_ & Hl & Hs).
    rewrite (bind_ret _ _ _ _ _ (ldc_ok _ _ _ Hl)), (bind_ret _ _ _ _ _ eq_refl). cbn [length] in Hf.
    change (i8 45 =? 45) with true. cbv iota. rewrite (atoi_loop_ok _ _ _ _ _ _ _ Hs); [|done|lia|lia|lia].
    rewrite Hv, i32_small by lia. f_equal. f_equal. lia.
  - rewrite Z.abs_eq in Hv, Hd by lia.
    change (atoi_gen bad p m = Ret (val, m)). rewrite (atoi_digits _ _ _ _ Hs Hd); [by rewrite Hv| |lia].
    apply dec_nonempty.
Qed.

Lemma write_bytes_snoc p l b m :
  write_bytes p (l ++ [b]) m = write_bytes p l (<[p + Z.of_nat (length l) := b]> m).
Proof.
  revert p m; induction l as [|c l IH]; intros p m; simpl.
  - by rewrite Z.add_0_r.
  - rewrite IH. f_equal. rewrite insert_insert_ne by lia. do 2 f_equal. lia.
Qed.

Lemma room_insert m p n a v : room m p n -> room (<[a := v]> m) p n.
Proof. intros H i Hi. rewrite lookup_insert. case_decide; [by eexists|auto]. Qed.

Lemma room_sub m p n q k : room m p n -> p <= q -> q + k <= p + n -> room m q k.
Proof.
  intros H Hq Hk i Hi. replace (q + i) with (p + (q - p + i)) by lia. apply H. lia.
Qed.

Lemma room_write m p n q l : room m p n -> room (write_bytes q l m) p n.
Proof.
  revert q m; induction l as [|b l IH]; intros q m H; simpl; [done|]. by apply IH, room_insert.
Qed.

Lemma put_digits_ok fuel m buf i n :
  (0 < fuel)%nat -> 0 <= n < 10 ^ Z.of_nat fuel ->
  let k := Z.of_nat (length (dec fuel n)) in
  room m (buf + i + 1 - k) k ->
  put_digits fuel buf i n m = Ret (i - k, write_bytes (buf + i + 1 - k) (dec fuel n) m).
Proof.
  revert m i n; induction fuel as [|f IH]; intros m i n Hf Hn k Hroom; [lia|].
  pose proof (Z.mod_pos_bound n 10 ltac:(lia)) as Hmod.
  pose proof (dec_nonempty f n) as Hne.
  assert (0 < k) as Hk0 by (unfold k; destruct (dec (S f) n); [done|simpl; lia]).
  assert (is_Some (m !! (buf + i))) as Hi.
  { replace (buf + i) with (buf + i + 1 - k + (k - 1)) by lia. apply Hroom. lia. }
  cbn [put_digits]. rewrite (bind_ret _ _ _ _ _ (st8_ok _ _ _ Hi)).
  assert (u8 (48 + n mod 10) = 48 + n mod 10) as -> by (apply Z.mod_small; lia).
  subst k. cbn [dec] in *. rewrite Nat2Z.inj_succ, Z.pow_succ_r in Hn by lia.
  destruct (Z.eqb_spec (n / 10) 0) as [H0|H0].
  - simpl. unfold mret, M_ret. do 4 f_equal. lia.
  - rewrite length_app in *. cbn [length] in *. rewrite write_bytes_snoc. rewrite IH.
    + f_equal. f_equal; [lia|]. f_equal; [lia|]. f_equal. lia.
    + destruct f; [|lia]. change (10 ^ Z.of_nat 0) with 1 in Hn. exfalso. apply H0, Z.div_small. lia.
    + split; [apply Z.div_pos; lia|]. apply Z.div_lt_upper_bound; lia.
    + apply room_insert. eapply room_sub; [done|lia|lia].
Qed.

Lemma itoa_spec m buf val :
  - 2 ^ 63 <= val < 2 ^ 63 -> room m buf (Z.of_nat (length (int_text val)) + 1) ->
  itoa buf val m = Ret (tt, write_bytes buf (int_text val ++ [0]) m).
Proof.
  intros Hval Hroom. unfold itoa. destruct (Z.eqb_spec val 0) as [->|Hnz].
  { change (int_text 0) with [48] in *. cbn [length] in Hroom.
    assert (is_Some (m !! buf)) as H0 by (rewrite <- (Z.add_0_r buf); apply Hroom; lia).
    rewrite (bind_ret _ _ _ _ _ (st8_ok _ _ _ H0)). apply st8_ok.
    apply (room_insert m buf 2); [done|lia]. }
  replace (if 0 <=? val then val else u64 (- val)) with (Z.abs val).
  2: { destruct (Z.leb_spec 0 val); [lia|]. rewrite u64_small; lia. }
  assert (Z.abs val < 10 ^ 20) as Hlt by lia. rewrite dec_length by (done || lia).
  set (ds := dec 20 (Z.abs val)) in *.
  assert (int_text val = if val <? 0 then 45 :: ds else ds) as Ht.
  { unfold int_text, ds. destruct (Z.ltb_spec val 0); do 2 f_equal; lia. }
  rewrite Ht in *. set (k := Z.of_nat (length ds)) in *. set (neg := val <? 0) in *.
  assert (Z.of_nat (length (if neg then 45 :: ds else ds)) = if neg then k + 1 else k) as Hlen.
  { unfold k. destruct neg; simpl; lia. }
  rewrite Hlen in Hroom. set (i := if neg then k + 1 else k) in *.
  assert (k <= i) as Hki by (subst i; destruct neg; lia).
  assert (0 <= k) as Hk0 by lia.
  rewrite (bind_ret _ _ _ _ _ (st8_ok _ _ _ (Hroom i ltac:(lia)))).
  change (u8 0) with 0.
  assert (room (<[buf + i := 0]> m) (buf + (i - 1) + 1 - k) k) as Hr2.
  { apply room_insert. eapply room_sub; [exact Hroom|lia|lia]. }
  rewrite (bind_ret _ _ _ _ _ (put_digits_ok 20 _ buf (i - 1) (Z.abs val) ltac:(lia) ltac:(lia) Hr2)).
  fold ds k. rewrite write_bytes_snoc, Hlen. subst i. destruct neg.
  - rewrite st8_ok.
    2: { apply (room_write _ buf (k + 1 + 1)); [by apply room_insert|lia]. }
    f_equal. f_equal. change (u8 45) with 45. cbn [write_bytes].
    apply map_eq. intros a. rewrite lookup_insert, !write_bytes_lookup, !lookup_insert.
    fold k. repeat case_decide; try lia; try done; do 2 f_equal; lia.
  - unfold mret, M_ret. do 3 f_equal. lia.
Qed.

(** C32: [atoi] inverts [itoa]: for every [int] except the least one, [itoa] writes at most
    11 characters and a terminator into the buffer and [atoi] reads the number back (in
    the kernel and, with its other error value, in the C library). *)
Theorem atoi_itoa bad m buf val :
  - 2 ^ 31 < val < 2 ^ 31 -> room m buf 12 ->
  exists m', itoa buf val m = Ret (tt, m') /\ atoi_gen bad buf m' = Ret (val, m') /\
    (forall x, ~ (buf <= x < buf + 12) -> m' !! x = m !! x).
Proof.
  intros Hval Hroom.
  assert (length (int_text val) <= 11)%nat as Hlen.
  { assert (length (dec 20 (Z.abs val)) <= 10)%nat as Hd by (apply dec_length_le; simpl; lia).
    unfold int_text. destruct (Z.ltb_spec val 0).
    - rewrite Z.abs_neq in Hd by lia. cbn [length]. lia.
    - rewrite Z.abs_eq in Hd by lia. lia. }
  exists (write_bytes buf (int_text val ++ [0]) m). split_and!.
  - apply itoa_spec; [lia|]. eapply room_sub; [exact Hroom|lia|lia].
  - apply atoi_text; [done|]. apply write_bytes_cstr.
    unfold int_text. destruct (val <? 0); [constructor; [lia|]|]; apply digits_chars, dec_digits.
  - intros x Hx. rewrite write_bytes_lookup, decide_False; [done|]. rewrite length_app. cbn [length]. lia.
Qed.

(** ** Octal numbers *)

(** The number whose decimal digits are the octal digits of [x]. *)
Fixpoint oct_dec (fuel : nat) (x : Z) : Z :=
  match fuel with O => 0 | S f => 10 * oct_dec f (x / 8) + x mod 8 end.

Lemma pow_loop_ok b a ans :
  0 <= a -> 0 <= ans -> ans * a ^ Z.of_nat b < 2 ^ 64 -> (1 <= a) ->
  pow_loop b a ans = ans * a ^ Z.of_nat b.
Proof.
  revert ans; induction b as [|b IH]; intros ans Ha Hans Hlt H1; simpl; [lia|].
  rewrite Nat2Z.inj_succ, Z.pow_succ_r in * by lia.
  pose proof (Z.pow_pos_nonneg a (Z.of_nat b) ltac:(lia) ltac:(lia)).
  rewrite u64_small by nia. rewrite IH; nia.
Qed.

Lemma pow_8 i : 0 <= i <= 20 -> pow 8 i = 8 ^ i.
Proof.
  intros Hi. unfold pow. rewrite pow_loop_ok; rewrite ?Z2Nat.id; try lia.
  change (2 ^ 64) with (8 ^ 21 * 2). pose proof (Z.pow_le_mono_r 8 i 20). lia.
Qed.

Lemma oct_dec_bound fuel x : 0 <= x < 8 ^ Z.of_nat fuel -> 0 <= oct_dec fuel x < 10 ^ Z.of_nat fuel.
Proof.
  revert x; induction fuel as [|f IH]; intros x Hx; cbn [oct_dec]; [simpl; lia|].
  rewrite Nat2Z.inj_succ, Z.pow_succ_r in * by lia.
  pose proof (Z.mod_pos_bound x 8 ltac:(lia)).
  specialize (IH (x / 8) (conj (Z.div_pos x 8 ltac:(lia) ltac:(lia))
    (Z.div_lt_upper_bound x 8 (8 ^ Z.of_nat f) ltac:(lia) ltac:(lia)))). lia.
Qed.

Lemma o_to_d_loop_ok fuel x i ans :
  0 <= i -> i + Z.of_nat fuel <= 20 -> 0 <= x < 8 ^ Z.of_nat fuel ->
  0 <= ans -> ans + x * 8 ^ i < 2 ^ 31 ->
  o_to_d_loop fuel (oct_dec fuel x) i ans = Ret (ans + x * 8 ^ i).
Proof.
  revert x i ans; induction fuel as [|f IH]; intros x i ans Hi Hlim Hx Hans Hlt.
  - change (8 ^ Z.of_nat 0) with 1 in Hx. assert (x = 0) as -> by lia. simpl. f_equal. lia.
  - rewrite Nat2Z.inj_succ, Z.pow_succ_r in Hx by lia.
    pose proof (Z.mod_pos_bound x 8 ltac:(lia)) as Hm. pose proof (Z.div_mod x 8 ltac:(lia)) as Hd.
    assert (0 <= x / 8 < 8 ^ Z.of_nat f) as Hq.
    { split; [apply Z.div_pos; lia|]. apply Z.div_lt_upper_bound; lia. }
    pose proof (oct_dec_bound f (x / 8) Hq) as Hb.
    pose proof (Z.pow_pos_nonneg 8 i ltac:(lia) ltac:(lia)) as Hp8.
    cbn [o_to_d_loop oct_dec]. destruct (Z.ltb_spec 0 (10 * oct_dec f (x / 8) + x mod 8)) as [Hpos|Hz].
    + assert (Z.rem (10 * oct_dec f (x / 8) + x mod 8) 10 = x mod 8) as Hr.
      { symmetry. apply Z.rem_unique with (q := oct_dec f (x / 8)); lia. }
      assert (Z.quot (10 * oct_dec f (x / 8) + x mod 8) 10 = oct_dec f (x / 8)) as Hqq.
      { symmetry. apply Z.quot_unique with (r := x mod 8); lia. }
      rewrite Hr, Hqq, pow_8 by lia. rewrite (u64_small (x mod 8 * 8 ^ i)) by nia.
      rewrite u64_small, i32_small by nia. rewrite IH by (rewrite ?Z.pow_add_r by lia; nia || lia).
      f_equal. rewrite Z.pow_add_r by lia. nia.
    + assert (x mod 8 = 0 /\ oct_dec f (x / 8) = 0) as [Hx0 Ho] by lia.
      specialize (IH (x / 8) i ans Hi ltac:(lia) Hq Hans ltac:(nia)). rewrite Ho in IH.
      destruct f; simpl in IH; injection IH as IH; f_equal; nia.
Qed.

(** [o_to_d] recovers a number below [8 ^ 9] from its octal digits read in decimal. *)
Lemma o_to_d_ok x : 0 <= x < 8 ^ 9 -> o_to_d (oct_dec 10 x) = Ret x.
Proof.
  intros Hx. unfold o_to_d. rewrite o_to_d_loop_ok; [f_equal; lia|lia|lia|simpl; lia|lia|lia].
Qed.

(** ** [memset] and [memcpy] *)

Definition byte_range (m : bytes) : Prop := forall a b, m !! a = Some b -> 0 <= b < 256.

Lemma memset_ok m a v n :
  0 <= n -> room m a n ->
  exists m', memset a v n m = Ret (a, m') /\
    forall x, m' !! x = if decide (a <= x < a + n) then Some (u8 v) else m !! x.
Proof.
  intros Hn Hroom.
  destruct (for_loop_ind (fun k t => forall x, t !! x = if decide (a <= x < a + k) then Some (u8 v) else m !! x)
    (fun i => st8 (a + i) v) (Z.to_nat n) 0 m) as (m' & Hrun & Hm').
  - intros x. by rewrite decide_False by lia.
  - intros k t Hk Ht. eexists. split.
    + apply st8_ok. rewrite Ht. case_decide; [by eexists|]. apply Hroom. lia.
    + intros x. rewrite lookup_insert, Ht. repeat case_decide; try lia; done.
  - exists m'. unfold memset. rewrite (bind_ret _ _ _ _ _ Hrun). split; [done|].
    intros x. rewrite Hm'. by replace (0 + Z.of_nat (Z.to_nat n)) with n by lia.
Qed.

(** On disjoint mapped regions [memcpy] copies and changes nothing else. *)
Lemma memcpy_ok m d s n :
  0 <= n -> byte_range m -> room m d n -> room m s n -> disjoint_regions d n s n ->
  exists m', memcpy d s n m = Ret (d, m') /\
    forall x, m' !! x = if decide (d <= x < d + n) then m !! (s + (x - d)) else m !! x.
Proof.
  intros Hn Hb Hd Hs Hdis. unfold disjoint_regions in Hdis.
  destruct (for_loop_ind (fun k t => forall x, t !! x =
      if decide (d <= x < d + k) then m !! (s + (x - d)) else m !! x)
    (fun i => b ← ld8 (s + i); st8 (d + i) b) (Z.to_nat n) 0 m) as (m' & Hrun & Hm').
  - intros x. by rewrite decide_False by lia.
  - intros k t Hk Ht. destruct (Hs k ltac:(lia)) as [b Hsk]. pose proof (Hb _ _ Hsk) as Hbr.
    assert (t !! (s + k) = Some b) as Htk by (rewrite Ht, decide_False by lia; done).
    eexists. split.
    + unfold ld8, mbind, M_bind. rewrite Htk. apply st8_ok.
      rewrite Ht, decide_False by lia. apply Hd. lia.
    + intros x. rewrite lookup_insert, Ht. unfold u8. rewrite Z.mod_small by lia.
      destruct (decide (d + k = x)) as [<-|].
      * rewrite decide_True by lia. rewrite <- Hsk. f_equal. lia.
      * repeat case_decide; try lia; done.
  - exists m'. unfold memcpy. rewrite (bind_ret _ _ _ _ _ Hrun). split; [done|].
    intros x. rewrite Hm'. by replace (0 + Z.of_nat (Z.to_nat n)) with n by lia.
Qed.

(** ** A concrete memory: two strings and a buffer *)

(** "ab" at 100 followed by free bytes, "cd" at 200. *)
Definition demo_bytes : bytes :=
  write_bytes 100 [97; 98; 0; 0; 0; 0; 0; 0; 0; 0; 0; 0] (write_bytes 200 [99; 100; 0] ∅).

Lemma demo_room : room demo_bytes 100 12.
Proof.
  intros i Hi. unfold demo_bytes. rewrite write_bytes_lookup, decide_True by (simpl; lia).
  apply lookup_lt_is_Some_2. simpl. lia.
Qed.

Lemma demo_ab : cstr demo_bytes 100 [97; 98].
Proof. by apply cstrb_sound. Qed.

Lemma demo_cd : cstr demo_bytes 200 [99; 100].
Proof. by apply cstrb_sound. Qed.

Lemma strcat_appends_witness :
  exists m', strcat 100 200 demo_bytes = Ret (100, m') /\ cstr m' 100 [97; 98; 99; 100].
Proof.
  destruct (strcat_appends demo_bytes 100 200 [97; 98] [99; 100] demo_ab demo_cd) as (m' & H1 & H2 & _).
  - eapply room_sub; [exact demo_room|simpl; lia..].
  - left. simpl. lia.
  - exists m'. split; [exact H1|exact H2].
Defined.

Lemma kstrcmp_decides_witness :
  exists d, kstrcmp 100 200 demo_bytes = Ret (d, demo_bytes) /\ d <> 0.
Proof.
  destruct (kstrcmp_decides demo_bytes 100 200 [97; 98] [99; 100] demo_ab demo_cd) as (d & H1 & H2).
  exists d. split; [exact H1|]. rewrite H2. congruence.
Defined.

Lemma atoi_itoa_witness :
  exists m', itoa 100 (-2017) demo_bytes = Ret (tt, m') /\ atoi_gen 0 100 m' = Ret (-2017, m').
Proof.
  destruct (atoi_itoa 0 demo_bytes 100 (-2017) ltac:(lia) demo_room) as (m' & H1 & H2 & _).
  exists m'. split; [exact H1|exact H2].
Defined.
