(* ===== verification/Console.v ===== *)
(** * The text console ([sys/kprintf.c])

    The screen is 24 rows of 80 cells (a character and a colour byte) in the byte memory
    at [VIDEO_BASE_ADDRESS]; row 24 below it is a status line.  The state is the memory and
    the cursor; the variadic arguments of a call ([args]) are a list handed down.
    Local buffers are memories of their own, so that an index outside a buffer is
    a [Fault]. *)

From S2P Require Import Prelude CStr.

Definition VIDEO_BASE_ADDRESS : Z := 0xffffffff800b8000.
Definition VIDEO_MEM_ROWS : Z := 24.
Definition VIDEO_MEM_COLUMNS : Z := 80.
Definition DEFAULT_COLOR : Z := 7.

Record console := Console {
  mem : bytes;
  currentRow : Z;
  currentColumn : Z
}.

Definition set_mem (m : bytes) (s : console) : console :=
  Console m (currentRow s) (currentColumn s).
Definition set_row (r : Z) (s : console) : console :=
  Console (mem s) r (currentColumn s).
Definition set_col (c : Z) (s : console) : console :=
  Console (mem s) (currentRow s) c.

Definition on_mem {A} (c : M bytes A) : M console A := zoom mem set_mem c.

Definition getAddress (row column : Z) : Z :=
  u64 (VIDEO_BASE_ADDRESS + 2 * (VIDEO_MEM_COLUMNS * row + column)).

Definition resetVideoMemory (initValue color : Z) : M bytes unit :=
  for_loop (Z.to_nat VIDEO_MEM_ROWS) 0 (fun i =>
    for_loop (Z.to_nat VIDEO_MEM_COLUMNS) 0 (fun j =>
      let address := getAddress i j in
      st8 address initValue ≫= fun _ => st8 (address + 1) color)).

(** The cursor leaves the last row. *)
Definition wrap_screen : M console unit :=
  modify (set_row 0) ≫= fun _ =>
  on_mem (memcpy (getAddress 0 0) (getAddress (VIDEO_MEM_ROWS / 2) (VIDEO_MEM_COLUMNS / 2))
            (VIDEO_MEM_ROWS * VIDEO_MEM_COLUMNS)) ≫= fun _ =>
  on_mem (resetVideoMemory 32 DEFAULT_COLOR).

Definition next_row : M console unit :=
  row ← gets currentRow;
  (if row =? VIDEO_MEM_ROWS - 1 then wrap_screen
   else modify (set_row (u64 (row + 1)))) ≫= fun _ =>
  modify (set_col 0).

Definition printChar (c : Z) : M console unit :=
  if c =? 10 then next_row else
  row ← gets currentRow; col ← gets currentColumn;
  on_mem (st8 (getAddress row col) c) ≫= fun _ =>
  if col =? VIDEO_MEM_COLUMNS - 1 then next_row
  else modify (set_col (u64 (col + 1))).

(** [rd] reads the character at a pointer: in memory, or in a local buffer. *)
Fixpoint printString_loop (fuel : nat) (rd : Z -> M console Z) (c : Z) : M console unit :=
  match fuel with
  | O => mfuel
  | S f => ch ← rd c;
           if ch =? 0 then mret tt
           else printChar ch ≫= fun _ => printString_loop f rd (c + 1)
  end.

Definition printString (c : Z) : M console unit :=
  fuel ← on_mem str_fuel; printString_loop fuel (fun p => on_mem (ldc p)) c.

(** A local array of [n] bytes; [c] fills it and returns the index to print from. *)
Definition local_array (n : nat) : bytes := write_bytes 0 (replicate n 0) ∅.

Definition rd_local (b : bytes) (p : Z) : M console Z :=
  match ldc p b with Ret (ch, _) => mret ch | Fault => mfault | OutOfFuel => mfuel end.

Definition with_array (n : nat) (c : M bytes Z) : M console unit :=
  match c (local_array n) with
  | Ret (p, b) => printString_loop (S n) (rd_local b) p
  | Fault => mfault
  | OutOfFuel => mfuel
  end.

Definition mod_ (x : Z) : Z := if 0 <? x then x else u64 (- x).

(** [x] is unsigned: [x < 0] is never true. *)
Definition printLong (x : Z) : M console unit :=
  with_array 66 (
    st8 65 0 ≫= fun _ =>
    i ← put_digits 20 0 64 (mod_ x);
    if x <? 0 then st8 i 45 ≫= fun _ => mret i else mret (i + 1)).

Definition hex_char (remain : Z) : Z := if remain <? 10 then 48 + remain else 65 + (remain - 10).

Fixpoint put_hex (fuel : nat) (i numCopy : Z) : M bytes Z :=
  match fuel with
  | O => mfuel
  | S f =>
      st8 i (hex_char (numCopy mod 16)) ≫= fun _ =>
      let numCopy := Z.shiftr numCopy 4 in
      if numCopy =? 0 then mret (i - 1) else put_hex f (i - 1) numCopy
  end.

Definition printHex (x include_prefix : Z) : M console unit :=
  with_array 19 (
    st8 18 0 ≫= fun _ =>
    i ← put_hex 16 17 (mod_ x);
    if include_prefix =? 0 then mret (i + 1) else
    st8 i 120 ≫= fun _ => st8 (i - 1) 48 ≫= fun _ => mret (i - 1)).

(** ** Formats *)

Inductive format_type := STRING | INT | HEX | VOID | CHAR.

(** [printSpecial] takes the next of the variadic arguments [va], a 64-bit slot, and returns
    the others. *)
Definition printSpecial (ft : format_type) (va : list Z) : M console (list Z) :=
  match va with
  | [] => mfault
  | v :: va' =>
      (match ft with
       | STRING => printString v
       | INT => printLong (u64 (i32 v))
       | HEX => printHex v 0
       | VOID => printHex v 1
       | CHAR => printChar (i8 v)
       end) ≫= fun _ => mret va'
  end.

Definition format_of (c : Z) : option format_type :=
  if c =? 99 then Some CHAR
  else if c =? 115 then Some STRING
  else if c =? 100 then Some INT
  else if c =? 120 then Some HEX
  else if c =? 112 then Some VOID
  else None.

Fixpoint kprintf_loop (fuel : nat) (c : Z) (va : list Z) : M console unit :=
  match fuel with
  | O => mfuel
  | S f =>
      ch ← on_mem (ldc c);
      if ch =? 0 then mret tt else
      if ch =? 37 then
        ch' ← on_mem (ldc (c + 1));
        match format_of ch' with
        | Some ft => va' ← printSpecial ft va; kprintf_loop f (c + 2) va'
        | None => kprintf_loop f (c + 1) va
        end
      else printChar ch ≫= fun _ => kprintf_loop f (c + 1) va
  end.

Definition kprintf (fmt : Z) (va : list Z) : M console unit :=
  fuel ← on_mem str_fuel; kprintf_loop fuel fmt va.

(** ** The clock and the backspace key *)

(** [do { buf[i--] = 48 + v % 10; v /= 10; } while (v)] of [printTime]; [v] is an [int]. *)
Definition printTime (x : Z) : M console unit :=
  let x := x / 100 in
  let time_address := getAddress VIDEO_MEM_ROWS (VIDEO_MEM_COLUMNS - 40) in
  on_mem (for_loop 40 0 (fun j =>
    st8 (time_address + 2 * j) 32 ≫= fun _ => st8 (time_address + 2 * j + 1) 7)) ≫= fun _ =>
  let hh := i32 (x / 3600) in
  let mm := i32 (x / 60 mod 60) in
  let ss := i32 (x mod 60) in
  let text : M bytes Z :=
    st8 0 0 ≫= fun _ => st8 (-1) 115 ≫= fun _ =>
    i ← put_digits 20 0 (-2) ss;
    st8 i 32 ≫= fun _ => st8 (i - 1) 58 ≫= fun _ => st8 (i - 2) 32 ≫= fun _ =>
    st8 (i - 3) 109 ≫= fun _ =>
    i ← put_digits 20 0 (i - 4) mm;
    st8 i 32 ≫= fun _ => st8 (i - 1) 58 ≫= fun _ => st8 (i - 2) 32 ≫= fun _ =>
    st8 (i - 3) 104 ≫= fun _ =>
    i ← put_digits 20 0 (i - 4) hh;
    mret (i + 1) in
  match text (local_array 24) with
  | Ret (p, b) =>
      let label := [84; 105; 109; 101; 32; 115; 105; 110; 99; 101; 32; 98; 111; 111; 116; 58; 32] in
      on_mem (for_loop 17 0 (fun k =>
        st8 (time_address + 2 * k) (default 0 (label !! Z.to_nat k)))) ≫= fun _ =>
      (fix show (fuel : nat) (c address : Z) : M console unit :=
         match fuel with
         | O => mfuel
         | S f => ch ← rd_local b c;
                  if ch =? 0 then mret tt
                  else on_mem (st8 address ch) ≫= fun _ => show f (c + 1) (address + 2)
         end) 25%nat p (time_address + 34)
  | Fault => mfault
  | OutOfFuel => mfuel
  end.

Definition handle_video_mem_backspace : M console unit :=
  row ← gets currentRow; col ← gets currentColumn;
  if (col =? 0) && (row =? 0) then mret tt else
  (if col =? 0 then
     modify (set_col (VIDEO_MEM_COLUMNS - 1)) ≫= fun _ => modify (set_row (u64 (row - 1)))
   else modify (set_col (u64 (col - 1)))) ≫= fun _ =>
  row' ← gets currentRow; col' ← gets currentColumn;
  on_mem (st8 (getAddress row' col') 32).

#[global] Arguments on_mem : simpl never.
#[global] Arguments getAddress : simpl never.

(** ** The invariant *)

(** Cells below row 24. *)
Definition SCREEN : Z := 2 * (VIDEO_MEM_COLUMNS * VIDEO_MEM_ROWS).

(** The cursor is on the screen, the video memory (with the status line) is mapped, and
    bytes are bytes. *)
Record con_inv (s : console) : Prop := {
  ci_row : 0 <= currentRow s < VIDEO_MEM_ROWS;
  ci_col : 0 <= currentColumn s < VIDEO_MEM_COLUMNS;
  ci_video : room (mem s) VIDEO_BASE_ADDRESS (SCREEN + 160);
  ci_bytes : byte_range (mem s)
}.

(** Only the screen differs between two memories. *)
Definition screen_only (m m' : bytes) : Prop :=
  forall a, ~ (VIDEO_BASE_ADDRESS <= a < VIDEO_BASE_ADDRESS + SCREEN) -> m' !! a = m !! a.

#[export] Instance screen_only_preorder : PreOrder screen_only.
Proof.
  split; [done|]. intros m1 m2 m3 H1 H2 a Ha. by rewrite H2, H1.
Qed.

(** A step of the console: the invariant is kept, only the screen changes, and no
    address is mapped or unmapped. *)
Record con_step (s s' : console) : Prop := {
  cs_inv : con_inv s';
  cs_only : screen_only (mem s) (mem s');
  cs_dom : forall a, is_Some (mem s !! a) -> is_Some (mem s' !! a)
}.

Lemma con_step_trans s1 s2 s3 : con_step s1 s2 -> con_step s2 s3 -> con_step s1 s3.
Proof.
  intros [I1 O1 D1] [I2 O2 D2]. split; [done|by etransitivity|auto].
Qed.

Lemma con_step_refl s : con_inv s -> con_step s s.
Proof. intros H. by split. Qed.

Lemma getAddress_eq row col :
  0 <= row <= VIDEO_MEM_ROWS -> 0 <= col < VIDEO_MEM_COLUMNS ->
  getAddress row col = VIDEO_BASE_ADDRESS + 2 * (VIDEO_MEM_COLUMNS * row + col).
Proof.
  intros Hr Hc. unfold VIDEO_MEM_ROWS, VIDEO_MEM_COLUMNS in *. apply u64_small.
  unfold VIDEO_BASE_ADDRESS, VIDEO_MEM_COLUMNS. lia.
Qed.

Lemma byte_range_insert m a v : byte_range m -> byte_range (<[a := u8 v]> m).
Proof.
  intros H b x. rewrite lookup_insert. case_decide; [|apply H].
  intros [= <-]. apply Z.mod_pos_bound. lia.
Qed.

(** Writing a byte of the screen. *)
Lemma screen_write s a v row col :
  con_inv s -> VIDEO_BASE_ADDRESS <= a < VIDEO_BASE_ADDRESS + SCREEN ->
  0 <= row < VIDEO_MEM_ROWS -> 0 <= col < VIDEO_MEM_COLUMNS ->
  st8 a v (mem s) = Ret (tt, <[a := u8 v]> (mem s)) /\
  con_step s (Console (<[a := u8 v]> (mem s)) row col).
Proof.
  intros [Hr Hc Hv Hb] Ha Hrow Hcol. split.
  - apply st8_ok. replace a with (VIDEO_BASE_ADDRESS + (a - VIDEO_BASE_ADDRESS)) by lia.
    apply Hv. lia.
  - split; simpl.
    + split; simpl; [done|done|by apply room_insert|by apply byte_range_insert].
    + intros b Hb'. apply lookup_insert_ne. lia.
    + intros b Hb'. rewrite lookup_insert. case_decide; [by eexists|done].
Qed.

(** ** Clearing the screen *)

(** The first [n] cells hold [x] in colour [y]. *)
Definition cleared (x y n : Z) (m t : bytes) : Prop :=
  forall a, t !! a = if decide (VIDEO_BASE_ADDRESS <= a < VIDEO_BASE_ADDRESS + 2 * n)
    then Some (if Z.even (a - VIDEO_BASE_ADDRESS) then u8 x else u8 y) else m !! a.

Lemma clear_cell x y n m t :
  room m VIDEO_BASE_ADDRESS SCREEN -> 0 <= n < 1920 -> cleared x y n m t ->
  exists t', (st8 (VIDEO_BASE_ADDRESS + 2 * n) x ≫= fun _ =>
              st8 (VIDEO_BASE_ADDRESS + 2 * n + 1) y) t = Ret (tt, t') /\
    cleared x y (n + 1) m t'.
Proof.
  intros Hroom Hn Ht.
  assert (forall a, VIDEO_BASE_ADDRESS <= a < VIDEO_BASE_ADDRESS + SCREEN -> is_Some (t !! a)) as Hm.
  { intros a Ha. rewrite Ht. case_decide; [by eexists|].
    replace a with (VIDEO_BASE_ADDRESS + (a - VIDEO_BASE_ADDRESS)) by lia. apply Hroom. lia. }
  change SCREEN with 3840 in Hm. eexists. split.
  { rewrite (bind_ret _ _ _ _ _ (st8_ok _ _ _ (Hm (VIDEO_BASE_ADDRESS + 2 * n) ltac:(lia)))).
    apply st8_ok. rewrite lookup_insert. case_decide; [by eexists|]. apply Hm. lia. }
  intros a. rewrite !lookup_insert, Ht.
  destruct (decide (VIDEO_BASE_ADDRESS + 2 * n + 1 = a)) as [<-|].
  { rewrite decide_True by lia. replace (_ - _) with (1 + 2 * n) by lia.
    by rewrite Z.even_add_mul_2. }
  destruct (decide (VIDEO_BASE_ADDRESS + 2 * n = a)) as [<-|].
  { rewrite decide_True by lia. replace (_ - _) with (0 + 2 * n) by lia.
    by rewrite Z.even_add_mul_2. }
  repeat case_decide; try lia; done.
Qed.

Lemma resetVideoMemory_ok m x y :
  room m VIDEO_BASE_ADDRESS SCREEN ->
  exists m', resetVideoMemory x y m = Ret (tt, m') /\ cleared x y 1920 m m'.
Proof.
  intros Hroom. unfold resetVideoMemory.
  destruct (for_loop_ind (fun i => cleared x y (80 * i) m) (fun i =>
    for_loop (Z.to_nat VIDEO_MEM_COLUMNS) 0 (fun j =>
      let address := getAddress i j in
      st8 address x ≫= fun _ => st8 (address + 1) y)) (Z.to_nat VIDEO_MEM_ROWS) 0 m) as (m' & Hrun & Hm').
  - intros a. by rewrite decide_False by lia.
  - intros i t Hi Ht. destruct (for_loop_ind (fun j => cleared x y (80 * i + j) m) (fun j =>
      let address := getAddress i j in
      st8 address x ≫= fun _ => st8 (address + 1) y) (Z.to_nat VIDEO_MEM_COLUMNS) 0 t) as (t' & Hrun & Ht').
    + by rewrite Z.add_0_r.
    + intros j u Hj Hu. change (Z.of_nat (Z.to_nat VIDEO_MEM_COLUMNS)) with 80 in Hj.
      change (Z.of_nat (Z.to_nat VIDEO_MEM_ROWS)) with 24 in Hi.
      cbv zeta. rewrite getAddress_eq by (unfold VIDEO_MEM_ROWS, VIDEO_MEM_COLUMNS; lia).
      change VIDEO_MEM_COLUMNS with 80.
      destruct (clear_cell x y (80 * i + j) m u) as (u' & Hr & Hu'); [done|lia|done|].
      exists u'. split; [exact Hr|]. by rewrite Z.add_assoc.
    + exists t'. split; [done|]. by replace (80 * (i + 1)) with (80 * i + (0 + 80)) by lia.
  - exists m'. split; [exact Hrun|exact Hm'].
Qed.

Lemma wrap_screen_ok s :
  con_inv s ->
  exists m', wrap_screen s = Ret (tt, Console m' 0 (currentColumn s)) /\
    cleared 32 DEFAULT_COLOR 1920 (mem s) m' /\ con_step s (Console m' 0 (currentColumn s)).
Proof.
  intros Hinv. pose proof Hinv as [Hr Hc Hv Hb].
  destruct (memcpy_ok (mem s) VIDEO_BASE_ADDRESS (VIDEO_BASE_ADDRESS + 2000) 1920)
    as (m1 & Hr1 & Hm1); [lia|done|eapply room_sub; [exact Hv|lia|by vm_compute]..|red; lia|].
  assert (forall a, is_Some (mem s !! a) -> is_Some (m1 !! a)) as Hd1.
  { intros a Ha. rewrite Hm1. case_decide; [|done].
    replace (_ + _) with (VIDEO_BASE_ADDRESS + (2000 + (a - VIDEO_BASE_ADDRESS))) by lia.
    apply Hv. change (SCREEN + 160) with 4000. lia. }
  destruct (resetVideoMemory_ok m1 32 DEFAULT_COLOR) as (m2 & Hr2 & Hm2).
  { intros i Hi. apply Hd1, Hv. change SCREEN with 3840 in *. lia. }
  assert (cleared 32 DEFAULT_COLOR 1920 (mem s) m2) as Hcl.
  { intros a. rewrite Hm2, Hm1. repeat case_decide; try lia; done. }
  exists m2. split_and!; [|done|].
  - unfold wrap_screen, modify. rewrite (bind_ret _ _ _ _ _ eq_refl).
    rewrite (bind_ret _ _ _ VIDEO_BASE_ADDRESS (set_mem m1 (set_row 0 s))) by (by apply zoom_ret).
    exact (zoom_ret mem set_mem _ (set_mem m1 (set_row 0 s)) tt m2 Hr2).
  - assert (forall a, is_Some (mem s !! a) -> is_Some (m2 !! a)) as Hd2.
    { intros a Ha. rewrite Hcl. case_decide; [by eexists|done]. }
    split; simpl; [split; simpl; [by vm_compute|done|by intros i Hi; apply Hd2, Hv|]| |done].
    + intros a b. rewrite Hcl. case_decide; [|apply Hb]. intros [= <-].
      destruct (Z.even _); by vm_compute.
    + intros a Ha. rewrite Hcl, decide_False; [done|]. exact Ha.
Qed.

(** ** Printing characters *)

Lemma next_row_ok s :
  con_inv s ->
  exists s', next_row s = Ret (tt, s') /\ con_step s s' /\ currentColumn s' = 0 /\
    (currentRow s < VIDEO_MEM_ROWS - 1 -> s' = Console (mem s) (currentRow s + 1) 0) /\
    (currentRow s = VIDEO_MEM_ROWS - 1 ->
       currentRow s' = 0 /\ cleared 32 DEFAULT_COLOR 1920 (mem s) (mem s')).
Proof.
  intros Hinv. pose proof Hinv as [Hr Hc Hv Hb].
  unfold next_row, gets. rewrite (bind_ret _ _ _ _ _ eq_refl).
  destruct (Z.eqb_spec (currentRow s) (VIDEO_MEM_ROWS - 1)) as [Heq|Hne].
  - destruct (wrap_screen_ok s Hinv) as (m' & Hrun & Hcl & [[_ _ Hv' Hb'] Ho Hd]).
    rewrite (bind_ret _ _ _ _ _ Hrun). eexists. split_and!; [done| |done|lia|done].
    split; [split; [by vm_compute|by vm_compute|done|done]|done|done].
  - rewrite (bind_ret _ _ _ _ _ eq_refl). unfold modify, set_row, set_col. simpl.
    rewrite u64_small by (unfold VIDEO_MEM_ROWS in *; lia).
    eexists. split_and!; [done| |done|done|lia].
    split; [split; simpl; [lia|by vm_compute|done|done]|done|done].
Qed.

(** The linear position of the cursor. *)
Definition pos (s : console) : Z := VIDEO_MEM_COLUMNS * currentRow s + currentColumn s.

Lemma cursor_address s :
  con_inv s -> getAddress (currentRow s) (currentColumn s) = VIDEO_BASE_ADDRESS + 2 * pos s /\
  VIDEO_BASE_ADDRESS <= VIDEO_BASE_ADDRESS + 2 * pos s < VIDEO_BASE_ADDRESS + SCREEN.
Proof.
  intros [Hr Hc _ _]. rewrite getAddress_eq by lia. unfold pos, SCREEN, VIDEO_MEM_COLUMNS, VIDEO_MEM_ROWS in *.
  split; [done|lia].
Qed.

Lemma printChar_ok s c :
  con_inv s ->
  exists s', printChar c s = Ret (tt, s') /\ con_step s s' /\
    (c <> 10 -> pos s + 1 < VIDEO_MEM_COLUMNS * VIDEO_MEM_ROWS ->
       pos s' = pos s + 1 /\ mem s' = <[VIDEO_BASE_ADDRESS + 2 * pos s := u8 c]> (mem s)).
Proof.
  intros Hinv. unfold printChar. destruct (Z.eqb_spec c 10) as [->|Hc].
  { destruct (next_row_ok s Hinv) as (s' & Hrun & Hs & _). by exists s'. }
  destruct (cursor_address s Hinv) as [Ha Hin]. pose proof Hinv as [Hr Hcol _ _].
  destruct (screen_write s (VIDEO_BASE_ADDRESS + 2 * pos s) c (currentRow s) (currentColumn s))
    as [Hw Hs]; [done..|].
  unfold gets. rewrite !(bind_ret _ _ _ _ _ eq_refl). rewrite Ha.
  set (s1 := Console (<[VIDEO_BASE_ADDRESS + 2 * pos s := u8 c]> (mem s)) (currentRow s) (currentColumn s)) in *.
  rewrite (bind_ret _ _ _ tt s1) by exact (zoom_ret mem set_mem _ s tt _ Hw).
  destruct (Z.eqb_spec (currentColumn s) (VIDEO_MEM_COLUMNS - 1)) as [Hlast|Hlast].
  - destruct (next_row_ok s1) as (s' & Hrun & Hs' & Hcol' & Hnext & _); [apply Hs|].
    exists s'. split_and!; [done|by eapply con_step_trans|]. intros _ Hpos.
    assert (currentRow s < VIDEO_MEM_ROWS - 1) as Hlt
      by (unfold pos, VIDEO_MEM_COLUMNS, VIDEO_MEM_ROWS in *; lia).
    rewrite (Hnext Hlt). split; [|done]. unfold pos. simpl. unfold VIDEO_MEM_COLUMNS in *. lia.
  - unfold modify, set_col. simpl. rewrite u64_small by (unfold VIDEO_MEM_COLUMNS in *; lia).
    eexists. split_and!; [done| |].
    + destruct Hs as [[_ _ Hv Hb] Ho Hd]. split; [|done|done]. split; simpl; [done|lia|done|done].
    + intros _ _. split; [|done]. unfold pos. simpl. lia.
Qed.

(** Printing a list of characters. *)
Fixpoint print_chars (l : list Z) : M console unit :=
  match l with [] => mret tt | c :: l' => printChar c ≫= fun _ => print_chars l' end.

Lemma print_chars_app l1 l2 s s' :
  print_chars l1 s = Ret (tt, s') -> print_chars (l1 ++ l2) s = print_chars l2 s'.
Proof.
  revert s; induction l1 as [|c l1 IH]; intros s; [by intros [= ->]|].
  cbn [print_chars app]. unfold mbind, M_bind. destruct (printChar c s) as [[[] t]| |]; [|done..].
  apply IH.
Qed.

Lemma print_chars_ok l s :
  con_inv s -> exists s', print_chars l s = Ret (tt, s') /\ con_step s s'.
Proof.
  revert s; induction l as [|c l IH]; intros s Hinv.
  - exists s. split; [done|by apply con_step_refl].
  - destruct (printChar_ok s c Hinv) as (s1 & Hr1 & Hs1 & _).
    destruct (IH s1) as (s2 & Hr2 & Hs2); [apply Hs1|].
    exists s2. split; [|by eapply con_step_trans]. cbn [print_chars]. by rewrite (bind_ret _ _ _ _ _ Hr1).
Qed.

(** text goes where the cursor is: a string without newlines that fits before the end of
    the screen is stored, character by character, in consecutive cells from the
    cursor on; the cursor moves behind it and no other byte of memory changes. *)
Theorem print_chars_linear l s :
  con_inv s -> Forall (fun c => c <> 10) l ->
  pos s + Z.of_nat (length l) < VIDEO_MEM_COLUMNS * VIDEO_MEM_ROWS ->
  exists s', print_chars l s = Ret (tt, s') /\ con_inv s' /\ pos s' = pos s + Z.of_nat (length l) /\
    (forall i c, l !! i = Some c -> mem s' !! (VIDEO_BASE_ADDRESS + 2 * (pos s + Z.of_nat i)) = Some (u8 c)) /\
    (forall a, (forall i, (i < length l)%nat -> a <> VIDEO_BASE_ADDRESS + 2 * (pos s + Z.of_nat i)) ->
       mem s' !! a = mem s !! a).
Proof.
  intros Hinv Hl. revert s Hinv; induction Hl as [|c l Hc Hl IH]; intros s Hinv Hfit.
  { exists s. split_and!; [done|done|simpl; lia|done|done]. }
  cbn [length] in *.
  destruct (printChar_ok s c Hinv) as (s1 & Hr1 & Hs1 & Hcell).
  destruct Hcell as [Hp1 Hm1]; [done|lia|].
  destruct (IH s1) as (s2 & Hr2 & Hinv2 & Hp2 & Hin2 & Hout2); [apply Hs1|lia|].
  exists s2. split_and!; [cbn [print_chars]; by rewrite (bind_ret _ _ _ _ _ Hr1)|done|lia| |].
  - intros [|i] d; simpl.
    + intros [= <-]. rewrite Hout2 by (intros i Hi; lia). rewrite Hm1, Z.add_0_r.
      apply lookup_insert_eq.
    + intros Hi. rewrite <- (Hin2 i d Hi), Hp1. do 2 f_equal. lia.
  - intros a Ha. rewrite Hout2.
    + rewrite Hm1. apply lookup_insert_ne. specialize (Ha 0%nat). lia.
    + intros i Hi. specialize (Ha (S i)). lia.
Qed.

(** a newline on the last row does not scroll: the screen is cleared entirely (every cell
    becomes a blank in the default colour) and the cursor goes to the top left; the
    half of the screen that was just copied up is lost. *)
Theorem newline_on_last_row_clears s :
  con_inv s -> currentRow s = VIDEO_MEM_ROWS - 1 ->
  exists s', printChar 10 s = Ret (tt, s') /\ currentRow s' = 0 /\ currentColumn s' = 0 /\
    (forall row col, 0 <= row < VIDEO_MEM_ROWS -> 0 <= col < VIDEO_MEM_COLUMNS ->
       mem s' !! getAddress row col = Some 32 /\
       mem s' !! (getAddress row col + 1) = Some DEFAULT_COLOR).
Proof.
  intros Hinv Hrow. destruct (next_row_ok s Hinv) as (s' & Hrun & _ & Hcol & _ & Hlast).
  destruct (Hlast Hrow) as [Hr0 Hcl]. exists s'. split_and!; [exact Hrun|done|done|].
  intros row col Hr Hc. rewrite getAddress_eq by lia.
  unfold VIDEO_MEM_ROWS, VIDEO_MEM_COLUMNS in *. rewrite !Hcl, !decide_True by lia.
  replace (VIDEO_BASE_ADDRESS + 2 * (80 * row + col) - VIDEO_BASE_ADDRESS)
    with (0 + 2 * (80 * row + col)) by lia.
  replace (VIDEO_BASE_ADDRESS + 2 * (80 * row + col) + 1 - VIDEO_BASE_ADDRESS)
    with (1 + 2 * (80 * row + col)) by lia.
  by rewrite !Z.even_add_mul_2.
Qed.

(** ** Strings *)

(** The region does not meet the video memory (screen and status line). *)
Definition off_screen (p n : Z) : Prop :=
  disjoint_regions p n VIDEO_BASE_ADDRESS (SCREEN + 160).

Lemma off_screen_next p n k : off_screen p n -> 0 <= k -> off_screen (p + k) (n - k).
Proof. unfold off_screen, disjoint_regions. lia. Qed.

Lemma cstr_screen_only m m' p l :
  cstr m p l -> off_screen p (Z.of_nat (length l) + 1) -> screen_only m m' -> cstr m' p l.
Proof.
  intros Hl Hoff Ho. eapply cstr_agree; [done|]. intros i Hi. apply Ho.
  unfold off_screen, disjoint_regions in Hoff. lia.
Qed.

Lemma on_mem_ldc s p c : mem s !! p = Some c -> on_mem (ldc p) s = Ret (i8 c, s).
Proof.
  intros H. destruct s as [m r k]. exact (zoom_ret mem set_mem (ldc p) _ _ _ (ldc_ok _ _ _ H)).
Qed.

Lemma printString_mem fuel l p s :
  con_inv s -> cstr (mem s) p l -> off_screen p (Z.of_nat (length l) + 1) -> (length l < fuel)%nat ->
  printString_loop fuel (fun p => on_mem (ldc p)) p s = print_chars (i8 <$> l) s.
Proof.
  revert fuel p s; induction l as [|c l IH]; intros [|f] p s Hinv Hl Hoff Hf; simpl in Hf; try lia;
    cbn [printString_loop].
  - by rewrite (bind_ret _ _ _ _ _ (on_mem_ldc _ _ _ Hl)).
  - pose proof (fun s' => cstr_screen_only (mem s) (mem s') _ _ Hl Hoff) as Hkeep.
    destruct Hl as (Hc & Hcl & Hl). rewrite (bind_ret _ _ _ _ _ (on_mem_ldc _ _ _ Hcl)), i8_byte by lia.
    destruct (Z.eqb_spec c 0); [lia|]. cbn [fmap list_fmap print_chars].
    destruct (printChar_ok s (i8 c) Hinv) as (s1 & Hr1 & [Hinv1 Ho1 _] & _).
    rewrite !(bind_ret _ _ _ _ _ Hr1). apply IH; [done|by apply Hkeep| |lia].
    cbn [length] in Hoff. apply (off_screen_next _ _ 1) in Hoff; [|lia].
    by replace (Z.of_nat (length l) + 1) with (Z.of_nat (S (length l)) + 1 - 1) by lia.
Qed.

Lemma printString_ok l p s :
  con_inv s -> cstr (mem s) p l -> off_screen p (Z.of_nat (length l) + 1) ->
  printString p s = print_chars (i8 <$> l) s.
Proof.
  intros Hinv Hl Hoff. unfold printString, on_mem at 1, str_fuel.
  rewrite (bind_ret _ _ _ (S (size (mem s))) s) by (by destruct s).
  apply printString_mem; [done..|]. pose proof (cstr_size _ _ _ Hl). lia.
Qed.

Lemma rd_local_ok b p c s : b !! p = Some c -> rd_local b p s = Ret (i8 c, s).
Proof. intros H. unfold rd_local. by rewrite (ldc_ok _ _ _ H). Qed.

Lemma printString_local fuel l b p s :
  cstr b p l -> (length l < fuel)%nat ->
  printString_loop fuel (rd_local b) p s = print_chars (i8 <$> l) s.
Proof.
  revert fuel p s; induction l as [|c l IH]; intros [|f] p s Hl Hf; simpl in Hf; try lia;
    cbn [printString_loop].
  - by rewrite (bind_ret _ _ _ _ _ (rd_local_ok _ _ _ _ Hl)).
  - destruct Hl as (Hc & Hcl & Hl). rewrite (bind_ret _ _ _ _ _ (rd_local_ok _ _ _ _ Hcl)), i8_byte by lia.
    destruct (Z.eqb_spec c 0); [lia|]. cbn [fmap list_fmap print_chars].
    unfold mbind, M_bind. destruct (printChar (i8 c) s) as [[[] s1]| |]; [|done..].
    apply IH; [done|lia].
Qed.

Lemma local_room n : room (local_array n) 0 (Z.of_nat n).
Proof.
  intros i Hi. unfold local_array. rewrite write_bytes_lookup, length_replicate, decide_True by lia.
  apply lookup_lt_is_Some_2. rewrite length_replicate. lia.
Qed.

(** ** Numbers *)

Lemma mod_u64 x : 0 <= x < 2 ^ 64 -> mod_ x = x.
Proof. intros Hx. unfold mod_. destruct (Z.ltb_spec 0 x); [done|]. by replace x with 0 by lia. Qed.

Lemma fmap_i8_ascii l : Forall (fun c => 0 <= c < 128) l -> i8 <$> l = l.
Proof. induction 1 as [|c l Hc Hl IH]; [done|]. cbn. by rewrite IH, i8_small by lia. Qed.

Lemma printLong_text x s :
  0 <= x < 2 ^ 64 -> printLong x s = print_chars (dec 20 x) s.
Proof.
  intros Hx. pose proof (dec_length_le 20 x 20 ltac:(simpl; lia) ltac:(lia)) as Hlen.
  pose proof (dec_digits 20 x) as Hd. unfold printLong, with_array.
  set (k := Z.of_nat (length (dec 20 x))). pose proof (local_room 66) as Hroom.
  rewrite (bind_ret _ _ _ _ _ (st8_ok _ _ _ (Hroom 65 ltac:(lia)))).
  rewrite mod_u64 by done.
  rewrite (bind_ret _ _ _ _ _ (put_digits_ok 20 _ 0 64 x ltac:(lia) ltac:(simpl; lia) ltac:(
    eapply room_sub; [apply room_insert, Hroom|lia|lia]))). fold k.
  destruct (Z.ltb_spec x 0); [lia|]. unfold mret, M_ret. change (u8 0) with 0.
  replace (0 + 64 + 1 - k) with (65 - k) by lia. replace (64 - k + 1) with (65 - k) by lia.
  replace (<[65 := 0]> (local_array 66)) with (<[65 - k + k := 0]> (local_array 66)) by (f_equal; lia).
  rewrite <- write_bytes_snoc, (printString_local _ (dec 20 x)).
  - f_equal. apply fmap_i8_ascii. eapply Forall_impl; [|exact Hd]. unfold is_digit. lia.
  - by apply write_bytes_cstr, digits_chars.
  - lia.
Qed.

(** Hexadecimal digits, most significant first. *)
Fixpoint hex (fuel : nat) (n : Z) : list Z :=
  match fuel with
  | O => []
  | S f => if n / 16 =? 0 then [hex_char (n mod 16)] else hex f (n / 16) ++ [hex_char (n mod 16)]
  end.

Lemma hex_char_range r : 0 <= r < 16 -> 48 <= hex_char r <= 70.
Proof. intros Hr. unfold hex_char. zbool. Qed.

Lemma hex_nonempty f n : hex (S f) n <> [].
Proof. cbn [hex]. destruct (n / 16 =? 0); [done|]. by destruct (hex f (n / 16)). Qed.

Lemma hex_facts fuel n : (length (hex fuel n) <= fuel)%nat /\ Forall (fun c => 48 <= c <= 70) (hex fuel n).
Proof.
  revert n; induction fuel as [|f IH]; intros n; cbn [hex]; [by split|].
  pose proof (hex_char_range (n mod 16) (Z.mod_pos_bound n 16 ltac:(lia))) as Hc.
  destruct (IH (n / 16)) as [Hl Hd]. destruct (n / 16 =? 0).
  - split; [simpl; lia|by apply Forall_singleton].
  - rewrite length_app, Forall_app, Forall_singleton. simpl. split; [lia|done].
Qed.

Lemma put_hex_ok fuel m i n :
  (0 < fuel)%nat -> 0 <= n < 16 ^ Z.of_nat fuel ->
  let k := Z.of_nat (length (hex fuel n)) in
  room m (i + 1 - k) k ->
  put_hex fuel i n m = Ret (i - k, write_bytes (i + 1 - k) (hex fuel n) m).
Proof.
  revert m i n; induction fuel as [|f IH]; intros m i n Hf Hn k Hroom; [lia|].
  pose proof (hex_char_range (n mod 16) (Z.mod_pos_bound n 16 ltac:(lia))) as Hc.
  pose proof (hex_nonempty f n) as Hne.
  assert (0 < k) as Hk0 by (unfold k; destruct (hex (S f) n); [done|simpl; lia]).
  assert (is_Some (m !! i)) as Hi.
  { replace i with (i + 1 - k + (k - 1)) by lia. apply Hroom. lia. }
  cbn [put_hex]. rewrite (bind_ret _ _ _ _ _ (st8_ok _ _ _ Hi)).
  assert (u8 (hex_char (n mod 16)) = hex_char (n mod 16)) as -> by (apply Z.mod_small; lia).
  subst k. cbn [hex] in *. rewrite Nat2Z.inj_succ, Z.pow_succ_r in Hn by lia.
  rewrite Z.shiftr_div_pow2 by lia. change (2 ^ 4) with 16.
  destruct (Z.eqb_spec (n / 16) 0) as [H0|H0].
  - simpl. unfold mret, M_ret. do 4 f_equal. lia.
  - rewrite length_app in *. cbn [length] in *. rewrite write_bytes_snoc, IH.
    + f_equal. f_equal; [lia|]. f_equal; [lia|]. f_equal. lia.
    + destruct f; [|lia]. change (16 ^ Z.of_nat 0) with 1 in Hn. exfalso. apply H0, Z.div_small. lia.
    + split; [apply Z.div_pos; lia|]. apply Z.div_lt_upper_bound; lia.
    + apply room_insert. eapply room_sub; [done|lia|lia].
Qed.

Lemma printHex_text x pre s :
  0 <= x < 2 ^ 64 ->
  printHex x pre s = print_chars ((if pre =? 0 then [] else [48; 120]) ++ hex 16 x) s.
Proof.
  intros Hx. destruct (hex_facts 16 x) as [Hlen Hd]. unfold printHex, with_array.
  set (k := Z.of_nat (length (hex 16 x))). pose proof (local_room 19) as Hroom.
  rewrite (bind_ret _ _ _ _ _ (st8_ok _ _ _ (Hroom 18 ltac:(lia)))). rewrite mod_u64 by done.
  rewrite (bind_ret _ _ _ _ _ (put_hex_ok 16 _ 17 x ltac:(lia) ltac:(simpl; lia) ltac:(
    eapply room_sub; [apply room_insert, Hroom|lia|lia]))). fold k.
  change (u8 0) with 0. replace (17 + 1 - k) with (18 - k) by lia.
  replace (<[18 := 0]> (local_array 19)) with (<[18 - k + k := 0]> (local_array 19)) by (f_equal; lia).
  rewrite <- write_bytes_snoc. destruct (pre =? 0).
  - unfold mret, M_ret. replace (17 - k + 1) with (18 - k) by lia. rewrite (printString_local _ (hex 16 x)).
    + f_equal. apply fmap_i8_ascii. eapply Forall_impl; [|exact Hd]. simpl. lia.
    + apply write_bytes_cstr. eapply Forall_impl; [|exact Hd]. simpl. lia.
    + lia.
  - set (b := write_bytes (18 - k) (hex 16 x ++ [0]) (local_array 19)).
    assert (room b 0 19) as Hb by apply room_write, Hroom.
    rewrite (bind_ret _ _ _ _ _ (st8_ok _ _ _ (Hb (17 - k) ltac:(lia)))).
    rewrite (bind_ret _ _ _ _ _ (st8_ok _ _ _ (room_insert b 0 19 (0 + (17 - k)) (u8 120) Hb (17 - k - 1) ltac:(lia)))).
    change (u8 120) with 120. change (u8 48) with 48. unfold mret, M_ret.
    rewrite (printString_local _ ([48; 120] ++ hex 16 x)).
    + f_equal. apply fmap_i8_ascii. cbn [app]. repeat (constructor; [lia|]).
      eapply Forall_impl; [|exact Hd]. simpl. lia.
    + split; [lia|]. split; [by rewrite lookup_insert_eq|]. split; [lia|]. split.
      * rewrite lookup_insert_ne by lia. replace (17 - k - 1 + 1) with (0 + (17 - k)) by lia.
        by rewrite lookup_insert_eq.
      * replace (17 - k - 1 + 1 + 1) with (18 - k) by lia. eapply cstr_agree.
        -- apply (write_bytes_cstr (18 - k) (hex 16 x) (local_array 19)).
           eapply Forall_impl; [|exact Hd]. simpl. lia.
        -- intros j Hj. rewrite !lookup_insert_ne by lia. done.
    + rewrite length_app. cbn [length]. lia.
Qed.

(** ** Formatted output *)

(** The text of one argument. *)
Definition arg_text (m : bytes) (ft : format_type) (v : Z) (t : list Z) : Prop :=
  match ft with
  | STRING => exists l, cstr m v l /\ off_screen v (Z.of_nat (length l) + 1) /\ t = i8 <$> l
  | INT => t = dec 20 (u64 (i32 v))
  | HEX => 0 <= v < 2 ^ 64 /\ t = hex 16 v
  | VOID => 0 <= v < 2 ^ 64 /\ t = [48; 120] ++ hex 16 v
  | CHAR => t = [i8 v]
  end.

(** [renders m fs va t]: the format [fs] with arguments [va] stands for the text [t].  A
    percent sign before an unknown letter disappears. *)
Inductive renders (m : bytes) : list Z -> list Z -> list Z -> Prop :=
| renders_nil va : renders m [] va []
| renders_char c fs va t :
    c <> 37 -> renders m fs va t -> renders m (c :: fs) va (i8 c :: t)
| renders_spec c ft fs v va t1 t2 :
    format_of (i8 c) = Some ft -> arg_text m ft v t1 -> renders m fs va t2 ->
    renders m (37 :: c :: fs) (v :: va) (t1 ++ t2)
| renders_percent_end va : renders m [37] va []
| renders_percent c fs va t :
    format_of (i8 c) = None -> renders m (c :: fs) va t -> renders m (37 :: c :: fs) va t.

Lemma arg_text_screen m m' ft v t : screen_only m m' -> arg_text m ft v t -> arg_text m' ft v t.
Proof.
  intros Ho. destruct ft; cbn [arg_text]; [|auto..]. intros (l & Hl & Hoff & ->).
  exists l. split_and!; [|done|done]. by eapply cstr_screen_only.
Qed.

Lemma printSpecial_ok s ft v va t :
  con_inv s -> arg_text (mem s) ft v t ->
  exists s', print_chars t s = Ret (tt, s') /\ con_step s s' /\
    printSpecial ft (v :: va) s = Ret (va, s').
Proof.
  intros Hinv Ht. destruct (print_chars_ok t s Hinv) as (s' & Hrun & Hs).
  exists s'. split_and!; [done|done|]. unfold printSpecial.
  rewrite (bind_ret _ _ _ tt s'); [done|]. rewrite <- Hrun.
  destruct ft; cbn [arg_text] in Ht.
  - destruct Ht as (l & Hl & Hoff & ->). by apply printString_ok.
  - rewrite Ht. apply printLong_text. auto with snow.
  - destruct Ht as [Hv ->]. by apply (printHex_text v 0).
  - destruct Ht as [Hv ->]. by apply (printHex_text v 1).
  - rewrite Ht. cbn [print_chars]. unfold mbind, M_bind.
    by destruct (printChar (i8 v) s) as [[[] ?]| |].
Qed.

Lemma i8_percent c : 0 < c < 256 -> (i8 c =? 37) = (c =? 37).
Proof.
  intros Hc. destruct (Z.eqb_spec c 37) as [->|Hne]; [done|].
  apply Z.eqb_neq. intros H. apply Hne. apply i8_inj; [lia|lia|]. by rewrite H.
Qed.

(** Reading a character of a string that a part of the screen does not overlap. *)
Lemma read_off_screen m s p c (l : list Z) :
  screen_only m (mem s) -> off_screen p (Z.of_nat (length l) + 1) -> m !! p = Some c ->
  on_mem (ldc p) s = Ret (i8 c, s).
Proof.
  intros Ho Hoff Hc. apply on_mem_ldc. rewrite Ho; [done|].
  unfold off_screen, disjoint_regions in Hoff. lia.
Qed.

Lemma off_screen_tail {A} p (c : A) l :
  off_screen p (Z.of_nat (length (c :: l)) + 1) -> off_screen (p + 1) (Z.of_nat (length l) + 1).
Proof.
  intros H. apply (off_screen_next _ _ 1) in H; [|lia]. cbn [length] in H.
  by replace (Z.of_nat (length l) + 1) with (Z.of_nat (S (length l)) + 1 - 1) by lia.
Qed.

Lemma kprintf_loop_ok m fs va t :
  renders m fs va t -> forall fuel p s,
  screen_only m (mem s) -> con_inv s -> cstr m p fs -> off_screen p (Z.of_nat (length fs) + 1) ->
  (length fs < fuel)%nat -> kprintf_loop fuel p va s = print_chars t s.
Proof.
  induction 1 as [va|c fs va t Hc Hr IH|c ft fs v va t1 t2 Hft Ht1 Hr IH|va|c fs va t Hft Hr IH];
    intros [|f] p s Ho Hinv Hs Hoff Hf; simpl in Hf; try lia; cbn [kprintf_loop].
  - by rewrite (bind_ret _ _ _ _ _ (read_off_screen _ _ _ _ _ Ho Hoff Hs)).
  - destruct Hs as (Hcr & Hcl & Hs). rewrite (bind_ret _ _ _ _ _ (read_off_screen _ _ _ _ _ Ho Hoff Hcl)).
    rewrite i8_byte, i8_percent by lia. destruct (Z.eqb_spec c 0), (Z.eqb_spec c 37); try lia.
    cbn [print_chars]. destruct (printChar_ok s (i8 c) Hinv) as (s1 & Hr1 & [Hinv1 Ho1 _] & _).
    rewrite !(bind_ret _ _ _ _ _ Hr1).
    apply IH; [by etransitivity|done|done|by apply off_screen_tail in Hoff|lia].
  - destruct Hs as (_ & Hcl & Hcr & Hcl' & Hs). pose proof (off_screen_tail _ _ _ Hoff) as Hoff1.
    rewrite (bind_ret _ _ _ _ _ (read_off_screen _ _ _ _ _ Ho Hoff Hcl)). simpl (_ =? _). cbv iota.
    rewrite (bind_ret _ _ _ _ _ (read_off_screen _ _ _ _ _ Ho Hoff1 Hcl')), Hft.
    destruct (printSpecial_ok s ft v va t1 Hinv) as (s1 & Hp & [Hinv1 Ho1 _] & Hr1);
      [by eapply arg_text_screen|].
    rewrite (bind_ret _ _ _ _ _ Hr1), (print_chars_app _ _ _ _ Hp).
    replace (p + 2) with (p + 1 + 1) by lia.
    apply IH; [by etransitivity|done|done|by apply off_screen_tail in Hoff1|lia].
  - destruct Hs as (_ & Hcl & Hs). pose proof (off_screen_tail _ _ _ Hoff) as Hoff1.
    rewrite (bind_ret _ _ _ _ _ (read_off_screen _ _ _ _ _ Ho Hoff Hcl)). simpl (_ =? _). cbv iota.
    rewrite (bind_ret _ _ _ _ _ (read_off_screen _ _ _ _ _ Ho Hoff1 Hs)). simpl.
    destruct f; [lia|]. cbn [kprintf_loop].
    by rewrite (bind_ret _ _ _ _ _ (read_off_screen _ _ _ _ _ Ho Hoff1 Hs)).
  - destruct Hs as (_ & Hcl & Hs). pose proof (off_screen_tail _ _ _ Hoff) as Hoff1.
    pose proof Hs as (_ & Hcl' & _).
    rewrite (bind_ret _ _ _ _ _ (read_off_screen _ _ _ _ _ Ho Hoff Hcl)). simpl (_ =? _). cbv iota.
    rewrite (bind_ret _ _ _ _ _ (read_off_screen _ _ _ _ _ Ho Hoff1 Hcl')), Hft.
    apply IH; [done|done|done|done|simpl; lia].
Qed.

Lemma kprintf_renders s fmt fs va t :
  con_inv s -> cstr (mem s) fmt fs -> off_screen fmt (Z.of_nat (length fs) + 1) ->
  renders (mem s) fs va t -> kprintf fmt va s = print_chars t s.
Proof.
  intros Hinv Hs Hoff Hr. unfold kprintf, on_mem at 1, str_fuel.
  rewrite (bind_ret _ _ _ (S (size (mem s))) s) by (by destruct s).
  apply (kprintf_loop_ok (mem s) fs); [done|done|done|done|done|].
  pose proof (cstr_size _ _ _ Hs). lia.
Qed.

(** C22: [kprintf] prints what its format says: when the format and its string arguments
    lie outside the screen and the format renders with the arguments as the text
    [t], the call is the same as printing [t] character by character; it terminates, keeps
    the cursor on the screen, and writes no byte outside the screen. *)
Theorem kprintf_prints_rendering s fmt fs va t :
  con_inv s -> cstr (mem s) fmt fs -> off_screen fmt (Z.of_nat (length fs) + 1) ->
  renders (mem s) fs va t ->
  exists s', kprintf fmt va s = Ret (tt, s') /\ print_chars t s = Ret (tt, s') /\
    con_inv s' /\ screen_only (mem s) (mem s').
Proof.
  intros Hinv Hs Hoff Hr. rewrite (kprintf_renders s fmt fs va t) by done.
  destruct (print_chars_ok t s Hinv) as (s' & Hrun & [Hinv' Ho _]). by exists s'.
Qed.

(** [%d] prints a negative number as its 64-bit two's complement: [printLong] takes
    an unsigned argument, so its test [x < 0] never holds and no minus sign is ever printed. *)
Theorem printLong_negative s va n :
  - 2 ^ 31 <= n < 0 ->
  printSpecial INT (n :: va) s = (print_chars (dec 20 (2 ^ 64 + n)) ≫= fun _ => mret va) s /\
  45 ∉ dec 20 (2 ^ 64 + n).
Proof.
  intros Hn. split.
  - unfold printSpecial, mbind, M_bind. rewrite i32_small by lia.
    replace (u64 n) with (2 ^ 64 + n).
    + by rewrite printLong_text by lia.
    + unfold u64. rewrite <- (Z.mod_add n 1) by lia. rewrite Z.mod_small by lia. lia.
  - intros Hin. pose proof (dec_digits 20 (2 ^ 64 + n)) as Hd.
    rewrite Forall_forall in Hd. apply list_elem_of_In, Hd in Hin. by destruct Hin.
Qed.

(** ** The clock *)

(** [printTime] writes outside its buffer: it fills the 24-byte array downwards
    starting from index 0, so from the second character on it stores below the array
    whatever the time. *)
Theorem printTime_underflows s x : con_inv s -> printTime x s = Fault.
Proof.
  intros Hinv. unfold printTime.
  assert (exists s', on_mem (for_loop 40 0 (fun j =>
    st8 (getAddress VIDEO_MEM_ROWS (VIDEO_MEM_COLUMNS - 40) + 2 * j) 32 ≫= fun _ =>
    st8 (getAddress VIDEO_MEM_ROWS (VIDEO_MEM_COLUMNS - 40) + 2 * j + 1) 7)) s = Ret (tt, s')) as [s' Hs'].
  { destruct (for_loop_ind (fun _ m => room m VIDEO_BASE_ADDRESS (SCREEN + 160)) (fun j =>
      st8 (getAddress VIDEO_MEM_ROWS (VIDEO_MEM_COLUMNS - 40) + 2 * j) 32 ≫= fun _ =>
      st8 (getAddress VIDEO_MEM_ROWS (VIDEO_MEM_COLUMNS - 40) + 2 * j + 1) 7) 40 0 (mem s)) as (m' & Hm' & _).
    - apply Hinv.
    - intros k t Hk Ht. rewrite getAddress_eq by (by vm_compute).
      change (SCREEN + 160) with 4000 in Ht.
      replace (VIDEO_BASE_ADDRESS + 2 * (VIDEO_MEM_COLUMNS * VIDEO_MEM_ROWS + (VIDEO_MEM_COLUMNS - 40)) + 2 * k)
        with (VIDEO_BASE_ADDRESS + (3920 + 2 * k)) by (unfold VIDEO_MEM_COLUMNS, VIDEO_MEM_ROWS; lia).
      rewrite (bind_ret _ _ _ _ _ (st8_ok _ _ _ (Ht (3920 + 2 * k) ltac:(lia)))).
      eexists. split; [apply st8_ok|by do 2 apply room_insert].
      rewrite <- Z.add_assoc. apply room_insert with (1 := Ht). lia.
    - eexists. by apply zoom_ret. }
  rewrite (bind_ret _ _ _ _ _ Hs'). reflexivity.
Qed.

(** ** Backspace *)

Lemma backspace_ok s :
  con_inv s -> 0 < pos s ->
  exists s', handle_video_mem_backspace s = Ret (tt, s') /\ con_step s s' /\ pos s' = pos s - 1 /\
    mem s' = <[VIDEO_BASE_ADDRESS + 2 * (pos s - 1) := 32]> (mem s).
Proof.
  intros Hinv Hpos. pose proof Hinv as [Hr Hc _ _].
  unfold handle_video_mem_backspace, gets. rewrite !(bind_ret _ _ _ _ _ eq_refl).
  assert ((currentColumn s =? 0) && (currentRow s =? 0) = false) as ->.
  { unfold pos in Hpos. zbool. }
  set (row' := if currentColumn s =? 0 then currentRow s - 1 else currentRow s).
  set (col' := if currentColumn s =? 0 then VIDEO_MEM_COLUMNS - 1 else currentColumn s - 1).
  assert (0 <= row' < VIDEO_MEM_ROWS /\ 0 <= col' < VIDEO_MEM_COLUMNS /\
          VIDEO_MEM_COLUMNS * row' + col' = pos s - 1) as (Hr' & Hc' & Hp').
  { unfold row', col', pos, VIDEO_MEM_ROWS, VIDEO_MEM_COLUMNS in *. zbool. }
  rewrite (bind_ret _ _ _ tt (Console (mem s) row' col')).
  2: { unfold row', col', modify, set_row, set_col. destruct (Z.eqb_spec (currentColumn s) 0); simpl.
       - rewrite u64_small; [done|]. unfold row' in Hr'. zbool. unfold VIDEO_MEM_ROWS in *. lia.
       - rewrite u64_small; [done|]. unfold VIDEO_MEM_COLUMNS in *. lia. }
  rewrite !(bind_ret _ _ _ _ _ eq_refl). simpl.
  destruct (screen_write s (VIDEO_BASE_ADDRESS + 2 * (pos s - 1)) 32 row' col') as [Hw Hs];
    [done| |done|done|].
  { unfold SCREEN, pos, VIDEO_MEM_COLUMNS, VIDEO_MEM_ROWS in *. lia. }
  eexists. split_and!; [|exact Hs|exact Hp'|done].
  rewrite getAddress_eq, Hp' by lia.
  exact (zoom_ret mem set_mem _ (Console (mem s) row' col') tt _ Hw).
Qed.

(** At the top left there is nothing to erase. *)
Lemma backspace_home s : con_inv s -> ~ 0 < pos s -> handle_video_mem_backspace s = Ret (tt, s).
Proof.
  intros [Hr Hc _ _] Hp. unfold pos, VIDEO_MEM_COLUMNS in *.
  unfold handle_video_mem_backspace, gets. rewrite !(bind_ret _ _ _ _ _ eq_refl).
  by destruct (Z.eqb_spec (currentColumn s) 0), (Z.eqb_spec (currentRow s) 0); try lia.
Qed.

(** backspace undoes a character: printing a character (not a newline, not in the last
    cell) and then erasing it leaves the cursor where it was and a blank in its cell;
    no other byte changes. *)
Theorem backspace_undoes_char s c :
  con_inv s -> c <> 10 -> pos s + 1 < VIDEO_MEM_COLUMNS * VIDEO_MEM_ROWS ->
  exists s', (printChar c ≫= fun _ => handle_video_mem_backspace) s = Ret (tt, s') /\
    con_inv s' /\ pos s' = pos s /\ mem s' = <[VIDEO_BASE_ADDRESS + 2 * pos s := 32]> (mem s).
Proof.
  intros Hinv Hc Hfit. destruct (printChar_ok s c Hinv) as (s1 & Hr1 & Hs1 & Hcell).
  destruct (Hcell Hc Hfit) as [Hp1 Hm1].
  assert (0 <= pos s) by (destruct Hinv; unfold pos, VIDEO_MEM_COLUMNS in *; lia).
  destruct (backspace_ok s1) as (s2 & Hr2 & Hs2 & Hp2 & Hm2); [apply Hs1|lia|].
  exists s2. split_and!; [by rewrite (bind_ret _ _ _ _ _ Hr1)|apply Hs2|lia|].
  rewrite Hm2, Hm1, Hp1. replace (pos s + 1 - 1) with (pos s) by lia. apply insert_insert_eq.
Qed.

(** ** A blank screen with a format in memory *)

Lemma byte_range_write p l m :
  Forall (fun b => 0 <= b < 256) l -> byte_range m -> byte_range (write_bytes p l m).
Proof.
  intros Hl. revert p m; induction Hl as [|b l Hb Hl IH]; intros p m Hm; simpl; [done|].
  apply IH. intros a x. rewrite lookup_insert. case_decide; [|apply Hm]. by intros [= <-].
Qed.

(** A blank screen over the memory [lower]. *)
Definition screen_over (lower : bytes) (row : Z) : console :=
  Console (write_bytes VIDEO_BASE_ADDRESS (replicate (Z.to_nat 4000) 32) lower) row 0.

Lemma screen_over_inv lower row : 0 <= row < 24 -> byte_range lower -> con_inv (screen_over lower row).
Proof.
  intros Hrow Hb. split; [done|by vm_compute| |].
  - intros i Hi. change (SCREEN + 160) with 4000 in Hi. cbn [mem screen_over].
    rewrite write_bytes_lookup, length_replicate, decide_True by lia.
    apply lookup_lt_is_Some_2. rewrite length_replicate. lia.
  - apply byte_range_write; [apply Forall_replicate; lia|done].
Qed.

Lemma screen_over_lookup lower row a :
  0 <= a < VIDEO_BASE_ADDRESS -> mem (screen_over lower row) !! a = lower !! a.
Proof.
  intros Ha. cbn [mem screen_over]. by rewrite write_bytes_lookup, decide_False by lia.
Qed.

Lemma screen_over_cstr lower row p l :
  cstr lower p l -> 0 <= p -> p + Z.of_nat (length l) < VIDEO_BASE_ADDRESS ->
  cstr (mem (screen_over lower row)) p l.
Proof. intros Hl Hp Hlt. eapply cstr_agree; [done|]. intros i Hi. apply screen_over_lookup. lia. Qed.

(** The format ["%c=%x"]. *)
Definition demo_format : list Z := [37; 99; 61; 37; 120].

Definition demo_console (row : Z) : console :=
  screen_over (write_bytes 1000 (demo_format ++ [0]) ∅) row.

Lemma byte_range_empty : byte_range ∅.
Proof. intros a b. by rewrite lookup_empty. Qed.

Lemma demo_console_inv row : 0 <= row < 24 -> con_inv (demo_console row).
Proof.
  intros Hrow. apply screen_over_inv; [done|]. apply byte_range_write; [|apply byte_range_empty].
  repeat (constructor; [lia|]). constructor.
Qed.

Lemma demo_console_format row : cstr (mem (demo_console row)) 1000 demo_format.
Proof. apply screen_over_cstr; [by apply cstrb_sound|lia|by vm_compute]. Qed.

Lemma print_chars_linear_witness :
  exists s', print_chars [104; 105] (demo_console 3) = Ret (tt, s') /\ pos s' = 242.
Proof.
  destruct (print_chars_linear [104; 105] (demo_console 3) (demo_console_inv 3 ltac:(lia)))
    as (s' & H1 & _ & H2 & _).
  - repeat (constructor; [lia|]). constructor.
  - by vm_compute.
  - exists s'. split; [exact H1|exact H2].
Defined.

Lemma newline_on_last_row_clears_witness :
  exists s', printChar 10 (demo_console 23) = Ret (tt, s') /\ mem s' !! getAddress 5 7 = Some 32.
Proof.
  destruct (newline_on_last_row_clears (demo_console 23) (demo_console_inv 23 ltac:(lia)) eq_refl)
    as (s' & H1 & _ & _ & H2).
  exists s'. split; [exact H1|]. apply (H2 5 7); unfold VIDEO_MEM_ROWS, VIDEO_MEM_COLUMNS; lia.
Defined.

Lemma kprintf_prints_rendering_witness :
  exists s', kprintf 1000 [65; 0xbeef] (demo_console 0) = Ret (tt, s') /\
    print_chars [65; 61; 66; 69; 69; 70] (demo_console 0) = Ret (tt, s').
Proof.
  destruct (kprintf_prints_rendering (demo_console 0) 1000 demo_format [65; 0xbeef]
    [65; 61; 66; 69; 69; 70] (demo_console_inv 0 ltac:(lia)) (demo_console_format 0))
    as (s' & H1 & H2 & _).
  - left. by vm_compute.
  - apply (renders_spec _ 99 CHAR [61; 37; 120] 65 [0xbeef] [65] [61; 66; 69; 69; 70]); [done|done|].
    apply (renders_char _ 61); [lia|].
    apply (renders_spec _ 120 HEX [] 0xbeef [] [66; 69; 69; 70] []); [done| |constructor].
    split; [lia|by vm_compute].
  - exists s'. split; [exact H1|exact H2].
Defined.

Lemma printLong_negative_witness :
  printSpecial INT [-1] (demo_console 0) =
    (print_chars (dec 20 (2 ^ 64 + -1)) ≫= fun _ => mret []) (demo_console 0).
Proof. apply (printLong_negative (demo_console 0) [] (-1)). lia. Defined.

Lemma printTime_underflows_witness : printTime 100 (demo_console 0) = Fault.
Proof. apply (printTime_underflows (demo_console 0) 100). apply demo_console_inv. lia. Defined.

Lemma backspace_undoes_char_witness :
  exists s', (printChar 120 ≫= fun _ => handle_video_mem_backspace) (demo_console 3) = Ret (tt, s') /\
    pos s' = 240.
Proof.
  destruct (backspace_undoes_char (demo_console 3) 120 (demo_console_inv 3 ltac:(lia)) ltac:(lia) eq_refl)
    as (s' & H1 & _ & H2 & _).
  exists s'. split; [exact H1|exact H2].
Defined.
