(* ===== verification/Timer.v ===== *)
(** * The interval timer and [sleep] ([sys/pit.c], [sys/sleep.c])

    Writes to ports are recorded in a log.  A sleeping process polls [sleep_val] while the timer
    interrupt decrements it once per second; the interleaving is an explicit sequence of
    events, as for the terminal. *)

From S2P Require Import Prelude CStr Console.

Definition PIT_0 : Z := 0x40.
Definition PIT_CR : Z := PIT_0 + 3.
Definition PIC_M_CR : Z := 0x20.
Definition PIC_EOI : Z := 0x20.

Record timer := Timer {
  time_since_boot : Z;
  sleep_val : Z;
  ports : list (Z * Z);
  tcon : console
}.

Definition set_tcon (c : console) (s : timer) : timer := Timer (time_since_boot s) (sleep_val s) (ports s) c.
Definition set_sleep (v : Z) (s : timer) : timer := Timer (time_since_boot s) v (ports s) (tcon s).

(** One [outb]. *)
Definition output_b (p v : Z) : M timer unit :=
  modify (fun s => Timer (time_since_boot s) (sleep_val s) (ports s ++ [(u16 p, u8 v)]) (tcon s)).

Definition on_second_tick : M timer unit :=
  v ← gets sleep_val;
  if v =? 0 then mret tt else modify (set_sleep (i32 (v - 1))).

Definition pit_intr_handler : M timer unit :=
  modify (fun s => Timer (u64 (time_since_boot s + 1)) (sleep_val s) (ports s) (tcon s)) ≫= fun _ =>
  t ← gets time_since_boot;
  zoom tcon set_tcon (printTime t) ≫= fun _ =>
  (if t mod 100 =? 0 then on_second_tick else mret tt) ≫= fun _ =>
  output_b PIC_M_CR PIC_EOI.

Definition init_pit : M timer unit :=
  let command_register := 0x36 in
  output_b PIT_CR command_register ≫= fun _ =>
  let f := u16 (1193182 / 100) in
  output_b PIT_0 (Z.land f 0x00FF) ≫= fun _ =>
  output_b PIT_0 (Z.land (Z.shiftr f 8) 0x00FF).

(** ** [sleep] *)

(** A call of [sleep]: in its loop, or returned. *)
Inductive sleeper := Asleep | Awake (r : Z).

Definition sleep_start (seconds : Z) : M timer sleeper :=
  modify (set_sleep (i32 seconds)) ≫= fun _ => mret Asleep.

(** One iteration of [while (1)]. *)
Definition sleep_poll : M timer sleeper :=
  v ← gets sleep_val; mret (if v =? 0 then Awake 0 else Asleep).

(** A second passes, or the sleeper runs one iteration. *)
Inductive tick_event := Second | Check.

#[export] Instance tick_event_eq_dec : EqDecision tick_event.
Proof. solve_decision. Defined.

Definition sleep_event (r : sleeper) (e : tick_event) : M timer sleeper :=
  match e, r with
  | Second, _ => on_second_tick ≫= fun _ => mret r
  | Check, Asleep => sleep_poll
  | Check, Awake _ => mret r
  end.

Fixpoint sleep_events (r : sleeper) (es : list tick_event) : M timer sleeper :=
  match es with
  | [] => mret r
  | e :: es' => r' ← sleep_event r e; sleep_events r' es'
  end.

Definition sleep (seconds : Z) (es : list tick_event) : M timer sleeper :=
  r ← sleep_start seconds; sleep_events r es.

(** ** Properties *)

(** Seconds that pass in [es]. *)
Definition seconds_in (es : list tick_event) : Z := Z.of_nat (length (filter (eq Second) es)).

(** An iteration of the loop happens when at least [n] seconds have passed. *)
Definition slept (n : Z) (es : list tick_event) : Prop :=
  exists es1 es2, es = es1 ++ Check :: es2 /\ n <= seconds_in es1.

Lemma seconds_in_cons e es : seconds_in (e :: es) = (if decide (e = Second) then 1 else 0) + seconds_in es.
Proof. unfold seconds_in. rewrite filter_cons. destruct e; simpl; lia. Qed.

Lemma slept_second n es : slept n (Second :: es) <-> slept (n - 1) es.
Proof.
  split.
  - intros ([|e es1] & es2 & Heq & Hn); [done|]. injection Heq as <- ->.
    rewrite seconds_in_cons in Hn. simpl in Hn. exists es1, es2. split; [done|lia].
  - intros (es1 & es2 & -> & Hn). exists (Second :: es1), es2. split; [done|]. rewrite seconds_in_cons. simpl. lia.
Qed.

Lemma slept_check n es : slept n (Check :: es) <-> n <= 0 \/ slept n es.
Proof.
  split.
  - intros ([|e es1] & es2 & Heq & Hn); [by left|]. injection Heq as <- ->. right.
    exists es1, es2. split; [done|]. rewrite seconds_in_cons in Hn. simpl in Hn. lia.
  - intros [Hn|(es1 & es2 & -> & Hn)]; [by exists [], es|].
    exists (Check :: es1), es2. split; [done|]. rewrite seconds_in_cons. simpl. lia.
Qed.

Lemma second_tick_ok s : 0 <= sleep_val s < 2 ^ 31 ->
  on_second_tick s = Ret (tt, set_sleep (Z.max 0 (sleep_val s - 1)) s).
Proof.
  intros Hv. unfold on_second_tick, gets. rewrite (bind_ret _ _ _ _ _ eq_refl).
  destruct (Z.eqb_spec (sleep_val s) 0) as [E|E].
  - rewrite E. destruct s. simpl in *. by subst.
  - rewrite i32_small by lia. unfold modify. by rewrite Z.max_r by lia.
Qed.

Lemma sleep_events_awake es r0 s : 0 <= sleep_val s < 2 ^ 31 ->
  exists s', sleep_events (Awake r0) es s = Ret (Awake r0, s').
Proof.
  revert s; induction es as [|[] es IH]; intros s Hv; cbn [sleep_events].
  - by exists s.
  - unfold sleep_event. erewrite bind_ret; [apply IH|by rewrite (bind_ret _ _ _ _ _ (second_tick_ok _ Hv))]. simpl. lia.
  - erewrite bind_ret; [by apply IH|done].
Qed.

Lemma sleep_events_ok es s : 0 <= sleep_val s < 2 ^ 31 ->
  exists r s', sleep_events Asleep es s = Ret (r, s') /\
    ((slept (sleep_val s) es /\ r = Awake 0) \/ (~ slept (sleep_val s) es /\ r = Asleep)).
Proof.
  revert s; induction es as [|[] es IH]; intros s Hv; cbn [sleep_events].
  - exists Asleep, s. split; [done|]. right. split; [|done]. by intros ([] & ? & ? & _).
  - unfold sleep_event. destruct (IH (set_sleep (Z.max 0 (sleep_val s - 1)) s)) as (r & s' & Hr & H); [simpl; lia|].
    exists r, s'. split.
    { erewrite bind_ret; [exact Hr|]. by rewrite (bind_ret _ _ _ _ _ (second_tick_ok _ Hv)). }
    cbn [sleep_val set_sleep] in H. rewrite slept_second.
    destruct (Z.max_spec 0 (sleep_val s - 1)) as [[_ E]|[Hle E]]; rewrite E in H; [done|].
    assert (slept 0 es <-> slept (sleep_val s - 1) es) as Hiff.
    { split; intros (es1 & es2 & -> & Hn); exists es1, es2; (split; [done|]); unfold seconds_in in *; lia. }
    clear Hr. tauto.
  - unfold sleep_event, sleep_poll, gets. pose proof (slept_check (sleep_val s) es) as Hc.
    destruct (Z.eqb_spec (sleep_val s) 0) as [E|E].
    + destruct (sleep_events_awake es 0 s Hv) as (s' & Hr). exists (Awake 0), s'. split; [|left; split; [apply Hc; left; lia|done]].
      erewrite bind_ret; [exact Hr|]. rewrite (bind_ret _ _ _ _ _ eq_refl). by rewrite E.
    + destruct (IH s Hv) as (r & s' & Hr & H). exists r, s'. split.
      { erewrite bind_ret; [exact Hr|]. rewrite (bind_ret _ _ _ _ _ eq_refl). by destruct (Z.eqb_spec (sleep_val s) 0). }
      assert (~ sleep_val s <= 0) by lia. tauto.
Qed.

(** C31: [sleep(n)] has returned 0 after a sequence of seconds and loop iterations exactly when
    the loop ran at a moment when at least [n] seconds had passed: it neither wakes early nor
    misses its end, whatever the interleaving, and so terminates once [n] seconds pass. *)
Theorem sleep_exact n es s :
  0 <= n < 2 ^ 31 ->
  exists r s', sleep n es s = Ret (r, s') /\
    ((slept n es /\ r = Awake 0) \/ (~ slept n es /\ r = Asleep)).
Proof.
  intros Hn. unfold sleep, sleep_start. rewrite (bind_ret _ _ _ Asleep (set_sleep (i32 n) s)) by done.
  rewrite i32_small by lia. exact (sleep_events_ok es (set_sleep n s) Hn).
Qed.

(** The timer is programmed with the divisor of 100 interrupts per second, low byte first. *)
Lemma init_pit_divisor s : exists lo hi, init_pit s =
    Ret (tt, Timer (time_since_boot s) (sleep_val s) (ports s ++ [(PIT_CR, 0x36)] ++ [(PIT_0, lo)] ++ [(PIT_0, hi)]) (tcon s)) /\
  lo + 256 * hi = 1193182 / 100 /\ 0 <= lo < 256 /\ 0 <= hi < 256.
Proof.
  exists 155, 46. split; [|done]. unfold init_pit, output_b, modify, mbind, M_bind. simpl.
  by rewrite <- !app_assoc.
Qed.

(** ** Witnesses *)

Definition demo_timer : timer := Timer 0 0 [] (demo_console 0).

Lemma sleep_exact_witness :
  exists s', sleep 2 [Check; Second; Check; Second; Second; Check] demo_timer = Ret (Awake 0, s').
Proof.
  destruct (sleep_exact 2 [Check; Second; Check; Second; Second; Check] demo_timer) as (r & s' & H & [[_ ->]|[Hn _]]); [lia| |].
  - exists s'. exact H.
  - exfalso. apply Hn. exists [Check; Second; Check; Second; Second], []. split; [reflexivity|]. vm_compute. congruence.
Defined.
