(* ===== verification/ShellParse.v ===== *)
(** * Splitting command lines ([bin/sbush/sbush.c], [bin/init/init.c])

    [remove_white_spaces] and [parse_split], the same code in the shell and in [init].  They
    work in place: delimiters and blanks at the end of a piece become zero bytes, and the
    commands are pointers into the line.  [parse_split] is specified by splitting the line
    as a list and trimming the pieces. *)

From S2P Require Import Prelude CStr.

(** ** Operations *)

(** [while ( *src == ' ') src++]. *)
Fixpoint skip_blanks (fuel : nat) (src : Z) : M bytes Z :=
  match fuel with
  | O => mfuel
  | S f => c ← ldc src; if c =? 32 then skip_blanks f (src + 1) else mret src
  end.

(** [while (src[i] == ' ') { src[i] = 0; i--; }], at the address of [src[i]]. *)
Fixpoint erase_blanks (fuel : nat) (a : Z) : M bytes unit :=
  match fuel with
  | O => mfuel
  | S f => c ← ldc a; if c =? 32 then st8 a 0 ≫= fun _ => erase_blanks f (a - 1) else mret tt
  end.

Definition remove_white_spaces (src : Z) : M bytes Z :=
  fuel ← str_fuel;
  src ← skip_blanks fuel src;
  len ← libc_strlen src;
  erase_blanks fuel (src + (i32 len - 1)) ≫= fun _ => mret src.

(** [commands[n] = p] for an array of [cap] pointers filled from the front. *)
Definition push_command (cap : nat) (cmds : list Z) (p : Z) : M bytes (list Z) :=
  if decide (length cmds < cap)%nat then mret (cmds ++ [p]) else mfault.

(** The loop; returns [last] and the commands so far. *)
Fixpoint split_loop (fuel : nat) (cap : nat) (input delimiter i last : Z) (cmds : list Z) : M bytes (Z * list Z) :=
  match fuel with
  | O => mfuel
  | S f =>
      c ← ldc (input + i);
      if c =? 0 then mret (last, cmds) else
      if c =? delimiter then
        st8 (input + i) 0 ≫= fun _ =>
        p ← remove_white_spaces (input + last + 1);
        cmds' ← push_command cap cmds p;
        split_loop f cap input delimiter (i + 1) i cmds'
      else split_loop f cap input delimiter (i + 1) last cmds
  end.

(** The commands; their number is the result of the C function.  The null pointer behind them
    needs a place in the array too. *)
Definition parse_split (cap : nat) (input delimiter : Z) : M bytes (list Z) :=
  fuel ← str_fuel;
  split_loop fuel cap input delimiter 0 (-1) [] ≫= fun '(last, cmds) =>
  p ← remove_white_spaces (input + last + 1);
  cmds' ← push_command cap cmds p;
  if decide (length cmds' < cap)%nat then mret cmds' else mfault.

(** ** Specification *)

Fixpoint ltrim (s : list Z) : list Z :=
  match s with [] => [] | c :: r => if c =? 32 then ltrim r else s end.

Fixpoint rtrim (s : list Z) : list Z :=
  match s with
  | [] => []
  | c :: r => match rtrim r with [] => if c =? 32 then [] else [c] | r' => c :: r' end
  end.

(** A piece without the blanks around it. *)
Definition trim (s : list Z) : list Z := rtrim (ltrim s).

(** The pieces between delimiters, [acc] being the beginning of the first one. *)
Fixpoint split_go (d : Z) (acc s : list Z) : list (list Z) :=
  match s with
  | [] => [acc]
  | c :: r => if c =? d then acc :: split_go d [] r else split_go d (acc ++ [c]) r
  end.
Definition split_on (d : Z) (s : list Z) : list (list Z) := split_go d [] s.

Fixpoint join (d : Z) (l : list (list Z)) : list Z :=
  match l with [] => [] | [s] => s | s :: r => s ++ d :: join d r end.

Lemma split_go_nonempty d acc s : split_go d acc s <> [].
Proof. revert acc; induction s as [|c s IH]; intros acc; simpl; [done|]. by destruct (c =? d). Qed.

(** Splitting loses nothing. *)
Lemma join_split d s : join d (split_on d s) = s.
Proof.
  assert (forall acc, join d (split_go d acc s) = acc ++ s) as H; [|apply (H [])].
  induction s as [|c s IH]; intros acc; simpl; [by rewrite app_nil_r|].
  destruct (Z.eqb_spec c d) as [->|].
  - pose proof (split_go_nonempty d [] s). specialize (IH []). cbn [join].
    destruct (split_go d [] s) eqn:E; [done|]. by rewrite IH.
  - rewrite IH. by rewrite <- app_assoc.
Qed.

Lemma ltrim_spec s : exists k, s = replicate k 32 ++ ltrim s /\ head (ltrim s) <> Some 32.
Proof.
  induction s as [|c s (k & IH & Hh)]; simpl; [by exists 0%nat|].
  destruct (Z.eqb_spec c 32) as [->|Hc].
  - exists (S k). split; [simpl; by f_equal|done].
  - exists 0%nat. split; [done|]. simpl. congruence.
Qed.

Lemma rtrim_spec s : exists k, s = rtrim s ++ replicate k 32 /\ list.last (rtrim s) <> Some 32.
Proof.
  induction s as [|c s (k & IH & Hh)]; simpl; [by exists 0%nat|].
  destruct (rtrim s) as [|x r] eqn:E.
  - destruct (Z.eqb_spec c 32) as [->|Hc].
    + exists (S k). split; [simpl; by f_equal|done].
    + exists k. split; [simpl; by f_equal|]. simpl. congruence.
  - exists k. split; [simpl; by f_equal|done].
Qed.

(** ** [remove_white_spaces] *)

Lemma i8_ascii c d : 0 <= c < 256 -> 0 <= d < 128 -> (i8 c =? d) = (c =? d).
Proof.
  intros Hc Hd. destruct (Z.eqb_spec c d) as [->|Hne].
  - apply Z.eqb_eq. apply i8_small. lia.
  - apply Z.eqb_neq. intros H. apply Hne, i8_inj; [lia|lia|]. rewrite H. symmetry. apply i8_small. lia.
Qed.

Lemma cstr_app m p s t : cstr m p (s ++ t) -> cstr m (p + Z.of_nat (length s)) t.
Proof.
  revert p; induction s as [|c s IH]; intros p; simpl; [by rewrite Z.add_0_r|].
  intros (_ & _ & H). apply IH in H. replace (p + Z.of_nat (S (length s))) with (p + 1 + Z.of_nat (length s)) by lia. done.
Qed.

Lemma cstr_at m p s i c : cstr m p s -> s !! i = Some c -> m !! (p + Z.of_nat i) = Some c.
Proof. intros Hs Hi. eapply cstr_lookup; [done|]. by apply lookup_app_l_Some. Qed.

Lemma skip_blanks_ok fuel m p k t :
  cstr m p (replicate k 32 ++ t) -> head t <> Some 32 -> (k < fuel)%nat ->
  skip_blanks fuel p m = Ret (p + Z.of_nat k, m).
Proof.
  revert fuel p; induction k as [|k IH]; intros [|f] p Hs Hh Hf; try lia; cbn [skip_blanks].
  - rewrite Z.add_0_r. destruct t as [|c t]; simpl in Hs.
    + by rewrite (bind_ret _ _ _ _ _ (ldc_ok _ _ _ Hs)).
    + destruct Hs as (Hc & Hl & _). rewrite (bind_ret _ _ _ _ _ (ldc_ok _ _ _ Hl)), i8_ascii by lia.
      destruct (Z.eqb_spec c 32) as [->|]; [by destruct Hh|done].
  - destruct Hs as (_ & Hl & Hs). rewrite (bind_ret _ _ _ _ _ (ldc_ok _ _ _ Hl)), i8_ascii by lia.
    rewrite Z.eqb_refl. rewrite IH by (done || lia). do 2 f_equal. lia.
Qed.

(** The [k] blanks below and at [a] become zero. *)
Lemma erase_blanks_ok fuel m a k c :
  (forall i, 0 <= i < Z.of_nat k -> m !! (a - i) = Some 32) -> m !! (a - Z.of_nat k) = Some c -> i8 c <> 32 ->
  (k < fuel)%nat ->
  exists m', erase_blanks fuel a m = Ret (tt, m') /\
    (forall x, m' !! x = if decide (a - Z.of_nat k < x <= a) then Some 0 else m !! x).
Proof.
  revert fuel m a; induction k as [|k IH]; intros [|f] m a Hb Hc Hne Hf; try lia; cbn [erase_blanks].
  - rewrite Z.sub_0_r in Hc. exists m. rewrite (bind_ret _ _ _ _ _ (ldc_ok _ _ _ Hc)).
    destruct (Z.eqb_spec (i8 c) 32); [done|]. split; [done|]. intros x. by rewrite decide_False by lia.
  - pose proof (Hb 0 ltac:(lia)) as H0. rewrite Z.sub_0_r in H0.
    rewrite (bind_ret _ _ _ _ _ (ldc_ok _ _ _ H0)), i8_ascii, Z.eqb_refl by lia.
    rewrite (bind_ret _ _ _ _ _ (st8_ok _ _ _ (mk_is_Some _ _ H0))). change (u8 0) with 0.
    destruct (IH f (<[a := 0]> m) (a - 1)) as (m' & Hrun & Hm').
    + intros i Hi. rewrite lookup_insert_ne by lia. rewrite <- (Hb (i + 1)) by lia. f_equal. lia.
    + rewrite lookup_insert_ne by lia. rewrite <- Hc. f_equal. lia.
    + done.
    + lia.
    + exists m'. split; [done|]. intros x. rewrite Hm'. destruct (decide (a - 1 - Z.of_nat k < x <= a - 1)).
      * by rewrite decide_True by lia.
      * rewrite lookup_insert. destruct (decide (a = x)); [subst; by rewrite decide_True by lia|].
        by rewrite decide_False by lia.
Qed.

(** Nothing but the bytes of the string at [p] of length [n] differs. *)
Definition changed_within (p n : Z) (m m' : bytes) : Prop :=
  forall a, ~ (p <= a < p + n) -> m' !! a = m !! a.

Lemma remove_white_spaces_ok m p s c :
  0 < p -> cstr m p s -> Z.of_nat (length s) < 2 ^ 31 -> m !! (p - 1) = Some c -> i8 c <> 32 ->
  exists q m', remove_white_spaces p m = Ret (q, m') /\ cstr m' q (trim s) /\
    p <= q /\ q + Z.of_nat (length (trim s)) <= p + Z.of_nat (length s) /\
    changed_within p (Z.of_nat (length s)) m m'.
Proof.
  intros Hp Hs Hlen Hc Hne. pose proof (cstr_size _ _ _ Hs) as Hsize.
  destruct (ltrim_spec s) as (k & Hk & Hh). set (t := ltrim s) in *.
  assert (length s = (k + length t)%nat) as Hls by (rewrite Hk, length_app, length_replicate; done).
  rewrite Hk in Hs. pose proof (cstr_app _ _ _ _ Hs) as Ht. rewrite length_replicate in Ht.
  set (q := p + Z.of_nat k) in *.
  destruct (rtrim_spec t) as (j & Hj & Hl). change (rtrim t) with (trim s) in Hj, Hl. clearbody t.
  assert (length t = (length (trim s) + j)%nat) as Hlt by (rewrite Hj, length_app, length_replicate; lia).
  set (n := if decide (t = []) then k else j).
  assert (exists d, m !! (q + Z.of_nat (length t) - 1 - Z.of_nat n) = Some d /\ i8 d <> 32) as (d & Hd & Hd32).
  { unfold n. case_decide as Ht0.
    - exists c. split; [|done]. rewrite Ht0. rewrite <- Hc. f_equal. unfold q. simpl. lia.
    - destruct (trim s) as [|x r] eqn:Et using rev_ind.
      { subst t. destruct j; [by destruct Ht0|by destruct Hh]. }
      rewrite list.last_snoc in Hl. exists x.
      assert (t !! length r = Some x) as Hx by (rewrite Hj, <- app_assoc; by apply list_lookup_middle).
      assert (0 < x < 256) as Hxr.
      { pose proof (cstr_chars _ _ _ Ht) as Hall. rewrite Forall_lookup in Hall. by apply (Hall _ _ Hx). }
      split; [|intros E; apply Hl; f_equal; apply i8_inj; [lia|lia|by rewrite E]].
      rewrite <- (cstr_at _ _ _ _ _ Ht Hx). f_equal. rewrite Hlt, length_app. simpl. lia. }
  destruct (erase_blanks_ok (S (size m)) m (q + Z.of_nat (length t) - 1) n d) as (m' & Hrun & Hm');
    [|done|done|unfold n; case_decide; lia|].
  { intros i Hi. unfold n in Hi. case_decide as Ht0.
    - rewrite <- (cstr_at _ _ _ (Z.to_nat (Z.of_nat k - 1 - i)) 32 Hs).
      + f_equal. rewrite Ht0. unfold q. simpl. lia.
      + apply lookup_app_l_Some. apply lookup_replicate. split; [done|lia].
    - rewrite <- (cstr_at _ _ _ (Z.to_nat (Z.of_nat (length t) - 1 - i)) 32 Ht).
      + f_equal. lia.
      + rewrite Hlt, Hj, lookup_app_r by lia. apply lookup_replicate. split; [done|lia]. }
  exists q, m'. split_and!.
  - unfold remove_white_spaces, str_fuel, gets. rewrite (bind_ret _ _ _ _ _ eq_refl).
    rewrite (bind_ret _ _ _ _ _ (skip_blanks_ok (S (size m)) _ _ _ _ Hs Hh ltac:(lia))). fold q.
    unfold libc_strlen. rewrite (bind_ret _ _ _ _ _ (strlen_ok m q t ltac:(lia) Ht)).
    rewrite i32_small by lia. replace (q + (Z.of_nat (length t) - 1)) with (q + Z.of_nat (length t) - 1) by lia.
    by rewrite (bind_ret _ _ _ _ _ Hrun).
  - apply cstr_of_lookup.
    { pose proof (cstr_chars _ _ _ Ht) as Hall. rewrite Hj in Hall. by apply Forall_app in Hall as [? _]. }
    intros i x Hx. rewrite Hm'. pose proof (lookup_lt_Some _ _ _ Hx) as Hi. rewrite length_app in Hi. simpl in Hi.
    apply lookup_app_Some in Hx as [Hx|[Hge Hx]].
    + apply lookup_lt_Some in Hx as Hi'. rewrite decide_False.
      * apply (cstr_at _ _ _ _ _ Ht). rewrite Hj. by apply lookup_app_l_Some.
      * unfold n. case_decide as Ht0; [rewrite Ht0 in Hlt; simpl in Hlt; lia|lia].
    + apply list_lookup_singleton_Some in Hx as [Hx <-]. case_decide as Hr; [done|].
      assert (i = length t) as ->; [unfold n in Hr; case_decide as Ht0; [rewrite Ht0 in *; simpl in *; lia|lia]|].
      apply (cstr_lookup _ _ _ _ _ Ht). by rewrite list_lookup_middle.
  - lia.
  - unfold q. lia.
  - intros a Ha. rewrite Hm', decide_False; [done|]. unfold n, q in *. case_decide as Ht0; [rewrite Ht0 in *; simpl in *; lia|lia].
Qed.

(** ** [parse_split] *)

(** A command between the addresses [lo] and [e], with the text [t]. *)
Definition command_at (m : bytes) (lo e p : Z) (t : list Z) : Prop := cstr m p t /\ lo <= p /\ p + Z.of_nat (length t) < e.

Lemma commands_kept m m' lo e p n ps ts :
  changed_within p n m m' -> e <= p ->
  Forall2 (command_at m lo e) ps ts -> Forall2 (command_at m' lo e) ps ts.
Proof.
  intros Hch He. apply Forall2_impl. intros q t [Hq Hlt]. split; [|done].
  eapply cstr_agree; [done|]. intros i Hi. apply Hch. lia.
Qed.

Lemma commands_mono m lo e e' ps ts : e <= e' -> Forall2 (command_at m lo e) ps ts -> Forall2 (command_at m lo e') ps ts.
Proof. intros He. apply Forall2_impl. intros q t (Hq & Hlo & Hlt). split_and!; [done|done|lia]. Qed.

Lemma changed_within_trans p n p' n' m1 m2 m3 :
  changed_within p n m1 m2 -> changed_within p' n' m2 m3 -> p <= p' -> p' + n' <= p + n ->
  changed_within p n m1 m3.
Proof. intros H1 H2 Hp Hn a Ha. rewrite H2 by lia. by apply H1. Qed.

Lemma changed_within_mono p n p' n' m m' :
  changed_within p n m m' -> p' <= p -> p + n <= p' + n' -> changed_within p' n' m m'.
Proof. intros H Hp Hn a Ha. apply H. lia. Qed.

Lemma push_command_ok cap cmds p m : (length cmds < cap)%nat -> push_command cap cmds p m = Ret (cmds ++ [p], m).
Proof. intros H. unfold push_command. by rewrite decide_True. Qed.

(** Ending a piece: the byte behind it becomes zero and the piece is trimmed. *)
Lemma end_piece m a piece b rest c :
  0 < a -> cstr m a (piece ++ b :: rest) -> Z.of_nat (length piece) < 2 ^ 31 ->
  m !! (a - 1) = Some c -> i8 c <> 32 ->
  let e := a + Z.of_nat (length piece) in
  exists q m', (st8 e 0 ≫= fun _ => remove_white_spaces a) m = Ret (q, m') /\
    command_at m' a (e + 1) q (trim piece) /\ cstr m' (e + 1) rest /\ m' !! e = Some 0 /\
    changed_within a (Z.of_nat (length piece) + 1) m m'.
Proof.
  intros Ha Hs Hlen Hc Hne e. pose proof (cstr_app _ _ _ _ Hs) as Hb. fold e in Hb. destruct Hb as (Hb & Hbl & Hrest).
  assert (cstr (<[e := 0]> m) a piece) as Hp.
  { apply cstr_of_lookup; [pose proof (cstr_chars _ _ _ Hs) as Hall; by apply Forall_app in Hall as [? _]|].
    intros i x Hx. apply lookup_app_Some in Hx as [Hx|[Hge Hx]].
    - apply lookup_lt_Some in Hx as Hi. rewrite lookup_insert_ne by lia.
      apply (cstr_at _ _ _ _ _ Hs). by apply lookup_app_l_Some.
    - apply list_lookup_singleton_Some in Hx as [Hx <-]. replace (a + Z.of_nat i) with e by lia.
      apply lookup_insert_eq. }
  destruct (remove_white_spaces_ok (<[e := 0]> m) a piece c) as (q & m' & Hrun & Hq & Hlo & Hhi & Hch);
    [done|done|done|by rewrite lookup_insert_ne by lia|done|].
  exists q, m'. split_and!.
  - by rewrite (bind_ret _ _ _ _ _ (st8_ok _ _ _ (mk_is_Some _ _ Hbl))).
  - split_and!; [done|lia|lia].
  - eapply cstr_agree; [exact Hrest|]. intros i Hi. rewrite Hch by lia. apply lookup_insert_ne. lia.
  - rewrite Hch by lia. apply lookup_insert_eq.
  - intros x Hx. rewrite Hch by lia. apply lookup_insert_ne. lia.
Qed.

(** The loop with its epilogue. *)
Definition split_rest (fuel cap : nat) (input delimiter i last : Z) (cmds : list Z) : M bytes (list Z) :=
  split_loop fuel cap input delimiter i last cmds ≫= fun '(last, cmds) =>
  p ← remove_white_spaces (input + last + 1);
  cmds' ← push_command cap cmds p;
  if decide (length cmds' < cap)%nat then mret cmds' else mfault.

(** The state of the loop: [piece] has been read since [last], [rest] is still to come. *)
Record split_inv (m : bytes) (input last : Z) (piece rest : list Z) (cmds : list Z) (done : list (list Z)) : Prop := {
  si_text : cstr m (input + last + 1) (piece ++ rest);
  si_before : exists c, m !! (input + last) = Some c /\ i8 c <> 32;
  si_done : Forall2 (command_at m input (input + last + 1)) cmds done;
  si_low : 0 < input + last + 1 /\ -1 <= last;
  si_len : Z.of_nat (length (piece ++ rest)) < 2 ^ 31
}.

Lemma split_rest_ok cap input d rest : forall fuel m piece last i cmds done,
  0 < d < 128 -> split_inv m input last piece rest cmds done -> i = last + 1 + Z.of_nat (length piece) ->
  (length rest < fuel)%nat -> (length cmds + length (split_go d piece rest) < cap)%nat ->
  exists cmds' m', split_rest fuel cap input d i last cmds m = Ret (cmds', m') /\
    Forall2 (command_at m' input (input + last + 2 + Z.of_nat (length (piece ++ rest)))) cmds' (done ++ (trim <$> split_go d piece rest)) /\
    changed_within (input + last + 1) (Z.of_nat (length (piece ++ rest))) m m'.
Proof.
  induction rest as [|c rest IH]; intros [|f] m piece last i cmds done Hd Hinv -> Hf Hcap;
    cbn [length] in Hf; try lia; destruct Hinv as [Ht (c0 & Hc0 & Hne) Hdone [Hlow Hlast] Hlen];
    unfold split_rest; cbn [split_loop split_go] in *;
    replace (input + (last + 1 + Z.of_nat (length piece))) with (input + last + 1 + Z.of_nat (length piece)) by lia;
    pose proof (cstr_app _ _ _ _ Ht) as Hr; cbn [cstr] in Hr.
  - rewrite (bind_ret _ _ _ (last, cmds) m).
    2: { by rewrite (bind_ret _ _ _ _ _ (ldc_ok _ _ _ Hr)). }
    rewrite app_nil_r in *. cbn [length] in Hcap.
    destruct (remove_white_spaces_ok m (input + last + 1) piece c0) as (q & m' & Hrun & Hq & Hlo & Hhi & Hch);
      [done|done|done|by replace (input + last + 1 - 1) with (input + last) by lia|done|].
    exists (cmds ++ [q]), m'. rewrite (bind_ret _ _ _ _ _ Hrun), (bind_ret _ _ _ _ _ (push_command_ok cap cmds q m' ltac:(lia))).
    rewrite decide_True by (rewrite length_app; simpl; lia). split_and!; [done| |done].
    apply Forall2_app; [|constructor; [split_and!; [done|lia|lia]|constructor]].
    apply (commands_mono _ _ (input + last + 1)); [lia|]. eapply commands_kept; [exact Hch|lia|exact Hdone].
  - destruct Hr as (Hc & Hcl & Hr).
    destruct (Z.eqb_spec c d) as [->|Hcd].
    + cbn [length] in Hcap.
      destruct (end_piece m (input + last + 1) piece d rest c0) as (q & m' & Hrun & Hq & Hrest & Hz & Hch);
        [done|done|rewrite length_app in Hlen; lia|by replace (input + last + 1 - 1) with (input + last) by lia|done|].
      set (e := input + last + 1 + Z.of_nat (length piece)) in *.
      assert (input + (last + 1 + Z.of_nat (length piece)) = e) as Hie by (unfold e; lia).
      destruct (IH f m' [] (last + 1 + Z.of_nat (length piece)) (last + 1 + Z.of_nat (length piece) + 1) (cmds ++ [q]) (done ++ [trim piece]))
        as (cmds' & m2 & Hrun2 & Hall & Hch2); [done| |simpl; lia|lia|rewrite length_app; simpl; lia|].
      { split; rewrite ?Hie; cbn [app]; [done|by exists 0| |split; unfold e; lia|rewrite length_app in Hlen; cbn [length] in Hlen; lia].
        apply Forall2_app; [|constructor; [destruct Hq as (? & ? & ?); split_and!; [done|lia|lia]|constructor]].
        apply (commands_mono _ _ (input + last + 1)); [unfold e; lia|]. eapply commands_kept; [exact Hch|done|exact Hdone]. }
      exists cmds', m2. split_and!.
      * rewrite <- Hrun2. unfold split_rest, mbind, M_bind. unfold mbind, M_bind in Hrun. clear Hrun2 IH.
        rewrite (ldc_ok _ _ _ Hcl). cbn beta iota. rewrite (i8_byte d), (i8_ascii d d) by lia.
        destruct (Z.eqb_spec d 0); [lia|]. rewrite Z.eqb_refl. destruct (st8 e 0 m) as [[[] m1]| |]; [|done..].
        rewrite Hrun. cbn beta iota. by rewrite (push_command_ok cap cmds q m' ltac:(lia)).
      * rewrite fmap_cons. rewrite <- app_assoc in Hall. eapply commands_mono; [|exact Hall].
        rewrite !length_app. cbn [length app]. unfold e in *. lia.
      * rewrite Hie in Hch2. eapply changed_within_trans; [eapply changed_within_mono; [exact Hch|..]|exact Hch2|..];
          rewrite ?length_app in *; cbn [length app] in *; unfold e; lia.
    + destruct (IH f m (piece ++ [c]) last (last + 1 + Z.of_nat (length (piece ++ [c]))) cmds done)
        as (cmds' & m2 & Hrun2 & Hall & Hch2); [done| |done|lia|done|].
      { split; rewrite <- ?app_assoc; [done|by exists c0|done|done|done]. }
      exists cmds', m2. rewrite <- app_assoc in Hch2, Hall. split_and!; [|done|done].
      rewrite <- Hrun2. unfold split_rest, mbind, M_bind. clear Hrun2 IH. rewrite (ldc_ok _ _ _ Hcl). cbn beta iota.
      rewrite (i8_byte c), (i8_ascii c d) by lia. destruct (Z.eqb_spec c 0); [lia|].
      destruct (Z.eqb_spec c d); [done|].
      by replace (last + 1 + Z.of_nat (length piece) + 1) with (last + 1 + Z.of_nat (length (piece ++ [c])))
        by (rewrite length_app; simpl; lia).
Qed.

Lemma parse_split_ok cap m input s d c :
  0 < d < 128 -> 0 < input -> cstr m input s -> Z.of_nat (length s) < 2 ^ 31 ->
  m !! (input - 1) = Some c -> i8 c <> 32 -> (length (split_on d s) < cap)%nat ->
  exists cmds m', parse_split cap input d m = Ret (cmds, m') /\
    Forall2 (command_at m' input (input + Z.of_nat (length s) + 1)) cmds (trim <$> split_on d s) /\
    changed_within input (Z.of_nat (length s)) m m'.
Proof.
  intros Hd Hin Hs Hlen Hc Hne Hcap. pose proof (cstr_size _ _ _ Hs) as Hsize.
  destruct (split_rest_ok cap input d s (S (size m)) m [] (-1) 0 [] []) as (cmds & m' & Hrun & Hall & Hch);
    [done| |done|lia|done|].
  { replace (input - 1) with (input + -1) in Hc by lia. split; replace (input + -1 + 1) with input by lia; [eauto..|split; lia|done]. }
  replace (input + -1 + 1) with input in Hch by lia.
  replace (input + -1 + 2) with (input + 1) in Hall by lia. exists cmds, m'. split_and!; [| |done].
  2: { eapply commands_mono; [|exact Hall]. simpl. lia. }
  unfold parse_split, str_fuel, gets. rewrite (bind_ret _ _ _ _ _ eq_refl). exact Hrun.
Qed.

(** C29: [parse_split] splits: on a line in memory (behind a byte that is not a blank), with room
    for all pieces in the array of pointers, it returns one pointer for every piece of the line
    between delimiters, in order, each into the line and to the text of the piece without the
    blanks around it; only bytes of the line change. *)
Theorem parse_split_splits cap m input s d c :
  0 < d < 128 -> 0 < input -> cstr m input s -> Z.of_nat (length s) < 2 ^ 31 ->
  m !! (input - 1) = Some c -> i8 c <> 32 -> (length (split_on d s) < cap)%nat ->
  exists cmds m', parse_split cap input d m = Ret (cmds, m') /\
    Forall2 (command_at m' input (input + Z.of_nat (length s) + 1)) cmds (trim <$> split_on d s) /\
    changed_within input (Z.of_nat (length s)) m m'.
Proof. apply parse_split_ok. Qed.

(** a blank word is not harmless: for a string of blanks [remove_white_spaces] goes on below
    its start and erases every blank it finds there. *)
Theorem remove_white_spaces_below m p k j c :
  0 < p -> (0 < k)%nat -> Z.of_nat k < 2 ^ 31 -> cstr m p (replicate k 32) ->
  (forall i, 1 <= i <= Z.of_nat j -> m !! (p - i) = Some 32) -> m !! (p - Z.of_nat j - 1) = Some c -> i8 c <> 32 ->
  exists m', remove_white_spaces p m = Ret (p + Z.of_nat k, m') /\
    (forall i, 1 <= i <= Z.of_nat j -> m' !! (p - i) = Some 0).
Proof.
  intros Hp Hk Hkl Hs Hb Hc Hne. rewrite <- (app_nil_r (replicate k 32)) in Hs.
  pose proof (cstr_app _ _ _ _ Hs) as Hz. rewrite length_replicate in Hz.
  assert (k + j < size m)%nat as Hsize.
  { apply (mapped_size m (p - Z.of_nat j) (S (k + j))). intros i Hi. destruct (decide (i < Z.of_nat j)).
    - exists 32. rewrite <- (Hb (Z.of_nat j - i)) by lia. f_equal. lia.
    - replace (p - Z.of_nat j + i) with (p + (i - Z.of_nat j)) by lia. eapply cstr_mapped; [exact Hs|].
      rewrite length_app, length_replicate. simpl. lia. }
  destruct (erase_blanks_ok (S (size m)) m (p + Z.of_nat k - 1) (k + j) c) as (m' & Hrun & Hm').
  - intros i Hi. destruct (decide (i < Z.of_nat k)).
    + rewrite <- (cstr_at _ _ _ (Z.to_nat (Z.of_nat k - 1 - i)) 32 Hs); [f_equal; lia|].
      apply lookup_app_l_Some. apply lookup_replicate. split; [done|lia].
    + rewrite <- (Hb (i - Z.of_nat k + 1)) by lia. f_equal. lia.
  - rewrite <- Hc. f_equal. lia.
  - done.
  - lia.
  - exists m'. split.
    + unfold remove_white_spaces, str_fuel, gets. rewrite (bind_ret _ _ _ _ _ eq_refl).
      rewrite (bind_ret _ _ _ _ _ (skip_blanks_ok (S (size m)) _ _ _ _ Hs ltac:(done) ltac:(lia))).
      unfold libc_strlen. rewrite (bind_ret _ _ _ _ _ (strlen_ok m (p + Z.of_nat k) [] ltac:(lia) Hz)).
      change (i32 (Z.of_nat (length []))) with 0. replace (p + Z.of_nat k + (0 - 1)) with (p + Z.of_nat k - 1) by lia.
      by rewrite (bind_ret _ _ _ _ _ Hrun).
    + intros i Hi. rewrite Hm', decide_True by lia. done.
Qed.

(** ** Witnesses *)

(** A zero byte, then the line "ls  a". *)
Definition demo_line : bytes := write_bytes 99 [0; 108; 115; 32; 32; 97; 0] ∅.

Lemma demo_line_text : cstr demo_line 100 [108; 115; 32; 32; 97].
Proof. apply cstrb_sound. vm_compute. reflexivity. Qed.

Lemma parse_split_splits_witness :
  exists cmds m', parse_split 8 100 32 demo_line = Ret (cmds, m') /\
    Forall2 (command_at m' 100 106) cmds [[108; 115]; []; [97]].
Proof.
  destruct (parse_split_splits 8 demo_line 100 [108; 115; 32; 32; 97] 32 0) as (cmds & m' & H1 & H2 & _);
    [lia|lia|exact demo_line_text|reflexivity|reflexivity|discriminate|vm_compute; lia|].
  exists cmds, m'. split; [exact H1|exact H2].
Defined.

(** A zero byte, two blanks and then the string of one blank at 103. *)
Definition demo_blanks : bytes := write_bytes 100 [0; 32; 32; 32; 0] ∅.

Lemma demo_blanks_text : cstr demo_blanks 103 (replicate 1 32).
Proof. apply cstrb_sound. vm_compute. reflexivity. Qed.

Lemma remove_white_spaces_below_witness :
  exists m', remove_white_spaces 103 demo_blanks = Ret (104, m') /\ m' !! 101 = Some 0.
Proof.
  destruct (remove_white_spaces_below demo_blanks 103 1 2 0) as (m' & H1 & H2);
    [lia|lia|reflexivity|exact demo_blanks_text| |reflexivity|discriminate|].
  - intros i Hi. assert (i = 1 \/ i = 2) as [->| ->] by lia; reflexivity.
  - exists m'. split; [exact H1|]. exact (H2 2 ltac:(lia)).
Defined.
