(* ===== verification/Terminal.v ===== *)
(** * The terminal ([sys/terminal.c], [printInputChar] of [sys/kprintf.c])

    The keyboard interrupt handler appends to [term_buf]; a reading process polls
    [index] and copies the characters into its own buffer.  One iteration of the polling
    loop is one step; the interleaving of keys and polls is an explicit sequence of
    events. *)

From S2P Require Import Prelude CStr Console.

Definition TERM_BUF_SIZE : Z := 256.

(** Addresses the linker gives to the string literals of the calls modelled here. *)
Class Literals := {
  lit_char : Z;     (* "%c" *)
  lit_newline : Z   (* "\n" *)
}.

Record tty := Tty {
  con : console;
  term_buf : list Z;
  index : Z
}.

Definition set_con (c : console) (s : tty) : tty := Tty c (term_buf s) (index s).
Definition on_con {A} (c : M console A) : M tty A := zoom con set_con c.

(** [term_buf[i]], faulting outside the array. *)
Definition term_get (i : Z) : M tty Z := fun s =>
  if i <? 0 then Fault else
  match term_buf s !! Z.to_nat i with Some c => Ret (c, s) | None => Fault end.
Definition term_set (i v : Z) : M tty unit := fun s =>
  if i <? 0 then Fault else
  match term_buf s !! Z.to_nat i with
  | Some _ => Ret (tt, Tty (con s) (<[Z.to_nat i := v]> (term_buf s)) (index s))
  | None => Fault
  end.
Definition set_index (i : Z) : M tty unit := modify (fun s => Tty (con s) (term_buf s) (u16 i)).

Definition reset_term_inp_buffer : M tty unit :=
  modify (fun s => Tty (con s) (replicate (Z.to_nat TERM_BUF_SIZE) 0) 0).

(** [ctrs[i]] for a character array given as the list of its bytes. *)
Definition char_at (ctrs : list Z) (i : nat) : M tty Z := deref (ctrs !! i).

Section terminal.
Context {L : Literals}.

(** The writes [term_buf[index++] = v] and [term_buf[index--] = v]. *)
Definition on_new_char_recvd (ctrs : list Z) : M tty unit :=
  c1 ← char_at ctrs 1; c0 ← char_at ctrs 0;
  if (c1 =? 72) && (c0 =? 94) then
    i ← gets index;
    if i =? 0 then mret tt else
    term_set i 0 ≫= fun _ => set_index (i - 1) ≫= fun _ =>
    on_con handle_video_mem_backspace
  else if (c1 =? 114) && (c0 =? 92) then
    i ← gets index;
    term_set i 10 ≫= fun _ => set_index (i + 1) ≫= fun _ =>
    on_con (kprintf lit_newline [])
  else
    i ← gets index;
    term_set i c0 ≫= fun _ => set_index (i + 1) ≫= fun _ =>
    on_con (kprintf lit_char [c0]).

(** The status line: [char buf[15] = "Input: "] at 0 and the characters at 100 of a local
    memory. *)
Definition input_label : list Z := [73; 110; 112; 117; 116; 58; 32].

Definition input_array (c : list Z) : bytes :=
  write_bytes 0 (input_label ++ replicate 8 0) (write_bytes 100 c ∅).

Fixpoint show_input (fuel : nat) (b : bytes) (address str i : Z) : M console unit :=
  match fuel with
  | O => mfuel
  | S f => ch ← rd_local b (str + i);
           if ch =? 0 then mret tt
           else on_mem (st8 (address + 2 * i) ch) ≫= fun _ => show_input f b address str (i + 1)
  end.

Definition printInputChar (c : list Z) : M tty unit :=
  on_new_char_recvd c ≫= fun _ =>
  on_con (
    let address := getAddress VIDEO_MEM_ROWS 0 in
    on_mem (for_loop 15 0 (fun j =>
      st8 (address + 2 * j) 32 ≫= fun _ => st8 (address + 2 * j + 1) 2)) ≫= fun _ =>
    match strcat 0 100 (input_array c) with
    | Ret (str, b) => show_input 16 b address str 0
    | Fault => mfault
    | OutOfFuel => mfuel
    end).

(** [terminal_write]: the buffer is in memory. *)
Definition terminal_write (buffer len : Z) : M tty Z :=
  if len <=? 0 then mret 0 else
  for_loop (Z.to_nat len) 0 (fun i =>
    c ← on_con (on_mem (ldc (buffer + i))); on_con (kprintf lit_char [c])) ≫= fun _ =>
  mret len.

(** ** [terminal_read] *)

(** A call of [terminal_read]: waiting, with its [last_index], or returned. *)
Inductive reader := Waiting (last_index : Z) | Returned (r : Z).

Definition read_start (len : Z) : M tty reader :=
  if len =? 0 then mret (Returned 0) else
  reset_term_inp_buffer ≫= fun _ => i ← gets index; mret (Waiting i).

(** One iteration of [while (1)]. *)
Definition read_poll (buf len last_index : Z) : M tty reader :=
  i ← gets index;
  if last_index =? i then mret (Waiting last_index) else
  c ← term_get (i - 1);
  if c =? 10 then reset_term_inp_buffer ≫= fun _ => mret (Returned (i - 1)) else
  on_con (on_mem (st8 (buf + (i - 1)) c)) ≫= fun _ =>
  if i =? len then reset_term_inp_buffer ≫= fun _ => mret (Returned len)
  else mret (Waiting i).

(** What can happen while a process reads: a key arrives, or the reader polls. *)
Inductive event := Key (ctrs : list Z) | Poll.

Definition read_event (buf len : Z) (r : reader) (e : event) : M tty reader :=
  match e with
  | Key ctrs => on_new_char_recvd ctrs ≫= fun _ => mret r
  | Poll => match r with Waiting li => read_poll buf len li | Returned _ => mret r end
  end.

Fixpoint read_events (buf len : Z) (r : reader) (es : list event) : M tty reader :=
  match es with
  | [] => mret r
  | e :: es' => r' ← read_event buf len r e; read_events buf len r' es'
  end.

Definition terminal_read (buf len : Z) (es : list event) : M tty reader :=
  r ← read_start len; read_events buf len r es.

End terminal.

#[global] Arguments on_con : simpl never.
#[global] Arguments term_get : simpl never.
#[global] Arguments term_set : simpl never.

(** ** The invariant *)

Section terminal_spec.
Context {L : Literals}.

(** The literals are in memory, outside the screen. *)
Record lits_ok (m : bytes) : Prop := {
  lit_char_ok : cstr m lit_char [37; 99];
  lit_char_off : off_screen lit_char 3;
  lit_newline_ok : cstr m lit_newline [10];
  lit_newline_off : off_screen lit_newline 2
}.

Record tty_inv (s : tty) : Prop := {
  ti_con : con_inv (con s);
  ti_lits : lits_ok (mem (con s));
  ti_len : Z.of_nat (length (term_buf s)) = TERM_BUF_SIZE;
  ti_index : 0 <= index s <= TERM_BUF_SIZE
}.

Lemma lits_screen m m' : lits_ok m -> screen_only m m' -> lits_ok m'.
Proof. intros [H1 H2 H3 H4] Ho. split; [by eapply cstr_screen_only| |by eapply cstr_screen_only|]; done. Qed.

Lemma tty_inv_con s c tb i :
  tty_inv s -> con_step (con s) c -> Z.of_nat (length tb) = TERM_BUF_SIZE -> 0 <= i <= TERM_BUF_SIZE ->
  tty_inv (Tty c tb i).
Proof. intros [_ Hl _ _] [Hc Ho _] Htb Hi. split; [done|by eapply lits_screen|done|done]. Qed.

Lemma term_set_ok s i v :
  0 <= i < Z.of_nat (length (term_buf s)) ->
  term_set i v s = Ret (tt, Tty (con s) (<[Z.to_nat i := v]> (term_buf s)) (index s)).
Proof.
  intros Hi. unfold term_set. destruct (Z.ltb_spec i 0); [lia|].
  destruct (lookup_lt_is_Some_2 (term_buf s) (Z.to_nat i)) as [x ->]; [lia|done].
Qed.

Lemma term_set_over s i v : Z.of_nat (length (term_buf s)) <= i -> term_set i v s = Fault.
Proof.
  intros Hi. unfold term_set. destruct (Z.ltb_spec i 0); [done|].
  by rewrite lookup_ge_None_2 by lia.
Qed.

Lemma set_index_ok i s : set_index i s = Ret (tt, Tty (con s) (term_buf s) (u16 i)).
Proof. done. Qed.

Lemma print_literal s fmt fs va t :
  con_inv s -> cstr (mem s) fmt fs -> off_screen fmt (Z.of_nat (length fs) + 1) ->
  renders (mem s) fs va t -> exists s', kprintf fmt va s = Ret (tt, s') /\ con_step s s'.
Proof. intros. rewrite (kprintf_renders s fmt fs va t) by done. by apply print_chars_ok. Qed.

Lemma kprintf_char s c :
  con_inv s -> lits_ok (mem s) -> exists s', kprintf lit_char [c] s = Ret (tt, s') /\ con_step s s'.
Proof.
  intros Hinv [H1 H2 _ _]. apply (print_literal s lit_char [37; 99] [c] ([i8 c] ++ [])); [done..|].
  by apply (renders_spec _ 99 CHAR); [| |constructor].
Qed.

Lemma kprintf_newline s :
  con_inv s -> lits_ok (mem s) -> exists s', kprintf lit_newline [] s = Ret (tt, s') /\ con_step s s'.
Proof.
  intros Hinv [_ _ H1 H2]. apply (print_literal s lit_newline [10] [] [i8 10]); [done..|].
  by constructor; [|constructor].
Qed.

(** ** Keys *)

Definition plain_key (c : Z) : list Z := [c; 0].
Definition enter_key : list Z := [92; 114; 0].
Definition backspace_key : list Z := [94; 72; 0].

(** What a key other than backspace stores. *)
Definition key_char (ctrs : list Z) : option Z :=
  match ctrs with
  | c0 :: c1 :: _ =>
      if (c1 =? 72) && (c0 =? 94) then None
      else if (c1 =? 114) && (c0 =? 92) then Some 10 else Some c0
  | _ => None
  end.

(** A key that stores a character, below the capacity of the buffer. *)
Lemma on_new_char_ok s ctrs c :
  tty_inv s -> key_char ctrs = Some c -> index s < TERM_BUF_SIZE ->
  exists k, on_new_char_recvd ctrs s =
      Ret (tt, Tty k (<[Z.to_nat (index s) := c]> (term_buf s)) (index s + 1)) /\ con_step (con s) k.
Proof.
  intros [Hc Hl Hlen Hi] Hk Hlt. destruct ctrs as [|c0 [|c1 r]]; [done..|]. cbn [key_char] in Hk.
  unfold on_new_char_recvd, char_at. cbn [lookup list_lookup deref].
  rewrite !(bind_ret _ _ _ _ _ eq_refl).
  assert (forall v, term_set (index s) v s = Ret (tt, Tty (con s) (<[Z.to_nat (index s) := v]> (term_buf s)) (index s)))
    as Hset by (intros v; apply term_set_ok; lia).
  assert (u16 (index s + 1) = index s + 1) as Hu by (apply u16_small; unfold TERM_BUF_SIZE in *; lia).
  destruct ((c1 =? 72) && (c0 =? 94)); [done|].
  unfold gets. destruct ((c1 =? 114) && (c0 =? 92)); injection Hk as <-;
    rewrite (bind_ret _ _ _ _ _ eq_refl).
  - destruct (kprintf_newline (con s) Hc Hl) as (k & Hrun & Hk).
    exists k. split; [|done]. rewrite (bind_ret _ _ _ _ _ (Hset 10)), (bind_ret _ _ _ _ _ (set_index_ok _ _)), Hu.
    exact (zoom_ret con set_con _ (Tty (con s) _ _) tt k Hrun).
  - destruct (kprintf_char (con s) c0 Hc Hl) as (k & Hrun & Hk).
    exists k. split; [|done]. rewrite (bind_ret _ _ _ _ _ (Hset c0)), (bind_ret _ _ _ _ _ (set_index_ok _ _)), Hu.
    exact (zoom_ret con set_con _ (Tty (con s) _ _) tt k Hrun).
Qed.

(** the terminal buffer has no bounds check: when 256 characters have been typed since
    the last reset, the next key that stores a character writes outside [term_buf]. *)
Theorem term_buf_overflow s ctrs c :
  tty_inv s -> key_char ctrs = Some c -> index s = TERM_BUF_SIZE ->
  on_new_char_recvd ctrs s = Fault.
Proof.
  intros [_ _ Hlen _] Hk Hi. destruct ctrs as [|c0 [|c1 r]]; [done..|]. cbn [key_char] in Hk.
  unfold on_new_char_recvd, char_at. cbn [lookup list_lookup deref].
  rewrite !(bind_ret _ _ _ _ _ eq_refl). destruct ((c1 =? 72) && (c0 =? 94)); [done|].
  unfold gets. destruct ((c1 =? 114) && (c0 =? 92)); rewrite (bind_ret _ _ _ _ _ eq_refl);
    unfold mbind at 1, M_bind; by rewrite term_set_over by lia.
Qed.

(** ** Reading a line *)

(** A key followed by one or more polls. *)
Definition polled (ctrs : list Z) (n : nat) : list event := Key ctrs :: Poll :: replicate n Poll.

(** A line typed at a terminal that is being read: each character with the number of
    further polls before the next key, then the enter key. *)
Fixpoint typed (l : list (Z * nat)) (n : nat) : list event :=
  match l with
  | [] => polled enter_key n
  | (c, k) :: l' => polled (plain_key c) k ++ typed l' n
  end.

Lemma read_events_app buf len r es es' s r' s' :
  read_events buf len r es s = Ret (r', s') ->
  read_events buf len r (es ++ es') s = read_events buf len r' es' s'.
Proof.
  revert r s; induction es as [|e es IH]; intros r s; [by intros [= -> ->]|].
  cbn [read_events app]. unfold mbind, M_bind. destruct (read_event buf len r e s) as [[r1 s1]| |]; [|done..].
  apply IH.
Qed.

(** Polls that find nothing new. *)
Lemma idle_polls buf len n s r :
  (forall li, r = Waiting li -> li = index s) -> read_events buf len r (replicate n Poll) s = Ret (r, s).
Proof.
  intros Hr. induction n as [|n IH]; [done|]. cbn [replicate read_events read_event].
  rewrite (bind_ret _ _ _ r s); [done|]. destruct r as [li|]; [|done].
  unfold read_poll, gets. rewrite (bind_ret _ _ _ _ _ eq_refl), (Hr li eq_refl), Z.eqb_refl. done.
Qed.

(** The reader's buffer: mapped, off the screen, apart from the literals. *)
Record user_buffer (m : bytes) (buf n : Z) : Prop := {
  ub_room : room m buf n;
  ub_off : off_screen buf n;
  ub_char : disjoint_regions buf n lit_char 3;
  ub_newline : disjoint_regions buf n lit_newline 2
}.

Lemma con_inv_write c a v :
  con_inv c -> is_Some (mem c !! a) -> con_inv (set_mem (<[a := u8 v]> (mem c)) c).
Proof.
  intros [H1 H2 H3 H4] Ha. split; simpl; [done|done|by apply room_insert|by apply byte_range_insert].
Qed.

Lemma lits_write m buf n a v :
  lits_ok m -> user_buffer m buf n -> buf <= a < buf + n -> lits_ok (<[a := v]> m).
Proof.
  intros [H1 H2 H3 H4] [_ _ Hc Hn] Ha. unfold disjoint_regions in *.
  split; [| done| |done]; (eapply cstr_agree; [eassumption|]); intros i Hi; cbn [length] in Hi;
    apply lookup_insert_ne; lia.
Qed.

(** The state of the reader after [k] characters have been typed and copied. *)
Record reading (s : tty) (buf n k : Z) (seen : list Z) : Prop := {
  rd_inv : tty_inv s;
  rd_index : index s = k;
  rd_count : k = Z.of_nat (length seen);
  rd_user : user_buffer (mem (con s)) buf n;
  rd_seen : forall i c, seen !! i = Some c -> mem (con s) !! (buf + Z.of_nat i) = Some (u8 c)
}.

(** Memory outside the video memory is as in [m]. *)
Definition video_only (m m' : bytes) : Prop :=
  forall a, ~ (VIDEO_BASE_ADDRESS <= a < VIDEO_BASE_ADDRESS + (SCREEN + 160)) -> m' !! a = m !! a.

Lemma lits_video m m' : lits_ok m -> video_only m m' -> lits_ok m'.
Proof.
  intros [H1 H2 H3 H4] Ho. split; [|done| |done]; (eapply cstr_agree; [eassumption|]);
    intros i Hi; cbn [length] in Hi; apply Ho; unfold off_screen, disjoint_regions in *; lia.
Qed.

Lemma video_only_con m m' : screen_only m m' -> video_only m m'.
Proof. intros Ho a Ha. apply Ho. unfold SCREEN in *. lia. Qed.

(** A key has stored the character [c]. *)
Record struck (s s1 : tty) (c : Z) : Prop := {
  sk_inv : tty_inv s1;
  sk_index : index s1 = index s + 1;
  sk_char : term_buf s1 !! Z.to_nat (index s) = Some c;
  sk_memory : video_only (mem (con s)) (mem (con s1))
}.

Lemma key_struck s ctrs c :
  tty_inv s -> key_char ctrs = Some c -> index s < TERM_BUF_SIZE ->
  exists s1, on_new_char_recvd ctrs s = Ret (tt, s1) /\ struck s s1 c.
Proof.
  intros Hinv Hk Hlt. destruct (on_new_char_ok s ctrs c Hinv Hk Hlt) as (k & Hrun & Hs). pose proof Hinv as [_ _ Hlen Hi].
  eexists. split; [exact Hrun|]. split; [|done| |by apply video_only_con, Hs].
  - eapply tty_inv_con; [done|done|by rewrite length_insert|lia].
  - cbn [term_buf]. apply list_lookup_insert_eq. lia.
Qed.

Lemma user_buffer_video m m' buf n : user_buffer m buf n -> video_only m m' -> user_buffer m' buf n.
Proof.
  intros [Hr Ho Hc Hn] Hv. split; [|done..]. intros i Hi. rewrite Hv; [by apply Hr|].
  unfold off_screen, disjoint_regions in Ho. lia.
Qed.

Lemma term_get_ok s i c :
  0 <= i -> term_buf s !! Z.to_nat i = Some c -> term_get i s = Ret (c, s).
Proof. intros Hi Hc. unfold term_get. destruct (Z.ltb_spec i 0); [lia|]. by rewrite Hc. Qed.

(** The next poll finds the character. *)
Lemma struck_found s buf n k seen s1 c len : reading s buf n k seen -> struck s s1 c ->
  read_poll buf len k s1 =
    (if c =? 10 then reset_term_inp_buffer ≫= fun _ => mret (Returned k) else
     on_con (on_mem (st8 (buf + k) c)) ≫= fun _ =>
     if k + 1 =? len then reset_term_inp_buffer ≫= fun _ => mret (Returned len) else mret (Waiting (k + 1))) s1.
Proof.
  intros [Hinv Hi _ _ _] [_ Hi1 Hc1 _]. rewrite Hi in Hi1, Hc1. pose proof (ti_index _ Hinv).
  unfold read_poll, gets. rewrite (bind_ret _ _ _ _ _ eq_refl), Hi1. destruct (Z.eqb_spec k (k + 1)); [lia|].
  replace (k + 1 - 1) with k by lia. by rewrite (bind_ret _ _ _ _ _ (term_get_ok s1 k c ltac:(lia) Hc1)).
Qed.

(** What has been copied is not touched by a key. *)
Lemma seen_video m m' buf n (seen : list Z) i c : user_buffer m buf n -> video_only m m' -> Z.of_nat (length seen) <= n -> seen !! i = Some c ->
  m' !! (buf + Z.of_nat i) = m !! (buf + Z.of_nat i).
Proof.
  intros Hub Hv Hn Hi. apply Hv. apply lookup_lt_Some in Hi. pose proof (ub_off _ _ _ Hub) as Ho.
  unfold off_screen, disjoint_regions in Ho. lia.
Qed.

Lemma struck_poll s buf n k seen s1 c len : reading s buf n k seen -> struck s s1 c -> c <> 10 -> k < n -> k + 1 <> len ->
  exists s2, read_poll buf len k s1 = Ret (Waiting (k + 1), s2) /\ reading s2 buf n (k + 1) (seen ++ [c]).
Proof.
  intros Hrd Hsk Hc Hkn Hlen. rewrite (struck_found _ _ _ _ _ _ _ len Hrd Hsk). destruct Hrd as [Hinv Hi Hk Hub Hseen].
  destruct Hsk as [Hinv1 Hi1 Hc1 Hv]. pose proof (user_buffer_video _ _ _ _ Hub Hv) as Hub1.
  pose proof (ti_index _ Hinv) as Hir. assert (is_Some (mem (con s1) !! (buf + k))) as Ha by (apply Hub1; lia).
  set (con2 := set_mem (<[buf + k := u8 c]> (mem (con s1))) (con s1)).
  exists (Tty con2 (term_buf s1) (index s1)). destruct (Z.eqb_spec c 10); [done|]. split.
  - rewrite (bind_ret _ _ _ tt (Tty con2 (term_buf s1) (index s1))).
    2: exact (zoom_ret con set_con (on_mem _) s1 tt con2 (zoom_ret mem set_mem _ (con s1) tt _ (st8_ok _ _ _ Ha))).
    by destruct (Z.eqb_spec (k + 1) len).
  - split; cbn [con term_buf index mem con2 set_mem].
    + split; cbn [con term_buf index]; [by apply con_inv_write, Ha; apply Hinv1| |apply Hinv1|apply Hinv1].
      apply (lits_write _ buf n); [apply Hinv1|done|lia].
    + lia.
    + rewrite length_app. simpl. lia.
    + destruct Hub1 as [Hr1 ? ? ?]. split; [by apply room_insert|done..].
    + intros i x Hx. rewrite lookup_insert. case_decide as Hik.
      * rewrite lookup_app_r in Hx by lia. replace (i - length seen)%nat with 0%nat in Hx by lia.
        by injection Hx as ->.
      * pose proof (lookup_lt_Some _ _ _ Hx) as Hlt. rewrite length_app in Hlt. simpl in Hlt.
        rewrite lookup_app_l in Hx by lia. rewrite <- (Hseen i x Hx). eapply seen_video; [done|done| |done]. lia.
Qed.

Lemma struck_enter s buf n k seen s1 len : reading s buf n k seen -> struck s s1 10 -> k <= n ->
  exists s2, read_poll buf len k s1 = Ret (Returned k, s2) /\ tty_inv s2 /\ index s2 = 0 /\
    (forall i c, seen !! i = Some c -> mem (con s2) !! (buf + Z.of_nat i) = Some (u8 c)).
Proof.
  intros Hrd Hsk Hkn. rewrite (struck_found _ _ _ _ _ _ _ len Hrd Hsk). destruct Hrd as [Hinv Hi Hk Hub Hseen].
  destruct Hsk as [[H1 H2 H3 H4] _ _ Hv]. exists (Tty (con s1) (replicate (Z.to_nat TERM_BUF_SIZE) 0) 0). split_and!; [reflexivity| |reflexivity|].
  - split; [done|done|reflexivity|by vm_compute].
  - intros i c Hc. cbn [con]. rewrite <- (Hseen i c Hc). eapply seen_video; [done|done| |done]. lia.
Qed.

Lemma reading_key s buf n k seen c :
  reading s buf n k seen -> c <> 10 -> k < n -> k + 1 < TERM_BUF_SIZE ->
  forall len, k + 1 < len -> forall polls,
  exists s', read_events buf len (Waiting k) (polled (plain_key c) polls) s = Ret (Waiting (k + 1), s') /\
    reading s' buf n (k + 1) (seen ++ [c]).
Proof.
  intros Hrd Hc Hkn Hcap len Hlen polls. pose proof (rd_index _ _ _ _ _ Hrd) as Hi.
  destruct (key_struck s (plain_key c) c (rd_inv _ _ _ _ _ Hrd) eq_refl) as (s1 & Hrun & Hsk); [lia|].
  destruct (struck_poll s buf n k seen s1 c len Hrd Hsk Hc Hkn ltac:(lia)) as (s2 & Hpoll & Hrd2). exists s2. split; [|done].
  unfold polled. cbn [read_events]. rewrite (bind_ret _ _ _ (Waiting k) s1).
  2: { cbn [read_event]. by rewrite (bind_ret _ _ _ _ _ Hrun). }
  rewrite (bind_ret _ _ _ _ _ Hpoll). apply idle_polls. intros li [= <-]. by rewrite (rd_index _ _ _ _ _ Hrd2).
Qed.

Lemma reading_enter s buf n k seen len polls :
  reading s buf n k seen -> k <= n -> k < TERM_BUF_SIZE ->
  exists s', read_events buf len (Waiting k) (polled enter_key polls) s = Ret (Returned k, s') /\
    tty_inv s' /\ index s' = 0 /\
    (forall i c, seen !! i = Some c -> mem (con s') !! (buf + Z.of_nat i) = Some (u8 c)).
Proof.
  intros Hrd Hkn Hcap. pose proof (rd_index _ _ _ _ _ Hrd) as Hi.
  destruct (key_struck s enter_key 10 (rd_inv _ _ _ _ _ Hrd) eq_refl) as (s1 & Hrun & Hsk); [lia|].
  destruct (struck_enter s buf n k seen s1 len Hrd Hsk Hkn) as (s2 & Hpoll & H2). exists s2. split; [|done].
  unfold polled. cbn [read_events]. rewrite (bind_ret _ _ _ (Waiting k) s1).
  2: { cbn [read_event]. by rewrite (bind_ret _ _ _ _ _ Hrun). }
  rewrite (bind_ret _ _ _ _ _ Hpoll). by apply idle_polls.
Qed.

Lemma reading_typed l polls s buf n k seen len :
  reading s buf n k seen -> Forall (fun c => c <> 10) (l.*1) ->
  k + Z.of_nat (length l) <= n -> k + Z.of_nat (length l) < TERM_BUF_SIZE ->
  k + Z.of_nat (length l) < len ->
  exists s', read_events buf len (Waiting k) (typed l polls) s = Ret (Returned (k + Z.of_nat (length l)), s') /\
    tty_inv s' /\ index s' = 0 /\
    (forall i c, (seen ++ l.*1) !! i = Some c -> mem (con s') !! (buf + Z.of_nat i) = Some (u8 c)).
Proof.
  revert s k seen; induction l as [|[c p] l IH]; intros s k seen Hrd Hl Hn Hcap Hlen; cbn [typed].
  - cbn [fmap list_fmap length] in *. rewrite app_nil_r. replace (k + Z.of_nat 0) with k in * by lia.
    by eapply reading_enter.
  - cbn [fmap list_fmap length fst] in *. apply Forall_cons_1 in Hl as [Hc Hl].
    destruct (reading_key s buf n k seen c Hrd Hc ltac:(lia) ltac:(lia) len ltac:(lia) p)
      as (s1 & Hrun & Hrd1).
    destruct (IH s1 (k + 1) (seen ++ [c])) as (s2 & Hrun2 & Hi2 & Hx2 & Hseen2); [done|done|lia..|].
    exists s2. rewrite <- app_assoc in Hseen2. split_and!; [|done|done|done].
    rewrite (read_events_app _ _ _ _ _ _ _ _ Hrun), Hrun2. do 3 f_equal. lia.
Qed.

(** [terminal_read] reads a line: while a process reads with a large enough buffer, if the
    reader polls at least once between keys, typing the characters [l] and then
    enter makes it return their number, with the characters in the buffer in order;
    the terminal buffer is then empty again. *)
Theorem terminal_read_line s buf len l polls :
  tty_inv s -> user_buffer (mem (con s)) buf len -> Forall (fun c => c <> 10) (l.*1) ->
  Z.of_nat (length l) < len -> Z.of_nat (length l) < TERM_BUF_SIZE ->
  exists s', terminal_read buf len (typed l polls) s = Ret (Returned (Z.of_nat (length l)), s') /\
    tty_inv s' /\ index s' = 0 /\
    (forall i c, (l.*1) !! i = Some c -> mem (con s') !! (buf + Z.of_nat i) = Some (u8 c)).
Proof.
  intros Hinv Hub Hl Hlen Hcap. unfold terminal_read, read_start.
  destruct (Z.eqb_spec len 0); [lia|].
  set (s0 := Tty (con s) (replicate (Z.to_nat TERM_BUF_SIZE) 0) 0).
  rewrite (bind_ret _ _ _ (Waiting 0) s0) by done.
  destruct (reading_typed l polls s0 buf len 0 [] len) as (s' & H1 & H2); [|done|lia..|by exists s'].
  split; [|done|done|done|done]. eapply tty_inv_con; [done|apply con_step_refl, Hinv| |by vm_compute].
  by rewrite length_replicate.
Qed.

(** C39: erasing the only character typed while a process reads makes the reader access
    [term_buf[-1]]: after a character, a poll and a backspace, the next poll sees
    [index] changed to 0 and reads before the start of the array. *)
Theorem backspace_to_empty_underflows s buf len c :
  tty_inv s -> user_buffer (mem (con s)) buf len -> c <> 10 -> 1 < len ->
  terminal_read buf len [Key (plain_key c); Poll; Key backspace_key; Poll] s = Fault.
Proof.
  intros Hinv Hub Hc Hlen. unfold terminal_read, read_start. destruct (Z.eqb_spec len 0); [lia|].
  set (s0 := Tty (con s) (replicate (Z.to_nat TERM_BUF_SIZE) 0) 0).
  rewrite (bind_ret _ _ _ (Waiting 0) s0) by done.
  destruct (reading_key s0 buf len 0 [] c) with (len := len) (polls := 0%nat) as (s1 & Hrun & Hrd);
    [|done|lia|by vm_compute|lia|].
  { split; [|done|done|done|done]. eapply tty_inv_con; [done|apply con_step_refl, Hinv| |by vm_compute].
    by rewrite length_replicate. }
  change [Key (plain_key c); Poll; Key backspace_key; Poll]
    with (polled (plain_key c) 0 ++ [Key backspace_key; Poll]).
  rewrite (read_events_app _ _ _ (polled (plain_key c) 0) [Key backspace_key; Poll] _ _ _ Hrun).
  destruct Hrd as [[Hcon1 _ Hlen1 _] Hi1 _ _ _]. cbn [read_events read_event].
  assert (exists s2, on_new_char_recvd backspace_key s1 = Ret (tt, s2) /\ index s2 = 0) as (s2 & Hr2 & Hi2).
  { unfold on_new_char_recvd, char_at, backspace_key. cbn [lookup list_lookup deref].
    rewrite !(bind_ret _ _ _ _ _ eq_refl). simpl (_ && _). cbv iota. unfold gets.
    rewrite (bind_ret _ _ _ _ _ eq_refl), Hi1. simpl (_ =? _). cbv iota.
    rewrite (bind_ret _ _ _ _ _ (term_set_ok s1 1 0 ltac:(unfold TERM_BUF_SIZE in Hlen1; lia))).
    rewrite (bind_ret _ _ _ _ _ (set_index_ok _ _)).
    destruct (decide (0 < pos (con s1))) as [Hp|Hp].
    - destruct (backspace_ok (con s1) Hcon1 Hp) as (k & Hk & _).
      eexists. split; [exact (zoom_ret con set_con _ (Tty (con s1) _ _) tt k Hk)|done].
    - eexists.
      split; [exact (zoom_ret con set_con _ (Tty (con s1) _ _) tt _ (backspace_home _ Hcon1 Hp))|done]. }
  rewrite (bind_ret _ _ _ (Waiting (0 + 1)) s2) by (by rewrite (bind_ret _ _ _ _ _ Hr2)).
  unfold read_poll at 1, gets. unfold mbind, M_bind. by rewrite Hi2.
Qed.

(** Any key sequence of two characters or more, below the capacity of the buffer. *)
Lemma on_new_char_total s ctrs :
  tty_inv s -> (2 <= length ctrs)%nat -> index s < TERM_BUF_SIZE ->
  exists k tb i, on_new_char_recvd ctrs s = Ret (tt, Tty k tb i) /\ tty_inv (Tty k tb i) /\
    con_step (con s) k /\ i <= index s + 1.
Proof.
  intros Hinv Hl Hlt. pose proof Hinv as [Hc Hlit Hlen Hi].
  destruct (key_char ctrs) as [c|] eqn:Hk.
  { destruct (on_new_char_ok s ctrs c Hinv Hk Hlt) as (k & Hrun & Hs). do 3 eexists.
    split_and!; [done| |done|lia]. eapply tty_inv_con; [done|done|by rewrite length_insert|lia]. }
  destruct ctrs as [|c0 [|c1 r]]; [simpl in Hl; lia..|]. cbn [key_char] in Hk.
  unfold on_new_char_recvd, char_at. cbn [lookup list_lookup deref].
  rewrite !(bind_ret _ _ _ _ _ eq_refl). destruct ((c1 =? 72) && (c0 =? 94)).
  2: { by destruct ((c1 =? 114) && (c0 =? 92)). }
  unfold gets. rewrite (bind_ret _ _ _ _ _ eq_refl). destruct (Z.eqb_spec (index s) 0) as [H0|H0].
  { exists (con s), (term_buf s), (index s). split_and!; [by destruct s|by destruct s|by apply con_step_refl|lia]. }
  rewrite (bind_ret _ _ _ _ _ (term_set_ok s (index s) 0 ltac:(lia))).
  rewrite (bind_ret _ _ _ _ _ (set_index_ok _ _)), u16_small by (unfold TERM_BUF_SIZE in *; lia).
  assert (exists k, handle_video_mem_backspace (con s) = Ret (tt, k) /\ con_step (con s) k) as (k & Hrun & Hs).
  { destruct (decide (0 < pos (con s))) as [Hp|Hp].
    - destruct (backspace_ok (con s) Hc Hp) as (k & Hk1 & Hk2 & _). by exists k.
    - exists (con s). split; [|by apply con_step_refl]. by apply backspace_home. }
  exists k, (<[Z.to_nat (index s) := 0]> (term_buf s)), (index s - 1). split_and!; [| |done|lia].
  - exact (zoom_ret con set_con _ (Tty (con s) _ _) tt k Hrun).
  - eapply tty_inv_con; [done|done|by rewrite length_insert|lia].
Qed.

(** ** The status line *)

(** A byte stored in the video memory. *)
Lemma video_write k a v :
  con_inv k -> 0 <= a < SCREEN + 160 ->
  exists k', on_mem (st8 (VIDEO_BASE_ADDRESS + a) v) k = Ret (tt, k') /\ con_inv k' /\
    video_only (mem k) (mem k').
Proof.
  intros [H1 H2 H3 H4] Ha. eexists. split.
  { apply zoom_ret, st8_ok. by apply H3. }
  split; [split; simpl; [done|done|by apply room_insert|by apply byte_range_insert]|].
  intros b Hb. simpl. apply lookup_insert_ne. lia.
Qed.

(** The console after some writes to the video memory of [k]. *)
Definition video_step (k k' : console) : Prop := con_inv k' /\ video_only (mem k) (mem k').

Lemma video_step_trans k1 k2 k3 : video_step k1 k2 -> video_step k2 k3 -> video_step k1 k3.
Proof. intros [I1 O1] [I2 O2]. split; [done|]. intros a Ha. by rewrite O2, O1. Qed.

Lemma show_input_ok fuel b l str i k :
  con_inv k -> 0 <= i -> cstr b (str + i) l -> (length l < fuel)%nat ->
  2 * (i + Z.of_nat (length l)) <= 160 ->
  exists k', show_input fuel b (VIDEO_BASE_ADDRESS + SCREEN) str i k = Ret (tt, k') /\ video_step k k'.
Proof.
  revert fuel i k; induction l as [|c l IH]; intros [|f] i k Hk Hi Hl Hf Hfit; cbn [length] in *;
    try lia; cbn [show_input].
  - exists k. rewrite (bind_ret _ _ _ _ _ (rd_local_ok _ _ _ _ Hl)). split; [done|]. by split.
  - destruct Hl as (Hc & Hcl & Hl). rewrite (bind_ret _ _ _ _ _ (rd_local_ok _ _ _ _ Hcl)), i8_byte by lia.
    destruct (Z.eqb_spec c 0); [lia|].
    destruct (video_write k (SCREEN + 2 * i) (i8 c) Hk) as (k1 & Hr1 & Hk1);
      [unfold SCREEN, VIDEO_MEM_COLUMNS, VIDEO_MEM_ROWS; lia|].
    rewrite Z.add_assoc in Hr1. rewrite (bind_ret _ _ _ _ _ Hr1).
    destruct (IH f (i + 1) k1) as (k2 & Hr2 & Hk2); [apply Hk1|lia|by rewrite Z.add_assoc|lia|lia|].
    exists k2. split; [done|]. by eapply video_step_trans.
Qed.

Lemma clear_status_ok k :
  con_inv k ->
  exists k', on_mem (for_loop 15 0 (fun j =>
      st8 (VIDEO_BASE_ADDRESS + SCREEN + 2 * j) 32 ≫= fun _ =>
      st8 (VIDEO_BASE_ADDRESS + SCREEN + 2 * j + 1) 2)) k = Ret (tt, k') /\ video_step k k'.
Proof.
  intros [H1 H2 H3 H4].
  destruct (for_loop_ind (fun _ m => byte_range m /\ room m VIDEO_BASE_ADDRESS (SCREEN + 160) /\
      video_only (mem k) m) (fun j =>
      st8 (VIDEO_BASE_ADDRESS + SCREEN + 2 * j) 32 ≫= fun _ =>
      st8 (VIDEO_BASE_ADDRESS + SCREEN + 2 * j + 1) 2) 15 0 (mem k)) as (m' & Hm & Hb & Hr & Ho).
  - done.
  - intros j t Hj (Hb & Hr & Ho). replace (VIDEO_BASE_ADDRESS + SCREEN + 2 * j)
      with (VIDEO_BASE_ADDRESS + (SCREEN + 2 * j)) by lia.
    unfold SCREEN, VIDEO_MEM_COLUMNS, VIDEO_MEM_ROWS in *.
    rewrite (bind_ret _ _ _ _ _ (st8_ok _ _ _ (Hr (2 * (80 * 24) + 2 * j) ltac:(lia)))).
    eexists. split; [apply st8_ok|].
    + rewrite <- Z.add_assoc. apply room_insert with (1 := Hr). lia.
    + split_and!; [by do 2 apply byte_range_insert|by do 2 apply room_insert|].
      intros a Ha. rewrite !lookup_insert_ne by (unfold SCREEN, VIDEO_MEM_COLUMNS, VIDEO_MEM_ROWS in Ha; lia).
      by apply Ho.
  - eexists. split; [by apply zoom_ret|]. split; [by split|done].
Qed.

(** [printInputChar] on the characters [l] of a key (at most 7, so that they fit behind the
    label): it does what [on_new_char_recvd] does and shows the key. *)
Lemma printInputChar_ok s l s1 :
  tty_inv s1 -> Forall (fun c => 0 < c < 256) l -> (length l <= 7)%nat ->
  on_new_char_recvd (l ++ [0]) s = Ret (tt, s1) ->
  exists k, printInputChar (l ++ [0]) s = Ret (tt, Tty k (term_buf s1) (index s1)) /\
    tty_inv (Tty k (term_buf s1) (index s1)) /\ video_only (mem (con s1)) (mem k).
Proof.
  intros Hinv Hl Hlen Hrun. pose proof Hinv as [Hc Hlit Htl Hi].
  destruct (clear_status_ok (con s1) Hc) as (k1 & Hr1 & Hk1).
  set (b0 := input_array (l ++ [0])).
  assert (cstr b0 0 input_label) as Hlab.
  { eapply cstr_agree; [apply (write_bytes_cstr 0 input_label ∅); repeat (constructor; [lia|]); constructor|].
    intros i Hi'. unfold b0, input_array. rewrite !write_bytes_lookup. cbn in Hi'.
    rewrite !decide_True by (simpl; lia). rewrite Z.add_0_l, Z.sub_0_r.
    destruct (decide (i = 7)) as [->|]; [done|]. rewrite !lookup_app_l by (simpl; lia). done. }
  assert (cstr b0 100 l) as Hkey.
  { eapply cstr_agree; [by apply (write_bytes_cstr 100 l ∅)|]. intros i Hi'.
    unfold b0, input_array. rewrite (write_bytes_lookup 0), decide_False; [done|simpl; lia]. }
  assert (room b0 (0 + Z.of_nat (length input_label)) (Z.of_nat (length l) + 1)) as Hroom.
  { intros i Hi'. unfold b0, input_array. cbn [length input_label] in *.
    rewrite write_bytes_lookup, decide_True by (simpl; lia). apply lookup_lt_is_Some_2. simpl. lia. }
  pose proof (strcat_spec b0 0 100 input_label l Hlab Hkey Hroom ltac:(left; simpl; lia)) as Hcat.
  assert (cstr (write_bytes (0 + Z.of_nat (length input_label)) (l ++ [0]) b0) 0 (input_label ++ l)) as Hstr.
  { apply cstr_of_lookup; [apply Forall_app; split; [repeat (constructor; [lia|]); constructor|done]|].
    intros i c Hi'. rewrite write_bytes_lookup, length_app. change (length input_label) with 7%nat. cbn [length].
    rewrite <- app_assoc in Hi'. case_decide as Hd.
    - rewrite lookup_app_r in Hi' by (cbn; lia). rewrite <- Hi'. change (length input_label) with 7%nat.
      f_equal. lia.
    - pose proof (lookup_lt_Some _ _ _ Hi') as Hlt. rewrite !length_app in Hlt. cbn in Hlt.
      eapply cstr_lookup; [exact Hlab|]. rewrite lookup_app_l in Hi' |- * by (simpl; lia). done. }
  destruct (show_input_ok 16 _ _ 0 0 k1 (proj1 Hk1) ltac:(lia) Hstr) as (k2 & Hr2 & Hk2);
    [rewrite length_app; simpl; lia|rewrite length_app; simpl; lia|].
  pose proof (video_step_trans _ _ _ Hk1 Hk2) as [Hk Hko]. exists k2. split_and!; [|split; [done|by eapply lits_video|done|done]|done].
  unfold printInputChar. rewrite (bind_ret _ _ _ _ _ Hrun).
  apply (zoom_ret con set_con _ s1 tt k2).
  assert (getAddress VIDEO_MEM_ROWS 0 = VIDEO_BASE_ADDRESS + SCREEN) as -> by done. cbv zeta.
  rewrite (bind_ret _ _ _ _ _ Hr1). fold b0. by rewrite Hcat.
Qed.
End terminal_spec.

(** ** A terminal with a reader *)

Definition demo_literals : Literals := {| lit_char := 2000; lit_newline := 2010 |}.

Definition demo_lower : bytes :=
  write_bytes 2000 [37; 99; 0] (write_bytes 2010 [10; 0] (write_bytes 3000 (replicate 16 0) ∅)).

Definition demo_tty (i : Z) : tty :=
  Tty (screen_over demo_lower 0) (replicate (Z.to_nat TERM_BUF_SIZE) 0) i.

Lemma demo_tty_inv i : 0 <= i <= TERM_BUF_SIZE -> tty_inv (L := demo_literals) (demo_tty i).
Proof.
  intros Hi. split; [| |by cbn [term_buf demo_tty]; rewrite length_replicate|done].
  - apply screen_over_inv; [lia|]. unfold demo_lower.
    repeat (apply byte_range_write; [by repeat (constructor; [lia|])|]). apply byte_range_empty.
  - split; [| by left| |by left]; (apply screen_over_cstr; [by apply cstrb_sound|simpl; lia|by vm_compute]).
Qed.

Lemma demo_user : user_buffer (L := demo_literals) (mem (con (demo_tty 0))) 3000 16.
Proof.
  split; [|by left|right; simpl; lia|right; simpl; lia].
  intros i Hi. cbn [con demo_tty]. rewrite screen_over_lookup by (unfold VIDEO_BASE_ADDRESS; lia).
  unfold demo_lower. rewrite !write_bytes_lookup. rewrite decide_False by (simpl; lia).
  rewrite decide_False by (simpl; lia). rewrite decide_True by (simpl; lia).
  apply lookup_lt_is_Some_2. simpl. lia.
Qed.

Lemma term_buf_overflow_witness :
  @on_new_char_recvd demo_literals (plain_key 120) (demo_tty 256) = Fault.
Proof.
  apply (@term_buf_overflow demo_literals (demo_tty 256) (plain_key 120) 120); [|reflexivity..].
  apply demo_tty_inv. by vm_compute.
Defined.

Lemma terminal_read_line_witness :
  exists s', @terminal_read demo_literals 3000 16 (typed [(108, 0%nat); (115, 5%nat)] 0) (demo_tty 0) =
      Ret (Returned 2, s') /\ mem (con s') !! 3001 = Some 115.
Proof.
  destruct (@terminal_read_line demo_literals (demo_tty 0) 3000 16 [(108, 0%nat); (115, 5%nat)] 0)
    as (s' & H1 & _ & _ & H2).
  - apply demo_tty_inv. by vm_compute.
  - apply demo_user.
  - by repeat (constructor; [simpl; lia|]).
  - simpl. lia.
  - by vm_compute.
  - exists s'. split; [exact H1|]. exact (H2 1%nat 115 eq_refl).
Defined.

Lemma backspace_to_empty_underflows_witness :
  @terminal_read demo_literals 3000 16 [Key (plain_key 120); Poll; Key backspace_key; Poll] (demo_tty 0) = Fault.
Proof.
  apply (@backspace_to_empty_underflows demo_literals (demo_tty 0) 3000 16 120).
  - apply demo_tty_inv. by vm_compute.
  - apply demo_user.
  - lia.
  - lia.
Defined.
