(* ===== verification/Keyboard.v ===== *)
(** * The keyboard ([sys/keyboard.c])

    Scan codes change the modifier keys or produce a short character sequence that goes
    to [printInputChar].  The scan code itself comes from the controller's port and is an
    argument. *)

From Stdlib Require Import Ascii.
From S2P Require Import Prelude CStr Console Terminal.

Definition ch (c : ascii) : Z := Z.of_N (N_of_ascii c).
#[global] Arguments ch c%_char_scope.

Inductive special_key := CAPS | LSHIFT | RSHIFT | LCNTRL | RCNTRL | NUMLOCK.

#[export] Instance special_key_eq_dec : EqDecision special_key.
Proof. solve_decision. Defined.

Definition getBitmask (sk : special_key) : Z :=
  match sk with
  | CAPS => 1
  | LSHIFT => 2
  | RSHIFT => 4
  | LCNTRL => 8
  | RCNTRL => 16
  | NUMLOCK => 32
  end.

(** The modifier functions, on the value of [specialChars]. *)
Definition clearKey (spec : Z) (sk : special_key) : Z := u8 (Z.land spec (Z.lnot (getBitmask sk))).
Definition setKey (spec : Z) (sk : special_key) : Z := u8 (Z.lor spec (getBitmask sk)).
Definition isKey (spec : Z) (sk : special_key) : Z := Z.land spec (getBitmask sk).
Definition isShiftEnabled (spec : Z) : Z := Z.lor (isKey spec LSHIFT) (isKey spec RSHIFT).
Definition shouldCapitalizeLetters (spec : Z) : Z := Z.lxor (isKey spec CAPS) (isShiftEnabled spec).

(** C truth values. *)
Definition truth (x : Z) : bool := negb (x =? 0).

(** The variables [c], [p] and [pp] of [handleNormalScanCodes]. *)
Record glyph_t := glyph { g_c : Z; g_p : Z; g_pp : Z }.

(** The [switch] of [handleNormalScanCodes], cases 0x27 and above. *)
Definition key_glyph_high (spec sc : Z) : glyph_t :=
  let shift := truth (isShiftEnabled spec) in
  let caps := truth (shouldCapitalizeLetters spec) in
  let num := truth (isKey spec NUMLOCK) in
  match sc with
  | 0x27 => glyph (if shift then ch ":" else ch ";") 0 0
  | 0x28 => glyph (if shift then ch "'" else 34) 0 0
  | 0x29 => glyph (if shift then ch "~" else ch "`") 0 0
  | 0x2B => glyph (if shift then ch "|" else ch "\") 0 0
  | 0x2C => glyph (if caps then ch "Z" else ch "z") 0 0
  | 0x2D => glyph (if caps then ch "X" else ch "x") 0 0
  | 0x2E => glyph (if caps then ch "C" else ch "c") 0 0
  | 0x2F => glyph (if caps then ch "V" else ch "v") 0 0
  | 0x30 => glyph (if caps then ch "B" else ch "b") 0 0
  | 0x31 => glyph (if caps then ch "N" else ch "n") 0 0
  | 0x32 => glyph (if caps then ch "M" else ch "m") 0 0
  | 0x33 => glyph (if shift then ch "<" else ch ",") 0 0
  | 0x34 => glyph (if shift then ch ">" else ch ".") 0 0
  | 0x35 => glyph (if shift then ch "?" else ch "/") 0 0
  | 0x37 => glyph (if num then ch "*" else 0) 0 0
  | 0x39 => glyph (ch " ") 0 0
  | 0x3B => glyph (ch "1") (ch "F") 0
  | 0x3C => glyph (ch "2") (ch "F") 0
  | 0x3D => glyph (ch "3") (ch "F") 0
  | 0x3E => glyph (ch "4") (ch "F") 0
  | 0x3F => glyph (ch "5") (ch "F") 0
  | 0x40 => glyph (ch "6") (ch "F") 0
  | 0x41 => glyph (ch "7") (ch "F") 0
  | 0x42 => glyph (ch "8") (ch "F") 0
  | 0x43 => glyph (ch "9") (ch "F") 0
  | 0x44 => glyph (ch "0") (ch "1") (ch "F")
  | 0x47 => glyph (if num then ch "7" else 0) 0 0
  | 0x48 => glyph (if num then ch "8" else 0) 0 0
  | 0x49 => glyph (if num then ch "9" else 0) 0 0
  | 0x4A => glyph (if num then ch "-" else 0) 0 0
  | 0x4B => glyph (if num then ch "4" else 0) 0 0
  | 0x4C => glyph (if num then ch "5" else 0) 0 0
  | 0x4D => glyph (if num then ch "6" else 0) 0 0
  | 0x4E => glyph (if num then ch "+" else 0) 0 0
  | 0x4F => glyph (if num then ch "1" else 0) 0 0
  | 0x50 => glyph (if num then ch "2" else 0) 0 0
  | 0x51 => glyph (if num then ch "3" else 0) 0 0
  | 0x52 => glyph (if num then ch "0" else 0) 0 0
  | 0x53 => glyph (if num then ch "." else 0) 0 0
  | 0x57 => glyph (ch "1") (ch "1") (ch "F")
  | 0x58 => glyph (ch "2") (ch "1") (ch "F")
  | _ => glyph 0 0 0
  end.

(** The [switch] of [handleNormalScanCodes], cases 0x02 to 0x26. *)
Definition key_glyph (spec sc : Z) : glyph_t :=
  let shift := truth (isShiftEnabled spec) in
  let caps := truth (shouldCapitalizeLetters spec) in
  match sc with
  | 0x02 => glyph (if shift then ch "!" else ch "1") 0 0
  | 0x03 => glyph (if shift then ch "@" else ch "2") 0 0
  | 0x04 => glyph (if shift then ch "#" else ch "3") 0 0
  | 0x05 => glyph (if shift then ch "$" else ch "4") 0 0
  | 0x06 => glyph (if shift then ch "%" else ch "5") 0 0
  | 0x07 => glyph (if shift then ch "^" else ch "6") 0 0
  | 0x08 => glyph (if shift then ch "&" else ch "7") 0 0
  | 0x09 => glyph (if shift then ch "*" else ch "8") 0 0
  | 0x0A => glyph (if shift then ch "(" else ch "9") 0 0
  | 0x0B => glyph (if shift then ch ")" else ch "0") 0 0
  | 0x0C => glyph (if shift then ch "_" else ch "-") 0 0
  | 0x0D => glyph (if shift then ch "+" else ch "=") 0 0
  | 0x0E => glyph (ch "H") (ch "^") 0
  | 0x0F => glyph (ch "t") (ch "\") 0
  | 0x10 => glyph (if caps then ch "Q" else ch "q") 0 0
  | 0x11 => glyph (if caps then ch "W" else ch "w") 0 0
  | 0x12 => glyph (if caps then ch "E" else ch "e") 0 0
  | 0x13 => glyph (if caps then ch "R" else ch "r") 0 0
  | 0x14 => glyph (if caps then ch "T" else ch "t") 0 0
  | 0x15 => glyph (if caps then ch "Y" else ch "y") 0 0
  | 0x16 => glyph (if caps then ch "U" else ch "u") 0 0
  | 0x17 => glyph (if caps then ch "I" else ch "i") 0 0
  | 0x18 => glyph (if caps then ch "O" else ch "o") 0 0
  | 0x19 => glyph (if caps then ch "P" else ch "p") 0 0
  | 0x1A => glyph (if shift then ch "{" else ch "[") 0 0
  | 0x1B => glyph (if shift then ch "}" else ch "]") 0 0
  | 0x1C => glyph (ch "r") (ch "\") 0
  | 0x1E => glyph (if caps then ch "A" else ch "a") 0 0
  | 0x1F => glyph (if caps then ch "S" else ch "s") 0 0
  | 0x20 => glyph (if caps then ch "D" else ch "d") 0 0
  | 0x21 => glyph (if caps then ch "F" else ch "f") 0 0
  | 0x22 => glyph (if caps then ch "G" else ch "g") 0 0
  | 0x23 => glyph (if caps then ch "H" else ch "h") 0 0
  | 0x24 => glyph (if caps then ch "J" else ch "j") 0 0
  | 0x25 => glyph (if caps then ch "K" else ch "k") 0 0
  | 0x26 => glyph (if caps then ch "L" else ch "l") 0 0
  | _ => key_glyph_high spec sc
  end.

(** The array [str] after the assignments, and the index printed from. *)
Definition key_str (spec : Z) (g : glyph_t) : list Z * nat :=
  let str := <[3%nat := g_c g]> (replicate 5 0) in
  let i := 2%nat in
  let '(str, i) := if truth (g_p g) then (<[i := g_p g]> str, (i - 1)%nat) else (str, i) in
  let '(str, i) := if truth (g_pp g) then (<[i := g_pp g]> str, (i - 1)%nat) else (str, i) in
  if truth (Z.lor (isKey spec RCNTRL) (isKey spec LCNTRL)) &&
     negb (default 0 (str !! S i) =? ch "^")
  then (<[i := ch "^"]> str, i)
  else (str, S i).

Record kbd := Kbd {
  term : tty;
  specialChars : Z
}.

Definition set_tty (t : tty) (s : kbd) : kbd := Kbd t (specialChars s).
Definition on_tty {A} (c : M tty A) : M kbd A := zoom term set_tty c.
Definition set_special (f : Z -> Z) : M kbd unit := modify (fun s => Kbd (term s) (f (specialChars s))).

Section keyboard.
Context {L : Literals}.

Definition handleNormalScanCodes (sc : Z) : M kbd Z :=
  spec ← gets specialChars;
  let g := key_glyph spec sc in
  if g_c g =? 0 then mret 0 else
  let '(str, i) := key_str spec g in
  on_tty (printInputChar (drop i str)) ≫= fun _ => mret 1.

Definition printAscii (sc : Z) : M kbd unit :=
  match sc with
  | 0x2A => set_special (fun spec => setKey spec LSHIFT)
  | 0xAA => set_special (fun spec => clearKey spec LSHIFT)
  | 0x36 => set_special (fun spec => setKey spec RSHIFT)
  | 0xB6 => set_special (fun spec => clearKey spec RSHIFT)
  | 0x1D => set_special (fun spec => setKey (setKey spec LCNTRL) RCNTRL)
  | 0x9D => set_special (fun spec => clearKey (clearKey spec LCNTRL) RCNTRL)
  | 0x3A => set_special (fun spec => if truth (isKey spec CAPS) then clearKey spec CAPS else setKey spec CAPS)
  | 0x45 => set_special (fun spec =>
              if truth (isKey spec NUMLOCK) then clearKey spec NUMLOCK else setKey spec NUMLOCK)
  | _ => handleNormalScanCodes sc ≫= fun _ => mret tt
  end.

End keyboard.

(** ** Modifier keys *)

Definition modifiers (spec : Z) : Prop := 0 <= spec < 64.

(** The bit of a key. *)
Definition key_bit (sk : special_key) : Z := Z.log2 (getBitmask sk).

Lemma bitmask_bit sk : getBitmask sk = 2 ^ key_bit sk.
Proof. by destruct sk. Qed.

Lemma key_bit_inj sk sk' : key_bit sk = key_bit sk' -> sk = sk'.
Proof. by destruct sk, sk'. Qed.

Lemma key_bit_range sk : 0 <= key_bit sk < 6.
Proof. by destruct sk. Qed.

Lemma modifiers_testbit spec n : modifiers spec -> 6 <= n -> Z.testbit spec n = false.
Proof.
  intros Hs Hn. destruct (decide (spec = 0)) as [->|]; [by rewrite Z.testbit_0_l|].
  apply Z.bits_above_log2; [apply Hs|]. eapply Z.lt_le_trans; [|exact Hn].
  apply Z.log2_lt_pow2; [|change (2 ^ 6) with 64]; unfold modifiers in Hs; lia.
Qed.

Lemma testbit_modifiers x : 0 <= x -> (forall n, 6 <= n -> Z.testbit x n = false) -> modifiers x.
Proof.
  intros Hx Hb. split; [done|]. destruct (decide (x = 0)); [lia|].
  apply (Z.log2_lt_cancel x (2 ^ 6)). rewrite Z.log2_pow2 by lia.
  destruct (Z.ltb_spec (Z.log2 x) 6); [done|]. specialize (Hb (Z.log2 x) ltac:(lia)).
  rewrite Z.bit_log2 in Hb; [done|lia].
Qed.

Lemma truth_isKey spec sk : truth (isKey spec sk) = Z.testbit spec (key_bit sk).
Proof.
  unfold isKey. rewrite bitmask_bit. pose proof (key_bit_range sk) as Hr. set (n := key_bit sk) in *.
  destruct (Z.testbit spec n) eqn:Hb.
  - unfold truth. destruct (Z.eqb_spec (Z.land spec (2 ^ n)) 0) as [H0|]; [|done].
    apply (f_equal (fun x => Z.testbit x n)) in H0.
    by rewrite Z.land_spec, Z.pow2_bits_true, Hb, Z.testbit_0_l in H0 by lia.
  - assert (Z.land spec (2 ^ n) = 0) as ->; [|done]. apply Z.bits_inj'. intros i Hi.
    rewrite Z.land_spec, Z.testbit_0_l. destruct (decide (i = n)) as [->|]; [by rewrite Hb|].
    rewrite Z.pow2_bits_false by lia. apply andb_false_r.
Qed.

Lemma setKey_bits spec sk n :
  modifiers spec -> 0 <= n -> Z.testbit (Z.lor spec (getBitmask sk)) n = Z.testbit spec n || (key_bit sk =? n).
Proof.
  intros Hs Hn. pose proof (key_bit_range sk). rewrite Z.lor_spec, bitmask_bit.
  f_equal. apply Z.pow2_bits_eqb. lia.
Qed.

Lemma clearKey_bits spec sk n :
  modifiers spec -> 0 <= n ->
  Z.testbit (Z.land spec (Z.lnot (getBitmask sk))) n = Z.testbit spec n && negb (key_bit sk =? n).
Proof.
  intros Hs Hn. pose proof (key_bit_range sk). rewrite Z.land_spec, Z.lnot_spec, bitmask_bit by lia.
  by rewrite Z.pow2_bits_eqb by lia.
Qed.

Lemma setKey_modifiers spec sk :
  modifiers spec -> setKey spec sk = Z.lor spec (getBitmask sk) /\ modifiers (setKey spec sk).
Proof.
  intros Hs. assert (modifiers (Z.lor spec (getBitmask sk))) as Hm.
  { apply testbit_modifiers.
    - apply Z.lor_nonneg. split; [apply Hs|]. by destruct sk.
    - intros n Hn. rewrite setKey_bits by (done || lia). rewrite modifiers_testbit by done.
      pose proof (key_bit_range sk). zbool. }
  unfold setKey, u8. rewrite Z.mod_small by (unfold modifiers in Hm; lia). done.
Qed.

Lemma clearKey_modifiers spec sk :
  modifiers spec -> clearKey spec sk = Z.land spec (Z.lnot (getBitmask sk)) /\ modifiers (clearKey spec sk).
Proof.
  intros Hs. assert (modifiers (Z.land spec (Z.lnot (getBitmask sk)))) as Hm.
  { apply testbit_modifiers.
    - apply Z.land_nonneg. left. apply Hs.
    - intros n Hn. rewrite clearKey_bits by (done || lia). by rewrite modifiers_testbit by done. }
  unfold clearKey, u8. rewrite Z.mod_small by (unfold modifiers in Hm; lia). done.
Qed.

(** modifier keys are independent: pressing a modifier makes it held and releasing it makes
    it not held, and neither affects any other modifier; the modifier byte stays
    within its six bits. *)
Theorem modifier_independence spec sk sk' :
  modifiers spec ->
  modifiers (setKey spec sk) /\ modifiers (clearKey spec sk) /\
  truth (isKey (setKey spec sk) sk') = (if decide (sk = sk') then true else truth (isKey spec sk')) /\
  truth (isKey (clearKey spec sk) sk') = (if decide (sk = sk') then false else truth (isKey spec sk')).
Proof.
  intros Hs. destruct (setKey_modifiers spec sk Hs) as [E1 H1], (clearKey_modifiers spec sk Hs) as [E2 H2].
  pose proof (key_bit_range sk'). split_and!; [done|done| |].
  - rewrite !truth_isKey, E1, setKey_bits by (done || lia). case_decide as Heq.
    + subst sk'. by rewrite Z.eqb_refl, orb_true_r.
    + destruct (Z.eqb_spec (key_bit sk) (key_bit sk')) as [Hk|]; [by apply key_bit_inj in Hk|apply orb_false_r].
  - rewrite !truth_isKey, E2, clearKey_bits by (done || lia). case_decide as Heq.
    + subst sk'. by rewrite Z.eqb_refl, andb_false_r.
    + destruct (Z.eqb_spec (key_bit sk) (key_bit sk')) as [Hk|]; [by apply key_bit_inj in Hk|apply andb_true_r].
Qed.

(** caps lock ignores shift: [shouldCapitalizeLetters] combines the modifier bits with an
    exclusive or of different bits, so with caps lock on letters are capital
    whether or not a shift key is held. *)
Theorem caps_lock_ignores_shift spec :
  modifiers spec -> truth (isKey spec CAPS) = true -> truth (shouldCapitalizeLetters spec) = true.
Proof.
  intros Hs Hc. rewrite truth_isKey in Hc. unfold truth.
  destruct (Z.eqb_spec (shouldCapitalizeLetters spec) 0) as [H0|]; [|done].
  apply (f_equal (fun x => Z.testbit x 0)) in H0. unfold shouldCapitalizeLetters, isShiftEnabled, isKey in H0.
  rewrite Z.lxor_spec, Z.lor_spec, !Z.land_spec in H0. change (key_bit CAPS) with 0 in Hc.
  by rewrite Hc in H0.
Qed.

(** ** Key presses *)

(** Every key gives one to four characters, terminated, for all modifiers and scan codes. *)
Definition key_strb (spec sc : Z) : bool :=
  let g := key_glyph spec sc in
  (g_c g =? 0) ||
  (let '(str, i) := key_str spec g in
   let l := drop i str in
   bool_decide (2 <= length l <= 5)%nat &&
   forallb (fun c => (0 <? c) && (c <? 256)) (take (length l - 1) l) &&
   bool_decide (drop (length l - 1) l = [0])).

Lemma key_strb_all :
  forallb (fun spec => forallb (fun sc => key_strb spec sc) (seqZ 0 256)) (seqZ 0 64) = true.
Proof. vm_compute. reflexivity. Qed.

Lemma key_str_ok spec sc str i :
  modifiers spec -> 0 <= sc < 256 -> g_c (key_glyph spec sc) <> 0 ->
  key_str spec (key_glyph spec sc) = (str, i) ->
  exists l, drop i str = l ++ [0] /\ Forall (fun c => 0 < c < 256) l /\ (1 <= length l <= 4)%nat.
Proof.
  intros Hs Hsc Hc Hk. pose proof key_strb_all as Hall. rewrite forallb_forall in Hall.
  assert (key_strb spec sc = true) as Hb.
  { specialize (Hall spec). rewrite forallb_forall in Hall.
    apply Hall; apply list_elem_of_In, elem_of_seqZ; unfold modifiers in Hs; lia. }
  clear Hall. unfold key_strb in Hb. rewrite Hk in Hb.
  destruct (Z.eqb_spec (g_c (key_glyph spec sc)) 0); [done|]. simpl orb in Hb.
  rewrite !andb_true_iff, !bool_decide_eq_true in Hb. destruct Hb as [[Hlen Hch] Hlast].
  exists (take (length (drop i str) - 1) (drop i str)). split_and!.
  - rewrite <- Hlast. by rewrite take_drop.
  - rewrite forallb_forall in Hch. apply List.Forall_forall. intros c Hin%Hch. lia.
  - rewrite length_take. lia.
  - rewrite length_take. lia.
Qed.

Section keyboard_spec.
Context {L : Literals}.

Record kbd_inv (s : kbd) : Prop := {
  ki_tty : tty_inv (term s);
  ki_spec : modifiers (specialChars s)
}.

(** A scan code of a key that prints. *)
Lemma handleNormal_ok s sc :
  kbd_inv s -> 0 <= sc < 256 -> index (term s) < TERM_BUF_SIZE ->
  exists r s', handleNormalScanCodes sc s = Ret (r, s') /\ kbd_inv s' /\
    specialChars s' = specialChars s /\ index (term s') <= index (term s) + 1 /\
    video_only (mem (con (term s))) (mem (con (term s'))).
Proof.
  intros [Ht Hs] Hsc Hi. unfold handleNormalScanCodes, gets. rewrite (bind_ret _ _ _ _ _ eq_refl).
  destruct (Z.eqb_spec (g_c (key_glyph (specialChars s) sc)) 0) as [H0|Hc].
  { exists 0, s. split_and!; [done|by split|done|lia|done]. }
  destruct (key_str (specialChars s) (key_glyph (specialChars s) sc)) as [str i] eqn:Hk.
  destruct (key_str_ok _ _ _ _ Hs Hsc Hc Hk) as (l & Hd & Hl & Hlen). rewrite Hd.
  destruct (on_new_char_total (term s) (l ++ [0])) as (k & tb & ix & Hrun & Hinv1 & Hstep & Hix);
    [done|rewrite length_app; simpl; lia|done|].
  destruct (printInputChar_ok (term s) l _ Hinv1 Hl ltac:(lia) Hrun) as (k2 & Hrun2 & Hinv2 & Ho2).
  exists 1, (set_tty (Tty k2 tb ix) s). split_and!; [|by split|done|done|].
  - by rewrite (bind_ret _ _ _ tt (set_tty (Tty k2 tb ix) s)) by exact (zoom_ret term set_tty _ s tt _ Hrun2).
  - intros a Ha. cbn. rewrite (Ho2 a Ha). apply (cs_only _ _ Hstep). unfold SCREEN in *. lia.
Qed.

(** the keyboard interrupt is safe: for every scan code and every state of the modifiers,
    while the terminal buffer is not full the handler returns, keeps the invariant of
    keyboard, terminal and console, adds at most one character, and writes no memory
    outside its own variables and the video memory. *)
Theorem printAscii_safe s sc :
  kbd_inv s -> 0 <= sc < 256 -> index (term s) < TERM_BUF_SIZE ->
  exists s', printAscii sc s = Ret (tt, s') /\ kbd_inv s' /\ index (term s') <= index (term s) + 1 /\
    video_only (mem (con (term s))) (mem (con (term s'))).
Proof.
  intros Hinv Hsc Hi. pose proof Hinv as [Ht Hs].
  assert (exists s', (handleNormalScanCodes sc ≫= fun _ => mret tt) s = Ret (tt, s') /\ kbd_inv s' /\
    index (term s') <= index (term s) + 1 /\
    video_only (mem (con (term s))) (mem (con (term s')))) as Hnormal.
  { destruct (handleNormal_ok s sc Hinv Hsc Hi) as (r & s' & Hrun & Hinv' & _ & Hix & Ho).
    exists s'. by rewrite (bind_ret _ _ _ _ _ Hrun). }
  assert (forall f, modifiers (f (specialChars s)) ->
    exists s', set_special f s = Ret (tt, s') /\ kbd_inv s' /\ index (term s') <= index (term s) + 1 /\
      video_only (mem (con (term s))) (mem (con (term s')))) as Hspecial.
  { intros f Hf. eexists. split_and!; [done|by split|simpl; lia|done]. }
  pose proof (fun k => proj2 (setKey_modifiers _ k Hs)) as Hset.
  pose proof (fun k => proj2 (clearKey_modifiers _ k Hs)) as Hclr.
  unfold printAscii. repeat case_match; try exact Hnormal; apply Hspecial;
    first [apply Hset | apply Hclr | by apply setKey_modifiers | by apply clearKey_modifiers |
           destruct (truth _); first [apply Hset | apply Hclr]].
Qed.

(** a printing key reaches the terminal buffer: when the key's characters stand for the
    character [c], the handler stores [c] at the end of the terminal buffer and leaves
    the modifiers alone. *)
Theorem key_reaches_terminal s sc str i c :
  kbd_inv s -> 0 <= sc < 256 -> index (term s) < TERM_BUF_SIZE ->
  g_c (key_glyph (specialChars s) sc) <> 0 ->
  key_str (specialChars s) (key_glyph (specialChars s) sc) = (str, i) ->
  key_char (drop i str) = Some c ->
  exists k, handleNormalScanCodes sc s =
    Ret (1, Kbd (Tty k (<[Z.to_nat (index (term s)) := c]> (term_buf (term s))) (index (term s) + 1))
              (specialChars s)).
Proof.
  intros [Ht Hs] Hsc Hi Hc Hk Hkc.
  destruct (key_str_ok _ _ _ _ Hs Hsc Hc Hk) as (l & Hd & Hl & Hlen). rewrite Hd in Hkc.
  destruct (on_new_char_ok (term s) (l ++ [0]) c Ht Hkc Hi) as (k & Hrun & Hstep).
  destruct (printInputChar_ok (term s) l _ (tty_inv_con (term s) k _ (index (term s) + 1) Ht Hstep
    ltac:(rewrite length_insert; apply Ht) ltac:(pose proof (ti_index _ Ht); lia)) Hl ltac:(lia) Hrun)
    as (k2 & Hrun2 & _ & _).
  exists k2. unfold handleNormalScanCodes, gets. rewrite (bind_ret _ _ _ _ _ eq_refl).
  destruct (Z.eqb_spec (g_c (key_glyph (specialChars s) sc)) 0); [done|]. rewrite Hk, Hd.
  by rewrite (bind_ret _ _ _ _ _ (zoom_ret term set_tty _ s tt _ Hrun2)).
Qed.
End keyboard_spec.

(** ** A keyboard *)

Definition demo_kbd (spec : Z) : kbd := Kbd (demo_tty 0) spec.

Lemma demo_kbd_inv spec : modifiers spec -> kbd_inv (L := demo_literals) (demo_kbd spec).
Proof. intros Hs. split; [|done]. apply demo_tty_inv. by vm_compute. Qed.

Lemma modifier_independence_witness : truth (isKey (setKey 1 LSHIFT) CAPS) = true.
Proof. apply (modifier_independence 1 LSHIFT CAPS). by split. Defined.

Lemma caps_lock_ignores_shift_witness : truth (shouldCapitalizeLetters 3) = true.
Proof. apply (caps_lock_ignores_shift 3); [by split|reflexivity]. Defined.

Lemma printAscii_safe_witness :
  exists s', @printAscii demo_literals 0x0E (demo_kbd 0) = Ret (tt, s').
Proof.
  destruct (@printAscii_safe demo_literals (demo_kbd 0) 0x0E) as (s' & H & _).
  - apply demo_kbd_inv. by split.
  - lia.
  - by vm_compute.
  - exists s'. exact H.
Defined.

Lemma key_reaches_terminal_witness :
  exists k tb, @handleNormalScanCodes demo_literals 0x10 (demo_kbd 2) = Ret (1, Kbd (Tty k tb 1) 2) /\
    tb !! 0%nat = Some (ch "Q").
Proof.
  destruct (@key_reaches_terminal demo_literals (demo_kbd 2) 0x10 [0; 0; 0; ch "Q"; 0] 3 (ch "Q")) as (k & H).
  - apply demo_kbd_inv. by split.
  - lia.
  - by vm_compute.
  - by vm_compute.
  - by vm_compute.
  - by vm_compute.
  - exists k, (<[0%nat := ch "Q"]> (replicate 256 0)). split; [exact H|reflexivity].
Defined.
