(* ===== verification/Tarfs.v ===== *)
(** * The file system ([sys/tarfs.c])

    Files live in a tar archive linked into the kernel image, here a region of the byte
    memory from [start] to [end_]: 512-byte headers, each followed by its data in blocks of
    512 bytes.  Every operation walks the headers; [archive] is the layout of a
    list of entries, the specification of the walk. *)

From S2P Require Import Prelude PhysMem Paging CStr Console.

(** ** Operations *)

Definition HEADER : Z := 512.
(** Offsets of the fields of [struct posix_header_ustar]. *)
Definition off_size : Z := 124.
Definition off_typeflag : Z := 156.
Definition BUF_SIZE : Z := 128.
Definition FILES_ALLOWED : Z := 64.

Definition lift_o {S A} (o : outcome A) : M S A :=
  match o with Ret a => mret a | Fault => mfault | OutOfFuel => mfuel end.

(** [o_to_d(atoi(s->size))]. *)
Definition file_size (s : Z) : M bytes Z :=
  n ← atoi (s + off_size); lift_o (o_to_d n).

(** [s += file_size / sizeof(header) + 2], or [s++] when the file is empty. *)
Definition next_header (s size : Z) : Z :=
  if 0 <? size then s + HEADER * (size / HEADER + 2) else s + HEADER.

(** The loop of all operations: [visit] updates [acc] and says whether to leave the loop. *)
Fixpoint tar_walk {B} (fuel : nat) (end_ s : Z) (acc : B) (visit : Z -> B -> M bytes (B * bool)) : M bytes B :=
  match fuel with
  | O => mfuel
  | S f =>
      if s =? 0 then mret acc else
      c ← ldc s;
      if c =? 0 then mret acc else
      size ← file_size s;
      visit s acc ≫= fun '(acc', stop) =>
      if (stop : bool) then mret acc' else
      let s' := next_header s size in
      if s' <? end_ then tar_walk f end_ s' acc' visit else mret acc'
  end.

(** Every iteration advances by at least one header. *)
Definition walk_fuel (start end_ : Z) : nat := S (Z.to_nat ((end_ - start) / HEADER)).

(** Leave the loop with [found] at an entry of this name and type. *)
Definition match_entry (filename type s found acc : Z) : M bytes (Z * bool) :=
  d ← kstrcmp filename s;
  if d =? 0 then
    t ← atoi (s + off_typeflag);
    mret (if t =? type then (found, true) else (acc, false))
  else mret (acc, false).

Definition get_file_binary (start end_ filename : Z) : M bytes Z :=
  tar_walk (walk_fuel start end_) end_ start 0 (fun s acc =>
    match_entry filename 0 s (s + HEADER) acc).

Definition dir_exists (start end_ filename : Z) : M bytes Z :=
  tar_walk (walk_fuel start end_) end_ start (-1) (fun s acc =>
    match_entry filename 5 s 0 acc).

(** [get_file] reports on the console; [lit] is the address of its message. *)
Definition get_file (lit start end_ filename : Z) : M console Z :=
  r ← on_mem (tar_walk (walk_fuel start end_) end_ start 0 (fun s acc =>
    d ← kstrcmp filename s;
    mret (if d =? 0 then (s + HEADER, true) else (acc, false))));
  if r =? 0 then kprintf lit [] ≫= fun _ => mret 0 else mret r.

(** [EOF] is -1: a byte 0xFF of a [char] compares equal to it. *)
Fixpoint tarfs_read_loop (fuel : nat) (buffer len c i : Z) : M bytes Z :=
  match fuel with
  | O => mret len
  | S f =>
      x ← ldc (c + i);
      if x =? 0 then mret i else
      x' ← ldc (c + i);
      if x' =? -1 then mret i else
      x'' ← ldc (c + i);
      st8 (buffer + i) x'' ≫= fun _ => tarfs_read_loop f buffer len c (i + 1)
  end.

Definition tarfs_read (buffer len file offset : Z) : M bytes Z :=
  tarfs_read_loop (Z.to_nat len) buffer len (file + offset) 0.

(** [substr] is 1 when the strings agree up to the end of the shorter one. *)
Fixpoint substr_loop (fuel : nat) (s1 s2 : Z) : M bytes Z :=
  match fuel with
  | O => mfuel
  | S f =>
      a ← ldc s1;
      if a =? 0 then mret 1 else
      b ← ldc s2;
      if b =? 0 then mret 1 else
      if negb (a =? b) then mret 0 else substr_loop f (s1 + 1) (s2 + 1)
  end.
Definition substr (s1 s2 : Z) : M bytes Z := fuel ← str_fuel; substr_loop fuel s1 s2.

(** ** Directories *)

Record dir_header := DirHeader {
  current_point : Z;
  file_count : Z;
  files : list (list Z);
  dir_exists_ : Z
}.

(** Read a string of the archive into a [files] entry of [BUF_SIZE] bytes. *)
Fixpoint read_name (fuel : nat) (tmp : Z) : M bytes (list Z) :=
  match fuel with
  | O => mfault
  | S f => c ← ldc tmp; if c =? 0 then mret [] else l ← read_name f (tmp + 1); mret (c :: l)
  end.

(** The directory's own entry has a trailing slash: [name] and a slash, in the local array
    at [tmp_copy]. *)
Fixpoint copy_slash (fuel : nat) (tmp_1 tmp_2 : Z) : M bytes unit :=
  match fuel with
  | O => mfuel
  | S f =>
      c ← ldc tmp_1;
      if c =? 0 then st8 tmp_2 47 ≫= fun _ => st8 (tmp_2 + 1) 0
      else st8 tmp_2 c ≫= fun _ => copy_slash f (tmp_1 + 1) (tmp_2 + 1)
  end.

Definition add_entry (name tmp_copy s : Z) (d : dir_header) : M bytes (dir_header * bool) :=
  fuel ← str_fuel; copy_slash fuel name tmp_copy ≫= fun _ =>
  r ← substr name s;
  k ← kstrcmp tmp_copy s;
  if negb (r =? 0) && negb (k =? 0) then
    if FILES_ALLOWED <=? file_count d then mfault else
    f ← read_name (Z.to_nat BUF_SIZE) s;
    mret (DirHeader (current_point d) (file_count d + 1) (files d ++ [f]) 1, false)
  else if k =? 0 then mret (DirHeader (current_point d) (file_count d) (files d) 1, false)
  else mret (d, false).

(** [d0] is the contents of the block [kmalloc] returned: [current_point] and [files] are not
    initialised. *)
Definition get_folder (start end_ tmp_copy name : Z) (d0 : dir_header) : M bytes dir_header :=
  tar_walk (walk_fuel start end_) end_ start (DirHeader (current_point d0) 0 [] 0)
    (add_entry name tmp_copy).

(** [open_dir]: [None] is the null result. *)
Definition open_dir (start end_ tmp_copy name : Z) (d0 : dir_header) : M bytes (option dir_header) :=
  d ← get_folder start end_ tmp_copy name d0;
  mret (if dir_exists_ d =? 1 then Some d else None).

(** [read_dir]: the result, the name copied out, and the new stream. *)
Definition read_dir (d : dir_header) : outcome (Z * list Z * dir_header) :=
  if file_count d <=? current_point d then Ret (-1, [], d) else
  match files d !! Z.to_nat (current_point d) with
  | Some f => Ret (0, f, DirHeader (current_point d + 1) (file_count d) (files d) (dir_exists_ d))
  | None => Fault
  end.

(** The stream is a kernel heap block. *)
Definition close_dir (stream : Z) : M machine Z := kfree stream ≫= fun _ => mret 0.

(** [print_all_files]: [lit] is the format ["Name: %s, Size: %d bytes, Type: %s\n"],
    [title] the line before. *)
Fixpoint print_all_loop (fuel : nat) (lit end_ s : Z) : M console unit :=
  match fuel with
  | O => mfuel
  | S f =>
      if s =? 0 then mret tt else
      c ← on_mem (ldc s);
      if c =? 0 then mret tt else
      size ← on_mem (file_size s);
      kprintf lit [s; u64 size; s + off_typeflag] ≫= fun _ =>
      let s' := next_header s size in
      if s' <? end_ then print_all_loop f lit end_ s' else mret tt
  end.

Definition print_all_files (title lit start end_ : Z) : M console unit :=
  kprintf title [] ≫= fun _ => print_all_loop (walk_fuel start end_) lit end_ start.

(** ** The layout of an archive *)

Record entry := Entry { e_name : list Z; e_size : Z; e_type : Z }.

(** The 11 octal digits of a size. *)
Fixpoint octal (n : nat) (x : Z) : list Z :=
  match n with O => [] | S n' => octal n' (x / 8) ++ [48 + x mod 8] end.

(** A header at [s]; a type is one digit, and the link name behind it is empty. *)
Record header_at (m : bytes) (s : Z) (e : entry) : Prop := {
  ha_name : cstr m s (e_name e);
  ha_nonempty : e_name e <> [];
  ha_size : cstr m (s + off_size) (octal 11 (e_size e));
  ha_range : 0 <= e_size e < 8 ^ 9;
  ha_type : cstr m (s + off_typeflag) [48 + e_type e];
  ha_digit : 0 <= e_type e <= 9
}.

(** Blocks of the data of a file, in the tar format. *)
Definition data_blocks (size : Z) : Z := (size + 511) / 512.

(** The entries [es] laid out from [s] on; a zero byte or the end of the region follows. *)
Fixpoint archive (m : bytes) (end_ s : Z) (es : list entry) : Prop :=
  match es with
  | [] => end_ <= s \/ m !! s = Some 0
  | e :: es' => 0 < s < end_ /\ header_at m s e /\ archive m end_ (s + 512 * (1 + data_blocks (e_size e))) es'
  end.

(** ** Reading a header *)

Lemma octal_digits n x : Forall is_digit (octal n x).
Proof.
  revert x; induction n as [|n IH]; intros x; simpl; [done|]. apply Forall_app. split; [done|].
  apply Forall_singleton. unfold is_digit. pose proof (Z.mod_pos_bound x 8). lia.
Qed.

Lemma octal_value n x : dec_value 0 (octal n x) = oct_dec n x.
Proof.
  revert x; induction n as [|n IH]; intros x; [done|]. cbn [octal oct_dec].
  unfold dec_value in *. rewrite foldl_app, IH. simpl. lia.
Qed.

Lemma oct_dec_extend n x : 0 <= x < 8 ^ Z.of_nat n -> oct_dec (S n) x = oct_dec n x.
Proof.
  revert x; induction n as [|n IH]; intros x Hx.
  - change (8 ^ Z.of_nat 0) with 1 in Hx. by replace x with 0 by lia.
  - change (10 * oct_dec (S n) (x / 8) + x mod 8 = 10 * oct_dec n (x / 8) + x mod 8). rewrite IH; [done|].
    rewrite Nat2Z.inj_succ, Z.pow_succ_r in Hx by lia.
    split; [apply Z.div_pos; lia|]. apply Z.div_lt_upper_bound; lia.
Qed.

Lemma file_size_ok m s e : header_at m s e -> file_size s m = Ret (e_size e, m).
Proof.
  intros [_ _ Hs Hr _ _].
  assert (oct_dec 11 (e_size e) = oct_dec 10 (e_size e)) as Ho by (apply oct_dec_extend; simpl; lia).
  assert (oct_dec 10 (e_size e) = oct_dec 9 (e_size e)) as Ho' by (apply oct_dec_extend; simpl; lia).
  pose proof (oct_dec_bound 9 (e_size e) ltac:(simpl; lia)) as Hb.
  unfold file_size, atoi. rewrite (bind_ret _ _ _ _ _ (atoi_digits 0 _ _ _ Hs (octal_digits _ _) ltac:(
    by destruct (octal 10 (e_size e / 8))) ltac:(
    rewrite octal_value, Ho, Ho'; change (10 ^ Z.of_nat 9) with 1000000000 in Hb; lia))).
  rewrite octal_value, Ho, o_to_d_ok by done. done.
Qed.

Lemma type_ok m s e : header_at m s e -> atoi (s + off_typeflag) m = Ret (e_type e, m).
Proof.
  intros [_ _ _ _ Ht Hd]. unfold atoi. rewrite (atoi_digits 0 _ _ _ Ht).
  - unfold dec_value. simpl. f_equal. f_equal. lia.
  - apply Forall_singleton. unfold is_digit. lia.
  - done.
  - unfold dec_value. simpl. lia.
Qed.

(** ** The walk *)

(** A file whose data the walk steps over correctly. *)
Definition walkable (e : entry) : Prop := e_size e mod 512 <> 0 \/ e_size e = 0.

Lemma next_header_ok s e :
  0 <= e_size e -> walkable e -> next_header s (e_size e) = s + 512 * (1 + data_blocks (e_size e)).
Proof.
  intros Hs Hw. unfold next_header, data_blocks, HEADER.
  pose proof (Z.div_mod (e_size e) 512 ltac:(lia)) as Hd.
  pose proof (Z.mod_pos_bound (e_size e) 512 ltac:(lia)) as Hm.
  destruct (Z.ltb_spec 0 (e_size e)).
  - replace ((e_size e + 511) / 512) with (e_size e / 512 + 1); [lia|].
    apply Z.div_unique with (r := e_size e mod 512 - 1); unfold walkable in Hw; lia.
  - replace (e_size e) with 0 by lia. change ((0 + 511) / 512) with 0. lia.
Qed.

(** The walk over the entries of an archive, as a function. *)
Fixpoint walk_entries {B} (step : entry -> Z -> B -> B * bool) (s : Z) (es : list entry) (acc : B) : B :=
  match es with
  | [] => acc
  | e :: es' =>
      let '(acc', stop) := step e s acc in
      if stop then acc' else walk_entries step (s + 512 * (1 + data_blocks (e_size e))) es' acc'
  end.

Lemma tar_walk_ok {B} (visit : Z -> B -> M bytes (B * bool)) step m end_ s es acc fuel :
  (forall s e acc, header_at m s e -> visit s acc m = Ret (step e s acc, m)) ->
  archive m end_ s es -> Forall walkable es -> 0 < s < end_ -> (end_ - s) / 512 < Z.of_nat fuel ->
  tar_walk fuel end_ s acc visit m = Ret (walk_entries step s es acc, m).
Proof.
  intros Hv. revert s acc fuel; induction es as [|e es IH]; intros s acc [|f] Har Hw Hs Hf;
    try (pose proof (Z.div_pos (end_ - s) 512); lia); cbn [tar_walk walk_entries archive] in *;
    (destruct (Z.eqb_spec s 0); [lia|]).
  - destruct Har as [?|Hz]; [lia|]. by rewrite (bind_ret _ _ _ _ _ (ldc_ok _ _ _ Hz)).
  - destruct Har as (_ & Hh & Har). apply Forall_cons_1 in Hw as [Hwe Hw].
    assert (exists c r, e_name e = c :: r) as (c & r & Hn).
    { pose proof (ha_nonempty _ _ _ Hh). destruct (e_name e); [done|eauto]. }
    pose proof (ha_name _ _ _ Hh) as Hname. rewrite Hn in Hname. destruct Hname as (Hc & Hcl & _).
    rewrite (bind_ret _ _ _ _ _ (ldc_ok _ _ _ Hcl)), i8_byte by lia. destruct (Z.eqb_spec c 0); [lia|].
    rewrite (bind_ret _ _ _ _ _ (file_size_ok _ _ _ Hh)), (bind_ret _ _ _ _ _ (Hv _ _ _ Hh)).
    destruct (step e s acc) as [acc' stop]. destruct stop; [done|].
    pose proof (proj1 (ha_range _ _ _ Hh)) as H0. rewrite next_header_ok by done.
    pose proof (Z.div_pos (e_size e + 511) 512 ltac:(lia) ltac:(lia)) as Hd. fold (data_blocks (e_size e)) in Hd.
    destruct (Z.ltb_spec (s + 512 * (1 + data_blocks (e_size e))) end_) as [Hlt|Hge].
    + apply IH; [done|done|lia|].
      assert ((end_ - (s + 512 * (1 + data_blocks (e_size e)))) / 512 <= (end_ - s) / 512 - 1); [|lia].
      replace ((end_ - s) / 512 - 1) with ((end_ - s + (-1) * 512) / 512) by (rewrite Z.div_add by lia; lia).
      apply Z.div_le_mono; lia.
    + destruct es; [done|]. destruct Har as [? _]. lia.
Qed.

(** ** Finding a file *)

(** The header of the first entry that satisfies [P]. *)
Fixpoint find_entry (P : entry -> bool) (s : Z) (es : list entry) : option Z :=
  match es with
  | [] => None
  | e :: es' => if P e then Some s else find_entry P (s + 512 * (1 + data_blocks (e_size e))) es'
  end.

Definition is_entry (name : list Z) (type : Z) (e : entry) : bool :=
  bool_decide (e_name e = name) && (e_type e =? type).

Lemma walk_entries_find (P : entry -> bool) (found : Z -> Z) s es (acc : Z) :
  walk_entries (fun e (s acc : Z) => if P e then (found s, true) else (acc, false)) s es acc =
  match find_entry P s es with Some s' => found s' | None => acc end.
Proof.
  revert s; induction es as [|e es IH]; intros s; simpl; [done|]. destruct (P e); [done|apply IH].
Qed.

Lemma find_entry_pos P m end_ s es x : archive m end_ s es -> find_entry P s es = Some x -> 0 < x.
Proof.
  revert s; induction es as [|e es IH]; intros s H Hx; [done|]. destruct H as (Hs & _ & H). simpl in Hx.
  destruct (P e); [injection Hx as <-; lia|by eapply IH].
Qed.

Lemma match_entry_ok m fn name type s e found acc :
  cstr m fn name -> header_at m s e ->
  match_entry fn type s found acc m =
  Ret (if is_entry name type e then (found, true) else (acc, false), m).
Proof.
  intros Hn Hh. destruct (kstrcmp_ok m fn s name (e_name e) Hn (ha_name _ _ _ Hh)) as (d & Hd & Hiff).
  unfold match_entry, is_entry. rewrite (bind_ret _ _ _ _ _ Hd).
  destruct (Z.eqb_spec d 0) as [H0|H0].
  - rewrite (bind_ret _ _ _ _ _ (type_ok _ _ _ Hh)).
    rewrite bool_decide_true by (symmetry; by apply Hiff). by destruct (e_type e =? type).
  - rewrite bool_decide_false; [done|]. intros Heq. apply H0, Hiff. done.
Qed.

Lemma archive_mono m0 m end_ p es : m0 ⊆ m -> archive m0 end_ p es -> archive m end_ p es.
Proof.
  intros Hs. revert p; induction es as [|e es IH]; intros p; cbn [archive].
  - intros [H|H]; [by left|]. right. by eapply lookup_weaken.
  - intros (A & [B1 B2 B3 B4 B5 B6] & C). split_and!; [lia..| |auto].
    split; try done; try (by eapply cstr_mono); by eapply lookup_weaken.
Qed.

Lemma get_file_binary_ok m start end_ es fn name :
  archive m end_ start es -> Forall walkable es -> 0 < start < end_ -> cstr m fn name ->
  get_file_binary start end_ fn m =
  Ret (match find_entry (is_entry name 0) start es with Some s => s + HEADER | None => 0 end, m).
Proof.
  intros Har Hw Hs Hn. unfold get_file_binary.
  rewrite (tar_walk_ok _ (fun e s (acc : Z) => if is_entry name 0 e then (s + HEADER, true) else (acc, false))
    m end_ start es) ; [by rewrite (walk_entries_find _ (fun s => s + HEADER))| |done|done|done|].
  - intros s e acc Hh. by apply match_entry_ok.
  - unfold walk_fuel, HEADER. pose proof (Z.div_pos (end_ - start) 512). lia.
Qed.

(** C23: [get_file_binary] implements lookup in the archive: it returns the address of
    the data of the first regular file of that name, and 0 when there is none. This holds for
    the archives with no entry whose positive size is a multiple of 512 ([walkable]);
    behind such an entry the code steps one block too far. *)
Theorem get_file_binary_finds m start end_ es fn name :
  archive m end_ start es -> Forall walkable es -> 0 < start < end_ -> cstr m fn name ->
  get_file_binary start end_ fn m =
  Ret (match find_entry (is_entry name 0) start es with Some s => s + HEADER | None => 0 end, m).
Proof. apply get_file_binary_ok. Qed.

(** [dir_exists] returns 0 exactly when the archive has a directory entry of that name,
    and -1 otherwise. *)
Theorem dir_exists_decides m start end_ es fn name :
  archive m end_ start es -> Forall walkable es -> 0 < start < end_ -> cstr m fn name ->
  dir_exists start end_ fn m =
  Ret (if existsb (is_entry name 5) es then 0 else -1, m).
Proof.
  intros Har Hw Hs Hn. unfold dir_exists.
  rewrite (tar_walk_ok _ (fun e s (acc : Z) => if is_entry name 5 e then (0, true) else (acc, false))
    m end_ start es); [|by intros s e acc Hh; apply match_entry_ok|done|done|done|].
  - rewrite (walk_entries_find _ (fun _ => 0)). f_equal. f_equal. clear. revert start.
    induction es as [|e es IH]; intros s; simpl; [done|]. by destruct (is_entry name 5 e).
  - unfold walk_fuel, HEADER. pose proof (Z.div_pos (end_ - start) 512). lia.
Qed.

(** After a file that fills its blocks exactly, the walk lands one block too far. *)
Lemma next_header_full s k :
  0 < k -> next_header s (512 * k) = s + 512 * (1 + data_blocks (512 * k)) + 512.
Proof.
  intros Hk. unfold next_header, data_blocks, HEADER. destruct (Z.ltb_spec 0 (512 * k)); [|lia].
  replace ((512 * k + 511) / 512) with k.
  - rewrite (Z.mul_comm 512 k), Z.div_mul by lia. lia.
  - apply Z.div_unique with (r := 511); lia.
Qed.

(** ** Reading data *)

(** The bytes [l], none of them 0 or 0xFF, at [p]. *)
Definition text_at (m : bytes) (p : Z) (l : list Z) : Prop :=
  forall i c, l !! i = Some c -> 1 <= c <= 254 /\ m !! (p + Z.of_nat i) = Some c.

(** A byte that ends a read. *)
Definition stops_at (m : bytes) (p : Z) : Prop := exists c, m !! p = Some c /\ (c = 0 \/ c = 255).

Lemma stop_read fuel buffer len c0 i m :
  stops_at m (c0 + i) -> i <= len -> fuel = Z.to_nat (len - i) ->
  tarfs_read_loop fuel buffer len c0 i m = Ret (i, m).
Proof.
  intros (c & Hc & Hor) Hi ->.
  destruct (Z.to_nat (len - i)) as [|f] eqn:E; [simpl; unfold mret, M_ret; by replace len with i by lia|].
  cbn [tarfs_read_loop]. rewrite (bind_ret _ _ _ _ _ (ldc_ok _ _ _ Hc)).
  destruct Hor as [->| ->]; [done|]. simpl (_ =? _). cbv iota. by rewrite (bind_ret _ _ _ _ _ (ldc_ok _ _ _ Hc)).
Qed.

Lemma text_at_cons m p b l a v :
  text_at m p (b :: l) -> ~ (p < a < p + Z.of_nat (length (b :: l))) -> text_at (<[a := v]> m) (p + 1) l.
Proof.
  intros Hl Ha k c Hk. destruct (Hl (S k) c Hk) as [? Hx]. split; [done|]. rewrite lookup_insert_ne.
  - rewrite <- Hx. f_equal. lia.
  - apply lookup_lt_Some in Hk. cbn [length] in Ha. lia.
Qed.

Lemma tarfs_read_loop_ok buffer len c0 l fuel i m :
  0 <= i -> fuel = Z.to_nat (len - i) -> i + Z.of_nat (length l) <= len -> text_at m (c0 + i) l ->
  (i + Z.of_nat (length l) = len \/ stops_at m (c0 + i + Z.of_nat (length l))) ->
  room m (buffer + i) (Z.of_nat (length l)) ->
  disjoint_regions (buffer + i) (Z.of_nat (length l)) (c0 + i) (Z.of_nat (length l) + 1) ->
  tarfs_read_loop fuel buffer len c0 i m = Ret (i + Z.of_nat (length l), write_bytes (buffer + i) l m).
Proof.
  revert fuel i m. induction l as [|b l IH]; intros fuel i m Hi Hf Hlen Hl Hend Hroom Hdis; cbn [length] in *.
  - rewrite !Z.add_0_r in *. destruct Hend as [Heq|Hstop]; [|by apply stop_read].
    replace fuel with 0%nat by lia. simpl. unfold mret, M_ret. by rewrite Heq.
  - destruct fuel as [|f]; [lia|]. cbn [tarfs_read_loop].
    destruct (Hl 0%nat b eq_refl) as [Hb Hm]. rewrite Z.add_0_r in Hm.
    assert (i8 b <> -1) as Hne by (change (-1) with (i8 255); intros H%i8_inj; lia).
    rewrite (bind_ret _ _ _ _ _ (ldc_ok _ _ _ Hm)), i8_byte by lia. destruct (Z.eqb_spec b 0); [lia|].
    rewrite (bind_ret _ _ _ _ _ (ldc_ok _ _ _ Hm)). destruct (Z.eqb_spec (i8 b) (-1)); [done|].
    rewrite (bind_ret _ _ _ _ _ (ldc_ok _ _ _ Hm)).
    assert (is_Some (m !! (buffer + i))) as Hbuf by (rewrite <- (Z.add_0_r (buffer + i)); apply Hroom; lia).
    rewrite (bind_ret _ _ _ _ _ (st8_ok _ _ _ Hbuf)), u8_i8 by lia. unfold disjoint_regions in Hdis.
    rewrite IH; [|lia|lia|lia| | | |unfold disjoint_regions; lia].
    + f_equal. f_equal; [lia|]. cbn [write_bytes]. f_equal. lia.
    + rewrite Z.add_assoc. eapply text_at_cons; [exact Hl|cbn [length]; lia].
    + destruct Hend as [?|(c & Hx & ?)]; [left; lia|right]. exists c. split; [|done].
      rewrite lookup_insert_ne by lia. rewrite <- Hx. f_equal. lia.
    + apply room_insert. eapply room_sub; [exact Hroom|lia|lia].
Qed.

Lemma tarfs_read_ok m buffer len file offset l :
  text_at m (file + offset) l ->
  (Z.of_nat (length l) = len \/
   Z.of_nat (length l) < len /\ stops_at m (file + offset + Z.of_nat (length l))) ->
  room m buffer (Z.of_nat (length l)) ->
  disjoint_regions buffer (Z.of_nat (length l)) (file + offset) (Z.of_nat (length l) + 1) ->
  tarfs_read buffer len file offset m = Ret (Z.of_nat (length l), write_bytes buffer l m).
Proof.
  intros Hl Hend Hroom Hdis. unfold tarfs_read.
  pose proof (tarfs_read_loop_ok buffer len (file + offset) l (Z.to_nat len) 0 m) as Hgen.
  rewrite !Z.add_0_r, Z.add_0_l in Hgen. apply Hgen; try done.
  - by rewrite Z.sub_0_r.
  - lia.
  - destruct Hend as [?|[_ ?]]; [by left|by right].
Qed.

(** [tarfs_read] copies the text of a file: bytes other than 0 and 0xFF are copied to
    the buffer until [len] of them were read or a 0 or 0xFF byte follows (files with
    such bytes are cut short); it returns their number and changes nothing else. *)
Theorem tarfs_read_text m buffer len file offset l :
  text_at m (file + offset) l ->
  (Z.of_nat (length l) = len \/
   Z.of_nat (length l) < len /\ stops_at m (file + offset + Z.of_nat (length l))) ->
  room m buffer (Z.of_nat (length l)) ->
  disjoint_regions buffer (Z.of_nat (length l)) (file + offset) (Z.of_nat (length l) + 1) ->
  tarfs_read buffer len file offset m = Ret (Z.of_nat (length l), write_bytes buffer l m).
Proof. apply tarfs_read_ok. Qed.

(** ** Directory listings *)

Lemma substr_loop_ok fuel m p q a b :
  cstr m p a -> cstr m q b -> (length a < fuel)%nat ->
  substr_loop fuel p q m = Ret (if bool_decide (a `prefix_of` b \/ b `prefix_of` a) then 1 else 0, m).
Proof.
  revert fuel p q b; induction a as [|c a IH]; intros [|f] p q b Ha Hb Hf; simpl in Hf; try lia;
    cbn [substr_loop].
  - rewrite (bind_ret _ _ _ _ _ (ldc_ok _ _ _ Ha)). rewrite bool_decide_true; [done|]. left. apply prefix_nil.
  - destruct Ha as (Hc & Hl & Ha). rewrite (bind_ret _ _ _ _ _ (ldc_ok _ _ _ Hl)), i8_byte by lia.
    destruct (Z.eqb_spec c 0); [lia|]. destruct b as [|c' b].
    { rewrite (bind_ret _ _ _ _ _ (ldc_ok _ _ _ Hb)). rewrite bool_decide_true; [done|]. right. apply prefix_nil. }
    destruct Hb as (Hc' & Hl' & Hb). rewrite (bind_ret _ _ _ _ _ (ldc_ok _ _ _ Hl')), i8_byte by lia.
    destruct (Z.eqb_spec c' 0); [lia|]. destruct (Z.eqb_spec (i8 c) (i8 c')) as [Heq|Hne]; cbn [negb].
    + apply i8_inj in Heq as ->; [|lia..]. cbn [negb]. rewrite (IH f _ _ b) by (done || lia).
      erewrite bool_decide_ext; [done|]. split; intros [H|H]; [left|right|left|right];
        solve [by apply prefix_cons | by apply prefix_cons_inv_2 in H].
    + rewrite bool_decide_false; [done|]. intros [H|H]; apply prefix_cons_inv_1 in H; congruence.
Qed.

(** [substr], the test by which [get_folder] selects the entries of a directory, is
    symmetric: it holds when either string is a prefix of the other.  So listing a
    directory also lists its ancestors' entries, and any name that starts with the
    same letters. *)
Theorem substr_symmetric_prefix m p q a b :
  cstr m p a -> cstr m q b ->
  substr p q m = Ret (if bool_decide (a `prefix_of` b \/ b `prefix_of` a) then 1 else 0, m).
Proof.
  intros Ha Hb. unfold substr, str_fuel, gets. rewrite (bind_ret _ _ _ _ _ eq_refl).
  apply substr_loop_ok; [done..|]. pose proof (cstr_size _ _ _ Ha). lia.
Qed.

(** ** Two archives *)

Definition header_bytes (e : entry) : list Z :=
  e_name e ++ replicate (124 - length (e_name e)) 0 ++ octal 11 (e_size e) ++ replicate 21 0 ++
  [48 + e_type e] ++ replicate 355 0.

(** A 5-byte file ["a"] and a directory ["d/"], at 512; the names also at 100 and 110. *)
Definition demo_file : entry := Entry [97] 5 0.
Definition demo_dir : entry := Entry [100; 47] 0 5.
Definition demo_archive : bytes :=
  write_bytes 512 (header_bytes demo_file ++ [104; 101; 108; 108; 111] ++ replicate 507 0 ++
                   header_bytes demo_dir ++ replicate 512 0)
    (write_bytes 100 [97; 0] (write_bytes 110 [100; 47; 0] ∅)).

Lemma demo_archive_ok : archive demo_archive 2560 512 [demo_file; demo_dir].
Proof.
  split; [lia|]. split.
  { split; [by apply cstrb_sound; vm_compute|done|by apply cstrb_sound; vm_compute|by vm_compute|
            by apply cstrb_sound; vm_compute|simpl; lia]. }
  split; [by vm_compute|]. split.
  { split; [by apply cstrb_sound; vm_compute|done|by apply cstrb_sound; vm_compute|by vm_compute|
            by apply cstrb_sound; vm_compute|simpl; lia]. }
  right. vm_compute. reflexivity.
Qed.

Lemma demo_walkable : Forall walkable [demo_file; demo_dir].
Proof. constructor; [left; done|]. constructor; [right; done|constructor]. Qed.

(** A file ["a"] of exactly one block, then a file ["b"]. *)
Definition demo_full : bytes :=
  write_bytes 512 (header_bytes (Entry [97] 512 0) ++ replicate 512 120 ++
                   header_bytes (Entry [98] 5 0) ++ [104; 101; 108; 108; 111] ++ replicate 507 0)
    (write_bytes 100 [98; 0] ∅).

(** a file behind one whose size is a positive multiple of 512 is not found: the archive
    lists both files, but the walk steps one block too far over the first and
    [get_file_binary] answers that the second does not exist. *)
Theorem file_after_full_block_lost :
  archive demo_full 2560 512 [Entry [97] 512 0; Entry [98] 5 0] /\ cstr demo_full 100 [98] /\
  find_entry (is_entry [98] 0) 512 [Entry [97] 512 0; Entry [98] 5 0] = Some 1536 /\
  match get_file_binary 512 2560 100 demo_full with Ret (p, _) => p = 0 | _ => False end.
Proof.
  split_and!; [|by apply cstrb_sound; vm_compute|reflexivity|vm_compute; reflexivity].
  split; [lia|]. split.
  { split; [by apply cstrb_sound; vm_compute|done|by apply cstrb_sound; vm_compute|by vm_compute|
            by apply cstrb_sound; vm_compute|simpl; lia]. }
  split; [by vm_compute|]. split.
  { split; [by apply cstrb_sound; vm_compute|done|by apply cstrb_sound; vm_compute|by vm_compute|
            by apply cstrb_sound; vm_compute|simpl; lia]. }
  left. vm_compute. discriminate.
Qed.

Lemma get_file_binary_finds_witness :
  get_file_binary 512 2560 100 demo_archive = Ret (1024, demo_archive).
Proof.
  apply (get_file_binary_finds demo_archive 512 2560 [demo_file; demo_dir] 100 [97]
    demo_archive_ok demo_walkable); [lia|]. by apply cstrb_sound; vm_compute.
Defined.

Lemma dir_exists_decides_witness :
  dir_exists 512 2560 110 demo_archive = Ret (0, demo_archive).
Proof.
  apply (dir_exists_decides demo_archive 512 2560 [demo_file; demo_dir] 110 [100; 47]
    demo_archive_ok demo_walkable); [lia|]. by apply cstrb_sound; vm_compute.
Defined.

Lemma tarfs_read_text_witness :
  tarfs_read 1100 128 1024 1 demo_archive = Ret (4, write_bytes 1100 [101; 108; 108; 111] demo_archive).
Proof.
  apply (tarfs_read_text demo_archive 1100 128 1024 1 [101; 108; 108; 111]).
  - intros i c Hi. repeat (destruct i as [|i]; [injection Hi as <-; split; [lia|by vm_compute]|]).
    by destruct i.
  - right. split; [simpl; lia|]. exists 0. split; [by vm_compute|by left].
  - intros i Hi. simpl in Hi. unfold demo_archive. rewrite write_bytes_lookup, decide_True.
    + apply lookup_lt_is_Some_2. vm_compute (length _). lia.
    + vm_compute (length _). lia.
  - right. simpl. lia.
Defined.

Lemma substr_symmetric_prefix_witness :
  substr 110 100 demo_archive = Ret (0, demo_archive).
Proof.
  apply (substr_symmetric_prefix demo_archive 110 100 [100; 47] [97]); by apply cstrb_sound; vm_compute.
Defined.
