(* ===== verification/Vfs.v ===== *)
(** * File objects ([sys/vfs.c], and the operation tables of [sys/terminal.c] and [sys/tarfs.c])

    Open files are records in a heap indexed by the addresses that [kmalloc] returns.  A
    [file_sys_impl_t] is a pair of function pointers; the functions that can be stored there are
    the constructors of [read_fp] and [write_fp], and a null pointer is [None]. *)

From S2P Require Import Prelude PhysMem Paging.

Inductive read_fp := terminal_read_fp | tarfs_read_fp.
Inductive write_fp := terminal_write_fp.

Record file_sys_impl_t := FileSysImpl {
  read_impl : option read_fp;
  write_impl : option write_fp
}.

(** [content_start] is not initialised for the terminal, which does not use it. *)
Record file_object_t := FileObject {
  file_path : Z;
  file_sys_impl : Z;
  fo_ref_count : Z;
  content_start : Z;
  offset : Z
}.

Definition SIZEOF_FO : Z := 40.
Definition SIZEOF_IMPL : Z := 16.

(** The globals of [vfs.c] and [tarfs.c], with the heaps of the two kinds of records. *)
Record vfs := VfsState {
  fobjs : gmap Z file_object_t;
  impls : gmap Z file_sys_impl_t;
  stdin_fo : Z;
  stdout_fo : Z;
  terminal_fs : Z;
  tarfs_impl : Z
}.

(** Addresses the linker gives to the static table of the terminal and to two names. *)
Class VfsSymbols := {
  terminal_fs_impl : Z;
  str_stdin : Z;   (* "stdin" *)
  str_stdout : Z   (* "stdout" *)
}.

Definition set_fobjs (f : gmap Z file_object_t) (v : vfs) : vfs :=
  VfsState f (impls v) (stdin_fo v) (stdout_fo v) (terminal_fs v) (tarfs_impl v).
Definition set_impls (f : gmap Z file_sys_impl_t) (v : vfs) : vfs :=
  VfsState (fobjs v) f (stdin_fo v) (stdout_fo v) (terminal_fs v) (tarfs_impl v).
Definition set_stdin (x : Z) (v : vfs) : vfs :=
  VfsState (fobjs v) (impls v) x (stdout_fo v) (terminal_fs v) (tarfs_impl v).
Definition set_stdout (x : Z) (v : vfs) : vfs :=
  VfsState (fobjs v) (impls v) (stdin_fo v) x (terminal_fs v) (tarfs_impl v).
Definition set_terminal_fs (x : Z) (v : vfs) : vfs :=
  VfsState (fobjs v) (impls v) (stdin_fo v) (stdout_fo v) x (tarfs_impl v).
Definition set_tarfs_impl (x : Z) (v : vfs) : vfs :=
  VfsState (fobjs v) (impls v) (stdin_fo v) (stdout_fo v) (terminal_fs v) x.

(** The operations run on the machine (for [kmalloc]) and this state. *)
Definition VM : Type -> Type := M (machine * vfs).
Definition vm_mach {A} (c : M machine A) : VM A := zoom fst (fun m s => (m, snd s)) c.
Definition vgets {A} (f : vfs -> A) : VM A := gets (fun s => f (snd s)).
Definition vmodify (f : vfs -> vfs) : VM unit := modify (fun s => (fst s, f (snd s))).

Definition fo (p : Z) : VM file_object_t := o ← vgets (fun v => fobjs v !! p); deref o.
Definition set_fo (p : Z) (f : file_object_t) : VM unit := vmodify (fun v => set_fobjs (<[p := f]> (fobjs v)) v).
Definition upd_fo (p : Z) (g : file_object_t -> file_object_t) : VM unit := f ← fo p; set_fo p (g f).

Definition with_ref_count (x : Z) (f : file_object_t) : file_object_t :=
  FileObject (file_path f) (file_sys_impl f) x (content_start f) (offset f).
Definition with_offset (x : Z) (f : file_object_t) : file_object_t :=
  FileObject (file_path f) (file_sys_impl f) (fo_ref_count f) (content_start f) x.

(** [fo->ref_count++]; the counter has 16 bits. *)
Definition inc_ref (p : Z) : VM unit := upd_fo p (fun f => with_ref_count (u16 (fo_ref_count f + 1)) f).

Section vfs_ops.
Context {VS : VfsSymbols}.

(** The static table is part of the state from the start. *)
Definition terminal_table : file_sys_impl_t := FileSysImpl (Some terminal_read_fp) (Some terminal_write_fp).

Definition get_terminal_fs_impl : VM Z := mret terminal_fs_impl.

Definition get_tarfs_impl : VM Z :=
  t ← vgets tarfs_impl;
  (if t =? 0 then
     p ← vm_mach (kmalloc SIZEOF_IMPL);
     vmodify (fun v => set_tarfs_impl p (set_impls (<[p := FileSysImpl (Some tarfs_read_fp) None]> (impls v)) v))
   else mret tt) ≫= fun _ =>
  vgets tarfs_impl.

Definition create_terminal_fo (name : Z) : VM Z :=
  p ← vm_mach (kmalloc SIZEOF_FO);
  t ← vgets terminal_fs;
  (if t =? 0 then i ← get_terminal_fs_impl; vmodify (set_terminal_fs i) else mret tt) ≫= fun _ =>
  t' ← vgets terminal_fs;
  set_fo p (FileObject name t' 0 0 0) ≫= fun _ =>
  mret p.

Definition get_stdin_fo : VM Z :=
  p ← vgets stdin_fo;
  (if p =? 0 then q ← create_terminal_fo str_stdin; vmodify (set_stdin q) else mret tt) ≫= fun _ =>
  vgets stdin_fo.

Definition get_stdout_fo : VM Z :=
  p ← vgets stdout_fo;
  (if p =? 0 then q ← create_terminal_fo str_stdout; vmodify (set_stdout q) else mret tt) ≫= fun _ =>
  vgets stdout_fo.

(** The first three descriptors of a new process. *)
Definition std_fds : VM (Z * Z) :=
  i ← get_stdin_fo; inc_ref i ≫= fun _ =>
  o ← get_stdout_fo; inc_ref o ≫= fun _ => mret (i, o).

End vfs_ops.
