(* ===== verification/Process.v ===== *)
(** * Processes and scheduling ([sys/process.c], [page_fault_handler] of [sys/interrupt.c])

    The state of the kernel.  Threads, memory areas and memory descriptors are records in
    typed heaps indexed by the addresses that [kmalloc] returns; the page tables and the
    allocator are the machine of [Paging], the open files those of [Vfs], the byte memory (the archive, literals,
    the buffers handed to system calls) is the one of the console.  The processes form a ring
    through their [next] fields, entered at [current_process].  Kernel stacks are not
    part of the records.  [kmalloc] does not clear memory: a field that C leaves unassigned holds what was
    in memory before, of which nothing is assumed ([left_over]).  [switch_to]
    (assembly) makes another thread the current one; the code after it runs when the caller
    is scheduled again.  The ELF loader is used through the interface [Loader]. *)

From S2P Require Import Prelude PhysMem Paging PageTable PagingSpec Cow MapRange VaMem CStr Console Terminal Tarfs Vfs.

Definition MAX_P : Z := 1000.
Definition NUM_FDS : nat := 16.
Definition CWD_SIZE : nat := 128.
Definition MAX_ARGS : Z := 8.
Definition STACK_START : Z := 0xF0000000.
Definition SIZEOF_KTHREAD : Z := 33096.
Definition SIZEOF_MM : Z := 32.
Definition SIZEOF_VMA : Z := 40.

Inductive process_state := RUNNING | ZOMBIE | QUEUED.

#[export] Instance process_state_eq_dec : EqDecision process_state.
Proof. solve_decision. Defined.

Record kthread := KThread {
  rsp_user : Z;
  pid : Z;
  cr3_ : Z;
  process_mm : Z;
  rip : Z;
  ppid : Z;
  num_child : Z;
  process_name : Z;
  next : Z;
  fds : list Z;
  cwd : list Z;
  state : process_state
}.

Record vma_struct := Vma {
  vma_start : Z;
  vma_end : Z;
  vma_type : Z;
  vma_flags : Z;
  vma_next : Z
}.

Record mm_struct := MM {
  vma_map : Z;
  vma_map_iter : Z;
  vma_stack : Z;
  vma_heap : Z
}.

Record kern := Kern {
  mach : machine;
  threads : gmap Z kthread;
  vmas : gmap Z vma_struct;
  mms : gmap Z mm_struct;
  current_process : Z;
  processes : list Z;
  term : tty;
  openf : vfs;
  tss_rsp0 : Z
}.

Definition set_mach (m : machine) (s : kern) : kern :=
  Kern m (threads s) (vmas s) (mms s) (current_process s) (processes s) (term s) (openf s) (tss_rsp0 s).
Definition set_threads (t : gmap Z kthread) (s : kern) : kern :=
  Kern (mach s) t (vmas s) (mms s) (current_process s) (processes s) (term s) (openf s) (tss_rsp0 s).
Definition set_vmas (v : gmap Z vma_struct) (s : kern) : kern :=
  Kern (mach s) (threads s) v (mms s) (current_process s) (processes s) (term s) (openf s) (tss_rsp0 s).
Definition set_mms (v : gmap Z mm_struct) (s : kern) : kern :=
  Kern (mach s) (threads s) (vmas s) v (current_process s) (processes s) (term s) (openf s) (tss_rsp0 s).
Definition set_current (c : Z) (s : kern) : kern :=
  Kern (mach s) (threads s) (vmas s) (mms s) c (processes s) (term s) (openf s) (tss_rsp0 s).
Definition set_processes (l : list Z) (s : kern) : kern :=
  Kern (mach s) (threads s) (vmas s) (mms s) (current_process s) l (term s) (openf s) (tss_rsp0 s).
Definition set_term (t : tty) (s : kern) : kern :=
  Kern (mach s) (threads s) (vmas s) (mms s) (current_process s) (processes s) t (openf s) (tss_rsp0 s).
Definition set_openf (v : vfs) (s : kern) : kern :=
  Kern (mach s) (threads s) (vmas s) (mms s) (current_process s) (processes s) (term s) v (tss_rsp0 s).
Definition set_rsp0 (r : Z) (s : kern) : kern :=
  Kern (mach s) (threads s) (vmas s) (mms s) (current_process s) (processes s) (term s) (openf s) r.

Definition on_mach {A} (c : M machine A) : M kern A := zoom mach set_mach c.
Definition on_term {A} (c : M tty A) : M kern A := zoom term set_term c.
Definition on_bytes {A} (c : M bytes A) : M kern A := on_term (on_con (on_mem c)).
Definition on_vfs {A} (c : VM A) : M kern A :=
  zoom (fun s => (mach s, openf s)) (fun p s => set_openf (snd p) (set_mach (fst p) s)) c.
Definition message (fmt : Z) (va : list Z) : M kern unit := on_term (on_con (kprintf fmt va)).

(** The top of the kernel stack of the thread at [p], where an interrupt from user mode starts:
    [&p->k_stack[K_STACK_SIZE - 1]]. *)
Definition kstack_top (p : Z) : Z := u64 (p + 16 + 8 * 4095).
Definition set_tss (p : Z) : M kern unit := modify (set_rsp0 (kstack_top p)).

(** [*p] and [p->field = ...] for the three kinds of records. *)
Definition th (p : Z) : M kern kthread := o ← gets (fun s => threads s !! p); deref o.
Definition vma (p : Z) : M kern vma_struct := o ← gets (fun s => vmas s !! p); deref o.
Definition mm (p : Z) : M kern mm_struct := o ← gets (fun s => mms s !! p); deref o.
Definition set_th (p : Z) (t : kthread) : M kern unit := modify (fun s => set_threads (<[p := t]> (threads s)) s).
Definition set_vma (p : Z) (v : vma_struct) : M kern unit := modify (fun s => set_vmas (<[p := v]> (vmas s)) s).
Definition set_mm (p : Z) (v : mm_struct) : M kern unit := modify (fun s => set_mms (<[p := v]> (mms s)) s).

Definition with_state (x : process_state) (t : kthread) : kthread :=
  KThread (rsp_user t) (pid t) (cr3_ t) (process_mm t) (rip t) (ppid t) (num_child t) (process_name t) (next t) (fds t) (cwd t) x.
Definition with_next (x : Z) (t : kthread) : kthread :=
  KThread (rsp_user t) (pid t) (cr3_ t) (process_mm t) (rip t) (ppid t) (num_child t) (process_name t) x (fds t) (cwd t) (state t).
Definition with_ppid (x : Z) (t : kthread) : kthread :=
  KThread (rsp_user t) (pid t) (cr3_ t) (process_mm t) (rip t) x (num_child t) (process_name t) (next t) (fds t) (cwd t) (state t).
Definition with_num_child (x : Z) (t : kthread) : kthread :=
  KThread (rsp_user t) (pid t) (cr3_ t) (process_mm t) (rip t) (ppid t) x (process_name t) (next t) (fds t) (cwd t) (state t).
Definition with_rip (x : Z) (t : kthread) : kthread :=
  KThread (rsp_user t) (pid t) (cr3_ t) (process_mm t) x (ppid t) (num_child t) (process_name t) (next t) (fds t) (cwd t) (state t).
Definition with_rsp_user (x : Z) (t : kthread) : kthread :=
  KThread x (pid t) (cr3_ t) (process_mm t) (rip t) (ppid t) (num_child t) (process_name t) (next t) (fds t) (cwd t) (state t).
Definition with_fds (x : list Z) (t : kthread) : kthread :=
  KThread (rsp_user t) (pid t) (cr3_ t) (process_mm t) (rip t) (ppid t) (num_child t) (process_name t) (next t) x (cwd t) (state t).
Definition with_cwd (x : list Z) (t : kthread) : kthread :=
  KThread (rsp_user t) (pid t) (cr3_ t) (process_mm t) (rip t) (ppid t) (num_child t) (process_name t) (next t) (fds t) x (state t).
Definition upd_th (p : Z) (f : kthread -> kthread) : M kern unit := t ← th p; set_th p (f t).

(** Addresses the linker gives to the literals and functions used here, and those of local
    arrays whose address outlives a call ([process_name]) or is handed on as a string. *)
Class ProcSymbols := {
  msg_no_process : Z;    (* "No process found for running. Restarting shell!\n" *)
  msg_bad_state : Z;     (* "Some problem with process states: %d!! \n" *)
  msg_reap_only : Z;     (* "Can't reap the only process!\n" *)
  msg_exit_only : Z;     (* "Can't exit the only process!\n" *)
  msg_kill_le_0 : Z;     (* "Invalid pid <= 0\n" *)
  msg_kill_range : Z;    (* "Pid %d out of range\n" *)
  msg_kill_idle : Z;     (* "Can't kill pid 1: kernel idle process\n" *)
  msg_kill_none : Z;     (* "No process exists with pid: %d\n" *)
  msg_kill_only : Z;     (* "Can't kill the only process! pid: %d\n" *)
  msg_segv : Z;          (* "Segmentation fault in process %d!. Exiting.\n" *)
  str_sbush : Z;         (* "bin/sbush" *)
  str_idle : Z;          (* "Idle" *)
  str_pid : Z;           (* "pid: " *)
  str_ppid : Z;          (* ", ppid: " *)
  str_name : Z;          (* ", name: " *)
  str_status : Z;        (* ", status: " *)
  str_running : Z;       (* "Running" *)
  str_queued : Z;        (* "Queued" *)
  str_zombie : Z;        (* "Zombie" *)
  str_nl : Z;            (* "\n" *)
  fn_init_scheduler : Z;
  tarfs_start : Z;
  tarfs_end : Z;
  p_name_create : Z;     (* char p_name[BUF_SIZE] of create_process *)
  p_name_copy : Z;       (* ... of copy_process *)
  p_name_exec : Z;       (* ... of exec_vpe *)
  filename_copy : Z;     (* char filename_copy[BUF_SIZE] of exec_vpe *)
  num_array : Z;         (* char num[10] of get_process_state *)
  left_over : kern -> Z -> Z  (* the byte at an address before it is first assigned *)
}.

(** ** Memory that is not assigned

    Where the fields of the packed records are, and what a field of a new record holds when the byte
    at address [a] is [left a]. *)
Definition OFF_RSP_USER : Z := 8.
Definition OFF_RIP : Z := 32804.
Definition OFF_PPID : Z := 32812.
Definition OFF_FDS : Z := 32836.
Definition OFF_CWD : Z := 32964.
Definition OFF_VMA_TYPE : Z := 16.
Definition OFF_VMA_FLAGS : Z := 24.

Fixpoint left_le (n : nat) (left : Z -> Z) (a : Z) : Z :=
  match n with O => 0 | S n' => u8 (left a) + 256 * left_le n' left (a + 1) end.
Definition left_word (left : Z -> Z) (a : Z) : Z := left_le 8 left a.
Definition left_int (left : Z -> Z) (a : Z) : Z := i32 (left_le 4 left a).

(** Entry [i] of the descriptor table, and the bytes of the directory from [n] on, of the record at [p]. *)
Definition left_fd (left : Z -> Z) (p : Z) (i : nat) : Z := left_word left (p + OFF_FDS + 8 * Z.of_nat i).
Definition left_cwd (left : Z -> Z) (p : Z) (n : nat) : list Z :=
  (fun i => u8 (left (p + OFF_CWD + Z.of_nat i))) <$> seq n (CWD_SIZE - n).

(** [fds[0]], [fds[1]] and [fds[2]] are assigned, the others are not. *)
Definition new_table (left : Z -> Z) (p : Z) (std : list Z) : list Z := std ++ (left_fd left p <$> seq 3 (NUM_FDS - 3)).
Definition std_table (left : Z -> Z) (p i o : Z) : list Z := new_table left p [i; o; o].

(** The assignments to a new record at [p], of which [f] gives the contents from what was there. *)
Definition new_th `{ProcSymbols} (p : Z) (f : (Z -> Z) -> kthread) : M kern unit :=
  modify (fun s => set_threads (<[p := f (left_over s)]> (threads s)) s).
Definition new_vma `{ProcSymbols} (p : Z) (f : (Z -> Z) -> vma_struct) : M kern unit :=
  modify (fun s => set_vmas (<[p := f (left_over s)]> (vmas s)) s).

(** ** Process identifiers *)

Fixpoint get_pid_loop (fuel : nat) (i : Z) : M kern Z :=
  match fuel with
  | O => mret (-1)
  | S f =>
      l ← gets processes;
      match l !! Z.to_nat i with
      | Some 0 => modify (set_processes (<[Z.to_nat i := 1]> l)) ≫= fun _ => mret i
      | Some _ => get_pid_loop f (i + 1)
      | None => mfault
      end
  end.

Definition getPID : M kern Z := get_pid_loop (Z.to_nat (MAX_P - 1)) 1.

Definition get_process_pid : M kern Z := c ← gets current_process; t ← th c; mret (pid t).
Definition get_process_ppid : M kern Z := c ← gets current_process; t ← th c; mret (ppid t).
Definition init_processes : M kern unit := modify (set_processes (replicate (Z.to_nat MAX_P) 0)).

(** Bound on a walk of the ring. *)
Definition ring_fuel : M kern nat := gets (fun s => S (size (threads s))).

(** ** Creating processes *)

(** What a loader may change: of a thread its image, not its place in the ring, its state, its
    identifiers, its descriptors and its directory. *)
Definition thread_kept (t t' : kthread) : Prop :=
  next t' = next t /\ state t' = state t /\ pid t' = pid t /\ ppid t' = ppid t /\ fds t' = fds t /\ cwd t' = cwd t.

Record loader_step (s s' : kern) : Prop := {
  ls_current : current_process s' = current_process s;
  ls_processes : processes s' = processes s;
  ls_files : openf s' = openf s;
  ls_threads : forall q, option_Forall2 thread_kept (threads s !! q) (threads s' !! q)
}.

(** The interface: the loader sets up the image of the thread at an address from the file with
    the name at another. *)
Class Loader := {
  load_file : Z -> Z -> M kern Z;
  load_file_keeps : forall p f s u s', load_file p f s = Ret (u, s') -> loader_step s s'
}.

Lemma loader_step_thread s s' q t :
  loader_step s s' -> threads s !! q = Some t -> exists t', threads s' !! q = Some t' /\ thread_kept t t'.
Proof. intros H Ht. pose proof (ls_threads _ _ H q) as K. rewrite Ht in K. inversion K; subst. eauto. Qed.

(** [while ( *tmp != '/') tmp--]. *)
Fixpoint back_slash (fuel : nat) (tmp : Z) : M bytes Z :=
  match fuel with
  | O => mfuel
  | S f => c ← ldc tmp; if c =? 47 then mret tmp else back_slash f (tmp - 1)
  end.

(** The string at [src] copied into the array of [BUF_SIZE] bytes at [dst]. *)
Definition copy_name (dst src : Z) : M bytes unit :=
  len ← strlen src;
  if BUF_SIZE <=? len then mfault else
  for_loop (Z.to_nat len) 0 (fun i => c ← ld8 (src + i); st8 (dst + i) c) ≫= fun _ =>
  st8 (dst + len) 0.

(** The directory of a new process: the name up to its last slash, which is at [tmp]. *)
Definition new_cwd (filename tmp : Z) : M bytes (list Z) :=
  pre ← load_bytes (Z.to_nat (tmp - filename)) filename;
  let l := pre ++ [47; 0] in
  if decide (length l <= CWD_SIZE)%nat then mret l else mfault.

Section process.
Context {LD : Loader} {PS : ProcSymbols} {VS : VfsSymbols}.

Definition create_process (filename : Z) : M kern Z :=
  new_process ← on_mach (kmalloc SIZEOF_KTHREAD);
  pid_ ← getPID;
  fuel ← on_bytes str_fuel;
  e ← on_bytes (str_end fuel filename);
  tmp ← on_bytes (back_slash fuel e);
  on_bytes (copy_name p_name_create filename) ≫= fun _ =>
  cwd_ ← on_bytes (new_cwd filename tmp);
  c3 ← on_mach setup_user_page_tables;
  current_cr3 ← on_mach get_cr3;
  on_mach (set_new_cr3 c3) ≫= fun _ =>
  mm_ ← on_mach (kmalloc SIZEOF_MM);
  std_fds_ ← on_vfs std_fds;
  new_th new_process (fun left =>
    KThread (left_word left (new_process + OFF_RSP_USER)) pid_ c3 mm_ (left_word left (new_process + OFF_RIP))
      (left_int left (new_process + OFF_PPID)) 0 p_name_create 0 (std_table left new_process std_fds_.1 std_fds_.2)
      (cwd_ ++ left_cwd left new_process (length cwd_)) RUNNING) ≫= fun _ =>
  load_file new_process filename ≫= fun _ =>
  on_mach (set_new_cr3 current_cr3) ≫= fun _ =>
  cur ← gets current_process;
  upd_th new_process (with_state QUEUED) ≫= fun _ =>
  upd_th cur (with_next new_process) ≫= fun _ =>
  upd_th new_process (with_next cur) ≫= fun _ =>
  mret new_process.

(** [idle] runs [init_scheduler]: [scheduler()] for ever. *)
Definition init_idle_process : M kern Z :=
  idle ← on_mach (kmalloc SIZEOF_KTHREAD);
  pid_ ← getPID;
  c3 ← on_mach get_cr3;
  modify (set_current idle) ≫= fun _ =>
  std_fds_ ← on_vfs std_fds;
  new_th idle (fun left =>
    KThread (kstack_top idle) pid_ c3 0 fn_init_scheduler 0 0 str_idle idle
      (std_table left idle std_fds_.1 std_fds_.2) (left_cwd left idle 0) RUNNING) ≫= fun _ =>
  mret idle.

(** ** Reaping *)

(** [while (it != process) { prev = it; it = it->next; }] *)
Fixpoint find_prev (fuel : nat) (process prev it : Z) : M kern Z :=
  match fuel with
  | O => mfuel
  | S f => if it =? process then mret prev else
           t ← th it; find_prev f process it (next t)
  end.

Definition reap_process (process : Z) : M kern unit :=
  cur ← gets current_process;
  if process =? cur then message msg_reap_only [] else
  tc ← th cur; fuel ← ring_fuel;
  prev ← find_prev fuel process cur (next tc);
  tp ← th process;
  upd_th prev (with_next (next tp)) ≫= fun _ =>
  on_mach (clean_page_tables (cr3_ tp)) ≫= fun _ =>
  l ← gets processes;
  (if (0 <=? pid tp) && (pid tp <? MAX_P)
   then modify (set_processes (<[Z.to_nat (pid tp) := 0]> l)) else mfault) ≫= fun _ =>
  on_mach (kfree process).

Fixpoint wait_all_loop (fuel : nat) (it prev : Z) : M kern unit :=
  match fuel with
  | O => mfuel
  | S f =>
      cur ← gets current_process;
      if it =? cur then mret tt else
      t ← th it;
      if bool_decide (state t = ZOMBIE) then
        reap_process it ≫= fun _ =>
        tp ← th prev; wait_all_loop f (next tp) prev
      else wait_all_loop f (next t) it
  end.

Definition wait_all : M kern unit :=
  cur ← gets current_process; tc ← th cur; fuel ← ring_fuel;
  wait_all_loop fuel (next tc) cur.

(** ** Scheduling *)

(** [while (cand != current_process && cand->state != QUEUED) cand = cand->next] *)
Fixpoint find_queued (fuel : nat) (cand : Z) : M kern Z :=
  match fuel with
  | O => mfuel
  | S f =>
      cur ← gets current_process;
      if cand =? cur then mret cand else
      t ← th cand;
      if bool_decide (state t = QUEUED) then mret cand else find_queued f (next t)
  end.

(** The value of the enumeration. *)
Definition state_code (x : process_state) : Z := match x with RUNNING => 0 | ZOMBIE => 1 | QUEUED => 2 end.

Definition switch_process : M kern unit :=
  cur ← gets current_process; tc ← th cur;
  if cur =? next tc then mret tt else
  fuel ← ring_fuel; cand ← find_queued fuel (next tc);
  if cand =? cur then message msg_no_process [] ≫= fun _ => create_process str_sbush ≫= fun _ => mret tt else
  match state tc with
  | QUEUED => message msg_bad_state [state_code (state tc)]
  | _ =>
      (if bool_decide (state tc = RUNNING) then upd_th cur (with_state QUEUED) else mret tt) ≫= fun _ =>
      upd_th cand (with_state RUNNING) ≫= fun _ =>
      t ← th cand;
      on_mach (set_new_cr3 (cr3_ t)) ≫= fun _ =>
      set_tss cand ≫= fun _ =>
      modify (set_current cand)
  end.

Definition scheduler : M kern unit := wait_all ≫= fun _ => switch_process.

(** [init_scheduler], the endless loop of the idle process, watched for [n] iterations. *)
Fixpoint init_scheduler (n : nat) : M kern unit :=
  match n with O => mret tt | S n' => scheduler ≫= fun _ => init_scheduler n' end.

(** ** Waiting for children

    A call either returns or yields to the scheduler; it then continues with the local
    variables [it] and [prev] it had. *)
Inductive wait_result := WReturn (r : Z) | WYield (it prev : Z).

Fixpoint wait_scan (fuel : nat) (sel : kthread -> bool) (child_exists : bool) (it prev : Z) : M kern wait_result :=
  match fuel with
  | O => mfuel
  | S f =>
      cur ← gets current_process; tc ← th cur;
      if it =? cur then mret (if child_exists then WYield it prev else WReturn (-1)) else
      t ← th it;
      if sel t && (ppid t =? pid tc) then
        if bool_decide (state t = ZOMBIE) then
          let return_pid := pid t in
          reap_process it ≫= fun _ => mret (WReturn return_pid)
        else wait_scan f sel true (next t) it
      else wait_scan f sel child_exists (next t) it
  end.

(** One iteration of [while (1)] up to the call of [scheduler]. *)
Definition wait_iter (sel : kthread -> bool) (it prev : Z) : M kern wait_result :=
  fuel ← ring_fuel; wait_scan fuel sel false it prev.

Definition wait_begin (sel : kthread -> bool) : M kern wait_result :=
  cur ← gets current_process; tc ← th cur; wait_iter sel (next tc) cur.

Definition wait : M kern wait_result := wait_begin (fun _ => true).
Definition wait_pid (p : Z) : M kern wait_result := wait_begin (fun t => pid t =? p).

(** ** Exit and kill *)

(** [while (addr < end) { kfree(addr); addr += PAGE_SIZE; }] *)
Definition kfree_range (start end_ : Z) : M kern unit :=
  for_loop (Z.to_nat ((end_ - start + PAGE_SIZE - 1) / PAGE_SIZE)) 0 (fun i =>
    on_mach (kfree (start + i * PAGE_SIZE))).

Fixpoint free_vmas (fuel : nat) (v : Z) : M kern unit :=
  match fuel with
  | O => mfuel
  | S f =>
      if v =? 0 then mret tt else
      a ← vma v;
      kfree_range (vma_start a) (vma_end a) ≫= fun _ =>
      on_mach (kfree v) ≫= fun _ => free_vmas f (vma_next a)
  end.

Definition shallow_cleanup (process : Z) : M kern unit :=
  t ← th process; mmp ← mm (process_mm t);
  st ← vma (vma_stack mmp); n ← gets (fun s => S (size (vmas s)));
  free_vmas n (vma_map mmp) ≫= fun _ =>
  kfree_range (vma_end st) (vma_start st) ≫= fun _ =>
  on_mach (kfree (vma_stack mmp)) ≫= fun _ =>
  on_mach (kfree (process_mm t)).

Fixpoint orphan_loop (fuel : nat) (cur cur_pid it : Z) : M kern unit :=
  match fuel with
  | O => mfuel
  | S f =>
      if it =? cur then mret tt else
      t ← th it;
      (if ppid t =? cur_pid then set_th it (with_ppid 1 t) else mret tt) ≫= fun _ =>
      orphan_loop f cur cur_pid (next t)
  end.

Definition kill_process (process : Z) : M kern unit :=
  t ← th process;
  if next t =? process then message msg_exit_only [] else
  fuel ← ring_fuel;
  orphan_loop fuel process (pid t) (next t) ≫= fun _ =>
  cur ← gets current_process;
  upd_th cur (with_state ZOMBIE) ≫= fun _ =>
  shallow_cleanup cur.

(** [while (it != current_process) { if (it->pid == pid) return -1; it = it->next; }] *)
Fixpoint kill_scan (fuel : nat) (p it : Z) : M kern bool :=
  match fuel with
  | O => mfuel
  | S f =>
      cur ← gets current_process;
      if it =? cur then mret true else
      t ← th it; if pid t =? p then mret false else kill_scan f p (next t)
  end.

Definition kill_kern (p : Z) : M kern Z :=
  if p <=? 0 then message msg_kill_le_0 [] ≫= fun _ => mret (-1) else
  if MAX_P <=? p then message msg_kill_range [p] ≫= fun _ => mret (-1) else
  if p =? 1 then message msg_kill_idle [] ≫= fun _ => mret (-1) else
  l ← gets processes; used ← deref (l !! Z.to_nat p);
  if used =? 0 then message msg_kill_none [p] ≫= fun _ => mret (-1) else
  cur ← gets current_process; tc ← th cur;
  if (cur =? next tc) && (pid tc =? p) then message msg_kill_only [p] ≫= fun _ => mret (-1) else
  fuel ← ring_fuel; none ← kill_scan fuel p (next tc);
  if negb none then mret (-1) else
  if negb (pid tc =? p) then message msg_kill_none [p] ≫= fun _ => mret (-1) else
  kill_process cur ≫= fun _ => mret 0.

Definition exit_current_process : M kern unit :=
  cur ← gets current_process; kill_process cur ≫= fun _ => scheduler.

(** ** [fork] *)

(** Copy a list of areas from [p] up to [stop]; returns the first and the last copy. *)
Fixpoint copy_vmas (fuel : nat) (stop p first iter : Z) : M kern (Z * Z) :=
  match fuel with
  | O => mfuel
  | S f =>
      if (p =? 0) || (p =? stop) then mret (first, iter) else
      a ← vma p;
      c ← on_mach (kmalloc SIZEOF_VMA);
      set_vma c (Vma (vma_start a) (vma_end a) (vma_type a) (vma_flags a) 0) ≫= fun _ =>
      (if iter =? 0 then mret tt else
         b ← vma iter;
         set_vma iter (Vma (vma_start b) (vma_end b) (vma_type b) (vma_flags b) c)) ≫= fun _ =>
      copy_vmas f stop (vma_next a) (if iter =? 0 then c else first) c
  end.

(** The heap list: [next] is cleared before the copy, so the last copy keeps the parent's. *)
Fixpoint copy_heap (fuel : nat) (p first iter : Z) : M kern Z :=
  match fuel with
  | O => mfuel
  | S f =>
      if p =? 0 then mret first else
      a ← vma p;
      c ← on_mach (kmalloc SIZEOF_VMA);
      set_vma c a ≫= fun _ =>
      (if iter =? 0 then mret tt else
         b ← vma iter;
         set_vma iter (Vma (vma_start b) (vma_end b) (vma_type b) (vma_flags b) c)) ≫= fun _ =>
      copy_heap f (vma_next a) (if iter =? 0 then c else first) c
  end.

Definition copy_process (parent : Z) : M kern Z :=
  child ← on_mach (kmalloc SIZEOF_KTHREAD);
  tp ← th parent;
  pid_ ← getPID;
  std_fds_ ← on_vfs std_fds;
  on_bytes (st8 p_name_copy 0 ≫= fun _ => strcat p_name_copy (process_name tp)) ≫= fun _ =>
  upd_th parent (with_num_child (i32 (num_child tp + 1))) ≫= fun _ =>
  c3 ← on_mach cow_page_tables;
  on_mach (set_new_cr3 c3) ≫= fun _ =>
  mm_ ← on_mach (kmalloc SIZEOF_MM);
  new_th child (fun left =>
    KThread (rsp_user tp) pid_ c3 mm_ (left_word left (child + OFF_RIP)) (pid tp) 0 p_name_copy 0
      (std_table left child std_fds_.1 std_fds_.2) (cwd tp) RUNNING) ≫= fun _ =>
  pm_ ← mm (process_mm tp);
  n ← gets (fun s => S (size (vmas s)));
  maps ← copy_vmas n (vma_heap pm_) (vma_map pm_) 0 0;
  heap ← copy_heap n (vma_heap pm_) 0 0;
  st ← vma (vma_stack pm_);
  cst ← on_mach (kmalloc SIZEOF_VMA);
  set_vma cst st ≫= fun _ =>
  set_mm mm_ (MM (fst maps) (snd maps) cst heap) ≫= fun _ =>
  mret child.

(** The part of [fork] before the kernel stack is copied and the register frames are set up;
    returns the child. *)
Definition fork : M kern Z :=
  parent ← gets current_process;
  child ← copy_process parent;
  tp ← th parent;
  upd_th parent (with_next child) ≫= fun _ =>
  upd_th child (fun t => with_state QUEUED (with_next (next tp) t)) ≫= fun _ =>
  on_mach (set_new_cr3 (cr3_ tp)) ≫= fun _ =>
  mret child.

(** ** User memory *)

Definition user_malloc (bytes_ : Z) : M kern Z :=
  c ← gets current_process; t ← th c; mmp ← mm (process_mm t);
  it ← vma (vma_map_iter mmp);
  let start_alloc := vma_end it in
  let end_alloc :=
    if bytes_ mod PAGE_SIZE =? 0 then u64 (start_alloc + bytes_)
    else u64 (start_alloc + (bytes_ / PAGE_SIZE + 1) * PAGE_SIZE) in
  v ← on_mach (kmalloc SIZEOF_VMA);
  new_vma v (fun left =>
    Vma start_alloc end_alloc (left_word left (v + OFF_VMA_TYPE)) (left_word left (v + OFF_VMA_FLAGS)) 0) ≫= fun _ =>
  set_vma (vma_map_iter mmp) (Vma (vma_start it) (vma_end it) (vma_type it) (vma_flags it) v) ≫= fun _ =>
  set_mm (process_mm t) (MM (vma_map mmp) v (vma_stack mmp) (vma_heap mmp)) ≫= fun _ =>
  for_loop (Z.to_nat ((end_alloc - start_alloc + PAGE_SIZE - 1) / PAGE_SIZE)) 0 (fun i =>
    on_mach (map_fresh_page PAGING_USER_R_W_FLAGS (start_alloc + i * PAGE_SIZE))) ≫= fun _ =>
  mret start_alloc.

Fixpoint user_free_loop (fuel : nat) (addr iter : Z) : M kern unit :=
  match fuel with
  | O => mfuel
  | S f =>
      if iter =? 0 then mret tt else
      a ← vma iter;
      if vma_start a =? addr then kfree_range addr (vma_end a)
      else user_free_loop f addr (vma_next a)
  end.

Definition user_free (addr : Z) : M kern unit :=
  c ← gets current_process; t ← th c; mmp ← mm (process_mm t);
  n ← gets (fun s => S (size (vmas s)));
  user_free_loop n addr (vma_heap mmp).

(** [for (i = 0; i < size; i++) *(buf + i) = *(cwd + i)]. *)
Definition get_cwd (buf size_ : Z) : M kern Z :=
  c ← gets current_process; t ← th c;
  for_loop (Z.to_nat size_) 0 (fun i =>
    b ← deref (cwd t !! Z.to_nat i); on_bytes (st8 (buf + i) b)) ≫= fun _ => mret 0.

(** [cwd[i] = path[i]] up to and with the final zero, in an array of [CWD_SIZE] bytes. *)
Definition ch_dir (path : Z) : M kern Z :=
  d ← on_bytes (dir_exists tarfs_start tarfs_end path);
  if d =? -1 then mret (-1) else
  c ← gets current_process; t ← th c;
  fuel ← on_bytes str_fuel; e ← on_bytes (str_end fuel path);
  l ← on_bytes (load_bytes (Z.to_nat (e - path)) path);
  if decide (length l < length (cwd t))%nat then
    set_th c (with_cwd (l ++ 0 :: drop (S (length l)) (cwd t)) t) ≫= fun _ => mret 0
  else mfault.

(** ** [ps] *)

Definition state_name (x : process_state) : Z :=
  match x with RUNNING => str_running | QUEUED => str_queued | ZOMBIE => str_zombie end.

(** One line of the listing. *)
Definition ps_line (s : Z) (t : kthread) : M bytes unit :=
  strcat s str_pid ≫= fun _ =>
  itoa num_array (pid t) ≫= fun _ => strcat s num_array ≫= fun _ =>
  strcat s str_ppid ≫= fun _ =>
  memset num_array 0 10 ≫= fun _ =>
  itoa num_array (ppid t) ≫= fun _ => strcat s num_array ≫= fun _ =>
  strcat s str_name ≫= fun _ => strcat s (process_name t) ≫= fun _ =>
  strcat s str_status ≫= fun _ => strcat s (state_name (state t)) ≫= fun _ =>
  strcat s str_nl ≫= fun _ => mret tt.

(** [do { ... it = it->next; } while (it != start)]. *)
Fixpoint ps_loop (fuel : nat) (start it buf : Z) : M kern unit :=
  match fuel with
  | O => mfuel
  | S f =>
      t ← th it; on_bytes (ps_line buf t) ≫= fun _ =>
      if next t =? start then mret tt else ps_loop f start (next t) buf
  end.

Definition get_process_state (buf : Z) : M kern unit :=
  start ← gets current_process; fuel ← ring_fuel; ps_loop fuel start start buf.

(** ** [exec] *)

(** The strings of [argv], read into [user_stack[MAX_ARGS][BUF_SIZE]] row by row; returns [argc]. *)
Fixpoint copy_arg (fuel : nat) (m : bytes) (src dst : Z) : M bytes unit :=
  match fuel with
  | O => mfuel
  | S f => match ldc src m with
           | Ret (c, _) => if c =? 0 then mret tt else st8 dst c ≫= fun _ => copy_arg f m (src + 1) (dst + 1)
           | Fault => mfault
           | OutOfFuel => mfuel
           end
  end.

Fixpoint copy_args (fuel : nat) (m : bytes) (argv argc : Z) : M bytes Z :=
  match fuel with
  | O => mfuel
  | S f => match ld_le 8 argv m with
           | Ret (p, _) =>
               if p =? 0 then mret argc else
               copy_arg (S (size m)) m p (argc * BUF_SIZE) ≫= fun _ => copy_args f m (argv + 8) (argc + 1)
           | Fault => mfault
           | OutOfFuel => mfuel
           end
  end.

(** The local array: zeroed, then filled. *)
Definition read_args (argv : Z) : M kern (Z * list Z) :=
  m ← gets (fun s => mem (con (term s)));
  match (if argv =? 0 then mret 0 else copy_args (S (size m)) m argv 0) (local_array 1024) with
  | Ret (argc, b) => mret (argc, (fun i => default 0 (b !! i)) <$> seqZ 0 1024)
  | Fault => mfault
  | OutOfFuel => mfuel
  end.

(** [for (i = argc; i > 0; i--) *(ptr - 8 * i) = ptr + BUF_SIZE * (argc - i)]. *)
Definition push_argv (argc ptr : Z) : M machine unit :=
  for_loop (Z.to_nat argc) 0 (fun k => st64_va (u64 (ptr - 8 * (argc - k))) (u64 (ptr + BUF_SIZE * k))).

(** [while (last->next != current_process) last = last->next]. *)
Fixpoint find_last (fuel : nat) (cur last : Z) : M kern Z :=
  match fuel with
  | O => mfuel
  | S f => t ← th last; if next t =? cur then mret last else find_last f cur (next t)
  end.

(** [None]: the program has been entered, and the call does not return. *)
Definition exec_vpe (filename argv : Z) : M kern (option Z) :=
  loc ← on_bytes (get_file_binary tarfs_start tarfs_end filename);
  if loc =? 0 then mret (Some (-1)) else
  on_bytes (memset filename_copy 0 BUF_SIZE ≫= fun _ => copy_name filename_copy filename) ≫= fun _ =>
  args ← read_args argv;
  new_process ← on_mach (kmalloc SIZEOF_KTHREAD);
  cur ← gets current_process; tc ← th cur;
  on_bytes (st8 p_name_exec 0 ≫= fun _ => strcat p_name_exec filename) ≫= fun _ =>
  c3 ← on_mach setup_user_page_tables;
  on_mach (set_new_cr3 c3) ≫= fun _ =>
  mm_ ← on_mach (kmalloc SIZEOF_MM);
  new_th new_process (fun left =>
    KThread (left_word left (new_process + OFF_RSP_USER)) (pid tc) c3 mm_ (left_word left (new_process + OFF_RIP))
      (ppid tc) 0 p_name_exec 0 (new_table left new_process (take 3 (fds tc))) (cwd tc) RUNNING) ≫= fun _ =>
  load_file new_process filename_copy ≫= fun _ =>
  let ptr := STACK_START + 4096 - 16 - 1024 in
  on_mach (copy_in ptr args.2) ≫= fun _ =>
  on_mach (push_argv args.1 ptr) ≫= fun _ =>
  upd_th new_process (with_rsp_user (u64 (ptr - 8 * args.1))) ≫= fun _ =>
  t0 ← th cur; fuel ← ring_fuel; last ← find_last fuel cur (next t0);
  upd_th last (with_next new_process) ≫= fun _ =>
  t1 ← th cur;
  upd_th new_process (with_next (next t1)) ≫= fun _ =>
  modify (set_current new_process) ≫= fun _ =>
  upd_th new_process (with_state RUNNING) ≫= fun _ =>
  set_tss new_process ≫= fun _ =>
  on_mach (set_new_cr3 c3) ≫= fun _ => mret None.

(** ** The page-fault handler ([sys/interrupt.c]) *)

Definition LIMIT_STACK : Z := 4096000.

(** [while (pages--) { end -= PAGE_SIZE; update_page_tables(end, get_free_page(), ...); }] *)
Fixpoint grow_stack (pages : nat) (st : Z) : M kern unit :=
  match pages with
  | O => mret tt
  | S n =>
      a ← vma st;
      let end_ := u64 (vma_end a - PAGE_SIZE) in
      set_vma st (Vma (vma_start a) end_ (vma_type a) (vma_flags a) (vma_next a)) ≫= fun _ =>
      on_mach (map_fresh_page PAGING_USER_R_W_FLAGS end_) ≫= fun _ => grow_stack n st
  end.

Definition page_fault_handler (fault_addr : Z) : M kern unit :=
  handled ← on_mach (page_fault_cow fault_addr);
  if (handled : bool) then mret tt else
  let addr := fault_addr / PAGE_SIZE * PAGE_SIZE in
  c ← gets current_process; t ← th c; mmp ← mm (process_mm t); st ← vma (vma_stack mmp);
  if (addr <=? vma_end st) && (u64 (vma_start st - vma_end st) <=? LIMIT_STACK) then
    grow_stack (Z.to_nat ((vma_end st - addr) / PAGE_SIZE)) (vma_stack mmp)
  else message msg_segv [pid t] ≫= fun _ => exit_current_process.

End process.
