(* ===== verification/Switch.v ===== *)
(** * Kernel stacks, the context switch and the entries to and from user mode

    [switch_to] and [setup_forked_kthread_stack] ([sys/kthread.s]), [syscall_isr] ([sys/syscalls.s]), the stacks of new and
    forked processes and the ways into user mode ([sys/process.c]), on the processor of [Cpu].  A thread at address
    [p] has its saved stack pointer at [p] (the first field of [struct kern_thread]) and its stack from [p + 16] on. *)

From S2P Require Import Prelude Cpu CStr Console Terminal Vfs Process.

(** ** [switch_to] *)

Definition SWITCH_PUSHED : list reg := [RAX; RCX; RDX; RBX; RBP; RSI; RDI; R8; R9; R10; R11; R12; R13; R14; R15; RDI].
Definition SWITCH_POPPED : list reg := [RDI; R15; R14; R13; R12; R11; R10; R9; R8; RDI; RSI; RBP; RBX; RDX; RCX; RAX].

Definition switch_to : M cpu unit :=
  pushes SWITCH_PUSHED ≫= fun _ =>
  rdi ← getr RDI; t ← ldq rdi; setr R15 t ≫= fun _ =>
  sp ← getr RSP; r15 ← getr R15; stq r15 sp ≫= fun _ =>
  rsi ← getr RSI; stq rdi rsi ≫= fun _ =>
  v ← ldq rsi; setr RSP v ≫= fun _ =>
  pops SWITCH_POPPED ≫= fun _ => retq.

(** ** The stacks of processes ([struct kern_thread]) *)

Definition K_STACK_SIZE : Z := 4096.
Definition k_stack (p i : Z) : Z := p + 16 + 8 * i.

(** [memset(p->k_stack, 0, K_STACK_SIZE)] clears bytes, an eighth of the stack. *)
Definition clear_stack (p : Z) : M cpu unit := for_loop (Z.to_nat (K_STACK_SIZE / 8)) 0 (fun i => stq (k_stack p i) 0).

(** [create_process]: the first return of the new process goes to [go_to_ring3]. *)
Definition new_stack (p go_to_ring3_addr : Z) : M cpu unit :=
  clear_stack p ≫= fun _ =>
  stq (k_stack p (K_STACK_SIZE - 1)) go_to_ring3_addr ≫= fun _ => stq p (k_stack p (K_STACK_SIZE - 17)).

(** [copy_process]. *)
Definition child_stack (p : Z) : M cpu unit := clear_stack p ≫= fun _ => stq p (k_stack p (K_STACK_SIZE - 1)).

(** [init_idle_process], and [set_rsp], with which [start] leaves the boot stack. *)
Definition idle_stack (p init_scheduler_addr : Z) : M cpu unit :=
  clear_stack p ≫= fun _ =>
  stq (k_stack p (K_STACK_SIZE - 1)) init_scheduler_addr ≫= fun _ => stq p (k_stack p (K_STACK_SIZE - 1)).
Definition set_rsp (v : Z) : M cpu unit := setr RSP v ≫= fun _ => retq.

(** The stack pointer inside the call, behind the return address. *)
Definition get_rsp_val : M cpu Z := sp ← getr RSP; mret (u64 (sp - 8)).

Fixpoint store_down (l : list reg) (a : Z) : M cpu unit :=
  match l with [] => mret tt | r :: k => v ← getr r; stq a v ≫= fun _ => store_down k (u64 (a - 8)) end.

(** The argument is in [RDI]. *)
Definition setup_forked_kthread_stack : M cpu unit :=
  rdi ← getr RDI; stq rdi 0 ≫= fun _ =>
  store_down [RCX; RDX; RBX; RBP; RSI; RDI; R8; R9; R10; R11; R12; R13; R14; R15; RDI] (u64 (rdi - 8)).

(** The loop that moves [rsp_val] of the child up to the return address. *)
Fixpoint find_return (fuel : nat) (child return_val : Z) : M cpu unit :=
  match fuel with
  | O => mfuel
  | S f =>
      p ← ldq child; v ← ldq p;
      if v =? return_val then mret tt else stq child (u64 (p + 8)) ≫= fun _ => find_return f child return_val
  end.

(** The second part of [fork]: the copy of the kernel stack and the frame of the child. *)
Definition fork_stack (parent child return_val : Z) : M cpu unit :=
  for_loop 4096 0 (fun i => v ← ldq (k_stack parent i); stq (k_stack child i) v) ≫= fun _ =>
  r ← get_rsp_val; let var := u64 (r + 8) in
  stq parent var ≫= fun _ =>
  let diff := u64 ((k_stack parent (K_STACK_SIZE - 1) - var) / 8) in
  a ← ldq child; stq child (u64 (a - 8 * diff)) ≫= fun _ =>
  find_return (S (Z.to_nat K_STACK_SIZE)) child return_val ≫= fun _ =>
  b ← ldq child; stq child (u64 (b - 8)) ≫= fun _ =>
  d ← ldq child; setr RDI d ≫= fun _ => setup_forked_kthread_stack ≫= fun _ =>
  e ← ldq child; stq child (u64 (e - 8 * 15)).

(** ** User mode *)

(** The frame for [iretq] that both entries push. *)
Definition push_user_frame (t : kthread) : M cpu unit :=
  setr RAX (rsp_user t) ≫= fun _ =>
  push_val 0x23 ≫= fun _ => pushq RAX ≫= fun _ => (f ← gets flags; push_val f) ≫= fun _ =>
  push_val 0x2B ≫= fun _ => push_val (rip t).

(** Code that works on the records of the kernel and on the processor. *)
Definition on_k {A} (c : M kern A) : M (kern * cpu) A := zoom fst (fun k s => (k, snd s)) c.
Definition on_c {A} (c : M cpu A) : M (kern * cpu) A := zoom snd (fun x s => (fst s, x)) c.

(** [set_tss_rsp] and [set_new_cr3] for the current process, which is returned. *)
Definition enter_space : M (kern * cpu) (Z * kthread) :=
  cur ← on_k (gets current_process);
  on_k (set_tss cur) ≫= fun _ =>
  t ← on_k (th cur);
  on_k (on_mach (Paging.set_new_cr3 (cr3_ t))) ≫= fun _ => mret (cur, t).

Definition go_to_ring3 : M (kern * cpu) unit :=
  p ← enter_space; on_c (push_user_frame p.2 ≫= fun _ => iretq).

(** [sti] sets the interrupt flag. *)
Definition sti : M cpu unit := modify (fun c => Cpu (regs c) (pc c) (cs c) (ss c) (Z.setbit (flags c) 9) (words c)).

(** [rsp_val] is the first field of the record. *)
Definition go_to_ring3_exec (argc user_stack_ptr : Z) : M (kern * cpu) unit :=
  p ← enter_space;
  on_c (rsp_val ← ldq p.1; sti ≫= fun _ => setr RSP rsp_val ≫= fun _ => push_user_frame p.2 ≫= fun _ =>
        setr RSI user_stack_ptr ≫= fun _ => setr RDI argc ≫= fun _ => iretq).

(** [movq] of the code, an enumeration of 4 bytes, takes the 4 bytes behind it along, [above]. *)
Definition loaded_code (above code : Z) : Z := u32 code + 2 ^ 32 * u32 above.

(** [syscall6] of the C library up to the trap: the arguments go to registers. *)
Definition syscall6_regs (above code arg2 arg3 arg4 arg5 arg6 : Z) : M cpu unit :=
  setr RAX (loaded_code above code) ≫= fun _ => setr RBX arg2 ≫= fun _ => setr RCX arg3 ≫= fun _ => setr RDX arg4 ≫= fun _ =>
  setr RSI arg5 ≫= fun _ => setr RDI arg6.

Definition ISR_PUSHED : list reg := [RCX; RDX; RBX; RBP; RSI; RDI; R8; R9; R10; R11; R12; R13; R14; R15; RDI].
Definition ISR_POPPED : list reg := [RDI; R15; R14; R13; R12; R11; R10; R9; R8; RDI; RSI; RBP; RBX; RDX; RCX].

(** [syscall_isr], around the call of the compiled [handle_syscall]. *)
Definition syscall_isr (handle_syscall : M cpu unit) : M cpu unit :=
  sti ≫= fun _ => pushes ISR_PUSHED ≫= fun _ =>
  movr R8 RSI ≫= fun _ => movr R9 RDI ≫= fun _ => movr R15 RCX ≫= fun _ => movr RCX RDX ≫= fun _ =>
  movr RDX R15 ≫= fun _ => movr RSI RBX ≫= fun _ => movr RDI RAX ≫= fun _ =>
  handle_syscall ≫= fun _ =>
  pops ISR_POPPED ≫= fun _ => iretq.

(** A whole system call: the wrapper, the trap with the stack [rsp0] of the task state segment, the handler, the return. *)
Definition syscall6_trap (rsp0 isr : Z) (handle_syscall : M cpu unit) (above code arg2 arg3 arg4 arg5 arg6 : Z) : M cpu Z :=
  syscall6_regs above code arg2 arg3 arg4 arg5 arg6 ≫= fun _ =>
  interrupt_entry rsp0 isr ≫= fun _ => syscall_isr handle_syscall ≫= fun _ => getr RAX.

(** ** Suspended and running threads *)

Definition SIZEOF_THREAD : Z := 33096.

(** The address [a] belongs to the thread at [p]. *)
Definition of_thread (p a : Z) : Prop := p <= a < p + SIZEOF_THREAD.
Definition apart_threads (p q : Z) : Prop := p + SIZEOF_THREAD <= q \/ q + SIZEOF_THREAD <= p.

(** The thread at [p] waits in [switch_to]: when it goes on it returns to [ret] with the registers [f] and stack pointer [sp]. *)
Record saved (w : gmap Z Z) (p : Z) (f : reg -> Z) (ret sp : Z) : Prop := {
  sv_rsp : w !! p = Some (sp - 136);
  sv_frame : frame w (sp - 136) SWITCH_POPPED f;
  sv_ret : w !! (sp - 8) = Some ret;
  sv_stack : 0 <= p /\ p + 152 <= sp <= p + 16 + 32768 /\ p + SIZEOF_THREAD < 2 ^ 64
}.

(** The thread at [p] is the current one (the variable [current_process] is at [me]) and has called a function, which returns
    to [ret]; its stack has room for 16 more words. *)
Record running (c : cpu) (me p ret : Z) : Prop := {
  ru_me : words c !! me = Some p;
  ru_var : ~ of_thread p me;
  ru_ret : words c !! regs c RSP = Some ret;
  ru_thread : is_Some (words c !! p);
  ru_stack : 0 <= p /\ p + 16 + 128 <= regs c RSP <= p + 16 + 32760 /\ p + SIZEOF_THREAD < 2 ^ 64;
  ru_mapped : mapped_words (words c) (regs c RSP - 128) 16
}.

Lemma popped_rev : SWITCH_POPPED = rev SWITCH_PUSHED.
Proof. reflexivity. Qed.

Lemma no_rsp : (RSP ∉ SWITCH_PUSHED) /\ (RSP ∉ SWITCH_POPPED) /\ (RSP ∉ ISR_PUSHED) /\ (RSP ∉ ISR_POPPED).
Proof. split_and!; apply (bool_decide_unpack _); by vm_compute. Qed.

Lemma popped_all r : r <> RSP -> r ∈ SWITCH_POPPED.
Proof. intros H. apply list_elem_of_In. destruct r; cbn; tauto || done. Qed.

Lemma frame_ext w w' a l f : frame w a l f -> (forall x, a <= x < a + 8 * Z.of_nat (length l) -> w' !! x = w !! x) -> frame w' a l f.
Proof. intros H E k r Hk. rewrite E; [by apply H|]. pose proof (lookup_lt_Some _ _ _ Hk). lia. Qed.

Lemma saved_ext w w' p f ret sp : saved w p f ret sp -> (forall a, of_thread p a -> w' !! a = w !! a) -> saved w' p f ret sp.
Proof.
  intros [H1 H2 H3 H4] E. unfold of_thread, SIZEOF_THREAD in *. split; [rewrite E by lia; done| |rewrite E by lia; done|done].
  eapply frame_ext; [exact H2|]. cbn [length SWITCH_POPPED]. intros x Hx. apply E. lia.
Qed.

(** The thread at [p] has 16 words and the address [ret] on its stack, which is empty behind them. *)
Record waiting (w : gmap Z Z) (p ret sp : Z) : Prop := {
  wa_rsp : w !! p = Some (sp - 136);
  wa_frame : mapped_words w (sp - 136) 16;
  wa_ret : w !! (sp - 8) = Some ret;
  wa_stack : 0 <= p /\ p + 152 <= sp <= p + 16 + 32768 /\ p + SIZEOF_THREAD < 2 ^ 64
}.

Lemma frame_mapped w a l f : frame w a l f -> mapped_words w a (Z.of_nat (length l)).
Proof.
  intros H k Hk. destruct (lookup_lt_is_Some_2 l (Z.to_nat k)) as [r Hr]; [lia|]. exists (f r). rewrite <- (H _ _ Hr). f_equal. lia.
Qed.

Lemma saved_waiting w p f ret sp : saved w p f ret sp -> waiting w p ret sp.
Proof. intros [H1 H2 H3 H4]. split; [done| |done|done]. exact (frame_mapped _ _ _ _ H2). Qed.

Lemma waiting_ext w w' p ret sp : waiting w p ret sp -> (forall a, of_thread p a -> w' !! a = w !! a) -> waiting w' p ret sp.
Proof.
  intros [H1 H2 H3 H4] E. unfold of_thread, SIZEOF_THREAD in *. split; [rewrite E by lia; done| |rewrite E by lia; done|done].
  intros k Hk. rewrite E by lia. by apply H2.
Qed.

(** The switch saves the running thread and continues the other one; [P] is what the registers are then. *)
Lemma switch_to_gen c me p q ret ret' sp' (P : (reg -> Z) -> Prop) :
  running c me p ret -> regs c RDI = me -> regs c RSI = q -> waiting (words c) q ret' sp' -> apart_threads p q -> ~ of_thread q me ->
  (forall c4, regs c4 RSP = sp' - 136 -> (forall x, sp' - 136 <= x < sp' - 8 -> words c4 !! x = words c !! x) ->
     exists g, pops SWITCH_POPPED c4 = Ret (tt, set_regs g c4) /\ g RSP = sp' - 8 /\ P g) ->
  exists c' g, switch_to c = Ret (tt, c') /\ pc c' = ret' /\ regs c' RSP = sp' /\ P g /\ (forall r, r <> RSP -> regs c' r = g r) /\
    words c' !! me = Some q /\ saved (words c') p (regs c) ret (regs c RSP + 8) /\
    (forall a, ~ of_thread p a -> a <> me -> words c' !! a = words c !! a).
Proof.
  intros [Hme Hv Hret Hth Hst Hm] Hdi Hsi Hq Hap Hqme Hpop. set (sp := regs c RSP) in *.
  unfold apart_threads, of_thread, SIZEOF_THREAD in *.
  destruct (pushes_ok SWITCH_PUSHED c) as (c1 & R1 & [P1 P2 P3 P4 P5 P6]); [apply no_rsp|fold sp; cbn [length SWITCH_PUSHED]; lia|exact Hm|].
  cbn [length SWITCH_PUSHED] in P1, P4, P5. change (8 * Z.of_nat 16) with 128 in *. fold sp in P1, P4, P5.
  set (w2 := <[p := sp - 128]> (words c1)). set (w3 := <[me := q]> w2).
  assert (forall a, ~ (p <= a < p + 33096) -> a <> me -> w3 !! a = words c !! a) as Hout.
  { intros a Ha Hne. unfold w3, w2. rewrite !lookup_insert_ne by lia. apply P5. lia. }
  assert (words c1 !! me = Some p) as Hme1 by (rewrite P5 by lia; done).
  assert (is_Some (words c1 !! p)) as Hp1 by (by apply P6).
  pose proof Hq as [Q1 Q2 Q3 Q4]. unfold SIZEOF_THREAD in Q4.
  assert (w3 !! q = Some (sp' - 136)) as Hq3 by (rewrite Hout by lia; done).
  set (c4 := Cpu (upd RSP (sp' - 136) (upd R15 p (regs c1))) (pc c1) (cs c1) (ss c1) (flags c1) w3).
  assert (regs c4 RSP = sp' - 136) as E4 by apply upd_same.
  destruct (Hpop c4 E4) as (g & R5 & G1 & G2). { intros x Hx. apply Hout; lia. }
  set (c5 := set_regs g c4) in *. assert (regs c5 RSP = sp' - 8) as E5 by (simpl; lia).
  exists (set_pc ret' (set_regs (upd RSP sp' g) c5)), g. split_and!.
  - unfold switch_to. rewrite (bind_ret _ _ _ _ _ R1). unfold getr, gets, setr, modify.
    rewrite (bind_ret _ _ _ _ _ eq_refl). rewrite (P2 RDI), Hdi by done.
    rewrite (bind_ret _ _ _ _ _ (ldq_ok c1 me p Hme1)). do 3 rewrite (bind_ret _ _ _ _ _ eq_refl).
    cbn [regs set_regs]. rewrite (upd_other R15 p (regs c1) RSP) by done. rewrite P1, upd_same.
    rewrite (bind_ret _ _ _ _ _ (stq_ok (set_regs (upd R15 p (regs c1)) c1) p (sp - 128) Hp1)). rewrite (bind_ret _ _ _ _ _ eq_refl).
    cbn [regs set_regs set_words words]. rewrite (upd_other R15 p (regs c1) RSI) by done. rewrite (P2 RSI), Hsi by done.
    rewrite (bind_ret _ _ _ tt (set_words w3 (set_regs (upd R15 p (regs c1)) c1))).
    2: { rewrite stq_ok; [done|]. cbn [words set_words]. rewrite lookup_insert. case_decide; [by eexists|]. by rewrite Hme1. }
    rewrite (bind_ret _ _ _ _ _ (ldq_ok (set_words w3 (set_regs (upd R15 p (regs c1)) c1)) q _ Hq3)). rewrite (bind_ret _ _ _ _ _ eq_refl).
    change (set_regs _ (set_words w3 _)) with c4. rewrite (bind_ret _ _ _ _ _ R5). fold c5.
    rewrite (retq_ok c5 ret'); [|lia|lia|rewrite E5; simpl; rewrite Hout by lia; done].
    do 3 f_equal. rewrite E5. unfold c5. simpl. replace (sp' - 8 + 8) with sp' by lia. done.
  - done.
  - apply upd_same.
  - exact G2.
  - intros r Hr. simpl. by rewrite upd_other.
  - apply lookup_insert_eq.
  - cbn [words set_pc set_regs c5 c4]. replace (sp + 8 - 136) with (sp - 128) in * by lia.
    split; [unfold w3, w2; rewrite lookup_insert_ne, lookup_insert_eq by lia; f_equal; lia| | |unfold SIZEOF_THREAD; lia].
    + replace (sp + 8 - 136) with (sp - 128) by lia. rewrite popped_rev. eapply frame_ext; [exact P4|]. rewrite length_rev. cbn [length SWITCH_PUSHED].
      intros x Hx. unfold w3, w2. rewrite !lookup_insert_ne by lia. done.
    + unfold w3, w2. rewrite !lookup_insert_ne by lia. rewrite P5 by lia. rewrite <- Hret. f_equal. lia.
  - intros a Ha Hne. by apply Hout.
Qed.

Lemma switch_to_ok c me p q ret f ret' sp' :
  running c me p ret -> regs c RDI = me -> regs c RSI = q -> saved (words c) q f ret' sp' -> apart_threads p q -> ~ of_thread q me ->
  exists c', switch_to c = Ret (tt, c') /\ pc c' = ret' /\ regs c' RSP = sp' /\ (forall r, r <> RSP -> regs c' r = f r) /\
    words c' !! me = Some q /\ saved (words c') p (regs c) ret (regs c RSP + 8) /\
    (forall a, ~ of_thread p a -> a <> me -> words c' !! a = words c !! a).
Proof.
  intros Hr Hdi Hsi Hq Hap Hqme. pose proof Hq as [_ Q2 _ Q4]. unfold SIZEOF_THREAD in Q4.
  destruct (switch_to_gen c me p q ret ret' sp' (fun g => forall r, r <> RSP -> g r = f r) Hr Hdi Hsi (saved_waiting _ _ _ _ _ Hq) Hap Hqme)
    as (c' & g & R & E1 & E2 & G & E3 & E4).
  - intros c4 E4 Hw. destruct (pops_ok SWITCH_POPPED f c4) as (g & R5 & G1 & G2 & _); [apply no_rsp|lia|cbn [length SWITCH_POPPED]; lia| |].
    + rewrite E4. eapply frame_ext; [exact Q2|]. cbn [length SWITCH_POPPED]. intros x Hx. apply Hw; lia.
    + cbn [length SWITCH_POPPED] in G1. exists g. split_and!; [done|lia|]. intros r Hn. by apply G2, popped_all.
  - exists c'. split_and!; try done; [|apply E4..]. intros r Hn. rewrite E3 by done. by apply G.
Qed.

(** The other thread takes its registers from words that may be anything. *)
Lemma switch_to_new c me p q ret ret' sp' :
  running c me p ret -> regs c RDI = me -> regs c RSI = q -> waiting (words c) q ret' sp' -> apart_threads p q -> ~ of_thread q me ->
  exists c', switch_to c = Ret (tt, c') /\ pc c' = ret' /\ regs c' RSP = sp' /\
    (forall r, r <> RSP -> exists k, 0 <= k < 16 /\ words c !! (sp' - 136 + 8 * k) = Some (regs c' r)) /\
    words c' !! me = Some q /\ (forall a, ~ of_thread p a -> a <> me -> words c' !! a = words c !! a).
Proof.
  intros Hr Hdi Hsi Hq Hap Hqme. pose proof Hq as [_ Q2 _ Q4]. unfold SIZEOF_THREAD in Q4.
  destruct (switch_to_gen c me p q ret ret' sp'
    (fun g => forall r, r <> RSP -> exists k, 0 <= k < 16 /\ words c !! (sp' - 136 + 8 * k) = Some (g r)) Hr Hdi Hsi Hq Hap Hqme)
    as (c' & g & R & E1 & E2 & G & E3 & E4 & _ & E5).
  - intros c4 E4 Hw. destruct (pops_any SWITCH_POPPED c4) as (g & R5 & G1 & G2 & _); [apply no_rsp|lia|cbn [length SWITCH_POPPED]; lia| |].
    + intros k Hk. cbn [length SWITCH_POPPED] in Hk. rewrite E4, Hw by lia. by apply Q2.
    + cbn [length SWITCH_POPPED] in G1, G2. rewrite E4 in G1, G2. exists g. split_and!; [done|lia|]. intros r Hn.
      destruct (G2 r (popped_all r Hn)) as (k & Hk & E). exists k. split; [lia|]. rewrite <- E. symmetry. apply Hw. lia.
  - exists c'. split_and!; try done. intros r Hn. rewrite E3 by done. by apply G.
Qed.

(** C12: A context switch is a round trip: a thread that calls [switch_to] gives the processor to the suspended thread, and when some
    thread later switches back to it, with its memory as it was, it goes on behind its call with all its registers. *)
Theorem switch_round_trip c me p q ret f ret' sp' :
  running c me p ret -> regs c RDI = me -> regs c RSI = q -> saved (words c) q f ret' sp' -> apart_threads p q -> ~ of_thread q me ->
  exists c1, switch_to c = Ret (tt, c1) /\ pc c1 = ret' /\ regs c1 RSP = sp' /\ (forall r, r <> RSP -> regs c1 r = f r) /\
    forall c2 o ret2, running c2 me o ret2 -> regs c2 RDI = me -> regs c2 RSI = p -> apart_threads o p ->
      (forall a, of_thread p a -> words c2 !! a = words c1 !! a) ->
      exists c3, switch_to c2 = Ret (tt, c3) /\ pc c3 = ret /\ regs c3 RSP = regs c RSP + 8 /\ (forall r, r <> RSP -> regs c3 r = regs c r).
Proof.
  intros Hr Hdi Hsi Hq Hap Hqme. destruct (switch_to_ok c me p q ret f ret' sp') as (c1 & R1 & E1 & E2 & E3 & E4 & Hs & _); [done..|].
  exists c1. split_and!; [done..|]. intros c2 o ret2 Hr2 Hdi2 Hsi2 Hap2 Hsame.
  destruct (switch_to_ok c2 me o p ret2 (regs c) ret (regs c RSP + 8)) as (c3 & R3 & F1 & F2 & F3 & _); try done.
  - by eapply saved_ext.
  - apply Hr.
  - by exists c3.
Qed.

(** ** The stack of a forked process *)

Definition stack_mapped (w : gmap Z Z) (p : Z) : Prop := mapped_words w (p + 16) 4096 /\ is_Some (w !! p).

(** Words at stack [p] of [w'] and at stack [q] of [w] are the same from index [lo] on. *)
Definition same_stack (w' : gmap Z Z) (p : Z) (w : gmap Z Z) (q lo : Z) : Prop :=
  forall i, lo <= i < 4096 -> w' !! k_stack p i = w !! k_stack q i.

Lemma copy_stack_ok c p k : stack_mapped (words c) p -> stack_mapped (words c) k -> apart_threads p k ->
  exists w', for_loop 4096 0 (fun i => v ← ldq (k_stack p i); stq (k_stack k i) v) c = Ret (tt, set_words w' c) /\
    same_stack w' k (words c) p 0 /\ (forall a, ~ (k_stack k 0 <= a < k_stack k 4096) -> w' !! a = words c !! a).
Proof.
  intros [Hp _] [Hk _] Hap. unfold apart_threads, SIZEOF_THREAD in Hap.
  destruct (for_loop_ind (fun i t => exists w, t = set_words w c /\ (forall j, 0 <= j < i -> w !! k_stack k j = words c !! k_stack p j) /\
      (forall a, ~ (k_stack k 0 <= a < k_stack k i) -> w !! a = words c !! a))
    (fun i => v ← ldq (k_stack p i); stq (k_stack k i) v) 4096 0 c) as (s' & Hrun & w & -> & Hw & Ho).
  - exists (words c). split_and!; [by destruct c|lia|done].
  - intros i t Hi (w & -> & Hw & Ho). change (Z.of_nat 4096) with 4096 in Hi. unfold k_stack in *.
    destruct (Hp i) as [v Hv]; [lia|]. destruct (Hk i) as [u Hu]; [lia|].
    assert (w !! (p + 16 + 8 * i) = Some v) as Hv' by (rewrite Ho by lia; done).
    exists (set_words (<[k + 16 + 8 * i := v]> w) c). split.
    + rewrite (bind_ret _ _ _ _ _ (ldq_ok (set_words w c) _ v Hv')). rewrite stq_ok; [done|]. simpl. rewrite Ho by lia. by exists u.
    + eexists. split_and!; [done| |].
      * intros j Hj. rewrite lookup_insert. case_decide; [|apply Hw; lia]. replace j with i by lia. done.
      * intros a Ha. rewrite lookup_insert_ne by lia. apply Ho. lia.
  - exists w. change (0 + Z.of_nat 4096) with 4096 in *. split_and!; [exact Hrun| |exact Ho]. intros i Hi. apply Hw. lia.
Qed.

(** The search of the return address, from index [i] to index [j]. *)
Lemma find_return_ok k ret j : forall fuel c i, 0 <= k -> k + SIZEOF_THREAD < 2 ^ 64 -> 0 <= i <= j -> j < 4096 -> (Z.to_nat (j - i) < fuel)%nat ->
  words c !! k = Some (k_stack k i) -> words c !! k_stack k j = Some ret -> mapped_words (words c) (k + 16) 4096 ->
  (forall x, i <= x < j -> words c !! k_stack k x <> Some ret) ->
  find_return fuel k ret c = Ret (tt, set_words (<[k := k_stack k j]> (words c)) c).
Proof.
  induction fuel as [|fuel IH]; intros c i Hk0 Hk1 Hi Hj Hf Hk Hr Hm Hno; [lia|]. cbn [find_return]. unfold k_stack, SIZEOF_THREAD in *.
  rewrite (bind_ret _ _ _ _ _ (ldq_ok _ _ _ Hk)). destruct (Hm i) as [v Hv]; [lia|]. rewrite (bind_ret _ _ _ _ _ (ldq_ok _ _ _ Hv)).
  destruct (Z.eqb_spec v ret) as [->|Hne].
  - destruct (Z.eq_dec i j) as [->|Hij]; [|by destruct (Hno i ltac:(lia))]. rewrite (insert_id (words c)) by done. by destruct c.
  - assert (i <> j) as Hij by congruence. rewrite u64_small by lia. rewrite (bind_ret _ _ _ _ _ (stq_ok c k _ (mk_is_Some _ _ Hk))).
    rewrite (IH _ (i + 1)); try lia; simpl.
    + by rewrite insert_insert_eq.
    + rewrite lookup_insert_eq. f_equal. lia.
    + by rewrite lookup_insert_ne by lia.
    + intros x Hx. rewrite lookup_insert_ne by lia. by apply Hm.
    + intros x Hx. rewrite lookup_insert_ne by lia. apply Hno. lia.
Qed.

Lemma store_down_ok l : forall c a, 8 * Z.of_nat (length l) <= a < 2 ^ 64 -> mapped_words (words c) (a - 8 * Z.of_nat (length l) + 8) (Z.of_nat (length l)) ->
  exists w', store_down l a c = Ret (tt, set_words w' c) /\ frame w' (a - 8 * Z.of_nat (length l) + 8) (rev l) (regs c) /\
    (forall x, ~ (a - 8 * Z.of_nat (length l) + 8 <= x <= a) -> w' !! x = words c !! x).
Proof.
  induction l as [|r l IH]; intros c a Ha Hm; cbn [store_down length] in *.
  { exists (words c). split_and!; [by destruct c|by intros k x Hx|done]. }
  assert (is_Some (words c !! a)) as H0.
  { destruct (Hm (Z.of_nat (length l))) as [x Hx]; [lia|]. exists x. rewrite <- Hx. f_equal. lia. }
  set (c1 := set_words (<[a := regs c r]> (words c)) c).
  destruct (IH c1 (a - 8)) as (w' & R & F & O); [lia| |].
  { intros k Hk. simpl. rewrite lookup_insert. case_decide; [by eexists|]. destruct (Hm k) as [x Hx]; [lia|]. exists x. rewrite <- Hx. f_equal. lia. }
  exists w'. split_and!.
  - unfold getr, gets. rewrite (bind_ret _ _ _ _ _ eq_refl), (bind_ret _ _ _ _ _ (stq_ok _ _ _ H0)), u64_small by lia. exact R.
  - intros k x Hx. cbn [rev] in Hx. apply lookup_app_Some in Hx as [Hx|[Hk Hx]].
    + etransitivity; [|exact (F k x Hx)]. f_equal. lia.
    + rewrite length_rev in *. destruct (k - length l)%nat eqn:E; [|done]. injection Hx as <-.
      rewrite O by lia. simpl. rewrite <- (lookup_insert_eq (words c) a (regs c r)). f_equal. lia.
  - intros x Hx. rewrite O by lia. simpl. apply lookup_insert_ne. lia.
Qed.

(** [fork] was called with the return address [ret], which is at index [j] of the kernel stack of [p]; the stack pointer is at index [i]. *)
Record forking (c : cpu) (p k ret i j : Z) : Prop := {
  fg_rsp : regs c RSP = k_stack p i;
  fg_index : 0 <= i <= j /\ 16 <= j < 4096;
  fg_ret : words c !! k_stack p j = Some ret;
  fg_first : forall x, i <= x < j -> words c !! k_stack p x <> Some ret;
  fg_child : words c !! k = Some (k_stack k (K_STACK_SIZE - 1));
  fg_mapped : stack_mapped (words c) p /\ stack_mapped (words c) k;
  fg_apart : apart_threads p k;
  fg_range : 0 <= p /\ 0 <= k /\ p + SIZEOF_THREAD < 2 ^ 64 /\ k + SIZEOF_THREAD < 2 ^ 64
}.

Definition FORK_STORED : list reg := [RCX; RDX; RBX; RBP; RSI; RDI; R8; R9; R10; R11; R12; R13; R14; R15; RDI].

(** The frame that [setup_forked_kthread_stack] leaves below index [j]. *)
Lemma setup_forked_ok c k j : 16 <= j < 4096 -> 0 <= k -> k + SIZEOF_THREAD < 2 ^ 64 -> mapped_words (words c) (k + 16) 4096 ->
  regs c RDI = k_stack k (j - 1) ->
  exists w', setup_forked_kthread_stack c = Ret (tt, set_words w' c) /\ frame w' (k_stack k (j - 16)) SWITCH_POPPED (upd RAX 0 (regs c)) /\
    (forall x, ~ (k_stack k (j - 16) <= x < k_stack k j) -> w' !! x = words c !! x).
Proof.
  unfold k_stack, SIZEOF_THREAD. intros Hj Hk Hk2 Hm Hdi. set (a := k + 16 + 8 * (j - 1)) in *.
  destruct (Hm (j - 1)) as [v Hv]; [lia|]. fold a in Hv. set (c1 := set_words (<[a := 0]> (words c)) c).
  destruct (store_down_ok FORK_STORED c1 (a - 8)) as (w' & R & F & O); cbn [length FORK_STORED] in *; change (8 * Z.of_nat 15) with 120 in *; [lia| |].
  { intros x Hx. simpl. rewrite lookup_insert_ne by lia. destruct (Hm (j - 16 + x)) as [y Hy]; [lia|]. exists y. rewrite <- Hy. f_equal. lia. }
  exists w'. split_and!.
  - unfold setup_forked_kthread_stack, getr, gets. rewrite (bind_ret _ _ _ _ _ eq_refl), Hdi. rewrite (bind_ret _ _ _ _ _ (stq_ok c a 0 (mk_is_Some _ _ Hv))).
    rewrite u64_small by lia. exact R.
  - intros n r Hn. change SWITCH_POPPED with (rev FORK_STORED ++ [RAX]) in Hn. apply lookup_app_Some in Hn as [Hn|[Hn Hr]].
    + assert (r <> RAX) as Hr by (intros ->; apply list_elem_of_lookup_2 in Hn; revert Hn; apply (bool_decide_unpack _); by vm_compute).
      rewrite upd_other by done. change (regs c r) with (regs c1 r). rewrite <- (F n r Hn). f_equal. lia.
    + change (length (rev FORK_STORED)) with 15%nat in *. destruct (n - 15)%nat eqn:E; [|done]. injection Hr as <-. rewrite upd_same.
      rewrite O by lia. simpl. rewrite <- (lookup_insert_eq (words c) a 0). f_equal. lia.
  - intros x Hx. rewrite O by lia. apply lookup_insert_ne. unfold a. lia.
Qed.

Lemma fork_stack_ok c p k ret i j : forking c p k ret i j ->
  exists c' f, fork_stack p k ret c = Ret (tt, c') /\ saved (words c') k f ret (k_stack k (j + 1)) /\ f RAX = 0 /\
    same_stack (words c') k (words c) p (j + 1) /\ same_stack (words c') p (words c) p 0.
Proof.
  intros [Hsp Hij Hret Hfirst Hch [Hmp Hmk] Hap Hrg]. pose proof Hmp as [Hmp1 Hmp2]. pose proof Hmk as [Hmk1 Hmk2].
  destruct (copy_stack_ok c p k Hmp Hmk Hap) as (w1 & R1 & S1 & O1). unfold apart_threads, SIZEOF_THREAD, K_STACK_SIZE in *.
  unfold same_stack, k_stack in *. set (w2 := <[p := p + 16 + 8 * i]> w1). set (w3 := <[k := k + 16 + 8 * i]> w2).
  assert (w1 !! k = Some (k + 16 + 8 * (4096 - 1))) as Hk1 by (rewrite O1 by lia; done).
  assert (w2 !! k = Some (k + 16 + 8 * (4096 - 1))) as Hk2 by (unfold w2; rewrite lookup_insert_ne by lia; done).
  assert (forall x, 0 <= x < 4096 -> w3 !! (k + 16 + 8 * x) = words c !! (p + 16 + 8 * x)) as S3.
  { intros x Hx. unfold w3, w2. rewrite !lookup_insert_ne by lia. apply S1. lia. }
  set (c3 := set_words w3 c). set (w5 := <[k := k + 16 + 8 * (j - 1)]> (<[k := k + 16 + 8 * j]> w3)).
  assert (mapped_words w3 (k + 16) 4096) as Hm3 by (intros x Hx; rewrite S3 by done; by apply Hmp1).
  pose proof (find_return_ok k ret j (S (Z.to_nat 4096)) c3 i ltac:(lia) ltac:(unfold SIZEOF_THREAD; lia) ltac:(lia) ltac:(lia) ltac:(lia)
    ltac:(apply lookup_insert_eq) ltac:(unfold k_stack; simpl; rewrite S3 by lia; exact Hret) Hm3
    ltac:(unfold k_stack; intros x Hx; simpl; rewrite S3 by lia; by apply Hfirst)) as R4. unfold k_stack in R4.
  set (c5 := set_regs (upd RDI (k + 16 + 8 * (j - 1)) (regs c)) (set_words w5 c)).
  destruct (setup_forked_ok c5 k j) as (w6 & R6 & F6 & O6); unfold k_stack, SIZEOF_THREAD in *; [lia..| |apply upd_same|].
  { intros x Hx. simpl. unfold w5. rewrite !lookup_insert_ne by lia. by apply Hm3. }
  assert (w6 !! k = Some (k + 16 + 8 * (j - 1))) as Hk6 by (rewrite O6 by lia; simpl; unfold w5; by rewrite lookup_insert_eq).
  set (w7 := <[k := k + 16 + 8 * (j - 16)]> w6).
  exists (set_words w7 c5), (upd RAX 0 (regs c5)). split_and!.
  - unfold fork_stack, k_stack, K_STACK_SIZE. rewrite (bind_ret _ _ _ _ _ R1). unfold get_rsp_val, getr, gets.
    rewrite (bind_ret _ _ _ (u64 (p + 16 + 8 * i - 8)) (set_words w1 c)) by (rewrite (bind_ret _ _ _ _ _ eq_refl); by rewrite <- Hsp).
    cbv zeta. rewrite !(u64_small (p + 16 + 8 * i - 8)) by lia. replace (p + 16 + 8 * i - 8 + 8) with (p + 16 + 8 * i) by lia. rewrite (u64_small (p + 16 + 8 * i)) by lia.
    rewrite (bind_ret _ _ _ tt (set_words w2 c)); [|rewrite stq_ok; [done|simpl; rewrite O1 by lia; exact Hmp2]].
    rewrite (bind_ret _ _ _ _ _ (ldq_ok (set_words w2 c) k _ Hk2)).
    replace (p + 16 + 8 * (4096 - 1) - (p + 16 + 8 * i)) with ((4095 - i) * 8) by lia. rewrite Z.div_mul, (u64_small (4095 - i)) by lia.
    replace (k + 16 + 8 * (4096 - 1) - 8 * (4095 - i)) with (k + 16 + 8 * i) by lia. rewrite (u64_small (k + 16 + 8 * i)) by lia.
    rewrite (bind_ret _ _ _ tt c3); [|by rewrite stq_ok by (by eexists)]. rewrite (bind_ret _ _ _ _ _ R4).
    rewrite (bind_ret _ _ _ (k + 16 + 8 * j) (set_words (<[k := k + 16 + 8 * j]> w3) c)); [|by rewrite (ldq_ok _ _ (k + 16 + 8 * j)); [|apply lookup_insert_eq]].
    replace (k + 16 + 8 * j - 8) with (k + 16 + 8 * (j - 1)) by lia. rewrite (u64_small (k + 16 + 8 * (j - 1))) by lia.
    rewrite (bind_ret _ _ _ tt (set_words w5 c)); [|rewrite stq_ok; [done|simpl; rewrite lookup_insert_eq; by eexists]].
    rewrite (bind_ret _ _ _ _ _ (ldq_ok (set_words w5 c) k (k + 16 + 8 * (j - 1)) ltac:(apply lookup_insert_eq))).
    unfold setr, modify. rewrite (bind_ret _ _ _ tt c5) by done. rewrite (bind_ret _ _ _ _ _ R6).
    rewrite (bind_ret _ _ _ _ _ (ldq_ok (set_words w6 c5) k _ Hk6)). replace (k + 16 + 8 * (j - 1) - 8 * 15) with (k + 16 + 8 * (j - 16)) by lia.
    rewrite (u64_small (k + 16 + 8 * (j - 16))) by lia. by rewrite (stq_ok (set_words w6 c5) k _ (mk_is_Some _ _ Hk6)).
  - cbn [words set_words]. replace (k + 16 + 8 * (j + 1)) with (k + 16 + 8 * (j - 16) + 136) by lia. split; unfold SIZEOF_THREAD; try lia.
    + unfold w7. rewrite lookup_insert_eq. f_equal. lia.
    + replace (k + 16 + 8 * (j - 16) + 136 - 136) with (k + 16 + 8 * (j - 16)) by lia. eapply frame_ext; [exact F6|]. cbn [length SWITCH_POPPED].
      intros x Hx. unfold w7. by rewrite lookup_insert_ne by lia.
    + replace (k + 16 + 8 * (j - 16) + 136 - 8) with (k + 16 + 8 * j) by lia. unfold w7. rewrite lookup_insert_ne, O6 by lia. simpl. unfold w5.
      rewrite !lookup_insert_ne by lia. rewrite S3 by lia. exact Hret.
  - apply upd_same.
  - intros x Hx. simpl. unfold w7. rewrite lookup_insert_ne, O6 by lia. simpl. unfold w5. rewrite !lookup_insert_ne by lia. apply S3. lia.
  - intros x Hx. simpl. unfold w7. rewrite lookup_insert_ne, O6 by lia. simpl. unfold w5, w3, w2. rewrite !lookup_insert_ne by lia. apply O1. lia.
Qed.

(** C13: [fork] returns twice: after the stack of the child has been set up, the first switch to it continues at the return address of
    [fork] with 0 in the result register, on a stack that is the parent's above that address; the parent's own stack is as before. *)
Theorem fork_returns_in_child c p k ret i j me :
  forking c p k ret i j -> ~ of_thread k me ->
  exists c1, fork_stack p k ret c = Ret (tt, c1) /\ same_stack (words c1) p (words c) p 0 /\
    forall c2 o ret2, running c2 me o ret2 -> regs c2 RDI = me -> regs c2 RSI = k -> apart_threads o k ->
      (forall a, of_thread k a -> words c2 !! a = words c1 !! a) ->
      exists c3, switch_to c2 = Ret (tt, c3) /\ pc c3 = ret /\ regs c3 RAX = 0 /\ regs c3 RSP = k_stack k (j + 1) /\
        same_stack (words c3) k (words c) p (j + 1).
Proof.
  intros Hf Hme. destruct (fork_stack_ok c p k ret i j Hf) as (c1 & f & R1 & Hs & Hf0 & Ha & Hb). exists c1. split_and!; [done..|].
  intros c2 o ret2 Hr Hdi Hsi Hap Hsame.
  destruct (switch_to_ok c2 me o k ret2 f ret (k_stack k (j + 1))) as (c3 & R3 & E1 & E2 & E3 & _ & _ & E6); try done; [by eapply saved_ext|].
  exists c3. split_and!; [done|done|by rewrite E3|done|]. intros x Hx. unfold same_stack, k_stack, apart_threads, of_thread, SIZEOF_THREAD in *.
  destruct (fg_index _ _ _ _ _ _ Hf). rewrite E6 by lia. rewrite Hsame by lia. by apply Ha.
Qed.

(** ** The stack of a new process *)

Lemma clear_stack_ok c p : stack_mapped (words c) p ->
  exists w', clear_stack p c = Ret (tt, set_words w' c) /\ (forall i, 0 <= i < 512 -> w' !! k_stack p i = Some 0) /\
    (forall a, ~ (k_stack p 0 <= a < k_stack p 512) -> w' !! a = words c !! a).
Proof.
  intros [Hm _]. unfold clear_stack. change (Z.to_nat (K_STACK_SIZE / 8)) with 512%nat.
  destruct (for_loop_ind (fun i t => exists w, t = set_words w c /\ (forall j, 0 <= j < i -> w !! k_stack p j = Some 0) /\
      (forall a, ~ (k_stack p 0 <= a < k_stack p i) -> w !! a = words c !! a)) (fun i => stq (k_stack p i) 0) 512 0 c) as (s' & R & w & -> & Hw & Ho).
  - exists (words c). split_and!; [by destruct c|lia|done].
  - intros i t Hi (w & -> & Hw & Ho). change (Z.of_nat 512) with 512 in Hi. unfold k_stack in *.
    exists (set_words (<[p + 16 + 8 * i := 0]> w) c). split.
    + rewrite stq_ok; [done|]. simpl. rewrite Ho by lia. apply Hm. lia.
    + eexists. split_and!; [done| |].
      * intros j Hj. rewrite lookup_insert. case_decide; [done|apply Hw; lia].
      * intros a Ha. rewrite lookup_insert_ne by lia. apply Ho. lia.
  - exists w. split_and!; [exact R|exact Hw|exact Ho].
Qed.

(** An eighth of the stack is cleared; the words that become the registers of the new process are as they were. *)
Lemma new_stack_ok c p entry : stack_mapped (words c) p -> 0 <= p -> p + SIZEOF_THREAD < 2 ^ 64 ->
  exists c', new_stack p entry c = Ret (tt, c') /\ waiting (words c') p entry (k_stack p 4096) /\
    (forall i, 0 <= i < 512 -> words c' !! k_stack p i = Some 0) /\
    (forall i, 512 <= i < 4095 -> words c' !! k_stack p i = words c !! k_stack p i).
Proof.
  intros Hm Hp Hp2. destruct (clear_stack_ok c p Hm) as (w1 & R1 & S1 & O1). destruct Hm as [Hm Hm2]. unfold SIZEOF_THREAD, k_stack in *.
  set (w2 := <[p + 16 + 8 * (4096 - 1) := entry]> w1). set (w3 := <[p := p + 16 + 8 * (4096 - 17)]> w2).
  exists (set_words w3 c). split_and!.
  - unfold new_stack, K_STACK_SIZE, k_stack. rewrite (bind_ret _ _ _ _ _ R1).
    rewrite (bind_ret _ _ _ tt (set_words w2 c)); [|rewrite stq_ok; [done|simpl; rewrite O1 by lia; apply Hm; lia]].
    rewrite stq_ok; [done|]. simpl. unfold w2. rewrite lookup_insert_ne, O1 by lia. exact Hm2.
  - simpl. split; unfold SIZEOF_THREAD; try lia.
    + unfold w3. rewrite lookup_insert_eq. f_equal. lia.
    + intros n Hn. unfold w3, w2. rewrite !lookup_insert_ne, O1 by lia. destruct (Hm (4079 + n) ltac:(lia)) as [x Hx]. exists x. rewrite <- Hx. f_equal. lia.
    + unfold w3, w2. rewrite lookup_insert_ne by lia. rewrite <- (lookup_insert_eq w1 (p + 16 + 8 * (4096 - 1)) entry). f_equal. lia.
  - intros i Hi. simpl. unfold w3, w2. rewrite !lookup_insert_ne by lia. by apply S1.
  - intros i Hi. simpl. unfold w3, w2. rewrite !lookup_insert_ne by lia. apply O1. lia.
Qed.

(** The five words that [iretq] takes. *)
Lemma iretq_ok c ip cs_ fl sp ss_ : let a := regs c RSP in 0 <= a -> a + 40 < 2 ^ 64 ->
  words c !! a = Some ip -> words c !! (a + 8) = Some cs_ -> words c !! (a + 16) = Some fl -> words c !! (a + 24) = Some sp ->
  words c !! (a + 32) = Some ss_ ->
  exists g, iretq c = Ret (tt, Cpu (upd RSP sp g) ip cs_ ss_ fl (words c)) /\ forall r, r <> RSP -> g r = regs c r.
Proof.
  intros a Ha Ha2 H1 H2 H3 H4 H5. unfold iretq.
  rewrite (bind_ret _ _ _ _ _ (pop_val_ok c ip Ha ltac:(lia) H1)). set (c1 := set_regs _ c).
  assert (regs c1 RSP = a + 8) as E1 by apply upd_same.
  rewrite (bind_ret _ _ _ _ _ (pop_val_ok c1 cs_ ltac:(lia) ltac:(lia) ltac:(rewrite E1; exact H2))). rewrite E1. set (c2 := set_regs _ c1).
  assert (regs c2 RSP = a + 16) as E2 by (unfold c2; simpl; rewrite upd_same; lia).
  rewrite (bind_ret _ _ _ _ _ (pop_val_ok c2 fl ltac:(lia) ltac:(lia) ltac:(rewrite E2; exact H3))). rewrite E2. set (c3 := set_regs _ c2).
  assert (regs c3 RSP = a + 24) as E3 by (unfold c3; simpl; rewrite upd_same; lia).
  rewrite (bind_ret _ _ _ _ _ (pop_val_ok c3 sp ltac:(lia) ltac:(lia) ltac:(rewrite E3; exact H4))). rewrite E3. set (c4 := set_regs _ c3).
  assert (regs c4 RSP = a + 32) as E4 by (unfold c4; simpl; rewrite upd_same; lia).
  rewrite (bind_ret _ _ _ _ _ (pop_val_ok c4 ss_ ltac:(lia) ltac:(lia) ltac:(rewrite E4; exact H5))).
  eexists. split; [reflexivity|]. intros r Hr. simpl. by rewrite !upd_other by done.
Qed.

(** The state after five pushes. *)
Definition push5 (v1 v2 v3 v4 v5 : Z) (c : cpu) : cpu := pushv v5 (pushv v4 (pushv v3 (pushv v2 (pushv v1 c)))).

Lemma push5_rsp v1 v2 v3 v4 v5 c : regs (push5 v1 v2 v3 v4 v5 c) RSP = regs c RSP - 40.
Proof. unfold push5. rewrite !pushv_rsp. lia. Qed.

Lemma push5_reg v1 v2 v3 v4 v5 c r : r <> RSP -> regs (push5 v1 v2 v3 v4 v5 c) r = regs c r.
Proof. intros H. unfold push5. by rewrite !pushv_reg. Qed.

Lemma push5_words v1 v2 v3 v4 v5 c a : ~ (regs c RSP - 40 <= a < regs c RSP) -> words (push5 v1 v2 v3 v4 v5 c) !! a = words c !! a.
Proof. intros H. unfold push5. rewrite !pushv_words, !pushv_rsp. repeat (rewrite decide_False by lia). done. Qed.

Lemma push5_frame v1 v2 v3 v4 v5 c : let sp := regs c RSP in let w := words (push5 v1 v2 v3 v4 v5 c) in
  w !! (sp - 40) = Some v5 /\ w !! (sp - 40 + 8) = Some v4 /\ w !! (sp - 40 + 16) = Some v3 /\ w !! (sp - 40 + 24) = Some v2 /\ w !! (sp - 40 + 32) = Some v1.
Proof. cbv zeta. unfold push5. rewrite !pushv_words, !pushv_rsp. split_and!; repeat case_decide; done || lia. Qed.

Definition room_words (c : cpu) (n : Z) : Prop := 8 * n <= regs c RSP < 2 ^ 64 /\ mapped_words (words c) (regs c RSP - 8 * n) n.

Lemma room_push v c n : 0 <= n -> room_words c (n + 1) -> push_val v c = Ret (tt, pushv v c) /\ room_words (pushv v c) n.
Proof.
  intros Hn [H1 H2]. split.
  - apply push_val_ok; [lia|]. destruct (H2 n) as [x Hx]; [lia|]. exists x. rewrite <- Hx. f_equal. lia.
  - split; rewrite pushv_rsp; [lia|]. intros k Hk. rewrite pushv_words. case_decide; [by eexists|].
    destruct (H2 k) as [x Hx]; [lia|]. exists x. rewrite <- Hx. f_equal. lia.
Qed.

Lemma push5_run v1 v2 v3 v4 v5 c n (k : M cpu unit) : 0 <= n -> room_words c (n + 5) ->
  (push_val v1 ≫= fun _ => push_val v2 ≫= fun _ => push_val v3 ≫= fun _ => push_val v4 ≫= fun _ => push_val v5 ≫= fun _ => k) c =
    k (push5 v1 v2 v3 v4 v5 c) /\ room_words (push5 v1 v2 v3 v4 v5 c) n.
Proof.
  intros Hn Hr. replace (n + 5) with (n + 4 + 1) in Hr by lia. destruct (room_push v1 c (n + 4) ltac:(lia) Hr) as [R1 H1].
  replace (n + 4) with (n + 3 + 1) in H1 by lia. destruct (room_push v2 _ (n + 3) ltac:(lia) H1) as [R2 H2].
  replace (n + 3) with (n + 2 + 1) in H2 by lia. destruct (room_push v3 _ (n + 2) ltac:(lia) H2) as [R3 H3].
  replace (n + 2) with (n + 1 + 1) in H3 by lia. destruct (room_push v4 _ (n + 1) ltac:(lia) H3) as [R4 H4].
  destruct (room_push v5 _ _ Hn H4) as [R5 H5]. split; [|exact H5].
  by rewrite (bind_ret _ _ _ _ _ R1), (bind_ret _ _ _ _ _ R2), (bind_ret _ _ _ _ _ R3), (bind_ret _ _ _ _ _ R4), (bind_ret _ _ _ _ _ R5).
Qed.

(** The frame is on the stack, whatever the registers. *)
Lemma push_user_frame_ok t c : room_words c 5 ->
  exists c5, push_user_frame t c = Ret (tt, c5) /\ regs c5 RSP = regs c RSP - 40 /\ (forall r, r <> RSP -> r <> RAX -> regs c5 r = regs c r) /\
    let w := words c5 in let a := regs c RSP - 40 in
    w !! a = Some (rip t) /\ w !! (a + 8) = Some 0x2B /\ w !! (a + 16) = Some (flags c) /\ w !! (a + 24) = Some (rsp_user t) /\ w !! (a + 32) = Some 0x23.
Proof.
  intros Hr. set (c0 := set_regs (upd RAX (rsp_user t) (regs c)) c). assert (regs c0 RSP = regs c RSP) as E0 by (by apply upd_other).
  assert (room_words c0 5) as Hr0 by (unfold room_words; rewrite E0; exact Hr).
  destruct (room_push 0x23 c0 4 ltac:(lia) Hr0) as [R1 Hr1]. destruct (room_push (rsp_user t) _ 3 ltac:(lia) Hr1) as [R2 Hr2].
  destruct (room_push (flags c) _ 2 ltac:(lia) Hr2) as [R3 Hr3]. destruct (room_push 0x2B _ 1 ltac:(lia) Hr3) as [R4 Hr4].
  destruct (room_push (rip t) _ 0 ltac:(lia) Hr4) as [R5 _].
  exists (push5 0x23 (rsp_user t) (flags c) 0x2B (rip t) c0). split_and!.
  - unfold push_user_frame, setr, modify. rewrite (bind_ret _ _ _ tt c0) by reflexivity. rewrite (bind_ret _ _ _ _ _ R1).
    rewrite (bind_ret _ _ _ tt (pushv (rsp_user t) (pushv 0x23 c0))).
    2: { unfold pushq, getr, gets. rewrite (bind_ret _ _ _ _ _ eq_refl). rewrite pushv_reg by discriminate. unfold c0 at 1. cbn [regs set_regs]. rewrite upd_same. exact R2. }
    rewrite (bind_ret _ _ _ tt (pushv (flags c) (pushv (rsp_user t) (pushv 0x23 c0)))) by (unfold gets; rewrite (bind_ret _ _ _ _ _ eq_refl); exact R3).
    rewrite (bind_ret _ _ _ _ _ R4). exact R5.
  - rewrite push5_rsp, E0. reflexivity.
  - intros r H1 H2. rewrite push5_reg by done. by apply upd_other.
  - rewrite <- E0. apply push5_frame.
Qed.

(** The kernel once the current process [p] has its stack and its address space. *)
Definition space_entered (k : kern) (p : Z) (t : kthread) : kern := set_mach (Paging.set_cr3 (cr3_ t) (mach k)) (set_rsp0 (kstack_top p) k).

Lemma enter_space_ok k c p t : current_process k = p -> threads k !! p = Some t ->
  enter_space (k, c) = Ret ((p, t), (space_entered k p t, c)).
Proof.
  intros Hp Ht. unfold enter_space. rewrite (bind_ret _ _ _ p (k, c)) by (subst p; reflexivity). set (k1 := set_rsp0 (kstack_top p) k).
  rewrite (bind_ret _ _ _ tt (k1, c)) by reflexivity.
  rewrite (bind_ret _ _ _ t (k1, c)); [reflexivity|]. apply (zoom_ret fst (fun k s => (k, snd s)) _ (k1, c) t k1).
  unfold th, gets. rewrite (bind_ret _ _ _ _ _ eq_refl). cbn [fst]. change (threads k1) with (threads k). by rewrite Ht.
Qed.

(** [go_to_ring3] leaves the kernel: the processor is at the entry point of the current process, with its stack, in ring 3. *)
Lemma go_to_ring3_ok k p t c : current_process k = p -> threads k !! p = Some t -> room_words c 5 ->
  exists c', go_to_ring3 (k, c) = Ret (tt, (space_entered k p t, c')) /\ pc c' = rip t /\ regs c' RSP = rsp_user t /\ cs c' = 0x2B /\ ss c' = 0x23.
Proof.
  intros Hp Ht Hr. destruct (push_user_frame_ok t c Hr) as (c5 & R & E & _ & F1 & F2 & F3 & F4 & F5). destruct Hr as [Hr _].
  rewrite <- E in F1, F2, F3, F4, F5.
  destruct (iretq_ok c5 (rip t) 0x2B (flags c) (rsp_user t) 0x23) as (g & R6 & _); [lia|lia|assumption..|].
  exists (Cpu (upd RSP (rsp_user t) g) (rip t) 0x2B 0x23 (flags c) (words c5)). split_and!; [|reflexivity|apply upd_same|reflexivity..].
  unfold go_to_ring3. rewrite (bind_ret _ _ _ _ _ (enter_space_ok k c p t Hp Ht)). cbn [snd].
  apply (zoom_ret snd (fun x s => (fst s, x)) _ (space_entered k p t, c) tt). by rewrite (bind_ret _ _ _ _ _ R).
Qed.

(** The words below the stack pointer of a thread that has taken its registers are memory for the pushes that follow. *)
Lemma waiting_room c p ret sp : waiting (words c) p ret sp -> regs c RSP = sp -> room_words c 5.
Proof.
  intros [_ Hf Hr Hs] E. unfold SIZEOF_THREAD in Hs. split; rewrite E; [lia|]. intros k Hk.
  destruct (decide (k = 4)) as [->|Hne]; [exists ret; rewrite <- Hr; f_equal; lia|].
  destruct (Hf (12 + k) ltac:(lia)) as [x Hx]. exists x. rewrite <- Hx. f_equal. lia.
Qed.

(** C15: A new process reaches its program: [create_process] clears an eighth of its kernel stack and puts the address of [go_to_ring3]
    on its top; the first switch to the process makes it the current one and continues there, with registers from words that were
    on the stack before, whatever they are; [go_to_ring3] then sets the kernel stack and the page tables of this process and ends at the
    entry point of its program, with its user stack, in ring 3 (code segment 0x2B, stack segment 0x23). *)
Theorem new_process_enters_program c p entry me : stack_mapped (words c) p -> 0 <= p -> p + SIZEOF_THREAD < 2 ^ 64 -> ~ of_thread p me ->
  exists c1, new_stack p entry c = Ret (tt, c1) /\ (forall i, 0 <= i < 512 -> words c1 !! k_stack p i = Some 0) /\
    forall c2 o ret2, running c2 me o ret2 -> regs c2 RDI = me -> regs c2 RSI = p -> apart_threads o p ->
      (forall a, of_thread p a -> words c2 !! a = words c1 !! a) ->
      exists c3, switch_to c2 = Ret (tt, c3) /\ pc c3 = entry /\ words c3 !! me = Some p /\
        (forall r, r <> RSP -> exists i, 4079 <= i < 4095 /\ words c !! k_stack p i = Some (regs c3 r)) /\
        forall k t, words c3 !! me = Some (current_process k) -> threads k !! p = Some t ->
          exists c4, go_to_ring3 (k, c3) = Ret (tt, (space_entered k p t, c4)) /\
            pc c4 = rip t /\ regs c4 RSP = rsp_user t /\ Z.land (cs c4) 3 = 3 /\ cs c4 = 0x2B /\ ss c4 = 0x23.
Proof.
  intros Hm Hp Hp2 Hme. destruct (new_stack_ok c p entry Hm Hp Hp2) as (c1 & R1 & Hs & Hz & Hk). exists c1. split_and!; [done|done|].
  intros c2 o ret2 Hr Hdi Hsi Hap Hsame. pose proof (waiting_ext _ (words c2) _ _ _ Hs Hsame) as Hs2.
  destruct (switch_to_new c2 me o p ret2 entry (k_stack p 4096)) as (c3 & R3 & E1 & E2 & E3 & E4 & E6); try done.
  exists c3. split_and!; [done..| |].
  - intros r Hn. destruct (E3 r Hn) as (n & Hn' & E). exists (4079 + n). split; [lia|]. rewrite <- E, <- Hk by lia.
    rewrite <- Hsame by (unfold of_thread, k_stack, SIZEOF_THREAD; lia). f_equal. unfold k_stack. lia.
  - intros k t Hc Ht. assert (current_process k = p) as Hcur by congruence.
    destruct (go_to_ring3_ok k p t c3 Hcur Ht) as (c4 & R4 & F1 & F2 & F3 & F4).
    + eapply (waiting_room c3 p entry); [|exact E2]. eapply waiting_ext; [exact Hs2|]. intros a Ha. apply E6; [|by intros ->].
      unfold apart_threads, of_thread in *. lia.
    + exists c4. split_and!; try done. by rewrite F3.
Qed.

(** ** System calls *)

Lemma room_weaken c n k : 0 <= k <= n -> room_words c n -> room_words c k.
Proof.
  intros Hk [H1 H2]. split; [lia|]. intros x Hx. destruct (H2 (n - k + x)) as [y Hy]; [lia|]. exists y. rewrite <- Hy. f_equal. lia.
Qed.

Lemma room_mode g w i c s f c0 n : g = regs c0 -> w = words c0 -> room_words c0 n -> room_words (Cpu g i c s f w) n.
Proof. intros -> ->. exact id. Qed.

(** The kernel stack at the entry of the handler holds the interrupted context and has room for [n] more words. *)
Record entered (c : cpu) (top target n : Z) (c1 : cpu) : Prop := {
  en_rsp : regs c1 RSP = top - 40;
  en_regs : forall r, r <> RSP -> regs c1 r = regs c r;
  en_pc : pc c1 = target;
  en_cs : cs c1 = 8;
  en_frame : words c1 !! (top - 40) = Some (pc c) /\ words c1 !! (top - 40 + 8) = Some (cs c) /\ words c1 !! (top - 40 + 16) = Some (flags c) /\
    words c1 !! (top - 40 + 24) = Some (regs c RSP) /\ words c1 !! (top - 40 + 32) = Some (ss c);
  en_room : room_words c1 n
}.

Lemma interrupt_entry_ok c rsp0 target n : let top := rsp0 / 16 * 16 in
  0 <= n -> 8 * (n + 5) <= top < 2 ^ 64 -> mapped_words (words c) (top - 8 * (n + 5)) (n + 5) ->
  exists c1, interrupt_entry rsp0 target c = Ret (tt, c1) /\ entered c top target n c1.
Proof.
  intros top Hn Ht Hm. set (c0 := set_regs (upd RSP top (regs c)) c). assert (regs c0 RSP = top) as E0 by apply upd_same.
  assert (room_words c0 (n + 5)) as Hr by (split; rewrite E0; [lia|exact Hm]).
  destruct (push5_run (ss c) (regs c RSP) (flags c) (cs c) (pc c) c0 n
    (modify (fun c => Cpu (regs c) target 8 0 (flags c) (words c))) Hn Hr) as [R Hr5].
  pose proof (push5_rsp (ss c) (regs c RSP) (flags c) (cs c) (pc c) c0) as P1. pose proof (push5_frame (ss c) (regs c RSP) (flags c) (cs c) (pc c) c0) as P2.
  assert (forall r, r <> RSP -> regs (push5 (ss c) (regs c RSP) (flags c) (cs c) (pc c) c0) r = regs c r) as P3.
  { intros r Hr'. rewrite push5_reg by done. by apply upd_other. }
  assert (interrupt_entry rsp0 target c = _) as R' by exact R. clear R. revert R' Hr5 P1 P2 P3.
  generalize (push5 (ss c) (regs c RSP) (flags c) (cs c) (pc c) c0). intros c5 R Hr5 P1 P2 P3. rewrite E0 in P1, P2.
  exists (Cpu (regs c5) target 8 0 (flags c5) (words c5)). split; [exact R|].
  split; cbn [regs words pc cs]; [exact P1|exact P3|reflexivity|reflexivity|exact P2|exact (room_mode _ _ _ _ _ _ c5 _ eq_refl eq_refl Hr5)].
Qed.

Lemma isr_popped_rev : ISR_POPPED = rev ISR_PUSHED.
Proof. reflexivity. Qed.

Lemma isr_popped_all r : r <> RSP -> r <> RAX -> r ∈ ISR_POPPED.
Proof. intros H1 H2. apply list_elem_of_In. destruct r; cbn; tauto || done. Qed.

(** The registers in which C passes the six arguments. *)
Definition c_arguments (c : cpu) : list Z := [regs c RDI; regs c RSI; regs c RDX; regs c RCX; regs c R8; regs c R9].

(** The moves of [syscall_isr]: from the registers of the trap to those of the call. *)
Definition mv (dst src : reg) (c : cpu) : cpu := set_regs (upd dst (regs c src) (regs c)) c.
Definition isr_moves (c : cpu) : cpu := mv RDI RAX (mv RSI RBX (mv RDX R15 (mv RCX RDX (mv R15 RCX (mv R9 RDI (mv R8 RSI c)))))).

Lemma movr_ok dst src c : movr dst src c = Ret (tt, mv dst src c).
Proof. reflexivity. Qed.

Lemma mv_same dst src c : regs (mv dst src c) dst = regs c src.
Proof. apply upd_same. Qed.

Lemma mv_other dst src c r : r <> dst -> regs (mv dst src c) r = regs c r.
Proof. apply upd_other. Qed.

Lemma isr_moves_args c : c_arguments (isr_moves c) = [regs c RAX; regs c RBX; regs c RCX; regs c RDX; regs c RSI; regs c RDI].
Proof. unfold c_arguments, isr_moves. repeat (rewrite mv_same || rewrite mv_other by discriminate). reflexivity. Qed.

Lemma isr_moves_rsp c : regs (isr_moves c) RSP = regs c RSP.
Proof. unfold isr_moves. by rewrite !mv_other. Qed.

(** The call of the handler, with what it may assume and must keep: the stack pointer and the 20 words above it. *)
Definition keeps_frame (c c' : cpu) : Prop :=
  regs c' RSP = regs c RSP /\ forall a, regs c RSP <= a < regs c RSP + 160 -> words c' !! a = words c !! a.

Lemma syscall_isr_ok c top target c1 : entered c top target 15 c1 -> 160 <= top < 2 ^ 64 ->
  exists c2, c_arguments c2 = [regs c RAX; regs c RBX; regs c RCX; regs c RDX; regs c RSI; regs c RDI] /\ cs c2 = 8 /\
    forall (h : M cpu unit) c3, h c2 = Ret (tt, c3) -> keeps_frame c2 c3 ->
    exists c4, syscall_isr h c1 = Ret (tt, c4) /\ regs c4 RAX = regs c3 RAX /\ (forall r, r <> RAX -> regs c4 r = regs c r) /\ same_mode c c4.
Proof.
  intros [E1 E2 E3 E4 (F1 & F2 & F3 & F4 & F5) Hr] Ht.
  set (c1' := Cpu (regs c1) (pc c1) (cs c1) (ss c1) (Z.setbit (flags c1) 9) (words c1)).
  destruct (pushes_ok ISR_PUSHED c1') as (c2 & R2 & [P1 P2 P3 P4 P5 P6]); [apply no_rsp|apply Hr|apply Hr|].
  cbn [length ISR_PUSHED regs c1'] in P1, P4, P5. change (8 * Z.of_nat 15) with 120 in *. rewrite E1 in P1, P4, P5.
  set (c2' := isr_moves c2). exists c2'. split_and!.
  - assert (forall r, r <> RSP -> regs c2 r = regs c r) as Hg by (intros r Hr'; rewrite P2 by done; by apply E2).
    unfold c2'. rewrite isr_moves_args. by rewrite !Hg.
  - destruct P3 as (_ & Ec & _). change (cs c2 = 8). rewrite Ec. exact E4.
  - intros h c3 Hh [K1 K2]. unfold c2' in K1, K2. rewrite isr_moves_rsp, P1 in K1, K2. change (words (isr_moves c2)) with (words c2) in K2.
    assert (frame (words c3) (regs c3 RSP) ISR_POPPED (regs c1)) as Hf.
    { rewrite K1, isr_popped_rev. eapply frame_ext; [exact P4|]. rewrite length_rev. cbn [length ISR_PUSHED]. intros x Hx. apply K2. lia. }
    destruct (pops_ok ISR_POPPED (regs c1) c3) as (g & R4 & G1 & G2 & G3); [apply no_rsp|lia|cbn [length ISR_POPPED]; lia|exact Hf|].
    cbn [length ISR_POPPED] in G1. rewrite K1 in G1. set (c4 := set_regs g c3) in *. assert (regs c4 RSP = top - 40) as E5 by (simpl; lia).
    assert (forall a, top - 40 <= a < top -> words c4 !! a = words c1 !! a) as Hw.
    { intros a Ha. simpl. rewrite K2 by lia. apply P5. lia. }
    destruct (iretq_ok c4 (pc c) (cs c) (flags c) (regs c RSP) (ss c)) as (g' & R5 & G'); rewrite ?E5; try lia; try (rewrite Hw by lia; done).
    eexists. split_and!.
    + unfold syscall_isr, sti, modify. rewrite (bind_ret _ _ _ tt c1') by done. rewrite (bind_ret _ _ _ _ _ R2).
      do 7 (rewrite (bind_ret _ _ _ _ _ (movr_ok _ _ _))). fold (isr_moves c2). fold c2'.
      rewrite (bind_ret _ _ _ _ _ Hh), (bind_ret _ _ _ _ _ R4). exact R5.
    + simpl. rewrite upd_other, G' by done. simpl. apply G3; [done|]. apply (bool_decide_unpack _). by vm_compute.
    + intros r Hr'. simpl. destruct (decide (r = RSP)) as [->|Hne]; [apply upd_same|]. rewrite upd_other, G' by done. simpl.
      rewrite G2 by (by apply isr_popped_all). by apply E2.
    + done.
Qed.

Lemma loaded_code_low above code : u32 (loaded_code above code) = u32 code.
Proof.
  unfold loaded_code, u32. rewrite Z.mul_comm, Z.add_comm. rewrite <- Z.add_mod_idemp_l, Z.mod_mul, Z.add_0_l by lia. apply Z.mod_mod. lia.
Qed.

(** C14: A system call crosses to the kernel and back: the handler runs in ring 0 with the code (in the lower
    half of its register, whatever is in the upper one) and the five arguments of the wrapper as its C arguments, in order; when it keeps
    the stack pointer and the frame above it, the wrapper gets its result, and the program
    goes on at the same place, in the same mode, with every register that the wrapper did not load itself. *)
Theorem syscall_round_trip c rsp0 isr above code arg2 arg3 arg4 arg5 arg6 : let top := rsp0 / 16 * 16 in
  160 <= top < 2 ^ 64 -> mapped_words (words c) (top - 160) 20 ->
  exists c2 x, c_arguments c2 = [x; arg2; arg3; arg4; arg5; arg6] /\ u32 x = u32 code /\ cs c2 = 8 /\
    forall (handler : M cpu unit) c3, handler c2 = Ret (tt, c3) -> keeps_frame c2 c3 ->
    exists c4, syscall6_trap rsp0 isr handler above code arg2 arg3 arg4 arg5 arg6 c = Ret (regs c3 RAX, c4) /\
      (forall r, r ∉ [RAX; RBX; RCX; RDX; RSI; RDI] -> regs c4 r = regs c r) /\ same_mode c c4.
Proof.
  intros top Ht Hm.
  set (c0 := set_regs (upd RDI arg6 (upd RSI arg5 (upd RDX arg4 (upd RCX arg3 (upd RBX arg2 (upd RAX (loaded_code above code) (regs c))))))) c).
  destruct (interrupt_entry_ok c0 rsp0 isr 15 ltac:(lia) Ht Hm) as (c1 & R1 & He).
  destruct (syscall_isr_ok c0 top isr c1 He Ht) as (c2 & Ha & Hc & Hrest). exists c2, (loaded_code above code). split_and!; [exact Ha|apply loaded_code_low|exact Hc|].
  intros handler c3 Hh Hk. destruct (Hrest handler c3 Hh Hk) as (c4 & R4 & E1 & E2 & E3). exists c4. split_and!.
  - unfold syscall6_trap. rewrite (bind_ret _ _ _ tt c0) by reflexivity. rewrite (bind_ret _ _ _ _ _ R1), (bind_ret _ _ _ _ _ R4).
    unfold getr, gets. by rewrite E1.
  - intros r Hr. rewrite !not_elem_of_cons in Hr. destruct Hr as (N1 & N2 & N3 & N4 & N5 & N6 & _). rewrite E2 by done.
    unfold c0. cbn [regs set_regs]. by rewrite !upd_other.
  - exact E3.
Qed.

(** ** [exec] and the idle process *)

(** [go_to_ring3_exec]: the program of the current process starts in ring 3, with interrupts, at its entry point and on its stack, and the
    number of its arguments and the address of their array are in the first two argument registers. *)
Theorem exec_passes_arguments k p t rsp_val argc argv c : current_process k = p -> threads k !! p = Some t ->
  words c !! p = Some rsp_val -> 40 <= rsp_val < 2 ^ 64 -> mapped_words (words c) (rsp_val - 40) 5 ->
  exists c', go_to_ring3_exec argc argv (k, c) = Ret (tt, (space_entered k p t, c')) /\ pc c' = rip t /\ regs c' RSP = rsp_user t /\
    regs c' RDI = argc /\ regs c' RSI = argv /\ cs c' = 0x2B /\ ss c' = 0x23 /\ Z.testbit (flags c') 9 = true.
Proof.
  intros Hp Ht Hv Hs Hm. set (c0 := Cpu (upd RSP rsp_val (regs c)) (pc c) (cs c) (ss c) (Z.setbit (flags c) 9) (words c)).
  assert (regs c0 RSP = rsp_val) as E0 by apply upd_same. assert (room_words c0 5) as Hr by (split; rewrite E0; [lia|exact Hm]).
  destruct (push_user_frame_ok t c0 Hr) as (c5 & R & E & _ & F1 & F2 & F3 & F4 & F5).
  set (c6 := set_regs (upd RDI argc (upd RSI argv (regs c5))) c5). assert (regs c6 RSP = regs c5 RSP) as E6 by reflexivity.
  rewrite <- E, <- E6 in F1, F2, F3, F4, F5.
  destruct (iretq_ok c6 (rip t) 0x2B (flags c0) (rsp_user t) 0x23) as (g & R7 & G); [lia|lia|assumption..|].
  exists (Cpu (upd RSP (rsp_user t) g) (rip t) 0x2B 0x23 (flags c0) (words c6)). split_and!; try reflexivity.
  - unfold go_to_ring3_exec. rewrite (bind_ret _ _ _ _ _ (enter_space_ok k c p t Hp Ht)). cbn [fst snd].
    apply (zoom_ret snd (fun x s => (fst s, x)) _ (space_entered k p t, c) tt). cbn [snd].
    rewrite (bind_ret _ _ _ _ _ (ldq_ok _ _ _ Hv)).
    rewrite (bind_ret _ _ _ _ _ eq_refl). unfold setr at 1, modify at 1. rewrite (bind_ret _ _ _ tt c0) by reflexivity.
    rewrite (bind_ret _ _ _ _ _ R). do 2 rewrite (bind_ret _ _ _ _ _ eq_refl). exact R7.
  - cbn [regs]. rewrite upd_other, G by discriminate. apply upd_same.
  - cbn [regs]. rewrite upd_other, G by discriminate. unfold c6. cbn [regs set_regs]. rewrite upd_other by discriminate. apply upd_same.
  - cbn [flags c0]. rewrite Z.setbit_eqb by lia. reflexivity.
Qed.

(** [start] gives the processor to the idle process: [set_rsp] with its saved stack pointer enters [init_scheduler] on its own stack. *)
Theorem idle_starts_scheduler c p entry : stack_mapped (words c) p -> 0 <= p -> p + SIZEOF_THREAD < 2 ^ 64 ->
  exists c1 v, idle_stack p entry c = Ret (tt, c1) /\ ldq p c1 = Ret (v, c1) /\
    exists c2, set_rsp v c1 = Ret (tt, c2) /\ pc c2 = entry /\ regs c2 RSP = k_stack p K_STACK_SIZE.
Proof.
  intros Hm Hp Hp2. destruct (clear_stack_ok c p Hm) as (w1 & R1 & S1 & O1). destruct Hm as [Hm Hm2]. unfold SIZEOF_THREAD, k_stack, K_STACK_SIZE in *.
  set (w2 := <[p + 16 + 8 * (4096 - 1) := entry]> w1). set (w3 := <[p := p + 16 + 8 * (4096 - 1)]> w2).
  assert (w3 !! p = Some (p + 16 + 8 * (4096 - 1))) as H3 by apply lookup_insert_eq.
  exists (set_words w3 c), (p + 16 + 8 * (4096 - 1)). split_and!.
  - unfold idle_stack, K_STACK_SIZE, k_stack. rewrite (bind_ret _ _ _ _ _ R1).
    rewrite (bind_ret _ _ _ tt (set_words w2 c)); [|rewrite stq_ok; [done|simpl; rewrite O1 by lia; apply Hm; lia]].
    rewrite stq_ok; [done|]. simpl. unfold w2. rewrite lookup_insert_ne, O1 by lia. exact Hm2.
  - exact (ldq_ok (set_words w3 c) p _ H3).
  - set (c1 := set_regs (upd RSP (p + 16 + 8 * (4096 - 1)) (regs c)) (set_words w3 c)).
    assert (regs c1 RSP = p + 16 + 8 * (4096 - 1)) as E1 by apply upd_same.
    assert (words c1 !! regs c1 RSP = Some entry) as H1 by (rewrite E1; cbn [words c1 set_regs set_words]; unfold w3, w2; rewrite lookup_insert_ne by lia; apply lookup_insert_eq).
    eexists. split; [unfold set_rsp; rewrite (bind_ret _ _ _ tt c1) by reflexivity; apply (retq_ok c1 entry); [lia|lia|exact H1]|].
    split; [reflexivity|]. cbn [regs set_pc set_regs]. rewrite upd_same, E1. lia.
Qed.

(** ** Witnesses *)

(** The words of a thread at [p], all zero. *)
Definition zero_thread (p : Z) (w : gmap Z Z) : gmap Z Z := <[p := 0]> (foldr (fun i m => <[k_stack p i := 0]> m) w (seqZ 0 4096)).

Definition checked (w : gmap Z Z) (a n : Z) (P : Z -> option Z -> bool) : bool := forallb (fun k => P k (w !! (a + 8 * k))) (seqZ 0 n).

Lemma checked_all w a n P : checked w a n P = true -> forall k, 0 <= k < n -> P k (w !! (a + 8 * k)) = true.
Proof. unfold checked. rewrite forallb_forall. intros H k Hk. apply H, list_elem_of_In, elem_of_seqZ. lia. Qed.

Definition is_some (_ : Z) (o : option Z) : bool := bool_decide (is_Some o).
Definition is_zero (_ : Z) (o : option Z) : bool := bool_decide (o = Some 0).

Lemma mapped_check w a n : checked w a n is_some = true -> mapped_words w a n.
Proof. intros H k Hk. apply (checked_all _ _ _ _ H) in Hk. by apply bool_decide_eq_true in Hk. Qed.

Lemma zero_check w a n : checked w a n is_zero = true -> forall k, 0 <= k < n -> w !! (a + 8 * k) = Some 0.
Proof. intros H k Hk. apply (checked_all _ _ _ _ H) in Hk. by apply bool_decide_eq_true in Hk. Qed.

Lemma zero_frame w a : checked w a 16 is_zero = true -> frame w a SWITCH_POPPED (fun _ => 0).
Proof. intros H k r Hk%lookup_lt_Some. cbn [length SWITCH_POPPED] in Hk. apply (zero_check _ _ _ H). lia. Qed.

Definition demo_p : Z := 0x10000.
Definition demo_k : Z := 0x20000.
Definition demo_me : Z := 0x8000.

(** The thread [demo_p] is in a function that returns to 0xA0, the thread [demo_k] waits and returns to 0xB0. *)
Definition demo_cpu : cpu :=
  Cpu (upd RSP (k_stack demo_p 4000) (upd RDI demo_me (upd RSI demo_k (fun _ => 7)))) 0 8 0 2
    (<[demo_me := demo_p]> (<[k_stack demo_p 4000 := 0xA0]>
      (<[demo_k := k_stack demo_k 4079]> (<[k_stack demo_k 4095 := 0xB0]> (zero_thread demo_p (zero_thread demo_k ∅)))))).

Lemma demo_running : running demo_cpu demo_me demo_p 0xA0.
Proof.
  split; [by vm_compute|unfold of_thread, demo_p, demo_me; lia|by vm_compute|apply (bool_decide_unpack _); by vm_compute| |apply mapped_check; by vm_compute].
  vm_compute. repeat split; discriminate.
Qed.

Lemma demo_saved : saved (words demo_cpu) demo_k (fun _ => 0) 0xB0 (k_stack demo_k 4096).
Proof. split; [by vm_compute|apply zero_frame; by vm_compute|by vm_compute|vm_compute; repeat split; discriminate]. Qed.

Lemma demo_apart : apart_threads demo_p demo_k /\ ~ of_thread demo_k demo_me /\ ~ of_thread demo_p demo_me.
Proof. unfold apart_threads, of_thread, demo_p, demo_k, demo_me, SIZEOF_THREAD. lia. Qed.

(** Another thread, which switches to [next]; the rest of the memory is [w]. *)
Definition demo_o : Z := 0x30000.
Definition demo_other (w : gmap Z Z) (next : Z) : cpu :=
  Cpu (upd RSP (k_stack demo_o 4000) (upd RDI demo_me (upd RSI next (fun _ => 9)))) 0 8 0 2 (<[demo_me := demo_o]> (zero_thread demo_o w)).

Lemma zero_thread_in p w i : 0 <= i < 4096 -> zero_thread p w !! k_stack p i = Some 0.
Proof.
  intros Hi. unfold zero_thread. rewrite lookup_insert_ne by (unfold k_stack; lia).
  assert (i ∈ seqZ 0 4096) as Hin by (apply elem_of_seqZ; lia). revert Hin. generalize (seqZ 0 4096).
  induction l as [|x l IH]; [by intros ?%not_elem_of_nil|]. cbn [foldr]. rewrite lookup_insert. case_decide as E; [done|].
  intros [->|H]%elem_of_cons; [done|by apply IH].
Qed.

Lemma zero_thread_out p w a : ~ of_thread p a -> zero_thread p w !! a = w !! a.
Proof.
  unfold of_thread, SIZEOF_THREAD. intros Ha. unfold zero_thread. rewrite lookup_insert_ne by lia.
  assert (Forall (fun i => 0 <= i < 4096) (seqZ 0 4096)) as Hf by (apply List.Forall_forall; intros x Hx%list_elem_of_In%elem_of_seqZ; lia).
  revert Hf. generalize (seqZ 0 4096). induction 1 as [|x l Hx _ IH]; [done|]. cbn [foldr]. rewrite lookup_insert_ne by (unfold k_stack; lia). exact IH.
Qed.

Lemma demo_other_in w next i : 0 <= i < 4096 -> words (demo_other w next) !! k_stack demo_o i = Some 0.
Proof.
  intros Hi. cbn [words demo_other]. rewrite lookup_insert_ne by (unfold k_stack, demo_o, demo_me; lia). by apply zero_thread_in.
Qed.

Lemma demo_other_running w next : running (demo_other w next) demo_me demo_o 0.
Proof.
  split.
  - apply lookup_insert_eq.
  - unfold of_thread, demo_o, demo_me. lia.
  - apply (demo_other_in w next 4000). lia.
  - exists 0. cbn [words demo_other]. rewrite lookup_insert_ne by done. apply lookup_insert_eq.
  - vm_compute. repeat split; discriminate.
  - intros k Hk. exists 0. rewrite <- (demo_other_in w next (3984 + k)) by lia. f_equal. cbn [regs demo_other]. rewrite upd_same. unfold k_stack. lia.
Qed.

Lemma demo_other_same w next q a : apart_threads demo_o q -> ~ of_thread q demo_me -> of_thread q a -> words (demo_other w next) !! a = w !! a.
Proof.
  intros Hap Hme Ha. cbn [words demo_other]. rewrite lookup_insert_ne by (by intros <-). apply zero_thread_out.
  unfold apart_threads, of_thread, SIZEOF_THREAD in *. lia.
Qed.

Lemma demo_other_apart : apart_threads demo_o demo_p /\ apart_threads demo_o demo_k.
Proof. unfold apart_threads, demo_p, demo_k, demo_o, SIZEOF_THREAD. lia. Qed.

Lemma switch_round_trip_witness : exists c1 c3, switch_to demo_cpu = Ret (tt, c1) /\ pc c1 = 0xB0 /\
  switch_to (demo_other (words c1) demo_p) = Ret (tt, c3) /\ pc c3 = 0xA0 /\ regs c3 RAX = 7.
Proof.
  destruct (switch_round_trip demo_cpu demo_me demo_p demo_k 0xA0 (fun _ => 0) 0xB0 (k_stack demo_k 4096) demo_running eq_refl eq_refl demo_saved
    (proj1 demo_apart) (proj1 (proj2 demo_apart))) as (c1 & R1 & E1 & _ & _ & H).
  destruct (H (demo_other (words c1) demo_p) demo_o 0 (demo_other_running _ _) eq_refl eq_refl (proj1 demo_other_apart)) as (c3 & R3 & E3 & _ & E4).
  - intros a. apply demo_other_same; [apply demo_other_apart|apply demo_apart].
  - exists c1, c3. split_and!; [exact R1|exact E1|exact R3|exact E3|]. rewrite E4; [reflexivity|discriminate].
Defined.

(** The parent [demo_p] forks [demo_k]; the return address 0xF0 is ten words above its stack pointer. *)
Definition demo_forker : cpu :=
  Cpu (upd RSP (k_stack demo_p 4000) (fun _ => 7)) 0 8 0 2
    (<[k_stack demo_p 4010 := 0xF0]> (<[demo_k := k_stack demo_k 4095]> (zero_thread demo_p (zero_thread demo_k ∅)))).

Lemma demo_forking : forking demo_forker demo_p demo_k 0xF0 4000 4010.
Proof.
  split; [reflexivity|lia|by vm_compute| |by vm_compute| |apply demo_apart|vm_compute; repeat split; discriminate].
  - assert (checked (words demo_forker) (k_stack demo_p 4000) 10 is_zero = true) as H by (by vm_compute).
    intros x Hx. pose proof (zero_check _ _ _ H (x - 4000) ltac:(lia)) as E. unfold k_stack in *.
    replace (demo_p + 16 + 8 * 4000 + 8 * (x - 4000)) with (demo_p + 16 + 8 * x) in E by lia. rewrite E. discriminate.
  - split; (split; [apply mapped_check; by vm_compute|apply (bool_decide_unpack _); by vm_compute]).
Qed.

Lemma fork_returns_in_child_witness : exists c1 c3, fork_stack demo_p demo_k 0xF0 demo_forker = Ret (tt, c1) /\
  switch_to (demo_other (words c1) demo_k) = Ret (tt, c3) /\ pc c3 = 0xF0 /\ regs c3 RAX = 0.
Proof.
  destruct (fork_returns_in_child demo_forker demo_p demo_k 0xF0 4000 4010 demo_me demo_forking (proj1 (proj2 demo_apart))) as (c1 & R1 & _ & H).
  destruct (H (demo_other (words c1) demo_k) demo_o 0 (demo_other_running _ _) eq_refl eq_refl (proj2 demo_other_apart)) as (c3 & R3 & E3 & E4 & _).
  - intros a. apply demo_other_same; [apply demo_other_apart|apply demo_apart].
  - exists c1, c3. split_and!; [exact R1|exact R3|exact E3|exact E4].
Defined.

Definition demo_fresh : cpu := Cpu (fun _ => 7) 0 8 0 2 (zero_thread demo_p ∅).

Lemma demo_fresh_mapped : stack_mapped (words demo_fresh) demo_p.
Proof. split; [apply mapped_check; by vm_compute|apply (bool_decide_unpack _); by vm_compute]. Qed.

Definition demo_program_thread : kthread := KThread 0xF0000FF0 2 0x1000 0 0x400011 1 0 0 0 [] [] QUEUED.

(** A page that was used before. *)
Definition demo_used : cpu := Cpu (fun _ => 7) 0 8 0 2 (<[k_stack demo_p 4094 := 0xdead]> (zero_thread demo_p ∅)).

Lemma demo_used_mapped : stack_mapped (words demo_used) demo_p.
Proof. split; [apply mapped_check; by vm_compute|apply (bool_decide_unpack _); by vm_compute]. Qed.

Definition demo_program_kern : kern :=
  Kern (Paging.Machine (PhysMem.physmem_boot ∅) 0 0 0) {[demo_p := demo_program_thread]} ∅ ∅ demo_p [] (Tty (Console ∅ 0 0) [] 0) (VfsState ∅ ∅ 0 0 0 0) 0.

Lemma new_process_enters_program_witness : exists c1 c3 k c4, new_stack demo_p 0xC0 demo_used = Ret (tt, c1) /\
  switch_to (demo_other (words c1) demo_p) = Ret (tt, c3) /\ go_to_ring3 (demo_program_kern, c3) = Ret (tt, (k, c4)) /\ pc c4 = 0x400011 /\
  Paging.cr3 (mach k) = 0x1000.
Proof.
  destruct (new_process_enters_program demo_used demo_p 0xC0 demo_me demo_used_mapped) as (c1 & R1 & _ & H).
  - discriminate.
  - reflexivity.
  - apply demo_apart.
  - destruct (H (demo_other (words c1) demo_p) demo_o 0 (demo_other_running _ _) eq_refl eq_refl (proj1 demo_other_apart)) as (c3 & R3 & _ & E3 & _ & H3).
    + intros a. apply demo_other_same; [apply demo_other_apart|apply demo_apart].
    + destruct (H3 demo_program_kern demo_program_thread E3 ltac:(apply lookup_singleton_eq)) as (c4 & R4 & E4 & _).
      exists c1, c3, (space_entered demo_program_kern demo_p demo_program_thread), c4. split_and!; [exact R1|exact R3|exact R4|exact E4|reflexivity].
Defined.

(** A handler that adds its first two arguments. *)
Definition demo_handler : M cpu unit := a ← getr RDI; b ← getr RSI; setr RAX (u32 a + b).

Lemma demo_kernel_stack : mapped_words (words demo_fresh) (k_stack demo_p 4095 / 16 * 16 - 160) 20.
Proof. apply mapped_check. by vm_compute. Qed.

Lemma syscall_round_trip_witness : exists c4,
  syscall6_trap (k_stack demo_p 4095) 0xD0 demo_handler 99 30 12 0 0 0 0 demo_fresh = Ret (42, c4) /\ regs c4 R12 = 7.
Proof.
  destruct (syscall_round_trip demo_fresh (k_stack demo_p 4095) 0xD0 99 30 12 0 0 0 0 ltac:(by vm_compute) demo_kernel_stack) as (c2 & x & Ha & Hx & _ & H).
  injection Ha as E1 E2 _ _ _ _.
  destruct (H demo_handler (set_regs (upd RAX (u32 (regs c2 RDI) + regs c2 RSI) (regs c2)) c2)) as (c4 & R & Hr & _).
  - reflexivity.
  - split; reflexivity.
  - exists c4. split; [rewrite R; cbn [regs set_regs]; rewrite upd_same, E1, E2, Hx; reflexivity|].
    rewrite Hr; [reflexivity|]. apply (bool_decide_unpack _). by vm_compute.
Defined.
