(* ===== verification/Isr.v ===== *)
(** * The entry code of interrupts

    The stubs of the timer ([sys/pit_isr.s]), the keyboard ([sys/keyboard_isr.s]) and page faults ([sys/page_fault_isr.s]), on the
    processor of [Cpu], around the compiled C handlers.  The handlers are arguments: what a stub needs of them is what the
    calling convention promises. *)

From S2P Require Import Prelude Cpu CStr Console Terminal Vfs Process Switch.

Definition cli : M cpu unit := modify (fun c => Cpu (regs c) (pc c) (cs c) (ss c) (Z.clearbit (flags c) 9) (words c)).

Definition IRQ_PUSHED : list reg := [RAX; RCX; RDX; RBX; RBP; RSI; RDI; R8; R9; R10; R11].
Definition IRQ_POPPED : list reg := [R11; R10; R9; R8; RDI; RSI; RBP; RBX; RDX; RCX; RAX].

Definition timer_isr (pit_intr_handler : M cpu unit) : M cpu unit :=
  cli ≫= fun _ => pushes IRQ_PUSHED ≫= fun _ => pit_intr_handler ≫= fun _ =>
  pops IRQ_POPPED ≫= fun _ => sti ≫= fun _ => iretq.

Definition keyboard_isr (keyboard_intr_handler : M cpu unit) : M cpu unit :=
  cli ≫= fun _ => pushes IRQ_PUSHED ≫= fun _ => keyboard_intr_handler ≫= fun _ =>
  pops IRQ_POPPED ≫= fun _ => sti ≫= fun _ => iretq.

Definition FAULT_PUSHED : list reg := [RAX; RCX; RDX; RBX; RBP; RSI; RDI; R8; R9; R10; R11; R12; R13; R14; R15; RDI].
Definition FAULT_POPPED : list reg := [RDI; R15; R14; R13; R12; R11; R10; R9; R8; RDI; RSI; RBP; RBX; RDX; RCX; RAX].

(** The last step before the return drops the error code. *)
Definition page_fault_isr (page_fault_handler : M cpu unit) : M cpu unit :=
  pushes FAULT_PUSHED ≫= fun _ => page_fault_handler ≫= fun _ => pops FAULT_POPPED ≫= fun _ =>
  (sp ← getr RSP; setr RSP (u64 (sp + 8))) ≫= fun _ => iretq.

(** A page fault pushes an error code on top of the interrupted context. *)
Definition fault_entry (rsp0 target code : Z) : M cpu unit := interrupt_entry rsp0 target ≫= fun _ => push_val code.

(** What a handler compiled from C keeps: the stack pointer and the [n] words above it, and the registers of [kept]. *)
Record c_call (n : Z) (kept : list reg) (c c' : cpu) : Prop := {
  cc_rsp : regs c' RSP = regs c RSP;
  cc_words : forall a, regs c RSP <= a < regs c RSP + 8 * n -> words c' !! a = words c !! a;
  cc_kept : forall r, r ∈ kept -> regs c' r = regs c r
}.

(** Registers that are pushed before a call and popped behind it have their values again. *)
Lemma saved_call l c1 n : RSP ∉ l -> Z.of_nat (length l) <= n -> room_words c1 n ->
  exists c2, pushes l c1 = Ret (tt, c2) /\ pushed l c1 c2 /\
    forall c3, regs c3 RSP = regs c2 RSP -> (forall a, regs c2 RSP <= a < regs c1 RSP -> words c3 !! a = words c2 !! a) ->
    exists g, pops (rev l) c3 = Ret (tt, set_regs g c3) /\ g RSP = regs c1 RSP /\ (forall r, r ∈ l -> g r = regs c1 r) /\
      (forall r, r <> RSP -> r ∉ l -> g r = regs c3 r).
Proof.
  intros Hl Hn Hr. destruct (room_weaken c1 n (Z.of_nat (length l)) ltac:(lia) Hr) as [Hr1 Hr2].
  destruct (pushes_ok l c1 Hl Hr1 Hr2) as (c2 & R & P). exists c2. split_and!; [done..|]. destruct P as [P1 P2 P3 P4 P5 P6]. intros c3 E Hw.
  assert (forall r, r ∈ rev l <-> r ∈ l) as Hrev by (intros r; by rewrite !list_elem_of_In, <- in_rev).
  destruct (pops_ok (rev l) (regs c1) c3) as (g & R3 & G1 & G2 & G3); rewrite ?length_rev; try lia; [by rewrite Hrev| |].
  - rewrite E, P1. eapply frame_ext; [exact P4|]. rewrite length_rev. intros x Hx. apply Hw. lia.
  - rewrite length_rev in G1. exists g. split_and!; [done|lia|intros r ?; apply G2; by rewrite Hrev|].
    intros r Hr' Hn'. apply G3; [done|by rewrite Hrev].
Qed.

(** The context that [iretq] finds at [a]. *)
Definition context_at (w : gmap Z Z) (a : Z) (c : cpu) : Prop :=
  w !! a = Some (pc c) /\ w !! (a + 8) = Some (cs c) /\ w !! (a + 16) = Some (flags c) /\ w !! (a + 24) = Some (regs c RSP) /\
  w !! (a + 32) = Some (ss c).

Lemma context_ext w w' a c : context_at w a c -> (forall x, a <= x < a + 40 -> w' !! x = w !! x) -> context_at w' a c.
Proof. intros (H1 & H2 & H3 & H4 & H5) E. unfold context_at. rewrite !E by lia. done. Qed.

(** The processor is back where it was, with all its registers. *)
Definition resumed (c c' : cpu) : Prop := (forall r, regs c' r = regs c r) /\ same_mode c c'.

Lemma iretq_resumes c c4 : 0 <= regs c4 RSP -> regs c4 RSP + 40 < 2 ^ 64 -> context_at (words c4) (regs c4 RSP) c ->
  (forall r, r <> RSP -> regs c4 r = regs c r) -> exists c5, iretq c4 = Ret (tt, c5) /\ resumed c c5.
Proof.
  intros H0 H1 (F1 & F2 & F3 & F4 & F5) Hr. destruct (iretq_ok c4 _ _ _ _ _ H0 H1 F1 F2 F3 F4 F5) as (g & R & G).
  eexists. split; [exact R|]. split; [|done]. intros r. simpl. destruct (decide (r = RSP)) as [->|Hne]; [apply upd_same|].
  rewrite upd_other, G by done. by apply Hr.
Qed.

Lemma irq_no_rsp : (RSP ∉ IRQ_PUSHED) /\ (RSP ∉ FAULT_PUSHED).
Proof. split; apply (bool_decide_unpack _); by vm_compute. Qed.

Lemma irq_other r : r <> RSP -> r ∉ IRQ_PUSHED -> r ∈ [R12; R13; R14; R15].
Proof. intros H1 H2. apply list_elem_of_In. rewrite list_elem_of_In in H2. destruct r; cbn in *; tauto || done. Qed.

Lemma fault_all r : r <> RSP -> r ∈ FAULT_PUSHED.
Proof. intros H. apply list_elem_of_In. destruct r; cbn; tauto || done. Qed.

(** The stubs of the timer and of the keyboard save all registers but those a C function keeps. *)
Lemma irq_stub_ok c top target c1 : entered c top target 11 c1 -> 128 <= top < 2 ^ 64 ->
  exists c2, cs c2 = 8 /\ Z.testbit (flags c2) 9 = false /\ regs c2 RSP = top - 128 /\
    forall (h : M cpu unit) c3, h c2 = Ret (tt, c3) -> c_call 16 [R12; R13; R14; R15] c2 c3 ->
    exists c4, timer_isr h c1 = Ret (tt, c4) /\ resumed c c4.
Proof.
  intros [E1 E2 E3 E4 Hctx Hr] Ht. set (c1' := Cpu (regs c1) (pc c1) (cs c1) (ss c1) (Z.clearbit (flags c1) 9) (words c1)).
  destruct (saved_call IRQ_PUSHED c1' 11) as (c2 & R2 & [P1 P2 P3 _ P5 _] & Hpop); [apply irq_no_rsp|done|exact Hr|].
  cbn [length IRQ_PUSHED regs c1'] in P1, P5. change (8 * Z.of_nat 11) with 88 in *. rewrite E1 in P1, P5. exists c2.
  destruct P3 as (_ & Ec & _ & Ef). split_and!; [by rewrite Ec|rewrite Ef; cbn [flags c1']; by rewrite Z.clearbit_eq|lia|].
  intros h c3 Hh [K1 K2 K3]. destruct (Hpop c3 K1) as (g & R3 & G1 & G2 & G3); [cbn [regs c1']; intros a Ha; apply K2; lia|].
  cbn [regs c1'] in G1, G2. set (c4 := set_regs g c3).
  set (c4' := Cpu (regs c4) (pc c4) (cs c4) (ss c4) (Z.setbit (flags c4) 9) (words c4)).
  destruct (iretq_resumes c c4') as (c5 & R5 & Hc); cbn [regs words c4' c4 set_regs]; [lia|lia| | |].
  - rewrite G1, E1. eapply context_ext; [exact Hctx|]. intros x Hx. rewrite K2 by lia. apply P5. lia.
  - intros r Hne. rewrite <- E2 by done. destruct (decide (r ∈ IRQ_PUSHED)) as [Hi|Hi]; [by apply G2|].
    rewrite G3 by done. rewrite K3 by (by apply irq_other). by apply P2.
  - exists c5. split; [|done]. unfold timer_isr, cli, sti, modify. rewrite (bind_ret _ _ _ tt c1') by done.
    rewrite (bind_ret _ _ _ _ _ R2), (bind_ret _ _ _ _ _ Hh). rewrite (bind_ret _ _ _ tt c4) by exact R3.
    rewrite (bind_ret _ _ _ tt c4') by done. exact R5.
Qed.

(** The stub of page faults saves all registers and drops the error code. *)
Lemma fault_stub_ok c top target c1 c1' code : entered c top target 17 c1 -> 176 <= top < 2 ^ 64 -> push_val code c1 = Ret (tt, c1') ->
  exists c2, cs c2 = 8 /\ regs c2 RSP = top - 176 /\
    forall (h : M cpu unit) c3, h c2 = Ret (tt, c3) -> c_call 22 [] c2 c3 ->
    exists c4, page_fault_isr h c1' = Ret (tt, c4) /\ resumed c c4.
Proof.
  intros [E1 E2 E3 E4 Hctx Hr] Ht Hp. destruct (room_push code c1 16 ltac:(lia) Hr) as [Rp Hr']. rewrite Rp in Hp. injection Hp as <-.
  set (c1' := pushv code c1) in *. assert (regs c1' RSP = top - 48) as E1' by (unfold c1'; rewrite pushv_rsp; lia).
  destruct (saved_call FAULT_PUSHED c1' 16) as (c2 & R2 & [P1 P2 P3 _ P5 _] & Hpop); [apply irq_no_rsp|done|exact Hr'|].
  cbn [length FAULT_PUSHED] in P1, P5. change (8 * Z.of_nat 16) with 128 in *. rewrite E1' in P1, P5. exists c2.
  destruct P3 as (_ & Ec & _). split_and!; [by rewrite Ec|lia|].
  intros h c3 Hh [K1 K2 _]. destruct (Hpop c3 K1) as (g & R3 & G1 & G2 & G3); [rewrite E1'; intros a Ha; apply K2; lia|].
  set (c4 := set_regs (upd RSP (top - 40) g) c3). assert (regs c4 RSP = top - 40) as E4' by apply upd_same.
  destruct (iretq_resumes c c4) as (c5 & R5 & Hc); rewrite ?E4'; [lia|lia| | |].
  - eapply context_ext; [exact Hctx|]. intros x Hx. cbn [words c4 set_regs]. rewrite K2, P5 by lia. unfold c1'. rewrite pushv_words.
    rewrite decide_False; [done|lia].
  - intros r Hne. cbn [regs c4 set_regs]. rewrite upd_other by done. rewrite G2 by (by apply fault_all). unfold c1'. rewrite pushv_reg by done. by apply E2.
  - exists c5. split; [|done]. unfold page_fault_isr. rewrite (bind_ret _ _ _ _ _ R2), (bind_ret _ _ _ _ _ Hh).
    rewrite (bind_ret _ _ _ tt (set_regs g c3)) by exact R3. rewrite (bind_ret _ _ _ tt c4); [exact R5|].
    unfold getr, gets, setr, modify. rewrite (bind_ret _ _ _ _ _ eq_refl). cbn [regs set_regs]. rewrite G1, E1'.
    replace (top - 48 + 8) with (top - 40) by lia. by rewrite u64_small by lia.
Qed.

(** C18: Interrupts are invisible to the program they interrupt: whatever the handlers of the timer, of the keyboard and of page faults
    do, as long as they keep to the calling convention (their caller's stack; for the two devices also the registers that the
    stub does not save), the program goes on at the same instruction, in the same mode and with all its registers.  The handlers run
    in ring 0; those of the devices with interrupts off. *)
Theorem interrupts_transparent c rsp0 isr code : let top := rsp0 / 16 * 16 in
  176 <= top < 2 ^ 64 -> mapped_words (words c) (top - 176) 22 ->
  (exists c2, cs c2 = 8 /\ Z.testbit (flags c2) 9 = false /\
    forall (handler : M cpu unit) c3, handler c2 = Ret (tt, c3) -> c_call 16 [R12; R13; R14; R15] c2 c3 ->
    exists c4, resumed c c4 /\ (interrupt_entry rsp0 isr ≫= fun _ => timer_isr handler) c = Ret (tt, c4) /\
      (interrupt_entry rsp0 isr ≫= fun _ => keyboard_isr handler) c = Ret (tt, c4)) /\
  (exists c2, cs c2 = 8 /\
    forall (handler : M cpu unit) c3, handler c2 = Ret (tt, c3) -> c_call 22 [] c2 c3 ->
    exists c4, resumed c c4 /\ (fault_entry rsp0 isr code ≫= fun _ => page_fault_isr handler) c = Ret (tt, c4)).
Proof.
  intros top Ht Hm. split.
  - assert (mapped_words (words c) (top - 128) 16) as Hm'.
    { intros k Hk. destruct (Hm (6 + k)) as [x Hx]; [lia|]. exists x. rewrite <- Hx. f_equal. lia. }
    destruct (interrupt_entry_ok c rsp0 isr 11 ltac:(lia) ltac:(fold top; lia) Hm') as (c1 & R1 & He).
    destruct (irq_stub_ok c top isr c1 He ltac:(lia)) as (c2 & E1 & E2 & _ & H). exists c2. split_and!; [done..|].
    intros h c3 Hh Hk. destruct (H h c3 Hh Hk) as (c4 & R4 & Hc). exists c4. split_and!; [done|by rewrite (bind_ret _ _ _ _ _ R1)..].
  - destruct (interrupt_entry_ok c rsp0 isr 17 ltac:(lia) ltac:(fold top; lia) Hm) as (c1 & R1 & He).
    destruct (room_push code c1 16 ltac:(lia) (en_room _ _ _ _ _ He)) as [Rp _].
    destruct (fault_stub_ok c top isr c1 _ code He ltac:(lia) Rp) as (c2 & E1 & _ & H). exists c2. split; [done|].
    intros h c3 Hh Hk. destruct (H h c3 Hh Hk) as (c4 & R4 & Hc). exists c4. split; [done|].
    rewrite (bind_ret _ _ _ tt (pushv code c1)); [exact R4|]. unfold fault_entry. by rewrite (bind_ret _ _ _ _ _ R1).
Qed.

(** Handlers that overwrite registers of their caller. *)
Definition clobber (l : list reg) : M cpu unit := modify (fun c => set_regs (foldr (fun r f => upd r 99 f) (regs c) l) c).

Lemma demo_irq_stack : mapped_words (words demo_fresh) (k_stack demo_p 4095 / 16 * 16 - 176) 22.
Proof. apply mapped_check. by vm_compute. Qed.

Lemma interrupts_transparent_witness :
  (exists c4, resumed demo_fresh c4 /\ (interrupt_entry (k_stack demo_p 4095) 0xE0 ≫= fun _ => timer_isr (clobber [RAX; RBX; R11])) demo_fresh = Ret (tt, c4)) /\
  (exists c4, resumed demo_fresh c4 /\
    (fault_entry (k_stack demo_p 4095) 0xE8 6 ≫= fun _ => page_fault_isr (clobber [RAX; RBX; R12; R15])) demo_fresh = Ret (tt, c4)).
Proof.
  destruct (interrupts_transparent demo_fresh (k_stack demo_p 4095) 0xE0 6 ltac:(by vm_compute) demo_irq_stack) as [(c2 & _ & _ & H) _].
  destruct (interrupts_transparent demo_fresh (k_stack demo_p 4095) 0xE8 6 ltac:(by vm_compute) demo_irq_stack) as [_ (c2' & _ & H')].
  split.
  - destruct (H (clobber [RAX; RBX; R11]) _ eq_refl) as (c4 & Hc & R & _); [|exact (ex_intro _ c4 (conj Hc R))].
    split; [reflexivity|reflexivity|]. intros r Hr. cbn [regs set_regs foldr]. rewrite !upd_other; [reflexivity|intros ->..]; revert Hr; apply (bool_decide_unpack _); by vm_compute.
  - destruct (H' (clobber [RAX; RBX; R12; R15]) _ eq_refl) as (c4 & Hc & R); [|exact (ex_intro _ c4 (conj Hc R))].
    split; [reflexivity|reflexivity|]. by intros r ?%not_elem_of_nil.
Defined.
