(* ===== verification/KernInv.v ===== *)
(** * The well-formedness invariant of the kernel

    Every thread has a table of [NUM_FDS] descriptors, each null, the address of a file object whose
    operation table exists, or, from entry 3 on, what memory held at that entry before the record was made, and a
    directory of [CWD_SIZE] bytes; the process table
    has [MAX_P] entries; the current process exists.  [wf l ks] is the invariant together with
    facts that are stable: the addresses [l] are null or file objects, and the addresses [ks] are threads.
    Every operation on processes keeps it. *)

From S2P Require Import Prelude PhysMem Paging VaMem CStr Console Terminal Tarfs Vfs Process.

(** ** File objects *)

Definition fo_valid (v : vfs) (p : Z) : Prop := exists f, fobjs v !! p = Some f /\ is_Some (impls v !! file_sys_impl f).
Definition ok_ptr (v : vfs) (p : Z) : Prop := p = 0 \/ fo_valid v p.
Definition ok_impl (v : vfs) (p : Z) : Prop := p = 0 \/ is_Some (impls v !! p).

Section vfs_inv.
Context {VS : VfsSymbols}.

Record vfs_wf (v : vfs) : Prop := {
  vw_stdin : ok_ptr v (stdin_fo v);
  vw_stdout : ok_ptr v (stdout_fo v);
  vw_terminal : ok_impl v (terminal_fs v);
  vw_tarfs : ok_impl v (tarfs_impl v);
  vw_table : is_Some (impls v !! terminal_fs_impl)
}.

(** A step of the file layer: pointers stay valid. *)
Definition vgrows (v v' : vfs) : Prop :=
  (forall p, fo_valid v p -> fo_valid v' p) /\ (forall p, is_Some (impls v !! p) -> is_Some (impls v' !! p)).

#[export] Instance vgrows_preorder : PreOrder vgrows.
Proof. split; [by intros v|]. intros v1 v2 v3 [A1 B1] [A2 B2]. split; auto. Qed.

(** From [v0] on, the file layer is well formed and has grown. *)
Definition vst (v0 : vfs) (s : machine * vfs) : Prop := vfs_wf s.2 /\ vgrows v0 s.2.

Lemma ok_ptr_grows v v' p : vgrows v v' -> ok_ptr v p -> ok_ptr v' p.
Proof. intros [H _] [->|Hp]; [by left|right; auto]. Qed.

Lemma ok_impl_grows v v' p : vgrows v v' -> ok_impl v p -> ok_impl v' p.
Proof. intros [_ H] [->|Hp]; [by left|right; auto]. Qed.

Lemma wf_grows v v' :
  vfs_wf v -> vgrows v v' -> ok_ptr v' (stdin_fo v') -> ok_ptr v' (stdout_fo v') ->
  ok_impl v' (terminal_fs v') -> ok_impl v' (tarfs_impl v') -> vfs_wf v'.
Proof. intros W G ? ? ? ?. split; try done. apply G, W. Qed.

Lemma set_fo_grows v p f : is_Some (impls v !! file_sys_impl f) -> vgrows v (set_fobjs (<[p := f]> (fobjs v)) v).
Proof.
  intros Hf. split; [|done]. intros q (g & Hg & Hi). destruct (decide (q = p)) as [->|].
  - exists f. simpl. by rewrite lookup_insert_eq.
  - exists g. simpl. by rewrite lookup_insert_ne.
Qed.

Lemma vst_set_fo v0 p f : triple (fun s => vst v0 s /\ is_Some (impls s.2 !! file_sys_impl f)) (set_fo p f)
  (fun _ s => vst v0 s /\ fo_valid s.2 p).
Proof.
  intros [m v] [] s' [[W G] Hf] [= <-]. simpl in *. pose proof (set_fo_grows v p f Hf) as G'. split.
  - split; [|simpl; by etransitivity]. destruct W as [W1 W2 W3 W4 W5].
    split; try done; eapply ok_ptr_grows; try exact G'; done.
  - exists f. simpl. by rewrite lookup_insert_eq.
Qed.

Lemma vst_mach {A} v0 (c : M machine A) : triple (vst v0) (vm_mach c) (fun _ => vst v0).
Proof. intros s a s' H (m & _ & ->)%zoom_inv. exact H. Qed.

Lemma vst_vgets {A} v0 (f : vfs -> A) : triple (vst v0) (vgets f) (fun a s => vst v0 s /\ a = f s.2).
Proof. by intros s a s' H [= <- <-]. Qed.

Lemma vst_fo v0 p : triple (vst v0) (fo p) (fun f s => vst v0 s /\ fobjs s.2 !! p = Some f).
Proof.
  eapply triple_bind; [apply vst_vgets|]. intros o s a s' [H ->] Hr. unfold deref in Hr.
  destruct (fobjs s.2 !! p) eqn:E; [|done]. by injection Hr as -> ->.
Qed.

(** Overwriting the object at [p] by one with the same operation table. *)
Lemma vst_replace v0 p f g : file_sys_impl g = file_sys_impl f ->
  triple (fun s => vst v0 s /\ fobjs s.2 !! p = Some f) (set_fo p g) (fun _ => vst v0).
Proof.
  intros Hg [m v] [] s' [[W G] Hf] [= <-]. simpl in *.
  assert (vgrows v (set_fobjs (<[p := g]> (fobjs v)) v)) as G'.
  { split; [|done]. intros q (h & Hh & Hi). destruct (decide (q = p)) as [->|].
    - exists g. simpl. rewrite lookup_insert_eq, Hg. assert (h = f) as -> by congruence. done.
    - exists h. simpl. by rewrite lookup_insert_ne. }
  destruct W as [W1 W2 W3 W4 W5]. split; [|simpl; by etransitivity].
  split; try done; eapply ok_ptr_grows; try exact G'; done.
Qed.

Lemma vst_upd v0 p g : (forall f, file_sys_impl (g f) = file_sys_impl f) -> triple (vst v0) (upd_fo p g) (fun _ => vst v0).
Proof. intros Hg. eapply triple_bind; [apply vst_fo|]. intros f. by apply (vst_replace v0 p f). Qed.

Lemma vst_get_tarfs v0 : triple (vst v0) get_tarfs_impl (fun i s => vst v0 s /\ is_Some (impls s.2 !! i)).
Proof.
  eapply triple_bind; [apply vst_vgets|]. intros t.
  eapply triple_bind with (Q := fun _ s => vst v0 s /\ is_Some (impls s.2 !! tarfs_impl s.2)).
  - destruct (Z.eqb_spec t 0).
    + eapply triple_bind with (Q := fun _ => vst v0).
      { eapply triple_weaken; [apply (vst_mach v0)|by intros s' [? _]|done]. }
      intros p [m v] [] s' [W G] [= <-]. destruct W as [W1 W2 W3 W4 W5]. cbn [snd impls set_tarfs_impl set_impls tarfs_impl].
      set (F := FileSysImpl _ _). set (v' := set_tarfs_impl p (set_impls (<[p := F]> (impls v)) v)).
      assert (vgrows v v') as G'.
      { assert (forall q, is_Some (impls v !! q) -> is_Some (impls v' !! q)) as Hi.
        { intros q Hq. simpl. destruct (decide (q = p)) as [->|]; [rewrite lookup_insert_eq; eauto|by rewrite lookup_insert_ne]. }
        split; [|done]. intros q (f & Hf & Hi'). exists f. auto. }
      rewrite lookup_insert_eq. split; [|eauto]. split; [|simpl in *; by etransitivity].
      split; [by eapply ok_ptr_grows|by eapply ok_ptr_grows|by eapply (ok_impl_grows v)| |by apply G'].
      right. simpl. rewrite lookup_insert_eq. eauto.
    + apply triple_ret. intros s [[W G] ->]. split; [done|]. by destruct (vw_tarfs _ W).
  - intros _ s a s' [H Hi] [= <- <-]. done.
Qed.

Lemma vst_create v0 name : triple (vst v0) (create_terminal_fo name) (fun p s => vst v0 s /\ fo_valid s.2 p).
Proof.
  eapply triple_bind; [apply vst_mach|]. intros p. eapply triple_bind; [apply vst_vgets|]. intros t.
  eapply triple_bind with (Q := fun _ s => vst v0 s /\ is_Some (impls s.2 !! terminal_fs s.2)).
  - destruct (Z.eqb_spec t 0).
    + intros s [] s' [[W G] _] [= <-]. destruct s as [m v]. simpl in *. destruct W as [W1 W2 W3 W4 W5].
      split; [|done]. split; [|done]. split; try done. by right.
    + apply triple_ret. intros s [[W G] ->]. split; [done|]. by destruct (vw_terminal _ W).
  - intros _. eapply triple_bind with (Q := fun t' s => vst v0 s /\ is_Some (impls s.2 !! t')).
    { intros s a s' [H Hi] [= <- <-]. done. }
    intros t'. eapply triple_bind; [apply (vst_set_fo v0 p (FileObject name t' 0 0 0))|]. intros []. by apply triple_ret.
Qed.

(** The two standard files: a global that is created on first use. *)
Lemma vst_standard v0 (get : vfs -> Z) (set : Z -> vfs -> vfs) name :
  (forall v, vfs_wf v -> ok_ptr v (get v)) -> (forall q v, get (set q v) = q) ->
  (forall q v, fo_valid v q -> vfs_wf v -> vfs_wf (set q v) /\ vgrows v (set q v)) ->
  triple (vst v0)
    (p ← vgets get; (if p =? 0 then q ← create_terminal_fo name; vmodify (set q) else mret tt) ≫= fun _ => vgets get)
    (fun p s => vst v0 s /\ fo_valid s.2 p).
Proof.
  intros Hok Hgs Hset. eapply triple_bind; [apply vst_vgets|]. intros p.
  eapply triple_bind with (Q := fun _ s => vst v0 s /\ fo_valid s.2 (get s.2)).
  - destruct (Z.eqb_spec p 0).
    + eapply triple_bind; [eapply triple_weaken; [apply (vst_create v0)|by intros s' [? _]|done]|].
      intros q [m v] [] s' [[W G] Hq] [= <-]. simpl in *. rewrite Hgs. destruct (Hset q v Hq W) as [W' G'].
      split; [split; [done|by etransitivity]|by apply G'].
    + apply triple_ret. intros s [[W G] ->]. split; [done|]. by destruct (Hok _ W).
  - intros _ s a s' [H Hi] [= <- <-]. done.
Qed.

Lemma vst_stdin v0 : triple (vst v0) get_stdin_fo (fun p s => vst v0 s /\ fo_valid s.2 p).
Proof.
  apply (vst_standard v0 stdin_fo set_stdin str_stdin); [by intros v []|done|]. intros q v Hq [W1 W2 W3 W4 W5].
  split; [|done]. split; try done. by right.
Qed.

Lemma vst_stdout v0 : triple (vst v0) get_stdout_fo (fun p s => vst v0 s /\ fo_valid s.2 p).
Proof.
  apply (vst_standard v0 stdout_fo set_stdout str_stdout); [by intros v []|done|]. intros q v Hq [W1 W2 W3 W4 W5].
  split; [|done]. split; try done. by right.
Qed.

(** [fo_valid] is stable, so it can be carried along. *)
Lemma triple_carry {A} (c : VM A) p Q : (forall v0, triple (vst v0) c (fun a s => vst v0 s /\ Q a s)) ->
  forall v0, triple (fun s => vst v0 s /\ fo_valid s.2 p) c (fun a s => (vst v0 s /\ Q a s) /\ fo_valid s.2 p).
Proof.
  intros Hc v0 s a s' [[W G] Hp] Hr. destruct (Hc s.2 s a s') as [[W' G'] HQ]; [done|done|].
  split; [|by apply G']. split; [|done]. split; [done|by etransitivity].
Qed.

Lemma vst_inc v0 p : triple (fun s => vst v0 s /\ fo_valid s.2 p) (inc_ref p) (fun _ s => vst v0 s /\ fo_valid s.2 p).
Proof.
  intros s [] s' [[W G] Hp] Hr. destruct (vst_upd s.2 p (fun f => with_ref_count (u16 (fo_ref_count f + 1)) f) (fun _ => eq_refl) s tt s')
    as [W' G']; [done|done|]. split; [|by apply G']. split; [done|by etransitivity].
Qed.

Lemma vst_std v0 : triple (vst v0) std_fds (fun r s => (vst v0 s /\ fo_valid s.2 r.1) /\ fo_valid s.2 r.2).
Proof.
  eapply triple_bind; [apply vst_stdin|]. intros i. eapply triple_bind; [apply vst_inc|]. intros [].
  eapply triple_bind; [apply (triple_carry _ i _ vst_stdout)|]. intros o.
  eapply triple_bind with (Q := fun _ s => (vst v0 s /\ fo_valid s.2 i) /\ fo_valid s.2 o); [|intros []; by apply triple_ret].
  intros s [] s' [[[W G] Ho] Hi] Hr. destruct (vst_inc s.2 o s tt s') as [[W' G'] Ho']; [done|done|].
  split; [|done]. split; [|by apply G']. split; [done|by etransitivity].
Qed.
End vfs_inv.

(** ** The kernel *)

Section kern_inv.
Context {LD : Loader} {PS : ProcSymbols} {VS : VfsSymbols}.

(** Entry [i] of the table of the record at [p] was never assigned. *)
Definition unassigned (p : Z) (i : nat) (x : Z) : Prop := (3 <= i)%nat /\ exists s0, x = left_fd (left_over s0) p i.

Definition thread_wf (v : vfs) (p : Z) (t : kthread) : Prop :=
  length (fds t) = NUM_FDS /\ length (cwd t) = CWD_SIZE /\
  forall i x, fds t !! i = Some x -> ok_ptr v x \/ unassigned p i x.

(** Memory that was never used is zero. *)
Definition clean_memory : Prop := forall s a, left_over s a = 0.

Lemma left_le_clean n left a : (forall x, left x = 0) -> left_le n left a = 0.
Proof. intros H. revert a; induction n as [|n IH]; intros a; cbn [left_le]; [done|]. by rewrite H, IH. Qed.

Lemma thread_clean v p t : clean_memory -> thread_wf v p t -> Forall (ok_ptr v) (fds t).
Proof.
  intros Hc (_ & _ & H). apply Forall_lookup_2. intros i x Hx. destruct (H i x Hx) as [?|[_ [s0 ->]]]; [done|].
  left. by apply left_le_clean.
Qed.

(** A table whose valid entries are among [l]. *)
Definition table_in (p : Z) (l f : list Z) : Prop :=
  forall i x, f !! i = Some x -> x = 0 \/ x ∈ l \/ unassigned p i x.

Lemma table_in_sub p l l' f : l ⊆ l' -> table_in p l f -> table_in p l' f.
Proof. intros Hl H i x Hx. destruct (H i x Hx) as [?|[?|?]]; auto. Qed.

(** The valid entries of a table. *)
Lemma table_valid v p (f : list Z) n : (forall i x, f !! i = Some x -> ok_ptr v x \/ unassigned p (n + i) x) ->
  exists k, Forall (ok_ptr v) k /\ forall i x, f !! i = Some x -> x = 0 \/ x ∈ k \/ unassigned p (n + i) x.
Proof.
  revert n; induction f as [|y f IH]; intros n H; [by exists []|].
  destruct (IH (S n)) as (k & Hk & Hf). { intros i x Hx. specialize (H (S i) x Hx). by rewrite Nat.add_succ_r in H. }
  assert (forall i x, f !! i = Some x -> x = 0 \/ x ∈ k \/ unassigned p (n + S i) x) as Hf'.
  { intros i x Hx. rewrite Nat.add_succ_r. exact (Hf i x Hx). }
  destruct (H 0%nat y eq_refl) as [Hy|Hy].
  - exists (y :: k). split; [by constructor|]. intros [|i] x Hx.
    + injection Hx as <-. right. left. by left.
    + destruct (Hf' i x Hx) as [?|[?|?]]; [by left|right; left; by right|by do 2 right].
  - exists k. split; [done|]. intros [|i] x Hx; [injection Hx as <-; by do 2 right|by apply Hf'].
Qed.

Record kern_wf (s : kern) : Prop := {
  kw_vfs : vfs_wf (openf s);
  kw_threads : forall p t, threads s !! p = Some t -> thread_wf (openf s) p t;
  kw_table : length (processes s) = Z.to_nat MAX_P;
  kw_current : is_Some (threads s !! current_process s)
}.

(** Every descriptor is null or valid. *)
Definition tables_valid (s : kern) : Prop := forall p t, threads s !! p = Some t -> Forall (ok_ptr (openf s)) (fds t).

Lemma clean_tables s : clean_memory -> kern_wf s -> tables_valid s.
Proof. intros Hc W p t Ht. eapply thread_clean; [done|]. by apply (kw_threads _ W). Qed.

Definition wf (l ks : list Z) (s : kern) : Prop :=
  kern_wf s /\ Forall (ok_ptr (openf s)) l /\ Forall (fun p => is_Some (threads s !! p)) ks.

(** Code that keeps the invariant and everything that is known. *)
Definition stable {A} (c : M kern A) : Prop := forall l ks, triple (wf l ks) c (fun _ => wf l ks).

Lemma wf_sub l ks l' ks' s : wf l ks s -> l' ⊆ l -> ks' ⊆ ks -> wf l' ks' s.
Proof.
  intros (H & Hl & Hk) Sl Sk. split; [done|]. rewrite !List.Forall_forall in *.
  split; intros x Hx%list_elem_of_In; [apply Hl|apply Hk]; apply list_elem_of_In; auto.
Qed.

Lemma stable_bind {A B} l ks (c : M kern A) (f : A -> M kern B) Q :
  stable c -> (forall a, triple (wf l ks) (f a) Q) -> triple (wf l ks) (c ≫= f) Q.
Proof. intros Hc Hf. eapply triple_bind; [apply Hc|done]. Qed.

Lemma triple_assoc {A B C} P (c : M kern A) (g : A -> M kern B) (f : B -> M kern C) Q :
  triple P ((c ≫= g) ≫= f) Q <-> triple P (c ≫= fun x => g x ≫= f) Q.
Proof.
  assert (forall s, ((c ≫= g) ≫= f) s = (c ≫= fun x => g x ≫= f) s) as E.
  { intros s. unfold mbind, M_bind. by destruct (c s) as [[]| |]. }
  split; intros H s a s' HP; [rewrite <- E|rewrite E]; apply H, HP.
Qed.

Lemma stable_sub {A} l ks l' ks' (c : M kern A) :
  stable c -> l' ⊆ l -> ks' ⊆ ks -> triple (wf l ks) c (fun _ => wf l' ks').
Proof. intros Hc Sl Sk. eapply triple_weaken; [apply (Hc l ks)|done|]. intros a s H. by apply (wf_sub l ks). Qed.

Lemma stable_ret {A} (a : A) : stable (mret a).
Proof. intros l ks. by apply triple_ret. Qed.

Lemma stable_gets {A} (f : kern -> A) : stable (gets f).
Proof. intros l ks s a s' H [= <- <-]. done. Qed.

Lemma stable_deref {A} (o : option A) : stable (deref o).
Proof. destruct o; [apply stable_ret|by intros l ks]. Qed.

Lemma stable_fault {A} : stable (mfault : M kern A).
Proof. by intros l ks. Qed.

Lemma stable_fuel {A} : stable (mfuel : M kern A).
Proof. by intros l ks. Qed.

(** Parts of the state that the invariant does not mention. *)
Lemma stable_zoom {T A} (get : kern -> T) put (c : M T A) :
  (forall t s, openf (put t s) = openf s /\ threads (put t s) = threads s /\ processes (put t s) = processes s /\
     current_process (put t s) = current_process s) ->
  stable (zoom get put c).
Proof.
  intros Hp l ks s a s' ([W1 W2 W3 W4] & Hl & Hk) (t & _ & ->)%zoom_inv. destruct (Hp t s) as (E1 & E2 & E3 & E4).
  split; [split|split]; rewrite ?E1, ?E2, ?E3, ?E4; try done.
Qed.

Lemma stable_mach {A} (c : M machine A) : stable (on_mach c).
Proof. by apply stable_zoom. Qed.

Lemma stable_term {A} (c : M tty A) : stable (on_term c).
Proof. by apply stable_zoom. Qed.

Lemma stable_bytes {A} (c : M bytes A) : stable (on_bytes c).
Proof. by apply stable_zoom. Qed.

Lemma stable_message fmt va : stable (message fmt va).
Proof. by apply stable_zoom. Qed.

(** Records that the invariant does not mention. *)
Lemma stable_modify g :
  (forall s, openf (g s) = openf s /\ threads (g s) = threads s /\ processes (g s) = processes s /\
     current_process (g s) = current_process s) -> stable (modify g).
Proof.
  intros Hp l ks s a s' ([W1 W2 W3 W4] & Hl & Hk) [= _ <-]. destruct (Hp s) as (E1 & E2 & E3 & E4).
  split; [split|split]; rewrite ?E1, ?E2, ?E3, ?E4; try done.
Qed.

Lemma stable_set_vma p v : stable (set_vma p v).
Proof. by apply stable_modify. Qed.

Lemma stable_new_vma p f : stable (new_vma p f).
Proof. by apply stable_modify. Qed.

Lemma stable_set_mm p v : stable (set_mm p v).
Proof. by apply stable_modify. Qed.

Lemma stable_set_tss p : stable (set_tss p).
Proof. by apply stable_modify. Qed.

(** The file layer. *)
Lemma wf_vfs_from {A} (c : VM A) (R : vfs -> Prop) (Q : A -> vfs -> Prop) l ks :
  (forall v0, triple (fun s => vst v0 s /\ R s.2) c (fun a s => vst v0 s /\ Q a s.2)) ->
  triple (fun s => wf l ks s /\ R (openf s)) (on_vfs c) (fun a s => wf l ks s /\ Q a (openf s)).
Proof.
  intros Hc s a s' [([W1 W2 W3 W4] & Hl & Hk) HR] ([m v] & Hr & ->)%zoom_inv.
  destruct (Hc (openf s) (mach s, openf s) a (m, v)) as [[W' G'] HQ]; [split; done|done|]. split; [|done].
  assert (forall x, Forall (ok_ptr (openf s)) x -> Forall (ok_ptr v) x) as Hm.
  { intros x. apply Forall_impl. intros p. by apply ok_ptr_grows. }
  split; [split; try done|split; [by apply Hm|done]].
  intros p t Ht. destruct (W2 p t Ht) as (L1 & L2 & L3). split_and!; [done|done|]. intros i x Hx.
  destruct (L3 i x Hx) as [?|?]; [left; by eapply ok_ptr_grows|by right].
Qed.

Lemma wf_vfs {A} (c : VM A) (Q : A -> vfs -> Prop) l ks :
  (forall v0, triple (vst v0) c (fun a s => vst v0 s /\ Q a s.2)) ->
  triple (wf l ks) (on_vfs c) (fun a s => wf l ks s /\ Q a (openf s)).
Proof.
  intros Hc. eapply triple_weaken; [apply (wf_vfs_from c (fun _ => True) Q)|done|done].
  intros v0. eapply triple_weaken; [apply (Hc v0)|by intros s [? _]|done].
Qed.

Lemma stable_vfs {A} (c : VM A) : (forall v0, triple (vst v0) c (fun _ => vst v0)) -> stable (on_vfs c).
Proof.
  intros Hc l ks. eapply triple_weaken; [apply (wf_vfs c (fun _ _ => True))|done|by intros a s [? _]].
  intros v0. eapply triple_weaken; [apply Hc|done|done].
Qed.

(** ** Threads *)

(** What reading a thread teaches. *)
Lemma wf_th l ks p : triple (wf l ks) (th p)
  (fun t s => exists k, wf (k ++ l) (p :: ks) s /\ (length (fds t) = NUM_FDS /\ length (cwd t) = CWD_SIZE /\ table_in p k (fds t))).
Proof.
  eapply triple_bind; [apply triple_gets|]. intros o s t s' [H ->] Hr. unfold deref in Hr.
  destruct (threads s !! p) as [u|] eqn:E; [|done]. injection Hr as <- <-.
  destruct H as (W & Hl & Hk). destruct (kw_threads _ W _ _ E) as (L1 & L2 & L3).
  destruct (table_valid _ p (fds u) 0 L3) as (k & Hv & Hf). exists k.
  split; [|done]. split; [done|]. split; [by apply List.Forall_app|]. constructor; [by rewrite E|done].
Qed.

Lemma th_bind {B} l ks p (f : kthread -> M kern B) Q :
  (forall t k, length (fds t) = NUM_FDS -> length (cwd t) = CWD_SIZE -> table_in p k (fds t) -> triple (wf (k ++ l) (p :: ks)) (f t) Q) ->
  triple (wf l ks) (th p ≫= f) Q.
Proof.
  intros Hf. eapply triple_bind; [apply wf_th|]. intros t s b s' (k & H & L1 & L2 & L3) Hr. by eapply Hf.
Qed.

Lemma cur_bind {B} l ks (f : Z -> M kern B) Q :
  (forall c, triple (wf l (c :: ks)) (f c) Q) -> triple (wf l ks) (gets current_process ≫= f) Q.
Proof.
  intros Hf. eapply triple_bind; [apply triple_gets|]. intros c s b s' [H ->] Hr. eapply Hf; [|done].
  destruct H as (W & Hl & Hk). split_and!; [done|done|]. constructor; [apply W|done].
Qed.

(** Writing a thread. *)
Lemma wf_put l ks p t s : length (fds t) = NUM_FDS -> length (cwd t) = CWD_SIZE -> table_in p l (fds t) ->
  wf l ks s -> wf l (p :: ks) (set_threads (<[p := t]> (threads s)) s).
Proof.
  intros L1 L2 L3 ([W1 W2 W3 W4] & Hl & Hk).
  assert (forall q, is_Some (threads s !! q) -> is_Some (<[p := t]> (threads s) !! q)) as Hi.
  { intros q Hq. destruct (decide (q = p)) as [->|]; [rewrite lookup_insert_eq; eauto|by rewrite lookup_insert_ne]. }
  assert (thread_wf (openf s) p t) as Hf.
  { split_and!; [done|done|]. intros i x Hx. rewrite List.Forall_forall in Hl.
    destruct (L3 i x Hx) as [->|[H|H]]; [left; by left|left; by apply Hl, list_elem_of_In|by right]. }
  split; [split; try done; auto|split; [done|]].
  - intros q u. simpl. destruct (decide (q = p)) as [->|].
    + rewrite lookup_insert_eq. by intros [= <-].
    + rewrite lookup_insert_ne by done. apply W2.
  - constructor; [simpl; rewrite lookup_insert_eq; eauto|]. eapply Forall_impl; [|exact Hk]. intros q. apply Hi.
Qed.

Lemma wf_set_th l ks p t : length (fds t) = NUM_FDS -> length (cwd t) = CWD_SIZE -> table_in p l (fds t) ->
  triple (wf l ks) (set_th p t) (fun _ => wf l (p :: ks)).
Proof. intros L1 L2 L3 s [] s' H [= <-]. by apply wf_put. Qed.

Lemma wf_new_th l ks p f :
  (forall s0, let t := f (left_over s0) in length (fds t) = NUM_FDS /\ length (cwd t) = CWD_SIZE /\ table_in p l (fds t)) ->
  triple (wf l ks) (new_th p f) (fun _ => wf l (p :: ks)).
Proof. intros Hf s [] s' H [= <-]. destruct (Hf s) as (L1 & L2 & L3). by apply wf_put. Qed.

Lemma stable_th p : stable (th p).
Proof.
  intros l ks. eapply triple_weaken; [apply (wf_th l ks)|done|]. intros t s (k & H & _).
  eapply wf_sub; [exact H|set_solver|set_solver].
Qed.

Lemma stable_upd p g : (forall t, fds (g t) = fds t /\ cwd (g t) = cwd t) -> stable (upd_th p g).
Proof.
  intros Hg l ks. apply th_bind. intros t k L1 L2 L3. pose proof (Hg t) as [E1 E2]. eapply triple_weaken; [apply (wf_set_th (k ++ l) (p :: ks))|done|].
  - by rewrite E1.
  - by rewrite E2.
  - rewrite E1. apply (table_in_sub p k); [set_solver -|done].
  - intros [] s H. eapply wf_sub; [exact H|set_solver -..].
Qed.

Lemma stable_vma p : stable (vma p).
Proof. intros l ks. eapply stable_bind; [apply stable_gets|intros o; apply stable_deref]. Qed.

Lemma stable_mm p : stable (mm p).
Proof. intros l ks. eapply stable_bind; [apply stable_gets|intros o; apply stable_deref]. Qed.

Lemma stable_load p f : stable (load_file p f).
Proof.
  intros l ks s u s' ([W1 W2 W3 W4] & Hl & Hk) [C P F T]%load_file_keeps.
  assert (forall q, is_Some (threads s !! q) -> is_Some (threads s' !! q)) as Hi.
  { intros q [t Ht]. specialize (T q). rewrite Ht in T. inversion T; eauto. }
  split; [split|split]; rewrite ?C, ?P, ?F; auto.
  - intros q t' Ht'. specialize (T q). rewrite Ht' in T. inversion T as [t u' K E|]; subst.
    destruct K as (_ & _ & _ & _ & E1 & E2). symmetry in E. destruct (W2 q t E) as (L1 & L2 & L3).
    split_and!; rewrite ?E1, ?E2; done.
  - eapply Forall_impl; [|exact Hk]. auto.
Qed.

(** The process table. *)
Lemma processes_bind {B} l ks (f : list Z -> M kern B) Q :
  (forall lst, length lst = Z.to_nat MAX_P -> triple (wf l ks) (f lst) Q) -> triple (wf l ks) (gets processes ≫= f) Q.
Proof.
  intros Hf. eapply triple_bind; [apply triple_gets|]. intros c s b s' [H ->] Hr. eapply Hf; [|done..]. apply H.
Qed.

Lemma stable_processes lst : length lst = Z.to_nat MAX_P -> stable (modify (set_processes lst)).
Proof. intros Hf l ks s a s' ([W1 W2 W3 W4] & Hl & Hk) [= _ <-]. split; [|done]. by split. Qed.

Lemma stable_set_current l ks p : p ∈ ks -> triple (wf l ks) (modify (set_current p)) (fun _ => wf l ks).
Proof.
  intros Hp s [] s' ([W1 W2 W3 W4] & Hl & Hk) [= <-]. split; [|done]. split; try done. simpl.
  rewrite List.Forall_forall in Hk. by apply Hk, list_elem_of_In.
Qed.

Lemma stable_for n i (body : Z -> M kern unit) : (forall k, stable (body k)) -> stable (for_loop n i body).
Proof. intros Hb l ks. apply triple_for. intros k. apply Hb. Qed.

End kern_inv.

Create HintDb wf discriminated.
#[export] Hint Resolve stable_ret stable_gets stable_deref stable_fault stable_fuel stable_mach stable_term stable_bytes
  stable_message stable_set_vma stable_new_vma stable_set_mm stable_set_tss stable_vma stable_mm stable_load stable_th : wf.
#[export] Hint Extern 1 (stable (modify (set_processes _))) =>
  apply stable_processes; rewrite ?length_insert; assumption : wf.
#[export] Hint Extern 1 (stable (upd_th _ _)) => apply stable_upd; intros ?; split; reflexivity : wf.

(** Symbolic execution of code that keeps the invariant. *)
Ltac wf_end := eapply stable_sub; [solve [auto with wf]|set_solver|set_solver].
Ltac wf_step := first
  [ wf_end
  | match goal with
    | |- triple _ ((_ ≫= _) ≫= _) _ => apply triple_assoc
    | |- triple _ (gets current_process ≫= _) _ => apply cur_bind; intros ?
    | |- triple _ (gets processes ≫= _) _ => apply processes_bind; intros ? ?
    | |- triple _ (th _ ≫= _) _ => apply th_bind; intros ? ? ? ? ?
    | |- triple _ ((if ?b then _ else _) ≫= _) _ => destruct b
    | |- triple _ (_ ≫= _) _ => eapply stable_bind; [solve [auto with wf]|intros ?]
    | |- triple _ (if ?b then _ else _) _ => destruct b
    | |- triple _ (match ?x with _ => _ end) _ => destruct x
    end ].
Ltac wf_tac := intros ? ?; repeat wf_step.

Section operations.
Context {LD : Loader} {PS : ProcSymbols} {VS : VfsSymbols}.

(** ** Every operation on processes *)

Lemma stable_get_pid fuel i : stable (get_pid_loop fuel i).
Proof. revert i; induction fuel as [|f IH]; intros i; simpl; wf_tac. Qed.

Lemma stable_getPID : stable getPID.
Proof. apply stable_get_pid. Qed.
Hint Resolve stable_getPID : wf.

Lemma stable_kfree_range a b : stable (kfree_range a b).
Proof. apply stable_for. intros k. auto with wf. Qed.
Hint Resolve stable_kfree_range : wf.

(** A loop by recursion on its fuel. *)
Ltac wf_loop fuel := induction fuel as [|? ?]; intros; simpl; wf_tac.

Lemma stable_find_prev fuel p prev it : stable (find_prev fuel p prev it).
Proof. revert prev it. wf_loop fuel. Qed.
Hint Resolve stable_find_prev : wf.

Lemma stable_reap p : stable (reap_process p).
Proof. unfold reap_process, ring_fuel. wf_tac. Qed.
Hint Resolve stable_reap : wf.

Lemma stable_find_queued fuel c : stable (find_queued fuel c).
Proof. revert c. wf_loop fuel. Qed.
Hint Resolve stable_find_queued : wf.

Lemma stable_free_vmas fuel v : stable (free_vmas fuel v).
Proof. revert v. wf_loop fuel. Qed.
Hint Resolve stable_free_vmas : wf.

Lemma stable_kill_scan fuel p it : stable (kill_scan fuel p it).
Proof. revert it. wf_loop fuel. Qed.
Hint Resolve stable_kill_scan : wf.

Lemma stable_copy_vmas fuel stop p first iter : stable (copy_vmas fuel stop p first iter).
Proof. revert p first iter. wf_loop fuel. Qed.

Lemma stable_copy_heap fuel p first iter : stable (copy_heap fuel p first iter).
Proof. revert p first iter. wf_loop fuel. Qed.

Lemma stable_user_free_loop fuel a it : stable (user_free_loop fuel a it).
Proof. revert it. wf_loop fuel. Qed.

Lemma stable_ps_loop fuel start it buf : stable (ps_loop fuel start it buf).
Proof. revert it. wf_loop fuel. Qed.

Lemma stable_find_last fuel c x : stable (find_last fuel c x).
Proof. revert x. wf_loop fuel. Qed.

Lemma stable_shallow p : stable (shallow_cleanup p).
Proof. unfold shallow_cleanup. wf_tac. Qed.
Hint Resolve stable_copy_vmas stable_copy_heap stable_user_free_loop stable_ps_loop stable_find_last stable_shallow : wf.

Lemma stable_wait_all_loop fuel it prev : stable (wait_all_loop fuel it prev).
Proof. revert it prev. wf_loop fuel. Qed.
Hint Resolve stable_wait_all_loop : wf.

Lemma stable_wait_all : stable wait_all.
Proof. unfold wait_all, ring_fuel. wf_tac. Qed.
Hint Resolve stable_wait_all : wf.

(** The descriptors of a new process. *)
Lemma std_bind {B} l ks (f : Z * Z -> M kern B) Q :
  (forall r, triple (wf (r.1 :: r.2 :: l) ks) (f r) Q) -> triple (wf l ks) (on_vfs std_fds ≫= f) Q.
Proof.
  intros Hf. eapply triple_bind with (Q := fun r => wf (r.1 :: r.2 :: l) ks); [|done].
  eapply triple_weaken; [apply (wf_vfs std_fds (fun r v => fo_valid v r.1 /\ fo_valid v r.2))|done|].
  - intros v0. eapply triple_weaken; [apply (vst_std v0)|done|]. by intros r s [[? ?] ?].
  - intros r s [(W & Hl & Hk) [H1 H2]]. split_and!; [done| |done]. constructor; [by right|]. constructor; [by right|done].
Qed.

Lemma left_fds_lookup left p n k i x : (left_fd left p <$> seq n k) !! i = Some x -> x = left_fd left p (n + i).
Proof. rewrite list_lookup_fmap. intros (y & [-> _]%lookup_seq & ->)%fmap_Some. done. Qed.

Lemma left_cwd_length left p n : (n <= CWD_SIZE)%nat -> (n + length (left_cwd left p n))%nat = CWD_SIZE.
Proof. intros H. unfold left_cwd. rewrite length_fmap, length_seq. lia. Qed.

(** Three known descriptors and what is behind them. *)
Lemma new_table_wf s0 p std l : length std = 3%nat -> (forall x, x ∈ std -> x = 0 \/ x ∈ l \/ unassigned p 0 x) ->
  length (new_table (left_over s0) p std) = NUM_FDS /\ table_in p l (new_table (left_over s0) p std).
Proof.
  intros Hn Hs. unfold new_table. split.
  - rewrite length_app, length_fmap, length_seq, Hn. reflexivity.
  - intros i x [Hx|[Hi Hx]]%lookup_app_Some.
    + destruct (Hs x (list_elem_of_lookup_2 _ _ _ Hx)) as [?|[?|[? _]]]; [by left|by right; left|lia].
    + apply left_fds_lookup in Hx as ->. do 2 right. split; [lia|]. exists s0. f_equal. lia.
Qed.

Lemma std_table_wf s0 p i o l :
  length (std_table (left_over s0) p i o) = NUM_FDS /\ table_in p (i :: o :: l) (std_table (left_over s0) p i o).
Proof. apply new_table_wf; [done|]. set_solver. Qed.

Lemma set_th_bind {B} l ks p t (f : unit -> M kern B) Q :
  length (fds t) = NUM_FDS -> length (cwd t) = CWD_SIZE -> table_in p l (fds t) ->
  triple (wf l (p :: ks)) (f tt) Q -> triple (wf l ks) (set_th p t ≫= f) Q.
Proof. intros H1 H2 H3 Hf. eapply triple_bind; [by apply wf_set_th|by intros []]. Qed.

Lemma new_th_bind {B} l ks p g (f : unit -> M kern B) Q :
  (forall s0, let t := g (left_over s0) in length (fds t) = NUM_FDS /\ length (cwd t) = CWD_SIZE /\ table_in p l (fds t)) ->
  triple (wf l (p :: ks)) (f tt) Q -> triple (wf l ks) (new_th p g ≫= f) Q.
Proof. intros H Hf. eapply triple_bind; [by apply wf_new_th|by intros []]. Qed.

(** Known lengths of results. *)
Lemma result_bind {A B} l ks (c : M bytes A) (ok : A -> Prop) (f : A -> M kern B) Q :
  (forall b a b', c b = Ret (a, b') -> ok a) -> (forall a, ok a -> triple (wf l ks) (f a) Q) ->
  triple (wf l ks) (on_bytes c ≫= f) Q.
Proof.
  intros Hc Hf. eapply triple_bind with (Q := fun a s => wf l ks s /\ ok a).
  - intros s a s' H Hr. split; [by eapply stable_bytes|]. unfold on_bytes, on_term, on_con, on_mem in Hr.
    apply zoom_inv in Hr as (t1 & (t2 & (t3 & Hr & _)%zoom_inv & _)%zoom_inv & _). by eapply Hc.
  - intros a s b s' [H Ha]. by apply Hf.
Qed.

Lemma new_cwd_length fn tmp b a b' : new_cwd fn tmp b = Ret (a, b') -> (length a <= CWD_SIZE)%nat.
Proof. intros (pre & b1 & _ & H)%bind_inv. cbv zeta in H. case_decide; [|done]. by injection H as <- _. Qed.

Lemma stable_create fn : stable (create_process fn).
Proof.
  unfold create_process. intros l ks. do 6 wf_step. eapply result_bind; [apply new_cwd_length|]. intros cw Hcw. do 4 wf_step.
  apply std_bind. intros r. apply new_th_bind; [|repeat wf_step]. intros s0 t.
  destruct (std_table_wf s0 a r.1 r.2 l) as [L1 L2]. split_and!; [done| |done]. cbn [t cwd]. rewrite length_app. by apply left_cwd_length.
Qed.
Hint Resolve stable_create : wf.

Lemma set_current_bind {B} l ks p (f : unit -> M kern B) Q :
  p ∈ ks -> triple (wf l ks) (f tt) Q -> triple (wf l ks) (modify (set_current p) ≫= f) Q.
Proof. intros Hp Hf. eapply triple_bind; [by apply stable_set_current|by intros []]. Qed.

Lemma set_current_end l ks l' ks' p : p ∈ ks -> l' ⊆ l -> ks' ⊆ ks ->
  triple (wf l ks) (modify (set_current p)) (fun _ => wf l' ks').
Proof.
  intros Hp Hl Hk. eapply triple_weaken; [by apply (stable_set_current l ks)|done|].
  intros [] s H. by apply (wf_sub l ks).
Qed.

Lemma stable_switch : stable switch_process.
Proof.
  unfold switch_process, ring_fuel. wf_tac; (apply set_current_end; set_solver).
Qed.
Hint Resolve stable_switch : wf.

Lemma stable_scheduler : stable scheduler.
Proof. unfold scheduler. wf_tac. Qed.
Hint Resolve stable_scheduler : wf.

(** ** Waiting, exit, memory *)

Lemma stable_wait_scan fuel sel ex it prev : stable (wait_scan fuel sel ex it prev).
Proof. revert ex it prev. wf_loop fuel. Qed.
Hint Resolve stable_wait_scan : wf.

Lemma stable_wait_iter sel it prev : stable (wait_iter sel it prev).
Proof. unfold wait_iter, ring_fuel. wf_tac. Qed.
Hint Resolve stable_wait_iter : wf.

Lemma stable_wait_begin sel : stable (wait_begin sel).
Proof. unfold wait_begin. wf_tac. Qed.

Lemma with_ppid_bind {B} l ks p x t (f : unit -> M kern B) Q :
  length (fds t) = NUM_FDS -> length (cwd t) = CWD_SIZE -> table_in p l (fds t) ->
  triple (wf l ks) (f tt) Q -> triple (wf l ks) (set_th p (with_ppid x t) ≫= f) Q.
Proof.
  intros L1 L2 Hs Hf. apply set_th_bind; [done|done|done|].
  - eapply triple_weaken; [exact Hf|intros s H; eapply wf_sub; [exact H|done|by right]|done].
Qed.

Lemma stable_orphan fuel cur cp it : stable (orphan_loop fuel cur cp it).
Proof.
  revert it. wf_loop fuel. apply with_ppid_bind; [done|done|eapply table_in_sub; [|eassumption]; set_solver|]. repeat wf_step.
Qed.
Hint Resolve stable_wait_begin stable_orphan : wf.

Lemma stable_kill_process p : stable (kill_process p).
Proof. unfold kill_process, ring_fuel. wf_tac. Qed.
Hint Resolve stable_kill_process : wf.

Lemma stable_kill p : stable (kill_kern p).
Proof. unfold kill_kern, ring_fuel. wf_tac. Qed.

Lemma stable_exit : stable exit_current_process.
Proof. unfold exit_current_process. wf_tac. Qed.

Lemma stable_user_malloc n : stable (user_malloc n).
Proof. unfold user_malloc. wf_tac. eapply stable_bind; [apply stable_for; intros j; auto with wf|intros]. wf_end. Qed.

Lemma stable_user_free a : stable (user_free a).
Proof. unfold user_free. wf_tac. Qed.

Lemma stable_get_cwd buf n : stable (get_cwd buf n).
Proof.
  unfold get_cwd. wf_tac. eapply stable_bind; [apply stable_for; intros j; wf_tac|intros]. wf_end.
Qed.

Lemma stable_ps buf : stable (get_process_state buf).
Proof. unfold get_process_state, ring_fuel. wf_tac. Qed.
Hint Resolve stable_kill stable_exit stable_user_malloc stable_user_free stable_get_cwd stable_ps : wf.

Lemma stable_ch_dir path : stable (ch_dir path).
Proof.
  unfold ch_dir. wf_tac. apply set_th_bind; [done| |eapply table_in_sub; [|eassumption]; set_solver|repeat wf_step].
  simpl. rewrite length_app. cbn [length]. rewrite length_drop. lia.
Qed.

(** ** Creation by [fork] and [exec] *)

Lemma stable_copy_process p : stable (copy_process p).
Proof.
  unfold copy_process. intros l ks. do 3 wf_step. apply std_bind. intros r. do 5 wf_step.
  apply new_th_bind; [|repeat wf_step]. intros s0 u. destruct (std_table_wf s0 a r.1 r.2 (k ++ l)) as [L1 L2]. done.
Qed.
Hint Resolve stable_copy_process stable_ch_dir : wf.

Lemma stable_fork : stable fork.
Proof. unfold fork. wf_tac. Qed.

Lemma stable_read_args argv : stable (read_args argv).
Proof.
  intros l ks. unfold read_args. eapply stable_bind; [apply stable_gets|]. intros m. generalize (local_array 1024).
  intros b. destruct (_ b) as [[argc b']| |]; wf_end.
Qed.
Hint Resolve stable_fork stable_read_args : wf.

(** The descriptors that a program keeps. *)
Lemma exec_fds s0 p q (f : list Z) k l : length f = NUM_FDS -> table_in p k f -> k ⊆ l ->
  length (new_table (left_over s0) q (take 3 f)) = NUM_FDS /\ table_in q l (new_table (left_over s0) q (take 3 f)).
Proof.
  intros Hf Ht Hs. apply new_table_wf; [rewrite length_take, Hf; reflexivity|].
  intros x (i & Hx)%list_elem_of_lookup_1. apply lookup_take_Some in Hx as [Hx Hi].
  destruct (Ht i x Hx) as [?|[?|[? _]]]; [by left|right; left; auto|lia].
Qed.

Lemma stable_exec fn argv : stable (exec_vpe fn argv).
Proof.
  unfold exec_vpe, ring_fuel. intros l ks. do 11 wf_step.
  apply new_th_bind.
  { intros s0 u. destruct (exec_fds s0 c a2 (fds t) k (k ++ l)) as [L1 L2]; [done|eassumption|set_solver|done]. }
  repeat wf_step. apply set_current_bind; [set_solver|]. repeat wf_step.
Qed.

Lemma stable_grow n st : stable (grow_stack n st).
Proof. wf_loop n. Qed.
Hint Resolve stable_grow : wf.

Lemma stable_page_fault a : stable (page_fault_handler a).
Proof. unfold page_fault_handler. wf_tac. Qed.
End operations.

#[export] Hint Resolve stable_fork stable_scheduler stable_user_malloc stable_user_free stable_get_cwd stable_ch_dir
  stable_ps stable_exec stable_exit stable_kill stable_wait_begin stable_wait_iter : wf.
