(* ===== verification/Elf.v ===== *)
(** * The ELF loader ([sys/elf64.c])

    [load_file] finds a program in the archive, maps and fills the pages of its loadable segments
    through the page tables of the current address space, and builds the list of memory areas,
    with a heap and a stack.  [elf_loader] is the loader as an instance of the interface
    [Loader] that process creation uses. *)

From S2P Require Import Prelude PhysMem Paging PageTable PagingSpec Cow MapRange VaMem Image.
From S2P Require Import CStr Console Terminal Tarfs Vfs Process.

(** ** Operations *)

Definition HEAP_START : Z := 0x08000000.
Definition TEXT : Z := 1.
Definition DATA : Z := 2.
Definition HEAP : Z := 3.
Definition STACK : Z := 4.
Definition UNDEFINED : Z := 5.
Definition PR : Z := 4.
Definition PW : Z := 2.
Definition PX : Z := 1.

(** Offsets in [Elf64_Ehdr] and [Elf64_Phdr]. *)
Definition e_entry : Z := 24.
Definition e_phoff : Z := 32.
Definition e_phnum : Z := 56.
Definition p_type : Z := 0.
Definition p_flags : Z := 4.
Definition p_offset : Z := 8.
Definition p_vaddr : Z := 16.
Definition p_filesz : Z := 32.
Definition p_memsz : Z := 40.
Definition SIZEOF_PHDR : Z := 56.

Definition area_type (flags : Z) : Z :=
  if flags =? Z.lor PR PX then TEXT else if flags =? Z.lor PR PW then DATA else UNDEFINED.

(** The pages that are mapped for a segment. *)
Definition segment_pages (start end_ : Z) : Z :=
  u64 (u64 ((end_ / PAGE_SIZE + 1) * PAGE_SIZE) - start / PAGE_SIZE * PAGE_SIZE) / PAGE_SIZE + 1.

(** [if (vma_map_iter != NULL) vma_map_iter->next = v; else vma_map = v]; returns [vma_map]. *)
Definition append_vma (map iter v : Z) : M kern Z :=
  if iter =? 0 then mret v else
  b ← vma iter;
  set_vma iter (Vma (vma_start b) (vma_end b) (vma_type b) (vma_flags b) v) ≫= fun _ => mret map.

(** The body of the loop for a program header with [p_type] 1. *)
Definition load_segment (ehdr phdr map iter : Z) : M kern (Z * Z) :=
  v ← on_mach (kmalloc SIZEOF_VMA);
  start ← on_bytes (ld_le 8 (phdr + p_vaddr));
  memsz ← on_bytes (ld_le 8 (phdr + p_memsz));
  let end_ := u64 (start + memsz) in
  let v_addr := start / PAGE_SIZE * PAGE_SIZE in
  for_loop (Z.to_nat (segment_pages start end_)) 0 (fun i =>
    on_mach (map_fresh_page PAGING_USER_R_W_FLAGS (u64 (v_addr + i * PAGE_SIZE)))) ≫= fun _ =>
  flags ← on_bytes (ld_le 4 (phdr + p_flags));
  off ← on_bytes (ld_le 8 (phdr + p_offset));
  filesz ← on_bytes (ld_le 8 (phdr + p_filesz));
  bs ← on_bytes (load_bytes (Z.to_nat (i32 filesz)) (ehdr + off));
  on_mach (copy_in start bs) ≫= fun _ =>
  set_vma v (Vma start end_ (area_type flags) flags 0) ≫= fun _ =>
  map' ← append_vma map iter v;
  mret (map', v).

(** [while (i < ehdr->e_phnum)]; [n] iterations are left. *)
Fixpoint load_segments (n : nat) (ehdr phdr map iter : Z) : M kern (Z * Z) :=
  match n with
  | O => mret (map, iter)
  | S n' =>
      ty ← on_bytes (ld_le 4 (phdr + p_type));
      mi ← (if ty =? 1 then load_segment ehdr phdr map iter else mret (map, iter));
      load_segments n' ehdr (phdr + SIZEOF_PHDR) mi.1 mi.2
  end.

(** The part behind the loop: the heap and the stack. *)
Definition load_heap_stack (new_process : Z) (mi : Z * Z) : M kern Z :=
  vh ← on_mach (kmalloc SIZEOF_VMA);
  set_vma vh (Vma HEAP_START (HEAP_START + PAGE_SIZE) HEAP (Z.lor PR PW) 0) ≫= fun _ =>
  map ← append_vma mi.1 mi.2 vh;
  on_mach (map_fresh_page PAGING_USER_R_W_FLAGS HEAP_START) ≫= fun _ =>
  vs ← on_mach (kmalloc SIZEOF_VMA);
  on_mach (map_fresh_page PAGING_USER_R_W_FLAGS STACK_START) ≫= fun _ =>
  set_vma vs (Vma (STACK_START + PAGE_SIZE - 16) STACK_START STACK (Z.lor PR PW) 0) ≫= fun _ =>
  t ← th new_process;
  set_mm (process_mm t) (MM map vh vs vh) ≫= fun _ =>
  upd_th new_process (with_rsp_user (STACK_START + 4096 - 16)) ≫= fun _ =>
  mret 0.

Section loader.
Context {PS : ProcSymbols}.

Definition elf_load_file (new_process filename : Z) : M kern Z :=
  location ← on_bytes (get_file_binary tarfs_start tarfs_end filename);
  if location =? 0 then mret (-1) else
  phoff ← on_bytes (ld_le 8 (location + e_phoff));
  entry ← on_bytes (ld_le 8 (location + e_entry));
  upd_th new_process (with_rip entry) ≫= fun _ =>
  phnum ← on_bytes (ld_le 2 (location + e_phnum));
  mi ← load_segments (Z.to_nat phnum) location (location + phoff) 0 0;
  load_heap_stack new_process mi.
End loader.

(** ** The interface of the loader *)

#[export] Instance loader_step_preorder : PreOrder loader_step.
Proof.
  split.
  - intros s. split; [done..|]. intros q. destruct (threads s !! q); constructor. done.
  - intros s1 s2 s3 [C1 P1 F1 T1] [C2 P2 F2 T2]. split; [congruence..|]. intros q.
    specialize (T1 q). specialize (T2 q). inversion T1 as [t t' K1 E1 E2|E1 E2]; rewrite <- E2 in T2; inversion T2; constructor.
    unfold thread_kept in *. intuition congruence.
Qed.

Definition allowed {A} (c : M kern A) : Prop := forall s a s', c s = Ret (a, s') -> loader_step s s'.

Lemma allowed_bind {A B} (c : M kern A) (f : A -> M kern B) :
  allowed c -> (forall a, allowed (f a)) -> allowed (c ≫= f).
Proof. intros Hc Hf s b s'' (a & s' & H1 & H2)%bind_inv. etransitivity; [by eapply Hc|by eapply Hf]. Qed.

Lemma allowed_ret {A} (a : A) : allowed (mret a).
Proof. by intros s x s' [= _ <-]. Qed.

Lemma allowed_gets {A} (f : kern -> A) : allowed (gets f).
Proof. by intros s x s' [= _ <-]. Qed.

Lemma same_threads_step s s' :
  threads s' = threads s -> current_process s' = current_process s -> processes s' = processes s ->
  openf s' = openf s -> loader_step s s'.
Proof. intros HT HC HP HF. split; [done..|]. intros q. rewrite HT. destruct (threads s !! q); by constructor. Qed.

Lemma allowed_on_mach {A} (c : M machine A) : allowed (on_mach c).
Proof. intros s a s' (m & _ & ->)%zoom_inv. by apply same_threads_step. Qed.

Lemma allowed_on_bytes {A} (c : M bytes A) : allowed (on_bytes c).
Proof. intros s a s' (m & _ & ->)%zoom_inv. by apply same_threads_step. Qed.

Lemma allowed_set_vma p v : allowed (set_vma p v).
Proof. intros s a s' [= _ <-]. by apply same_threads_step. Qed.

Lemma allowed_set_mm p v : allowed (set_mm p v).
Proof. intros s a s' [= _ <-]. by apply same_threads_step. Qed.

Lemma allowed_deref {A} (o : option A) : allowed (deref o).
Proof. destruct o; [apply allowed_ret|done]. Qed.

Lemma allowed_th p : allowed (th p).
Proof. apply allowed_bind; [apply allowed_gets|intros; apply allowed_deref]. Qed.

Lemma allowed_vma p : allowed (vma p).
Proof. apply allowed_bind; [apply allowed_gets|intros; apply allowed_deref]. Qed.

Lemma allowed_upd_th p f : (forall t, thread_kept t (f t)) -> allowed (upd_th p f).
Proof.
  intros Hf s a s' (t & s1 & H1 & [= _ <-])%bind_inv.
  assert (s1 = s /\ threads s !! p = Some t) as [-> Hp].
  { unfold th, gets in H1. rewrite (bind_ret _ _ _ _ _ eq_refl) in H1.
    destruct (threads s !! p); [by injection H1 as -> ->|done]. }
  split; [done..|]. intros q. simpl. destruct (decide (q = p)) as [->|].
  - rewrite lookup_insert_eq, Hp. by constructor.
  - rewrite lookup_insert_ne by done. destruct (threads s !! q); by constructor.
Qed.

Lemma allowed_for_loop n i (body : Z -> M kern unit) : (forall k, allowed (body k)) -> allowed (for_loop n i body).
Proof.
  intros Hb. revert i; induction n as [|n IH]; intros i; [apply allowed_ret|].
  apply allowed_bind; [apply Hb|intros _; apply IH].
Qed.

#[export] Hint Resolve allowed_ret allowed_gets allowed_deref allowed_on_mach allowed_on_bytes allowed_set_vma allowed_set_mm
  allowed_th allowed_vma : snow.

(** Decompose a sequence of allowed steps. *)
Ltac allowed_tac := repeat first
  [ solve [auto with snow] | apply allowed_upd_th; intros ?; done | apply allowed_bind; [|intros ?]
  | apply allowed_for_loop; intros ? ].

Lemma allowed_append map iter v : allowed (append_vma map iter v).
Proof. unfold append_vma. destruct (iter =? 0); allowed_tac. Qed.
#[export] Hint Resolve allowed_append : snow.

Lemma allowed_load_segment ehdr phdr map iter : allowed (load_segment ehdr phdr map iter).
Proof. unfold load_segment. allowed_tac. Qed.

Lemma allowed_load_segments n ehdr phdr map iter : allowed (load_segments n ehdr phdr map iter).
Proof.
  revert phdr map iter; induction n as [|n IH]; intros phdr map iter; cbn [load_segments]; [auto with snow|].
  apply allowed_bind; [auto with snow|intros ty]. apply allowed_bind; [|intros mi; apply IH].
  destruct (ty =? 1); [apply allowed_load_segment|auto with snow].
Qed.

Lemma allowed_heap_stack p mi : allowed (load_heap_stack p mi).
Proof. unfold load_heap_stack. allowed_tac. Qed.
#[export] Hint Resolve allowed_load_segment allowed_load_segments allowed_heap_stack : snow.

Section loader_law.
Context {PS : ProcSymbols}.

Lemma elf_load_file_keeps p f s u s' : elf_load_file p f s = Ret (u, s') -> loader_step s s'.
Proof.
  assert (allowed (elf_load_file p f)) as H.
  { unfold elf_load_file. apply allowed_bind; [auto with snow|intros loc].
    destruct (loc =? 0); [auto with snow|]. allowed_tac. }
  apply H.
Qed.

(** The loader of the kernel. *)
#[export] Instance elf_loader : Loader :=
  {| load_file := elf_load_file; load_file_keeps := elf_load_file_keeps |}.
End loader_law.
