(* ===== verification/Syscalls.v ===== *)
(** * System calls ([sys/syscalls.c])

    The dispatcher [handle_syscall] over the state of the kernel, the open directory streams
    and the timer.  A call returns a value, or it is still inside the kernel: waiting for
    input, for the clock or for a child, each with its local variables, or it has entered a
    new program.  The arguments are the 64-bit registers; [int] arguments are truncated as
    the casts and prototypes of the source say. *)

From S2P Require Import Prelude PhysMem Paging VaMem CStr Console Terminal Tarfs Timer Vfs Process.

Definition SYSCALL_READ : Z := 0x1.
Definition SYSCALL_WRITE : Z := 0x2.
Definition SYSCALL_OPEN : Z := 0x3.
Definition SYSCALL_CLOSE : Z := 0x4.
Definition SYSCALL_CHDIR : Z := 0x6.
Definition SYSCALL_GETCWD : Z := 0x7.
Definition SYSCALL_FORK : Z := 0x8.
Definition SYSCALL_EXECVPE : Z := 0x9.
Definition SYSCALL_WAIT : Z := 0xA.
Definition SYSCALL_YIELD : Z := 0xB.
Definition SYSCALL_PID : Z := 0xC.
Definition SYSCALL_PPID : Z := 0xD.
Definition SYSCALL_MALLOC : Z := 0xE.
Definition SYSCALL_FREE : Z := 0xF.
Definition SYSCALL_OPENDIR : Z := 0x10.
Definition SYSCALL_READDIR : Z := 0x11.
Definition SYSCALL_CLOSEDIR : Z := 0x12.
Definition SYSCALL_SLEEP : Z := 0x13.
Definition SYSCALL_PS : Z := 0x14.
Definition SYSCALL_WAITPID : Z := 0x15.
Definition SYSCALL_EXIT : Z := 0x16.
Definition SYSCALL_KILL : Z := 0x17.

Definition SIZEOF_DIR : Z := 8204.

(** ** State and results *)

Record sysk := Sysk {
  kn : kern;
  dirs : gmap Z dir_header;
  clock : Z;
  sleeping : Z;
  port_log : list (Z * Z)
}.

Definition set_kn (k : kern) (s : sysk) : sysk := Sysk k (dirs s) (clock s) (sleeping s) (port_log s).
Definition set_dirs (d : gmap Z dir_header) (s : sysk) : sysk := Sysk (kn s) d (clock s) (sleeping s) (port_log s).

(** The timer uses the console of the terminal. *)
Definition timer_of (s : sysk) : timer := Timer (clock s) (sleeping s) (port_log s) (con (term (kn s))).
Definition set_timer (t : timer) (s : sysk) : sysk :=
  Sysk (set_term (set_con (tcon t) (term (kn s))) (kn s)) (dirs s) (time_since_boot t) (sleep_val t) (ports t).

Definition on_kn {A} (c : M kern A) : M sysk A := zoom kn set_kn c.
Definition on_timer {A} (c : M timer A) : M sysk A := zoom timer_of set_timer c.

(** [Done r]: the call returns [r]; a call that gives up the processor returns it when its process
    is scheduled again.  [Reading f r]: in [terminal_read] for the file object [f]. *)
Inductive sys_result :=
| Done (r : Z)
| Reading (f buf len : Z) (r : reader)
| Sleeping (r : sleeper)
| WaitChild (p : option Z) (it prev : Z)
| Entered.

(** Literals of [syscalls.c], and the local array of [get_folder]. *)
Class SysSymbols := {
  msg_bad_fd : Z;        (* "Invalid FD #, must be between %d and %d\n" *)
  msg_no_write : Z;      (* "Write op not supported on FD #%d" *)
  msg_fd_unset : Z;      (* "FD %d is not setup yet!\n" *)
  msg_write_impl : Z;    (* "#%d: this file descriptor isn't handled for write\n" *)
  msg_not_writable : Z;  (* "FD # %d does not support writing.\n" *)
  msg_no_read : Z;       (* "Read op not supported on FD #%d" *)
  msg_fd_unset_read : Z; (* "FD $d is not setup yet!\n" *)
  msg_read_impl : Z;     (* "#%d: this file descriptor isn't handled for read\n" *)
  msg_not_readable : Z;  (* "FD # %d does not support reading.\n" *)
  msg_close_range : Z;   (* "FD # is incorrect!\n" *)
  msg_close_std : Z;     (* "Can't close FD #%d\n" *)
  msg_not_open : Z;      (* "FD #%d is not open\n" *)
  msg_args_1 : Z;        (* "Arg1: %x, Arg2: %x, Arg3: %x \n" *)
  msg_args_2 : Z;        (* "Arg4: %x, Arg5: %x, Arg6: %x \n" *)
  tmp_copy_folder : Z    (* char tmp_copy[256] of get_folder *)
}.

Section syscalls.
Context {LD : Loader} {PS : ProcSymbols} {VS : VfsSymbols} {L : Literals} {SS : SysSymbols}.

(** A message and an error code. *)
Definition fails (fmt : Z) (va : list Z) : M sysk sys_result :=
  on_kn (message fmt va) ≫= fun _ => mret (Done (u64 (-1))).

Definition current : M kern kthread := c ← gets current_process; th c.

(** [fds[i]] and [fds[i] = v] of the current process. *)
Definition fd_get (i : Z) : M kern Z := t ← current; deref (fds t !! Z.to_nat i).
Definition fd_set (i v : Z) : M kern unit :=
  c ← gets current_process; t ← th c;
  if decide (Z.to_nat i < length (fds t))%nat then set_th c (with_fds (<[Z.to_nat i := v]> (fds t)) t) else mfault.

Definition impl (p : Z) : VM file_sys_impl_t := o ← vgets (fun v => impls v !! p); deref o.

(** ** Files *)

Definition sys_write (fd buf len : Z) : M sysk sys_result :=
  if Z.of_nat NUM_FDS <=? fd then fails msg_bad_fd [0; Z.of_nat NUM_FDS] else
  if fd =? 0 then fails msg_no_write [fd] else
  p ← on_kn (fd_get fd);
  if p =? 0 then fails msg_fd_unset [fd] else
  f ← on_kn (on_vfs (fo p));
  if file_sys_impl f =? 0 then fails msg_write_impl [fd] else
  i ← on_kn (on_vfs (impl (file_sys_impl f)));
  match write_impl i with
  | None => fails msg_not_writable [fd]
  | Some terminal_write_fp => r ← on_kn (on_term (terminal_write buf (i32 len))); mret (Done (u64 r))
  end.

(** [if (len_read > 0) fo->offset += len_read; return len_read;] *)
Definition read_done (p len_read : Z) : M kern sys_result :=
  (if 0 <? len_read then on_vfs (upd_fo p (fun f => with_offset (u32 (offset f + len_read)) f)) else mret tt) ≫= fun _ =>
  mret (Done (u64 len_read)).

Definition sys_read (fd buf len : Z) : M sysk sys_result :=
  if Z.of_nat NUM_FDS <=? fd then fails msg_bad_fd [0; Z.of_nat NUM_FDS] else
  if (fd =? 1) || (fd =? 2) then fails msg_no_read [fd] else
  p ← on_kn (fd_get fd);
  if p =? 0 then fails msg_fd_unset_read [fd] else
  f ← on_kn (on_vfs (fo p));
  if file_sys_impl f =? 0 then fails msg_read_impl [fd] else
  i ← on_kn (on_vfs (impl (file_sys_impl f)));
  match read_impl i with
  | None => fails msg_not_readable [fd]
  | Some tarfs_read_fp =>
      r ← on_kn (on_bytes (tarfs_read buf (i32 len) (content_start f) (i32 (offset f))));
      on_kn (read_done p r)
  | Some terminal_read_fp =>
      r ← on_kn (on_term (read_start (i32 len)));
      match r with
      | Returned n => on_kn (read_done p n)
      | Waiting _ => mret (Reading p buf (i32 len) r)
      end
  end.

(** [for (fd_idx = 3; fd_idx < NUM_FDS; fd_idx++) if (fds[fd_idx] == NULL) break;], [n] steps left. *)
Fixpoint free_fd (n : nat) (l : list Z) (fd_idx : Z) : M kern Z :=
  match n with
  | O => mret fd_idx
  | S n' => v ← deref (l !! Z.to_nat fd_idx); if v =? 0 then mret fd_idx else free_fd n' l (fd_idx + 1)
  end.

Definition sys_open (path : Z) : M kern Z :=
  file ← on_bytes (get_file_binary tarfs_start tarfs_end path);
  if file =? 0 then mret (-1) else
  t ← current;
  fd_idx ← free_fd (NUM_FDS - 3) (fds t) 3;
  if fd_idx =? Z.of_nat NUM_FDS then mret (-2) else
  p ← on_mach (kmalloc SIZEOF_FO);
  i ← on_vfs get_tarfs_impl;
  on_vfs (set_fo p (FileObject path i 1 file 0)) ≫= fun _ =>
  fd_set fd_idx p ≫= fun _ =>
  mret fd_idx.

Definition sys_close (fd : Z) : M sysk sys_result :=
  if Z.of_nat NUM_FDS <=? fd then fails msg_close_range [] else
  if (fd =? 0) || (fd =? 1) || (fd =? 2) then fails msg_close_std [fd] else
  p ← on_kn (fd_get fd);
  if p =? 0 then fails msg_not_open [fd] else
  f ← on_kn (on_vfs (fo p));
  let n := u16 (fo_ref_count f - 1) in
  on_kn (on_vfs (set_fo p (with_ref_count n f))) ≫= fun _ =>
  (if n =? 0 then on_kn (fd_set fd 0 ≫= fun _ => on_mach (kfree p)) else mret tt) ≫= fun _ =>
  mret (Done 0).

(** ** Directory streams *)

(** The first field of the block at [p] as it is found: it is not initialised. *)
Definition found_point (p : Z) : M machine Z :=
  a ← ld8_va p; b ← ld8_va (p + 1); c ← ld8_va (p + 2); d ← ld8_va (p + 3);
  mret (i32 (a + 256 * (b + 256 * (c + 256 * d)))).

Definition sys_opendir (name : Z) : M sysk sys_result :=
  p ← on_kn (on_mach (kmalloc SIZEOF_DIR));
  cp ← on_kn (on_mach (found_point p));
  d ← on_kn (on_bytes (get_folder tarfs_start tarfs_end tmp_copy_folder name (DirHeader cp 0 [] 0)));
  modify (fun s => set_dirs (<[p := d]> (dirs s)) s) ≫= fun _ =>
  mret (Done (if dir_exists_ d =? 1 then p else 0)).

(** Byte [i] of entry [k] of the stream at [p]: of the name [f], its end, or what was in the block. *)
Definition entry_byte (p k : Z) (f : list Z) (i : Z) : M machine Z :=
  match f !! Z.to_nat i with
  | Some c => mret c
  | None => if i =? Z.of_nat (length f) then mret 0 else ld8_va (u64 (p + 8 + BUF_SIZE * k + i))
  end.

Definition sys_readdir (stream filename : Z) : M sysk sys_result :=
  o ← gets (fun s => dirs s !! stream); d ← deref o;
  r ← lift_o (read_dir d);
  if r.1.1 =? -1 then mret (Done (u64 (-1))) else
  for_loop (Z.to_nat BUF_SIZE) 0 (fun i =>
    c ← on_kn (on_mach (entry_byte stream (current_point d) r.1.2 i)); on_kn (on_bytes (st8 (filename + i) c))) ≫= fun _ =>
  modify (fun s => set_dirs (<[stream := r.2]> (dirs s)) s) ≫= fun _ =>
  mret (Done 0).

(** ** The dispatcher *)

(** A child exists, but is not a zombie yet: [scheduler()]. *)
Definition wait_next (p : option Z) (r : wait_result) : M kern sys_result :=
  match r with
  | WReturn v => mret (Done (u64 v))
  | WYield it prev => scheduler ≫= fun _ => mret (WaitChild p it prev)
  end.

(** The [switch] on the code. *)
Definition handle_code (code arg2 arg3 arg4 arg5 arg6 : Z) : M sysk sys_result :=
  if code =? SYSCALL_WRITE then sys_write arg2 arg3 arg4 else
  if code =? SYSCALL_FORK then
    child ← on_kn fork; t ← on_kn (th child); mret (Done (u64 (pid t))) else
  if code =? SYSCALL_READ then sys_read arg2 arg3 arg4 else
  if code =? SYSCALL_OPEN then r ← on_kn (sys_open arg2); mret (Done (u64 r)) else
  if code =? SYSCALL_CLOSE then sys_close arg2 else
  if code =? SYSCALL_YIELD then on_kn scheduler ≫= fun _ => mret (Done 0) else
  if code =? SYSCALL_PID then r ← on_kn get_process_pid; mret (Done (u64 r)) else
  if code =? SYSCALL_PPID then r ← on_kn get_process_ppid; mret (Done (u64 r)) else
  if code =? SYSCALL_MALLOC then r ← on_kn (user_malloc arg2); mret (Done r) else
  if code =? SYSCALL_FREE then on_kn (user_free arg2) ≫= fun _ => mret (Done 0) else
  if code =? SYSCALL_OPENDIR then sys_opendir arg2 else
  if code =? SYSCALL_READDIR then sys_readdir arg2 arg3 else
  if code =? SYSCALL_CLOSEDIR then r ← on_kn (on_mach (close_dir arg2)); mret (Done (u64 r)) else
  if code =? SYSCALL_GETCWD then r ← on_kn (get_cwd arg2 arg3); mret (Done (u64 r)) else
  if code =? SYSCALL_CHDIR then r ← on_kn (ch_dir arg2); mret (Done (u64 r)) else
  if code =? SYSCALL_SLEEP then r ← on_timer (sleep_start (u32 arg2)); mret (Sleeping r) else
  if code =? SYSCALL_PS then on_kn (get_process_state arg2) ≫= fun _ => mret (Done 0) else
  if code =? SYSCALL_EXECVPE then
    r ← on_kn (exec_vpe arg2 arg3); mret (match r with Some v => Done (u64 v) | None => Entered end) else
  if code =? SYSCALL_EXIT then on_kn exit_current_process ≫= fun _ => mret (Done 0) else
  if code =? SYSCALL_KILL then r ← on_kn (kill_kern (i32 arg2)); mret (Done (u64 r)) else
  if code =? SYSCALL_WAITPID then on_kn (r ← wait_pid (i32 arg2); wait_next (Some (i32 arg2)) r) else
  if code =? SYSCALL_WAIT then on_kn (r ← wait; wait_next None r) else
  on_kn (message msg_args_1 [code; arg2; arg3]) ≫= fun _ =>
  on_kn (message msg_args_2 [arg4; arg5; arg6]) ≫= fun _ =>
  mret (Done 0).

(** The code is an enumeration of 32 bits: the lower half of the register. *)
Definition handle_syscall (code arg2 arg3 arg4 arg5 arg6 : Z) : M sysk sys_result :=
  handle_code (u32 code) arg2 arg3 arg4 arg5 arg6.

(** ** Calls that wait *)

(** What can happen while the current process is inside a call. *)
Inductive sys_event :=
| KeyIn (ctrs : list Z)
| SecondIn
| Run.

(** The call makes one iteration of its loop ([Run]), or an interrupt arrives. *)
Definition sys_step (r : sys_result) (e : sys_event) : M sysk sys_result :=
  match e, r with
  | KeyIn ctrs, _ => on_kn (on_term (on_new_char_recvd ctrs)) ≫= fun _ => mret r
  | SecondIn, _ => on_timer on_second_tick ≫= fun _ => mret r
  | Run, Reading p buf len (Waiting li) =>
      r' ← on_kn (on_term (read_poll buf len li));
      match r' with
      | Returned n => on_kn (read_done p n)
      | Waiting _ => mret (Reading p buf len r')
      end
  | Run, Sleeping Asleep =>
      r' ← on_timer sleep_poll; mret (match r' with Awake v => Done (u64 v) | Asleep => Sleeping r' end)
  | Run, WaitChild p it prev =>
      on_kn (r' ← wait_iter (fun t => match p with Some x => pid t =? x | None => true end) it prev; wait_next p r')
  | Run, _ => mret r
  end.

Fixpoint sys_steps (r : sys_result) (es : list sys_event) : M sysk sys_result :=
  match es with
  | [] => mret r
  | e :: es' => r' ← sys_step r e; sys_steps r' es'
  end.

End syscalls.

(** Go to the case of a call. *)
Ltac dispatched := unfold handle_syscall;
  repeat match goal with |- context [handle_code (u32 ?c)] => change (u32 c) with c end; unfold handle_code.
