(* ===== verification/ProcessSpec.v ===== *)
(** * Process table and scheduler: properties

    The process table hands out unused identifiers; the scheduler goes round the ring;
    [kill] of another process never has an effect; [wait] gives up after its first yield. *)

From S2P Require Import Prelude PhysMem Paging PagingSpec CStr Console Terminal Vfs Process.

(** ** Identifiers *)

Lemma get_pid_loop_ok fuel i s :
  0 <= i -> i + Z.of_nat fuel <= Z.of_nat (length (processes s)) ->
  (exists j, i <= j < i + Z.of_nat fuel /\ processes s !! Z.to_nat j = Some 0 /\
     (forall k, i <= k < j -> processes s !! Z.to_nat k <> Some 0) /\
     get_pid_loop fuel i s = Ret (j, set_processes (<[Z.to_nat j := 1]> (processes s)) s)) \/
  ((forall k, i <= k < i + Z.of_nat fuel -> processes s !! Z.to_nat k <> Some 0) /\
   get_pid_loop fuel i s = Ret (-1, s)).
Proof.
  revert i; induction fuel as [|f IH]; intros i Hi Hlen; cbn [get_pid_loop].
  { right. split; [lia|done]. }
  unfold gets. rewrite (bind_ret _ _ _ _ _ eq_refl).
  destruct (lookup_lt_is_Some_2 (processes s) (Z.to_nat i)) as [x Hx]; [lia|]. rewrite Hx.
  destruct (decide (x = 0)) as [->|Hne].
  { left. exists i. split_and!; [lia..|done|lia|done]. }
  replace (match x with 0 => modify (set_processes (<[Z.to_nat i:=1]> (processes s))) ≫= (λ _ : (), mret i)
           | _ => get_pid_loop f (i + 1) end) with (get_pid_loop f (i + 1)) by (by destruct x).
  destruct (IH (i + 1)) as [(j & Hj & Hz & Hall & Hrun)|(Hall & Hrun)]; [lia|lia| |].
  - left. exists j. split_and!; [lia..|done| |done]. intros k Hk.
    destruct (decide (k = i)) as [->|]; [rewrite Hx; congruence|apply Hall; lia].
  - right. split; [|done]. intros k Hk.
    destruct (decide (k = i)) as [->|]; [rewrite Hx; congruence|apply Hall; lia].
Qed.

(** [getPID] returns the least identifier from 1 up that is not in use and marks it used,
    changing nothing else; when all of them are in use it returns -1 and changes nothing. *)
Theorem getPID_least_unused s :
  Z.of_nat (length (processes s)) = MAX_P ->
  (exists p, 1 <= p < MAX_P /\ processes s !! Z.to_nat p = Some 0 /\
     (forall k, 1 <= k < p -> processes s !! Z.to_nat k <> Some 0) /\
     getPID s = Ret (p, set_processes (<[Z.to_nat p := 1]> (processes s)) s)) \/
  ((forall k, 1 <= k < MAX_P -> processes s !! Z.to_nat k <> Some 0) /\ getPID s = Ret (-1, s)).
Proof.
  intros Hlen. unfold getPID. destruct (get_pid_loop_ok (Z.to_nat (MAX_P - 1)) 1 s) as [(p & Hp & H)|[Hall H]].
  - lia.
  - unfold MAX_P in *. lia.
  - left. exists p. unfold MAX_P in *. split; [lia|done].
  - right. split; [|done]. intros k Hk. apply Hall. unfold MAX_P in *. lia.
Qed.

(** ** The ring of processes *)

(** The threads at the addresses [l] are linked in this order; the last one points to [last]. *)
Fixpoint links (T : gmap Z kthread) (l : list Z) (last : Z) : Prop :=
  match l with
  | [] => True
  | p :: r => (exists t, T !! p = Some t /\ next t = match r with [] => last | q :: _ => q end) /\ links T r last
  end.

(** The ring, starting with the current process. *)
Record ring (s : kern) (l : list Z) : Prop := {
  rg_current : head l = Some (current_process s);
  rg_links : links (threads s) l (current_process s);
  rg_nodup : NoDup l
}.

Lemma links_elem T l last p : links T l last -> p ∈ l -> exists t, T !! p = Some t.
Proof.
  revert p; induction l as [|q l IH]; intros p Hl Hp; [by apply not_elem_of_nil in Hp|].
  destruct Hl as [(t & Ht & _) Hl]. apply elem_of_cons in Hp as [->|Hp]; [eauto|auto].
Qed.

(** Links depend on the [next] fields only. *)
Lemma links_ext T T' l last :
  links T l last ->
  (forall p t, p ∈ l -> T !! p = Some t -> exists t', T' !! p = Some t' /\ next t' = next t) ->
  links T' l last.
Proof.
  induction l as [|p l IH]; [done|]. intros [(t & Ht & Hn) Hl] Hext. split.
  - destruct (Hext p t) as (t' & Ht' & Hn'); [by left|done|]. exists t'. split; [done|congruence].
  - apply IH; [done|]. intros q u Hq. apply Hext. by right.
Qed.

Lemma links_app T l1 l2 last :
  links T (l1 ++ l2) last <-> links T l1 (match l2 with [] => last | q :: _ => q end) /\ links T l2 last.
Proof.
  induction l1 as [|p l1 IH]; [simpl; tauto|].
  destruct l1 as [|p' l1]; cbn [links app] in *.
  - destruct l2; tauto.
  - rewrite IH. tauto.
Qed.

Lemma ring_size s l : ring s l -> (length l <= size (threads s))%nat.
Proof.
  intros [_ Hl Hnd]. rewrite <- (size_dom (D := gset Z)).
  rewrite <- (size_list_to_set (C := gset Z) l Hnd). apply subseteq_size. intros p Hp.
  apply elem_of_list_to_set in Hp. apply elem_of_dom. by destruct (links_elem _ _ _ _ Hl Hp).
Qed.

Lemma th_ok s p t : threads s !! p = Some t -> th p s = Ret (t, s).
Proof. intros H. unfold th, gets. rewrite (bind_ret _ _ _ _ _ eq_refl). by rewrite H. Qed.

Lemma upd_th_ok s p t f :
  threads s !! p = Some t -> upd_th p f s = Ret (tt, set_threads (<[p := f t]> (threads s)) s).
Proof. intros H. unfold upd_th. by rewrite (bind_ret _ _ _ _ _ (th_ok _ _ _ H)). Qed.

(** ** Scheduling *)

Definition in_state (s : kern) (x : process_state) (p : Z) : Prop :=
  exists t, threads s !! p = Some t /\ state t = x.

(** The search stops at the first queued process. *)
Lemma find_queued_ok s l q r fuel last :
  links (threads s) (l ++ q :: r) last -> current_process s ∉ l ++ [q] ->
  Forall (fun p => ~ in_state s QUEUED p) l -> in_state s QUEUED q -> (length l < fuel)%nat ->
  find_queued fuel (match l with [] => q | p :: _ => p end) s = Ret (q, s).
Proof.
  revert fuel; induction l as [|p l IH]; intros [|f] Hl Hc Hall Hq Hf; simpl in Hf; try lia; cbn [find_queued];
    unfold gets; rewrite (bind_ret _ _ _ _ _ eq_refl).
  - destruct Hq as (t & Ht & Hst). destruct (Z.eqb_spec q (current_process s)) as [->|]; [done|].
    rewrite (bind_ret _ _ _ _ _ (th_ok _ _ _ Ht)). by rewrite bool_decide_true.
  - destruct Hl as [(t & Ht & Hn) Hl]. apply Forall_cons_1 in Hall as [Hp Hall].
    apply not_elem_of_cons in Hc as [Hcp Hc].
    destruct (Z.eqb_spec p (current_process s)); [congruence|].
    rewrite (bind_ret _ _ _ _ _ (th_ok _ _ _ Ht)). rewrite bool_decide_false by (intros E; apply Hp; by exists t).
    replace (next t) with (match l with [] => q | p :: _ => p end) by (by destruct l).
    apply IH; [done|done|done|done|lia].
Qed.

(** The state of a thread after a switch from [c] to [q]. *)
Definition switched (c q : Z) (T : gmap Z kthread) (p : Z) (t : kthread) : kthread :=
  if decide (p = q) then with_state RUNNING t
  else if decide (p = c) then (if bool_decide (state t = RUNNING) then with_state QUEUED t else t) else t.

Lemma ring_rotate s s' c l1 q l2 :
  ring s (c :: l1 ++ q :: l2) -> current_process s' = q ->
  (forall p t, threads s !! p = Some t -> exists t', threads s' !! p = Some t' /\ next t' = next t) ->
  ring s' (q :: l2 ++ c :: l1).
Proof.
  intros [Hc Hl Hnd] Hq Hext. injection Hc as Hc. split.
  - by rewrite Hq.
  - rewrite Hq. apply (links_ext (threads s)); [|intros; by eapply Hext].
    change (c :: l1 ++ q :: l2) with ((c :: l1) ++ (q :: l2)) in Hl. apply links_app in Hl as [Hl1 Hl2].
    change (q :: l2 ++ c :: l1) with ((q :: l2) ++ (c :: l1)). apply links_app. split; [|done].
    by rewrite Hc.
  - change (c :: l1 ++ q :: l2) with ((c :: l1) ++ (q :: l2)) in Hnd.
    change (q :: l2 ++ c :: l1) with ((q :: l2) ++ (c :: l1)). by rewrite Permutation_app_comm.
Qed.

Section scheduling.
Context {LD : Loader} {PS : ProcSymbols} {VS : VfsSymbols}.

Lemma switch_process_ok s c l1 q l2 :
  ring s (c :: l1 ++ q :: l2) -> ~ in_state s QUEUED c ->
  Forall (fun p => ~ in_state s QUEUED p) l1 -> in_state s QUEUED q ->
  exists s', switch_process s = Ret (tt, s') /\ ring s' (q :: l2 ++ c :: l1) /\
    processes s' = processes s /\
    (forall p t, threads s !! p = Some t -> threads s' !! p = Some (switched c q (threads s) p t)) /\
    (forall t, threads s !! q = Some t -> cr3 (mach s') = cr3_ t) /\
    pm (mach s') = pm (mach s) /\ tss_rsp0 s' = kstack_top q /\
    (forall t, threads s !! q = Some t -> mach s' = set_cr3 (cr3_ t) (mach s)).
Proof.
  intros Hr Hc Hall Hq. pose proof (ring_size _ _ Hr) as Hsz. pose proof Hr as [Hcur Hl Hnd].
  injection Hcur as Hcur. destruct Hl as [(tc & Htc & Hn) Hl]. destruct Hq as (tq & Htq & Hsq).
  apply list.NoDup_cons in Hnd as [Hcn Hnd].
  assert (c <> q) as Hcq by (intros ->; apply Hcn, elem_of_app; right; by left).
  unfold switch_process, gets. rewrite (bind_ret _ _ _ _ _ eq_refl), <- Hcur.
  rewrite (bind_ret _ _ _ _ _ (th_ok _ _ _ Htc)).
  assert (next tc <> c) as Hne.
  { rewrite Hn. destruct l1; simpl; [done|]. intros ->. apply Hcn. by left. }
  destruct (Z.eqb_spec c (next tc)); [congruence|]. unfold ring_fuel, gets.
  rewrite (bind_ret _ _ _ _ _ eq_refl). rewrite (bind_ret _ _ _ q s).
  2: { replace (next tc) with (match l1 with [] => q | p :: _ => p end) by (by destruct l1).
       eapply (find_queued_ok s l1 q l2); [done| |done|by exists tq|].
       - rewrite <- Hcur. intros Hin. apply Hcn. apply elem_of_app in Hin as [?|?%list_elem_of_singleton].
         + apply elem_of_app. by left.
         + congruence.
       - cbn [length] in Hsz. rewrite length_app in Hsz. lia. }
  destruct (Z.eqb_spec q c); [congruence|].
  set (T1 := <[c := if bool_decide (state tc = RUNNING) then with_state QUEUED tc else tc]> (threads s)).
  assert ((if bool_decide (state tc = RUNNING) then upd_th c (with_state QUEUED) else mret tt) s =
          Ret (tt, set_threads T1 s)) as Hs1.
  { unfold T1. case_bool_decide; [by apply upd_th_ok|]. rewrite insert_id by done. by destruct s. }
  assert (threads (set_threads T1 s) !! q = Some tq) as Hq1 by (simpl; unfold T1; by rewrite lookup_insert_ne).
  set (T2 := <[q := with_state RUNNING tq]> T1).
  exists (Kern (set_cr3 (cr3_ tq) (mach s)) T2 (vmas s) (mms s) q (processes s) (term s) (openf s) (kstack_top q)).
  assert (forall p t, threads s !! p = Some t -> T2 !! p = Some (switched c q (threads s) p t)) as HT2.
  { intros p t Hp. unfold T2, T1, switched. rewrite !lookup_insert.
    repeat case_decide; simplify_eq; done. }
  split_and!.
  - assert (state tc <> QUEUED) as Hnq by (intros E; apply Hc; by exists tc).
    assert (forall A (a b : A), match state tc with QUEUED => a | _ => b end = b) as Hm by (by intros; destruct (state tc)).
    rewrite Hm, (bind_ret _ _ _ _ _ Hs1), (bind_ret _ _ _ _ _ (upd_th_ok _ _ _ _ Hq1)).
    rewrite (bind_ret _ _ _ (with_state RUNNING tq) (set_threads T2 (set_threads T1 s))); [done|].
    apply th_ok. simpl. apply lookup_insert_eq.
  - eapply ring_rotate; [done|done|]. intros p t Hp. eexists. split; [by apply HT2|].
    unfold switched. repeat first [case_decide | case_bool_decide]; done.
  - done.
  - done.
  - intros t Ht. simpl. congruence.
  - done.
  - done.
  - intros t Ht. simpl. congruence.
Qed.

(** the scheduler picks the next queued process: in a ring where [q] is the first queued
    process after the current one [c], which runs or has exited, [switch_process]
    makes [q] the current and running process with its page tables and its kernel stack for
    interrupts; [c] is queued again if it was running and stays a zombie otherwise; the order
    of the ring is kept. *)
Theorem switch_process_next_queued s c l1 q l2 :
  ring s (c :: l1 ++ q :: l2) -> ~ in_state s QUEUED c ->
  Forall (fun p => ~ in_state s QUEUED p) l1 -> in_state s QUEUED q ->
  exists s', switch_process s = Ret (tt, s') /\ ring s' (q :: l2 ++ c :: l1) /\
    (forall p t, threads s !! p = Some t -> threads s' !! p = Some (switched c q (threads s) p t)) /\
    (forall t, threads s !! q = Some t -> cr3 (mach s') = cr3_ t) /\ tss_rsp0 s' = kstack_top q.
Proof.
  intros Hr Hc Hl Hq. destruct (switch_process_ok s c l1 q l2 Hr Hc Hl Hq) as (s' & H1 & H2 & _ & H3 & H4 & _ & H5 & _).
  by exists s'.
Qed.

(** ** Round robin *)

(** A ring in which the current process runs and all others are queued. *)
Record runnable (s : kern) (l : list Z) : Prop := {
  rn_ring : ring s l;
  rn_current : in_state s RUNNING (current_process s);
  rn_queued : forall p, p ∈ tail l -> in_state s QUEUED p
}.

Lemma switched_state c q T p t :
  state (switched c q T p t) = (if decide (p = q) then RUNNING else
    if decide (p = c) then (if bool_decide (state t = RUNNING) then QUEUED else state t) else state t).
Proof. unfold switched. repeat first [case_decide | case_bool_decide]; done. Qed.

Lemma runnable_switch s c q r :
  runnable s (c :: q :: r) ->
  exists s', switch_process s = Ret (tt, s') /\ runnable s' (q :: r ++ [c]).
Proof.
  intros [Hr Hcur Hq]. pose proof Hr as [Hhd _ Hnd]. injection Hhd as Hc. rewrite <- Hc in Hcur.
  apply list.NoDup_cons in Hnd as [Hcn _].
  destruct (switch_process_ok s c [] q r) as (s' & Hrun & Hr' & _ & HT & _ & _ & _); [done| |constructor| |].
  - destruct Hcur as (t & Ht & Hs). intros (t' & Ht' & Hs'). congruence.
  - apply Hq. by left.
  - exists s'. split; [done|]. pose proof Hr' as [Hhd' _ Hnd']. injection Hhd' as Hc'.
    apply list.NoDup_cons in Hnd' as [Hqn _]. split; [done| |].
    + rewrite <- Hc'. destruct (Hq q) as (t & Ht & Hs); [by left|].
      exists (switched c q (threads s) q t). split; [by apply HT|]. by rewrite switched_state, decide_True.
    + cbn [tail]. intros p Hp. assert (p <> q) as Hpq by (intros ->; done).
      apply elem_of_app in Hp as [Hp|Hp%list_elem_of_singleton].
      * destruct (Hq p) as (t & Ht & Hs); [by right|]. eexists. split; [by apply HT|].
        rewrite switched_state, decide_False, decide_False; [done| |done].
        intros ->. apply Hcn. by right.
      * subst p. destruct Hcur as (t & Ht & Hs). eexists. split; [by apply HT|].
        rewrite switched_state, decide_False, decide_True by done. by rewrite Hs.
Qed.

Fixpoint switches (n : nat) : M kern unit :=
  match n with O => mret tt | S n' => switch_process ≫= fun _ => switches n' end.

(** C21: round robin: when the current process runs and all others are queued, every process of
    the ring gets its turn: the process at position [k] runs after exactly [k] switches,
    so nobody waits longer than one round. *)
Theorem round_robin_fair s c l1 q l2 :
  runnable s (c :: l1 ++ q :: l2) ->
  exists s', switches (S (length l1)) s = Ret (tt, s') /\ current_process s' = q /\
    in_state s' RUNNING q /\ runnable s' (q :: l2 ++ c :: l1).
Proof.
  revert s c l2; induction l1 as [|p l1 IH]; intros s c l2 Hr.
  - destruct (runnable_switch s c q l2 Hr) as (s' & Hrun & Hr'). exists s'.
    pose proof Hr' as [[Hhd _ _] Hcur _]. injection Hhd as Hq. split_and!; [|done|by rewrite Hq|done].
    cbn [switches length]. by rewrite (bind_ret _ _ _ _ _ Hrun).
  - destruct (runnable_switch s c p (l1 ++ q :: l2) Hr) as (s1 & Hrun & Hr1).
    rewrite <- app_assoc in Hr1. cbn [app] in Hr1.
    destruct (IH s1 p (l2 ++ [c]) Hr1) as (s2 & Hrun2 & H2 & H3 & H4). exists s2.
    split_and!; [|done|done|by rewrite <- app_assoc in H4].
    remember (S (length l1)) as n. cbn [length switches]. rewrite (bind_ret _ _ _ _ _ Hrun). by subst n.
Qed.

(** ** Killing and waiting *)

Lemma kill_scan_found s l q r last p fuel t :
  links (threads s) (l ++ q :: r) last -> current_process s ∉ l ++ [q] ->
  threads s !! q = Some t -> pid t = p ->
  Forall (fun x => forall u, threads s !! x = Some u -> pid u <> p) l -> (length l < fuel)%nat ->
  kill_scan fuel p (match l with [] => q | x :: _ => x end) s = Ret (false, s).
Proof.
  intros Hl Hc Hq Hpid. revert fuel Hl Hc; induction l as [|x l IH]; intros [|f] Hl Hc Hall Hf; simpl in Hf;
    try lia; cbn [kill_scan]; unfold gets; rewrite (bind_ret _ _ _ _ _ eq_refl).
  - destruct (Z.eqb_spec q (current_process s)) as [->|]; [exfalso; apply Hc; by left|].
    rewrite (bind_ret _ _ _ _ _ (th_ok _ _ _ Hq)), Hpid, Z.eqb_refl. done.
  - destruct Hl as [(u & Hu & Hn) Hl]. apply Forall_cons_1 in Hall as [Hx Hall].
    apply not_elem_of_cons in Hc as [Hcx Hc]. destruct (Z.eqb_spec x (current_process s)); [congruence|].
    rewrite (bind_ret _ _ _ _ _ (th_ok _ _ _ Hu)). destruct (Z.eqb_spec (pid u) p) as [E|]; [by destruct (Hx u Hu)|].
    replace (next u) with (match l with [] => q | p :: _ => p end) by (by destruct l).
    apply IH; [done|done|done|lia].
Qed.

(** C36: [kill] never kills another process: when [p] is the identifier of a process of the
    ring other than the current one and the idle process, [kill_kern p] returns -1 and changes nothing. *)
Theorem kill_kern_never_kills_others s c l1 q l2 p t :
  ring s (c :: l1 ++ q :: l2) -> 1 < p < MAX_P -> processes s !! Z.to_nat p = Some 1 ->
  threads s !! q = Some t -> pid t = p ->
  Forall (fun x => forall u, threads s !! x = Some u -> pid u <> p) (c :: l1) ->
  kill_kern p s = Ret (-1, s).
Proof.
  intros Hr Hp Hused Hq Hpid Hall. pose proof (ring_size _ _ Hr) as Hsz. destruct Hr as [Hhd Hl Hnd].
  injection Hhd as Hc. destruct Hl as [(tc & Htc & Hn) Hl]. apply list.NoDup_cons in Hnd as [Hcn _].
  apply Forall_cons_1 in Hall as [Hcp Hall]. unfold kill_kern.
  destruct (Z.leb_spec p 0); [lia|]. destruct (Z.leb_spec MAX_P p); [lia|]. destruct (Z.eqb_spec p 1); [lia|].
  unfold gets. rewrite (bind_ret _ _ _ _ _ eq_refl).
  rewrite Hused. cbn [deref]. rewrite (bind_ret _ _ _ _ _ eq_refl). change (1 =? 0) with false. cbn iota.
  rewrite (bind_ret _ _ _ _ _ eq_refl), <- Hc, (bind_ret _ _ _ _ _ (th_ok _ _ _ Htc)).
  destruct (Z.eqb_spec (pid tc) p) as [E|]; [by destruct (Hcp tc Htc)|]. rewrite andb_false_r.
  unfold ring_fuel, gets. rewrite (bind_ret _ _ _ _ _ eq_refl). rewrite (bind_ret _ _ _ false s); [done|].
  replace (next tc) with (match l1 with [] => q | p :: _ => p end) by (by destruct l1).
  eapply (kill_scan_found s l1 q l2); [done| |done|done|done|].
  - rewrite <- Hc. intros Hin. apply Hcn. apply elem_of_app in Hin as [?|?%list_elem_of_singleton];
      apply elem_of_app; [by left|right; subst q; by left].
  - cbn [length] in Hsz. rewrite length_app in Hsz. lia.
Qed.

Lemma wait_scan_alive s l last sel tc ex fuel prev :
  links (threads s) l last -> current_process s ∉ l -> threads s !! current_process s = Some tc ->
  last = current_process s ->
  (forall p t, p ∈ l -> threads s !! p = Some t -> state t <> ZOMBIE) -> (length l < fuel)%nat ->
  (ex = true \/ exists p t, p ∈ l /\ threads s !! p = Some t /\ sel t = true /\ ppid t = pid tc) ->
  exists prev', wait_scan fuel sel ex (match l with [] => last | p :: _ => p end) prev s =
    Ret (WYield (current_process s) prev', s).
Proof.
  intros Hl Hc Htc -> Hz. revert fuel ex prev Hl Hc Hz; induction l as [|p l IH];
    intros [|f] ex prev Hl Hc Hz Hf Hex; simpl in Hf; try lia; cbn [wait_scan]; unfold gets;
    rewrite (bind_ret _ _ _ _ _ eq_refl), (bind_ret _ _ _ _ _ (th_ok _ _ _ Htc)).
  - rewrite Z.eqb_refl. destruct Hex as [->|(p & t & Hp & _)]; [by eexists|by apply not_elem_of_nil in Hp].
  - destruct Hl as [(t & Ht & Hn) Hl]. apply not_elem_of_cons in Hc as [Hcp Hc].
    destruct (Z.eqb_spec p (current_process s)); [congruence|]. rewrite (bind_ret _ _ _ _ _ (th_ok _ _ _ Ht)).
    rewrite (bool_decide_false (state t = ZOMBIE)) by (eapply Hz; [by left|done]).
    assert (next t = match l with [] => current_process s | p :: _ => p end) as Hnt by (by destruct l).
    destruct (sel t && (ppid t =? pid tc)) eqn:Hsel; rewrite Hnt.
    + apply IH; [done|done| |lia|by left]. intros x u Hx. apply Hz. by right.
    + apply IH; [done|done| |lia|]; [intros x u Hx; apply Hz; by right|].
      destruct Hex as [->|(x & u & Hx & Hu & Hs & Hpp)]; [by left|right].
      apply elem_of_cons in Hx as [->|Hx]; [|by exists x, u].
      assert (u = t) as -> by congruence. rewrite Hs, Hpp, Z.eqb_refl in Hsel. done.
Qed.

(** C37: [wait] does not wait: with a living child and no exited process, [wait] yields once,
    and whatever has happened when it runs again, even when the child has exited or is still
    running, it returns -1, because its loop variable is not reset. *)
Theorem wait_gives_up_after_yield s c r p t tc :
  ring s (c :: r) -> threads s !! c = Some tc -> p ∈ r -> threads s !! p = Some t -> ppid t = pid tc ->
  (forall q u, q ∈ r -> threads s !! q = Some u -> state u <> ZOMBIE) ->
  exists prev, wait s = Ret (WYield c prev, s) /\
    forall s' tc', current_process s' = c -> threads s' !! c = Some tc' ->
      wait_iter (fun _ => true) c prev s' = Ret (WReturn (-1), s').
Proof.
  intros Hr Htc Hp Ht Hpp Hz. pose proof (ring_size _ _ Hr) as Hsz. destruct Hr as [Hhd Hl Hnd].
  injection Hhd as Hc. destruct Hl as [(tc1 & Htc1 & Hn) Hl]. apply list.NoDup_cons in Hnd as [Hcn _].
  assert (tc1 = tc) as -> by congruence. cbn [length] in Hsz.
  destruct (wait_scan_alive s r c (fun _ => true) tc false (S (size (threads s))) c)
    as (prev & Hrun); [by rewrite Hc|by rewrite <- Hc|by rewrite <- Hc|done|done|lia|by right; exists p, t|].
  exists prev. split.
  - unfold wait, wait_begin, gets. rewrite (bind_ret _ _ _ _ _ eq_refl), <- Hc, (bind_ret _ _ _ _ _ (th_ok _ _ _ Htc)).
    unfold wait_iter, ring_fuel, gets. rewrite (bind_ret _ _ _ _ _ eq_refl), Hn, Hc.
    rewrite Hc in Hrun. by destruct r.
  - intros s' tc' Hc' Ht'. unfold wait_iter, ring_fuel, gets. rewrite (bind_ret _ _ _ _ _ eq_refl).
    cbn [wait_scan]. unfold gets. rewrite (bind_ret _ _ _ _ _ eq_refl), Hc', (bind_ret _ _ _ _ _ (th_ok _ _ _ Ht')).
    by rewrite Z.eqb_refl.
Qed.

(** ** Creating a process *)

(** Two states that differ in the machine and the process table only. *)
Definition same_threads (s s' : kern) : Prop :=
  threads s' = threads s /\ current_process s' = current_process s.

Lemma on_bytes_threads {A} (c : M bytes A) s a s' : on_bytes c s = Ret (a, s') -> same_threads s s'.
Proof. intros (t & _ & ->)%zoom_inv. done. Qed.

Lemma on_vfs_threads {A} (c : VM A) s a s' : on_vfs c s = Ret (a, s') -> same_threads s s'.
Proof. intros (t & _ & ->)%zoom_inv. done. Qed.

Lemma on_mach_threads {A} (c : M machine A) s a s' : on_mach c s = Ret (a, s') -> same_threads s s'.
Proof. intros (m' & _ & ->)%zoom_inv. done. Qed.

Lemma get_pid_loop_threads fuel i s a s' : get_pid_loop fuel i s = Ret (a, s') -> same_threads s s'.
Proof.
  revert i; induction fuel as [|f IH]; intros i; cbn [get_pid_loop]; [by intros [= _ <-]|].
  unfold gets. rewrite (bind_ret _ _ _ _ _ eq_refl).
  destruct (processes s !! Z.to_nat i) as [[]|]; [|apply IH..|done]. by intros [= _ <-].
Qed.

End scheduling.


(** ** A system of three processes *)

(** A loader that leaves the image empty. *)
Definition null_load (p f : Z) : M kern Z := mret 0.

Lemma null_load_keeps p f s u s' : null_load p f s = Ret (u, s') -> loader_step s s'.
Proof. intros [= _ <-]. split; [done..|]. intros q. destruct (threads s !! q); by constructor. Qed.

#[export] Instance null_loader : Loader :=
  {| load_file := null_load; load_file_keeps := null_load_keeps |}.

Definition demo_thread (p pp c3 nx : Z) (x : process_state) : kthread :=
  KThread 0 p c3 0 0 pp 0 0 nx (replicate NUM_FDS 0) (replicate CWD_SIZE 0) x.

(** Literals and local arrays between 1000 and 3000; the archive is empty. *)
#[export] Instance demo_symbols : ProcSymbols := {|
  msg_no_process := 1000; msg_bad_state := 1000; msg_reap_only := 1000; msg_exit_only := 1000;
  msg_kill_le_0 := 1000; msg_kill_range := 1000; msg_kill_idle := 1000; msg_kill_none := 1000;
  msg_kill_only := 1000; msg_segv := 1000; str_sbush := 1000; str_idle := 1000; str_pid := 1000;
  str_ppid := 1000; str_name := 1000; str_status := 1000; str_running := 1000; str_queued := 1000;
  str_zombie := 1000; str_nl := 1000; fn_init_scheduler := 0; tarfs_start := 3000; tarfs_end := 3512;
  p_name_create := 2000; p_name_copy := 2200; p_name_exec := 2400; filename_copy := 2600; num_array := 2800; left_over := fun _ _ => 0 |}.
#[export] Instance demo_vfs_symbols : VfsSymbols := {| terminal_fs_impl := 500; str_stdin := 1000; str_stdout := 1000 |}.

(** The string "bin/sbush" at 1000, room for local arrays from 2000 on. *)
Definition demo_bytes_of (text : list Z) : bytes :=
  write_bytes 1000 (text ++ [0]) (write_bytes 2000 (replicate 1000 0) ∅).
Definition sbush_text : list Z := [98; 105; 110; 47; 115; 98; 117; 115; 104].
Definition demo_tty : tty := Tty (Console (demo_bytes_of sbush_text) 0 0) [] 0.
Definition demo_vfs : vfs := VfsState ∅ ({[500 := terminal_table]}) 0 0 0 0.

Definition demo_kern : kern :=
  Kern demo_machine
    (<[100 := demo_thread 1 0 0x1000 200 RUNNING]> (<[200 := demo_thread 2 1 0x2000 300 QUEUED]>
      (<[300 := demo_thread 3 1 0x3000 100 QUEUED]> ∅)))
    ∅ ∅ 100 ([0; 1; 1; 1] ++ replicate 996 0) demo_tty demo_vfs 0.

Lemma demo_ring : ring demo_kern [100; 200; 300].
Proof.
  split; [done| |].
  - split; [by eexists|]. split; [by eexists|]. split; [by eexists|done].
  - repeat (apply list.NoDup_cons; split; [rewrite ?not_elem_of_cons; split_and?; done || apply not_elem_of_nil|]).
    constructor.
Qed.

Lemma demo_queued p : p ∈ [200; 300] -> in_state demo_kern QUEUED p.
Proof. intros [->|[->|[]%not_elem_of_nil]%elem_of_cons]%elem_of_cons; by eexists. Qed.

Lemma demo_runnable : runnable demo_kern [100; 200; 300].
Proof. split; [apply demo_ring|by eexists|apply demo_queued]. Qed.

Lemma getPID_least_unused_witness :
  exists p s', getPID demo_kern = Ret (p, s') /\ (p = 4 \/ p = -1).
Proof.
  destruct (getPID_least_unused demo_kern) as [(p & Hp & Hz & Hall & H)|[Hall H]]; [reflexivity| |].
  - exists p. eexists. split; [exact H|]. left. destruct (decide (p < 4)) as [Hlt|Hge].
    + exfalso. assert (p = 1 \/ p = 2 \/ p = 3) as [->|[->| ->]] by lia; discriminate Hz.
    + destruct (decide (p = 4)) as [|Hne]; [assumption|]. exfalso. apply (Hall 4); [lia|reflexivity].
  - exists (-1), demo_kern. split; [exact H|]. right. reflexivity.
Defined.

Lemma switch_process_next_queued_witness :
  exists s', switch_process demo_kern = Ret (tt, s') /\ ring s' [200; 300; 100].
Proof.
  destruct (switch_process_next_queued demo_kern 100 [] 200 [300] demo_ring) as (s' & H1 & H2 & _).
  - intros (t & Ht & Hs). vm_compute in Ht. injection Ht as <-. discriminate Hs.
  - constructor.
  - apply demo_queued. by left.
  - exists s'. split; [exact H1|exact H2].
Defined.

Lemma round_robin_fair_witness :
  exists s', switches 2 demo_kern = Ret (tt, s') /\ current_process s' = 300.
Proof.
  destruct (round_robin_fair demo_kern 100 [200] 300 [] demo_runnable) as (s' & H1 & H2 & _).
  exists s'. split; [exact H1|exact H2].
Defined.

Lemma kill_kern_never_kills_others_witness : kill_kern 3 demo_kern = Ret (-1, demo_kern).
Proof.
  apply (kill_kern_never_kills_others demo_kern 100 [200] 300 [] 3 (demo_thread 3 1 0x3000 100 QUEUED) demo_ring);
    [unfold MAX_P; lia|reflexivity..|].
  constructor; [intros u Hu; vm_compute in Hu; injection Hu as <-; discriminate|].
  constructor; [intros u Hu; vm_compute in Hu; injection Hu as <-; discriminate|constructor].
Defined.

Lemma wait_gives_up_after_yield_witness :
  exists prev, wait demo_kern = Ret (WYield 100 prev, demo_kern).
Proof.
  destruct (wait_gives_up_after_yield demo_kern 100 [200; 300] 200 (demo_thread 2 1 0x2000 300 QUEUED)
    (demo_thread 1 0 0x1000 200 RUNNING) demo_ring) as (prev & H & _); [reflexivity|by left|reflexivity..| |].
  - intros q u Hq Hu. destruct (demo_queued q Hq) as (u' & Hu' & Hs). congruence.
  - exists prev. exact H.
Defined.
