(* ===== verification/UserMem.v ===== *)
(** * Memory of a process: the stack and [user_malloc]

    The loops of [sys/process.c] and of the page-fault handler that give a process memory
    are [map_fresh] on the machine; the theorems say which pages are mapped and that
    nothing else changes. *)

From S2P Require Import Prelude PhysMem Paging PageTable PagingSpec Cow MapRange CStr Console Terminal Vfs Process ProcessSpec.

Lemma on_mach_ret {A} (c : M machine A) s a m' :
  c (mach s) = Ret (a, m') -> on_mach c s = Ret (a, set_mach m' s).
Proof. apply zoom_ret. Qed.

Definition with_mem (b : bytes) (s : kern) : kern := set_term (set_con (set_mem b (con (term s))) (term s)) s.

Lemma on_bytes_ret {A} (c : M bytes A) s a b : c (mem (con (term s))) = Ret (a, b) -> on_bytes c s = Ret (a, with_mem b s).
Proof.
  intros H. unfold on_bytes, on_term, on_con, on_mem. by erewrite zoom_ret; [|apply zoom_ret, zoom_ret; exact H].
Qed.

Lemma vma_ok s p a : vmas s !! p = Some a -> vma p s = Ret (a, s).
Proof. intros H. unfold vma, gets. rewrite (bind_ret _ _ _ _ _ eq_refl). by rewrite H. Qed.

Lemma mm_ok s p a : mms s !! p = Some a -> mm p s = Ret (a, s).
Proof. intros H. unfold mm, gets. rewrite (bind_ret _ _ _ _ _ eq_refl). by rewrite H. Qed.

Lemma map_fresh_inv flags va vas m m' :
  map_fresh flags (va :: vas) m = Ret (tt, m') ->
  exists m1, map_fresh_page flags va m = Ret (tt, m1) /\ map_fresh flags vas m1 = Ret (tt, m').
Proof. cbn [map_fresh]. intros ([] & m1 & H1 & H2)%bind_inv. eauto. Qed.

(** A loop over a sequence of pages is [map_fresh] on the machine. *)
Lemma map_loop flags (f : Z -> Z) n i s m' :
  map_fresh flags (f <$> seqZ i (Z.of_nat n)) (mach s) = Ret (tt, m') ->
  for_loop n i (fun i => on_mach (map_fresh_page flags (f i))) s = Ret (tt, set_mach m' s).
Proof.
  revert i s; induction n as [|n IH]; intros i s H.
  - injection H as <-. by destruct s.
  - rewrite seqZ_cons in H by lia. cbn [fmap list_fmap] in H.
    apply map_fresh_inv in H as (m1 & H1 & H2). cbn [for_loop].
    rewrite (bind_ret _ _ _ _ _ (on_mach_ret _ _ _ _ H1)).
    replace (Z.pred (Z.of_nat (S n))) with (Z.of_nat n) in H2 by lia.
    exact (IH (Z.succ i) (set_mach m1 s) H2).
Qed.

(** ** The stack *)

(** The pages below [end_], downwards. *)
Definition down_range (end_ : Z) (n : nat) : list Z := (fun k => end_ - k * 4096) <$> seqZ 1 (Z.of_nat n).

Lemma down_range_cons end_ n : down_range end_ (S n) = (end_ - 4096) :: down_range (end_ - 4096) n.
Proof.
  unfold down_range. rewrite seqZ_cons by lia. cbn [fmap list_fmap].
  replace (end_ - 1 * 4096) with (end_ - 4096) by lia. f_equal.
  replace (Z.pred (Z.of_nat (S n))) with (Z.of_nat n) by lia.
  rewrite <- (fmap_add_seqZ 1 1), <- list_fmap_compose. apply list_fmap_ext. intros i x _. simpl. lia.
Qed.

Lemma down_range_nodup end_ n : Z.of_nat n <= 2 ^ 20 - 1 -> NoDup (vpn <$> down_range end_ n).
Proof.
  intros Hn. unfold down_range. rewrite <- list_fmap_compose.
  apply NoDup_fmap_2_strong; [|apply NoDup_seqZ]. intros i j Hi%elem_of_seqZ Hj%elem_of_seqZ Hv.
  simpl in Hv. enough (Z.of_nat n - i = Z.of_nat n - j) by lia.
  apply (vpn_page_inj (end_ - Z.of_nat n * 4096)); [lia|lia|].
  replace (end_ - Z.of_nat n * 4096 + (Z.of_nat n - i) * 4096) with (end_ - i * 4096) by lia.
  by replace (end_ - Z.of_nat n * 4096 + (Z.of_nat n - j) * 4096) with (end_ - j * 4096) by lia.
Qed.

(** A stack area with its lower end moved. *)
Definition stack_to (a : vma_struct) (e : Z) : vma_struct :=
  Vma (vma_start a) e (vma_type a) (vma_flags a) (vma_next a).

Lemma grow_stack_ok n st s a m' :
  vmas s !! st = Some a -> 0 <= vma_end a - Z.of_nat n * 4096 -> vma_end a < 2 ^ 64 ->
  map_fresh PAGING_USER_R_W_FLAGS (down_range (vma_end a) n) (mach s) = Ret (tt, m') ->
  grow_stack n st s =
    Ret (tt, set_vmas (<[st := stack_to a (vma_end a - Z.of_nat n * 4096)]> (vmas s)) (set_mach m' s)).
Proof.
  revert s a; induction n as [|n IH]; intros s a Ha Hlo Hhi Hrun.
  - injection Hrun as <-. cbn [grow_stack]. unfold mret, M_ret. do 2 f_equal.
    destruct s, a. unfold set_vmas, set_mach, stack_to. simpl in *. f_equal.
    rewrite insert_id; [done|]. rewrite Ha. do 2 f_equal. lia.
  - rewrite down_range_cons in Hrun. apply map_fresh_inv in Hrun as (m1 & H1 & H2).
    cbn [grow_stack]. rewrite (bind_ret _ _ _ _ _ (vma_ok _ _ _ Ha)). unfold PAGE_SIZE.
    rewrite u64_small by lia. fold (stack_to a (vma_end a - 4096)).
    rewrite (bind_ret _ _ _ tt (set_vmas (<[st := stack_to a (vma_end a - 4096)]> (vmas s)) s)) by done.
    set (s1 := set_vmas _ s). rewrite (bind_ret _ _ _ _ _ (on_mach_ret _ s1 _ _ H1)).
    rewrite (IH (set_mach m1 s1) (stack_to a (vma_end a - 4096))).
    + unfold s1, set_vmas, set_mach, stack_to. simpl. rewrite insert_insert_eq. do 5 f_equal. lia.
    + simpl. apply lookup_insert_eq.
    + simpl. lia.
    + simpl. lia.
    + exact H2.
Qed.

(** A page that is not copy-on-write is left to the rest of the handler. *)
Lemma page_fault_cow_no m roots l fault_addr :
  spaces_inv m roots l -> cr3 m ∈ roots ->
  Z.testbit (pte (ram (pm m)) (cr3 m) (fault_addr / PAGE_SIZE * PAGE_SIZE)) 9 = false ->
  page_fault_cow fault_addr m = Ret (false, m).
Proof.
  intros Hinv Hroot Hb. assert (aligned (cr3 m)) as Hc by (by apply Hinv).
  unfold page_fault_cow. rewrite (bind_ret _ _ _ _ _ (get_flags_ok _ _ Hc)). by rewrite cow_bit, Hb.
Qed.

Section user_memory.
Context {LD : Loader} {PS : ProcSymbols} {VS : VfsSymbols}.

(** The current process, its memory descriptor and the area [a] at [p]. *)
Record owns (s : kern) (t : kthread) (mmp : mm_struct) (p : Z) (a : vma_struct) : Prop := {
  ow_thread : threads s !! current_process s = Some t;
  ow_mm : mms s !! process_mm t = Some mmp;
  ow_vma : vmas s !! p = Some a
}.

(** C26: a fault below the stack grows it: when the page is not copy-on-write, lies [n] pages
    below the end of the stack area, and the area is not yet beyond the limit, the
    handler maps all [n] pages in between to distinct fresh frames, writable by the
    user, moves the end of the area to the faulting page and changes nothing else.
    The limit is only compared with the old size: this holds for every such
    address, a null pointer included. *)
Theorem page_fault_grows_stack s roots l t mmp st fault_addr n :
  owns s t mmp (vma_stack mmp) st -> spaces_inv (mach s) roots l -> cr3 (mach s) ∈ roots ->
  Z.testbit (pte (ram (pm (mach s))) (cr3 (mach s)) (fault_addr / PAGE_SIZE * PAGE_SIZE)) 9 = false ->
  0 <= fault_addr -> vma_end st = fault_addr / PAGE_SIZE * PAGE_SIZE + Z.of_nat n * PAGE_SIZE ->
  vma_end st < 2 ^ 64 -> 0 <= vma_start st - vma_end st <= LIMIT_STACK ->
  Z.of_nat n < 2 ^ 20 -> MIN_PAGES + 4 * Z.of_nat n <= Z.of_nat (length l) ->
  exists phs m' l', page_fault_handler fault_addr s =
      Ret (tt, set_vmas (<[vma_stack mmp := stack_to st (fault_addr / PAGE_SIZE * PAGE_SIZE)]> (vmas s)) (set_mach m' s)) /\
    fresh_mapped roots l PAGING_USER_R_W_FLAGS (down_range (vma_end st) n) phs (mach s) m' l'.
Proof.
  intros [Ht Hmm Hst] Hinv Hroot Hcow Hf Hend Hhi Hlim Hn Hlen.
  set (addr := fault_addr / PAGE_SIZE * PAGE_SIZE) in *.
  assert (0 <= addr) as Ha by (unfold addr, PAGE_SIZE; pose proof (Z.div_pos fault_addr 4096); lia).
  unfold PAGE_SIZE in Hend.
  destruct (map_fresh_ok PAGING_USER_R_W_FLAGS (down_range (vma_end st) n) (mach s) roots l)
    as (phs & m' & l' & Hrun & Hfm); [done|done|auto with snow|apply down_range_nodup; lia| |].
  { unfold down_range. rewrite length_fmap, length_seqZ. lia. }
  exists phs, m', l'. split; [|done]. unfold page_fault_handler.
  rewrite (bind_ret _ _ _ false s).
  2: { rewrite (on_mach_ret _ _ _ _ (page_fault_cow_no _ _ _ _ Hinv Hroot Hcow)). by destruct s. }
  unfold gets. rewrite (bind_ret _ _ _ _ _ eq_refl), (bind_ret _ _ _ _ _ (th_ok _ _ _ Ht)).
  rewrite (bind_ret _ _ _ _ _ (mm_ok _ _ _ Hmm)), (bind_ret _ _ _ _ _ (vma_ok _ _ _ Hst)). fold addr.
  rewrite u64_small by (unfold LIMIT_STACK in Hlim; lia).
  destruct (Z.leb_spec addr (vma_end st)); [|lia].
  destruct (Z.leb_spec (vma_start st - vma_end st) LIMIT_STACK); [|lia]. cbn [andb].
  replace (Z.to_nat ((vma_end st - addr) / PAGE_SIZE)) with n.
  2: { replace (vma_end st - addr) with (Z.of_nat n * 4096) by lia. unfold PAGE_SIZE. rewrite Z.div_mul by lia. lia. }
  rewrite (grow_stack_ok n (vma_stack mmp) s st m') by (done || lia). do 5 f_equal. lia.
Qed.

(** ** [user_malloc] *)

(** The rounding of [user_malloc] in pages. *)
Lemma alloc_end start bytes :
  0 <= start -> 0 < bytes < 2 ^ 32 -> start + bytes + 4096 < 2 ^ 64 ->
  (if bytes mod PAGE_SIZE =? 0 then u64 (start + bytes)
   else u64 (start + (bytes / PAGE_SIZE + 1) * PAGE_SIZE)) = start + pages_for bytes * 4096.
Proof.
  intros Hs Hb Hhi. unfold pages_for, PAGE_SIZE.
  pose proof (Z.div_mod bytes 4096 ltac:(lia)). pose proof (Z.mod_pos_bound bytes 4096 ltac:(lia)).
  destruct (Z.eqb_spec (bytes mod 4096) 0); rewrite u64_small by lia; lia.
Qed.

(** The loop bound of [user_malloc]. *)
Lemma alloc_pages start n : 0 <= n -> (start + n * 4096 - start + PAGE_SIZE - 1) / PAGE_SIZE = n.
Proof.
  intros Hn. unfold PAGE_SIZE. replace (start + n * 4096 - start + 4096 - 1) with (4095 + n * 4096) by lia.
  by rewrite Z.div_add by lia.
Qed.

(** One page for the descriptor of a new area. *)
Lemma kmalloc_vma m roots l :
  spaces_inv m roots l -> cr3 m ∈ roots -> kernel_virtual_base m mod 4096 = 0 ->
  MIN_PAGES + 4 <= Z.of_nat (length l) ->
  exists v m1 l1, kmalloc SIZEOF_VMA m = Ret (v, m1) /\ spaces_inv m1 roots l1 /\ same_regs m m1 /\
    suffix l1 l /\ Z.of_nat (length l) <= Z.of_nat (length l1) + 4 /\
    forall va', vpn v <> vpn va' -> pte (ram (pm m1)) (cr3 m) va' = pte (ram (pm m)) (cr3 m) va'.
Proof.
  intros Hinv Hroot Hk Hlen. assert (pages_for SIZEOF_VMA = 1) as Hp by reflexivity.
  destruct (kmalloc_spec m roots l SIZEOF_VMA) as (p & phs & m1 & l1 & Hrun & Hl & Hh);
    [done|done|done|done|rewrite Hp; lia|].
  rewrite Hp in Hl. destruct phs as [|? phs]; [|cbn [length] in Hl; lia].
  destruct Hh as [Hinv1 Hregs _ Hoth _ _ _ Hsub Hlen1]. cbn [length] in Hlen1.
  eexists _, m1, l1. split_and!; [exact Hrun|done|done|done|lia|].
  intros va' Hva. apply Hoth; [done|]. intros [|k] Hk'; [|cbn [length] in Hk'; lia].
  unfold heap_va. simpl. by rewrite Z.add_0_r.
Qed.

(** The state after an area [v] of [n] pages has been put behind the last area [it]; type and flags of the new area
    are what was in memory. *)
Definition area_added (left : Z -> Z) (s : kern) (t : kthread) (mmp : mm_struct) (it : vma_struct) (v n : Z) (m' : machine) : kern :=
  set_mms (<[process_mm t := MM (vma_map mmp) v (vma_stack mmp) (vma_heap mmp)]> (mms s))
    (set_vmas (<[vma_map_iter mmp := Vma (vma_start it) (vma_end it) (vma_type it) (vma_flags it) v]>
       (<[v := Vma (vma_end it) (vma_end it + n * 4096) (left_word left (v + OFF_VMA_TYPE)) (left_word left (v + OFF_VMA_FLAGS)) 0]>
          (vmas s))) (set_mach m' s)).

(** C27: [user_malloc] of [bytes] (below 4 GB, with enough free pages) returns the end of the
    last area of the process, appends an area of the rounded-up size (its type and flags left as they are in memory) to its list, and
    maps every page of the area to a frame of its own that was free, writable by the user; every
    other page of the address space, but for the kernel page of the area's descriptor,
    stays as it was. *)
Theorem user_malloc_maps_area s roots l t mmp it bytes :
  owns s t mmp (vma_map_iter mmp) it -> spaces_inv (mach s) roots l -> cr3 (mach s) ∈ roots ->
  kernel_virtual_base (mach s) mod 4096 = 0 -> 0 < bytes < 2 ^ 32 ->
  0 <= vma_end it -> vma_end it + bytes + 4096 < 2 ^ 64 ->
  MIN_PAGES + 4 * (pages_for bytes + 1) <= Z.of_nat (length l) ->
  let area := page_range (vma_end it) (Z.to_nat (pages_for bytes)) in
  let m := mach s in
  exists v s0 frames m' l', user_malloc bytes s = Ret (vma_end it, area_added (left_over s0) s t mmp it v (pages_for bytes) m') /\
    spaces_inv m' roots l' /\ NoDup frames /\ (forall f, f ∈ frames -> f ∈ l /\ (f ∉ l')) /\
    Forall2 (fun va f => pte (ram (pm m')) (cr3 m) va = Z.lor (f * 4096) PAGING_USER_R_W_FLAGS) area frames /\
    (forall va', vpn v <> vpn va' -> Forall (fun va => vpn va <> vpn va') area ->
       pte (ram (pm m')) (cr3 m) va' = pte (ram (pm m)) (cr3 m) va').
Proof.
  intros [Ht Hmm Hit] Hinv Hroot Hk Hb Hlo Hhi Hlen area m. pose proof (pages_for_pos bytes Hb) as Hn.
  destruct (kmalloc_vma m roots l) as (v & m1 & l1 & Hrun1 & Hinv1 & Hregs1 & Hsub1 & Hlen1 & Hoth1);
    [done|done|done|lia|].
  assert (cr3 m1 = cr3 m) as Hc by apply Hregs1.
  destruct (map_fresh_ok PAGING_USER_R_W_FLAGS area m1 roots l1) as (phs & m' & l' & Hrun & Hfm);
    [done|by rewrite Hc|auto with snow|apply page_range_nodup; lia| |].
  { unfold area, page_range. rewrite length_fmap, length_seqZ. lia. }
  destruct Hfm as [Hinv' _ Hpte Hoth _ Hfr Hnd Hsub _ _ _]. rewrite Hc in Hpte, Hoth.
  exists v, (set_mach m1 s), phs, m', l'. split_and!; [|done|done| |done|].
  - unfold user_malloc, gets. rewrite (bind_ret _ _ _ _ _ eq_refl), (bind_ret _ _ _ _ _ (th_ok _ _ _ Ht)).
    rewrite (bind_ret _ _ _ _ _ (mm_ok _ _ _ Hmm)), (bind_ret _ _ _ _ _ (vma_ok _ _ _ Hit)).
    cbv zeta. rewrite alloc_end, alloc_pages by (done || lia).
    rewrite (bind_ret _ _ _ _ _ (on_mach_ret _ s _ _ Hrun1)).
    unfold set_vma, new_vma, set_mm, modify. do 3 rewrite (bind_ret _ _ _ _ _ eq_refl).
    set (s1 := area_added (left_over (set_mach m1 s)) s t mmp it v (pages_for bytes) m1).
    by rewrite (bind_ret _ _ _ _ _ (map_loop _ (fun i => vma_end it + i * 4096) _ 0 s1 m' Hrun)).
  - intros f Hf. destruct (Hfr f Hf) as [H1 H2]. split; [by apply (suffix_elem l1)|done].
  - intros va' Hv Hall. rewrite Hoth by done. by apply Hoth1.
Qed.
End user_memory.

(** ** Witnesses *)

Definition demo_owner_thread : kthread := KThread 0 1 4096 50 0 0 0 0 100 [] [] RUNNING.

(** A process with one area below 4 MB and a stack of one page that ends at 0xEFFFF000. *)
Definition demo_owner : kern :=
  Kern demo_machine
    (<[100 := demo_owner_thread]> ∅)
    (<[60 := Vma 0xF0000000 0xEFFFF000 0 0 0]> (<[70 := Vma 0x300000 0x400000 0 0 0]> ∅))
    (<[50 := MM 70 70 60 0]> ∅) 100 [] demo_tty demo_vfs 0.

Lemma demo_owns_stack :
  owns demo_owner (demo_owner_thread) (MM 70 70 60 0) 60 (Vma 0xF0000000 0xEFFFF000 0 0 0).
Proof. by split. Qed.

Lemma demo_owns_area :
  owns demo_owner (demo_owner_thread) (MM 70 70 60 0) 70 (Vma 0x300000 0x400000 0 0 0).
Proof. by split. Qed.

Lemma page_fault_grows_stack_witness :
  exists s', page_fault_handler 0xEFFFD123 demo_owner = Ret (tt, s') /\
    vmas s' !! 60 = Some (Vma 0xF0000000 0xEFFFD000 0 0 0).
Proof.
  destruct (page_fault_grows_stack demo_owner [4096] (seqZ 2 38) _ _ _ 0xEFFFD123 2
    demo_owns_stack demo_machine_inv demo_root) as (phs & m' & l' & Hrun & _);
    [vm_compute; reflexivity|lia|reflexivity|reflexivity|by vm_compute|reflexivity|by vm_compute|].
  eexists. split; [exact Hrun|reflexivity].
Defined.

Lemma user_malloc_maps_area_witness :
  exists s', user_malloc 5000 demo_owner = Ret (0x400000, s').
Proof.
  destruct (user_malloc_maps_area demo_owner [4096] (seqZ 2 38) _ _ _ 5000
    demo_owns_area demo_machine_inv demo_root) as (v & s0 & phs & m' & l' & Hrun & _);
    [reflexivity|lia|by vm_compute|reflexivity|by vm_compute|].
  eexists. exact Hrun.
Defined.
