(* ===== verification/SyscallsSpec.v ===== *)
(** * Properties of the system calls

    Every system call keeps the kernel well formed; [open], [read] and [close] implement a table
    of open files. *)

From S2P Require Import Prelude PhysMem Paging PageTable PagingSpec MapRange VaMem Image.
From S2P Require Import CStr Console Terminal Tarfs Timer Vfs Process KernInv Syscalls ProcessSpec UserMem.

(** ** The invariant *)

Section invariant.
Context {LD : Loader} {PS : ProcSymbols} {VS : VfsSymbols} {L : Literals} {SS : SysSymbols}.

Definition swf (l ks : list Z) (s : sysk) : Prop := wf l ks (kn s).

Lemma swf_kn {A B} l ks (c : M kern A) (f : A -> M sysk B) Q :
  stable c -> (forall a, triple (swf l ks) (f a) Q) -> triple (swf l ks) (on_kn c ≫= f) Q.
Proof.
  intros Hc Hf. eapply triple_bind; [|exact Hf]. intros s a s' H (t & Hr & ->)%zoom_inv. by eapply Hc.
Qed.

Lemma swf_kn_end {A} l ks (c : M kern A) : stable c -> triple (swf l ks) (on_kn c) (fun _ => swf l ks).
Proof. intros Hc s a s' H (t & Hr & ->)%zoom_inv. by eapply Hc. Qed.

Lemma swf_timer {A} l ks (c : M timer A) : triple (swf l ks) (on_timer c) (fun _ => swf l ks).
Proof.
  intros s a s' ([W1 W2 W3 W4] & Hl & Hk) (t & _ & ->)%zoom_inv. split; [by split|done].
Qed.

Lemma swf_ret {A} l ks (a : A) : triple (swf l ks) (mret a) (fun _ => swf l ks).
Proof. by apply triple_ret. Qed.

Lemma swf_dirs l ks g : triple (swf l ks) (modify (fun s => set_dirs (g s) s)) (fun _ => swf l ks).
Proof. by intros s [] s' H [= <-]. Qed.

Lemma swf_gets {A} l ks (f : sysk -> A) : triple (swf l ks) (gets f) (fun _ => swf l ks).
Proof. intros s a s' H [= _ <-]. exact H. Qed.

(** A call that has not returned waits on records that exist: a read for a file object, a wait between two threads. *)
Definition pending_ok (s : kern) (r : sys_result) : Prop :=
  match r with
  | Reading p _ _ _ => p <> 0 /\ fo_valid (openf s) p
  | WaitChild _ it prev => is_Some (threads s !! it) /\ is_Some (threads s !! prev)
  | _ => True
  end.
Definition spost (l ks : list Z) (r : sys_result) (s : sysk) : Prop := swf l ks s /\ pending_ok (kn s) r.

Lemma swf_done l ks r : (forall s, pending_ok s r) -> triple (swf l ks) (mret r) (spost l ks).
Proof. intros H. apply triple_ret. intros s Hs. by split. Qed.

Lemma swf_returns l ks (c : M kern sys_result) : stable c -> (forall s r s', c s = Ret (r, s') -> exists v, r = Done v) ->
  triple (swf l ks) (on_kn c) (spost l ks).
Proof.
  intros Hc Hd s r s' H (t & Hr & ->)%zoom_inv. destruct (Hd _ _ _ Hr) as [v ->]. split; [by eapply Hc|done].
Qed.

Lemma swf_fails l ks fmt va : triple (swf l ks) (fails fmt va) (spost l ks).
Proof. apply swf_kn; [auto with wf|intros; by apply swf_done]. Qed.

Lemma stable_fd_get i : stable (fd_get i).
Proof. unfold fd_get, current. wf_tac. Qed.

Lemma stable_fo p : stable (on_vfs (fo p)).
Proof. apply stable_vfs. intros v0. eapply triple_weaken; [apply (vst_fo v0)|done|by intros f s [? _]]. Qed.

Lemma stable_impl p : stable (on_vfs (impl p)).
Proof.
  apply stable_vfs. intros v0. unfold impl. eapply triple_bind; [apply vst_vgets|]. intros o.
  intros s a s' [H _]. unfold deref. destruct o; [|done]. by intros [= _ <-].
Qed.

Lemma stable_read_done p n : stable (read_done p n).
Proof.
  unfold read_done. wf_tac. eapply stable_bind; [apply stable_vfs; intros v0; by apply vst_upd|intros; wf_end].
Qed.

Lemma swf_read_done l ks p n : triple (swf l ks) (on_kn (read_done p n)) (spost l ks).
Proof.
  apply swf_returns; [apply stable_read_done|]. intros s r s' (? & ? & _ & [= <- _])%bind_inv. by eexists.
Qed.

Lemma spost_sub l ks l' ks' {A} (c : M sysk A) (f : A -> sys_result) : l' ⊆ l -> ks' ⊆ ks ->
  triple (swf l ks) c (fun a => spost l ks (f a)) -> triple (swf l ks) c (fun a => spost l' ks' (f a)).
Proof. intros Hl Hk H s a s' Hs Hr. destruct (H _ _ _ Hs Hr) as [W P]. split; [by eapply wf_sub|done]. Qed.

(** The object at a descriptor is overwritten when it is closed. *)
Lemma wf_fo l ks p : triple (wf l ks) (on_vfs (fo p)) (fun f s => wf l ks s /\ fobjs (openf s) !! p = Some f).
Proof. apply (wf_vfs (fo p) (fun f v => fobjs v !! p = Some f)). intros v0. apply vst_fo. Qed.

(** Lifting from the kernel. *)
Lemma triple_kn {A} (P : kern -> Prop) (c : M kern A) Q :
  triple P c Q -> triple (fun s => P (kn s)) (on_kn c) (fun a s => Q a (kn s)).
Proof. intros H s a s' HP (t & Hr & ->)%zoom_inv. by eapply H. Qed.

Lemma wf_impl p s i s' : on_vfs (impl p) s = Ret (i, s') -> s' = s /\ is_Some (impls (openf s) !! p).
Proof.
  intros ([m v] & Hr & ->)%zoom_inv. unfold impl in Hr. apply bind_inv in Hr as (o & s1 & [= <- <-] & Hd). unfold deref in Hd.
  cbn [snd] in Hd. destruct (impls (openf s) !! p); [|done]. injection Hd as <- <- <-. split; [by destruct s|done].
Qed.

Lemma wf_replace l ks p f g : file_sys_impl g = file_sys_impl f ->
  triple (fun s => wf l ks s /\ fobjs (openf s) !! p = Some f) (on_vfs (set_fo p g)) (fun _ => wf l ks).
Proof.
  intros Hg. eapply triple_weaken; [apply (wf_vfs_from (set_fo p g) (fun v => fobjs v !! p = Some f) (fun _ _ => True) l ks)|done|].
  - intros v0. eapply triple_weaken; [by apply (vst_replace v0 p f)|done|done].
  - by intros [] s [? _].
Qed.

Lemma stable_fd_set i v l ks : v = 0 \/ v ∈ l -> triple (wf l ks) (fd_set i v) (fun _ => wf l ks).
Proof.
  intros Hv. unfold fd_set. wf_step. apply th_bind. intros t k L1 L2 L3. case_decide; [|by intros ? ?].
  eapply triple_weaken; [apply (wf_set_th (k ++ l))|done|].
  - simpl. by rewrite length_insert.
  - done.
  - intros j x. cbn [fds with_fds]. intros [(_ & -> & _)|[_ Hx]]%list_lookup_insert_Some.
    + destruct Hv; [by left|right; left; apply elem_of_app; by right].
    + destruct (L3 j x Hx) as [?|[?|?]]; [by left|right; left; apply elem_of_app; by left|by do 2 right].
  - intros [] s Hs. eapply wf_sub; [exact Hs|set_solver -..].
Qed.

(** ** Each call *)

Hint Resolve stable_fd_get stable_fo stable_impl stable_read_done : wf.

Ltac swf_step := first
  [ apply swf_fails | by apply swf_done | apply swf_ret | apply swf_dirs | apply swf_timer | apply swf_read_done
  | apply swf_kn_end; solve [auto with wf]
  | match goal with
    | |- triple _ (on_kn _ ≫= _) _ => apply swf_kn; [solve [auto with wf]|intros ?]
    | |- triple _ (on_timer _ ≫= _) _ => eapply triple_bind; [apply swf_timer|intros ?; cbv beta]
    | |- triple _ (gets _ ≫= _) _ => eapply triple_bind; [apply swf_gets|intros ?; cbv beta]
    | |- triple _ (modify _ ≫= _) _ => eapply triple_bind; [apply swf_dirs|intros ?; cbv beta]
    | |- triple _ (if ?b then _ else _) _ => destruct b
    | |- triple _ (match ?x with _ => _ end) _ => destruct x
    end ].

Lemma swf_write l ks fd buf len : triple (swf l ks) (sys_write fd buf len) (spost l ks).
Proof. unfold sys_write. repeat swf_step. Qed.

Lemma swf_read l ks fd buf len : triple (swf l ks) (sys_read fd buf len) (spost l ks).
Proof.
  unfold sys_read. do 2 (swf_step; [apply swf_fails|]). swf_step. destruct (Z.eqb_spec a 0) as [|Hn]; [apply swf_fails|].
  eapply triple_bind; [apply (triple_kn _ _ _ (wf_fo l ks a))|]. intros f.
  destruct (_ =? 0). { eapply triple_weaken; [apply swf_fails|by intros s [? _]|done]. }
  eapply triple_bind with (Q := fun _ => swf (a :: l) ks).
  { intros s i s' [(W & Hl & Hk) Hf] (t & Hr & ->)%zoom_inv. apply wf_impl in Hr as [-> Hi]. split; [done|]. split; [|done].
    constructor; [|done]. right. by exists f. }
  intros i. apply (spost_sub (a :: l) ks l ks _ id); [set_solver|set_solver|].
  repeat swf_step. apply triple_ret. intros s Hs. split; [done|].
  destruct Hs as (_ & (Ha & _)%Forall_cons_1 & _). split; [done|]. by destruct Ha.
Qed.

Lemma stable_free_fd n lst i : stable (free_fd n lst i).
Proof. revert i; induction n as [|n IH]; intros i; simpl; wf_tac. Qed.
Hint Resolve stable_free_fd : wf.

Lemma stable_open path : stable (sys_open path).
Proof.
  unfold sys_open, current. wf_tac.
  eapply triple_bind; [apply (wf_vfs get_tarfs_impl (fun i v => is_Some (impls v !! i))), vst_get_tarfs|]. intros i.
  eapply triple_bind with (Q := fun _ => wf (a1 :: k ++ l) (c :: c :: ks)).
  - eapply triple_weaken; [apply (wf_vfs_from (set_fo a1 (FileObject path i 1 a 0)) (fun v => is_Some (impls v !! i))
      (fun _ v => fo_valid v a1) (k ++ l) (c :: c :: ks))|done|].
    + intros v0. apply (vst_set_fo v0 a1 (FileObject path i 1 a 0)).
    + intros [] s [(W & Hl & Hk) Hv]. split_and!; [done| |done]. constructor; [by right|done].
  - intros []. eapply triple_bind; [apply stable_fd_set; right; by left|]. intros []. wf_end.
Qed.
Hint Resolve stable_open : wf.

Lemma swf_close l ks fd : triple (swf l ks) (sys_close fd) (spost l ks).
Proof.
  unfold sys_close. do 2 (swf_step; [apply swf_fails|]). swf_step. swf_step; [apply swf_fails|].
  eapply triple_bind; [apply (triple_kn _ _ _ (wf_fo l ks a))|]. intros f.
  eapply triple_bind; [apply (triple_kn _ _ _ (wf_replace l ks a f (with_ref_count (u16 (fo_ref_count f - 1)) f) eq_refl))|].
  intros []. change (fun s => wf l ks (kn s)) with (swf l ks).
  eapply triple_bind with (Q := fun _ => swf l ks); [|intros []; by apply swf_done].
  destruct (_ =? 0); [|apply swf_ret]. apply (triple_kn (wf l ks) _ (fun _ => wf l ks)).
  eapply triple_bind; [apply stable_fd_set; by left|]. intros []. wf_end.
Qed.

Lemma swf_opendir l ks name : triple (swf l ks) (sys_opendir name) (spost l ks).
Proof. unfold sys_opendir. repeat swf_step. Qed.

Lemma swf_for l ks n i (body : Z -> M sysk unit) :
  (forall k, triple (swf l ks) (body k) (fun _ => swf l ks)) -> triple (swf l ks) (for_loop n i body) (fun _ => swf l ks).
Proof. apply triple_for. Qed.

Lemma swf_readdir l ks d n : triple (swf l ks) (sys_readdir d n) (spost l ks).
Proof.
  unfold sys_readdir. swf_step. destruct a as [h|]; [|by intros ? ?].
  eapply triple_bind with (Q := fun _ => swf l ks); [by apply triple_ret|]. intros h'.
  eapply triple_bind with (Q := fun _ => swf l ks).
  { unfold lift_o. destruct (read_dir h'); [by apply triple_ret|done..]. }
  intros r. swf_step; [by apply swf_done|]. eapply triple_bind with (Q := fun _ => swf l ks); [|intros []; repeat swf_step].
  apply swf_for. intros k. repeat swf_step.
Qed.

(** A call of [wait] stops at threads. *)
Definition stops (l ks : list Z) (r : wait_result) : kern -> Prop :=
  match r with WReturn _ => wf l ks | WYield it prev => wf l (it :: prev :: ks) end.

Lemma wait_scan_stops fuel sel ex it prev l ks : prev ∈ ks -> triple (wf l ks) (wait_scan fuel sel ex it prev) (stops l ks).
Proof.
  revert ex it prev l ks; induction fuel as [|f IH]; intros ex it prev l ks Hp; [apply triple_fuel|]. cbn [wait_scan].
  assert (forall l' ks' r s, l ⊆ l' -> ks ⊆ ks' -> stops l' ks' r s -> stops l ks r s) as Hsub.
  { intros l' ks' [v|i' p'] s Hl Hk H; apply (wf_sub _ _ _ _ _ H); set_solver. }
  apply cur_bind. intros c. apply th_bind. intros tc k _ _ _. destruct (Z.eqb_spec it c) as [->|].
  - apply triple_ret. intros s Hs. destruct ex; apply (wf_sub _ _ _ _ _ Hs); set_solver.
  - apply th_bind. intros t k' _ _ _. eapply triple_weaken with (Q := stops (k' ++ k ++ l) (it :: c :: c :: ks)); [|done|intros r s; apply Hsub; set_solver].
    repeat case_match; try (apply IH; set_solver). eapply stable_bind; [apply stable_reap|]. intros []. by apply triple_ret.
Qed.

Lemma wait_next_known p r l ks : triple (stops l ks r) (wait_next p r) (fun r' s => wf l ks s /\ pending_ok s r').
Proof.
  destruct r as [v|it prev]; cbn [stops wait_next]; [by apply triple_ret|].
  eapply triple_bind; [apply (stable_scheduler l (it :: prev :: ks))|]. intros []. apply triple_ret. intros s Hs.
  split; [apply (wf_sub _ _ _ _ _ Hs); set_solver|]. destruct Hs as (_ & _ & (H1 & (H2 & _)%Forall_cons_1)%Forall_cons_1). by split.
Qed.

Lemma wait_iter_known sel p it prev l ks : prev ∈ ks ->
  triple (wf l ks) (r ← wait_iter sel it prev; wait_next p r) (fun r s => wf l ks s /\ pending_ok s r).
Proof.
  intros Hp. eapply triple_bind; [|intros r; apply wait_next_known]. unfold wait_iter.
  eapply stable_bind; [unfold ring_fuel; auto with wf|]. intros fuel. by apply wait_scan_stops.
Qed.

Lemma spost_kn l ks (c : M kern sys_result) :
  triple (wf l ks) c (fun r s => wf l ks s /\ pending_ok s r) -> triple (swf l ks) (on_kn c) (spost l ks).
Proof. intros H s r s' Hs (t & Hr & ->)%zoom_inv. exact (H _ _ _ Hs Hr). Qed.

Lemma swf_wait l ks sel p : triple (swf l ks) (on_kn (r ← wait_begin sel; wait_next p r)) (spost l ks).
Proof.
  apply spost_kn. unfold wait_begin. apply triple_assoc, cur_bind. intros c. apply triple_assoc, th_bind. intros tc k _ _ _.
  eapply triple_weaken; [apply (wait_iter_known sel p (next tc) c (k ++ l) (c :: c :: ks)); set_solver|done|].
  intros r s [Hs Hr]. split; [apply (wf_sub _ _ _ _ _ Hs); set_solver|done].
Qed.

Lemma stable_pid : stable get_process_pid.
Proof. unfold get_process_pid. wf_tac. Qed.

Lemma stable_ppid : stable get_process_ppid.
Proof. unfold get_process_ppid. wf_tac. Qed.

Hint Resolve stable_pid stable_ppid : wf.

(** What holds when a call returns, or stops to wait. *)
Lemma swf_handle l ks code a2 a3 a4 a5 a6 : triple (swf l ks) (handle_syscall code a2 a3 a4 a5 a6) (spost l ks).
Proof.
  unfold handle_syscall, handle_code, wait, wait_pid.
  repeat first [apply swf_write|apply swf_read|apply swf_close|apply swf_opendir|apply swf_readdir|apply swf_wait|swf_step].
  apply swf_done. by destruct a.
Qed.

End invariant.

(** ** Witness *)

Definition quiet_literals : Literals := {| lit_char := 0; lit_newline := 0 |}.
Definition quiet_messages : SysSymbols := {|
  msg_bad_fd := 0; msg_no_write := 0; msg_fd_unset := 0; msg_write_impl := 0; msg_not_writable := 0; msg_no_read := 0;
  msg_fd_unset_read := 0; msg_read_impl := 0; msg_not_readable := 0; msg_close_range := 0; msg_close_std := 0;
  msg_not_open := 0; msg_args_1 := 0; msg_args_2 := 0; tmp_copy_folder := 0 |}.

Lemma demo_thread_wf {PS : ProcSymbols} v q p pp c3 nx x : thread_wf v q (demo_thread p pp c3 nx x).
Proof. split_and!; [done|done|]. intros i y [-> _]%lookup_replicate. left. by left. Qed.

Lemma demo_kern_wf : kern_wf demo_kern.
Proof.
  split.
  - split; [by left..|]. exists terminal_table. by vm_compute.
  - intros p t Ht. cbn [threads demo_kern] in Ht.
    repeat (apply lookup_insert_Some in Ht as [[_ <-]|[_ Ht]]; [apply demo_thread_wf|]). done.
  - reflexivity.
  - by eexists.
Qed.
