(* ===== verification/ElfSpec.v ===== *)
(** * What the ELF loader promises

    A program is a list of program headers in the archive; a loadable one is a [segment]: an
    address, a size in memory, flags and the bytes of the file.  [load_file] gives the process
    an address space in which every segment holds its bytes followed by zeros, a zeroed page of
    heap and one of stack, and the list of the areas in file order. *)

From S2P Require Import Prelude PhysMem Paging PageTable PagingSpec Cow MapRange VaMem Image.
From S2P Require Import CStr Console Terminal Tarfs Vfs Process Elf ProcessSpec UserMem.

(** ** Programs *)

Record segment := Segment { sg_vaddr : Z; sg_memsz : Z; sg_flags : Z; sg_data : list Z }.

Definition sg_end (g : segment) : Z := sg_vaddr g + sg_memsz g.
(** The number of pages that are mapped: one more than the segment can touch. *)
Definition sg_pages (g : segment) : Z := sg_end g / 4096 - sg_vaddr g / 4096 + 2.
(** The image: the bytes of the file, then zeros. *)
Definition sg_image (g : segment) : list Z :=
  sg_data g ++ replicate (Z.to_nat (sg_memsz g) - length (sg_data g)) 0.
Definition sg_area (g : segment) : vma_struct := Vma (sg_vaddr g) (sg_end g) (area_type (sg_flags g)) (sg_flags g) 0.

Record segment_ok (g : segment) : Prop := {
  go_low : 0 <= sg_vaddr g;
  go_fits : Z.of_nat (length (sg_data g)) <= sg_memsz g;
  go_high : sg_end g + 8192 <= 2 ^ 47;
  go_pages : sg_pages g <= 2 ^ 20;
  go_bytes : Forall (fun b => 0 <= b < 256) (sg_data g)
}.

(** The program header at [phdr] of the file at [ehdr]; [None] is one that is not loaded. *)
Definition phdr_at (b : bytes) (ehdr phdr : Z) (h : option segment) : Prop :=
  match h with
  | None => exists ty, ld_le 4 (phdr + p_type) b = Ret (ty, b) /\ ty <> 1
  | Some g =>
      ld_le 4 (phdr + p_type) b = Ret (1, b) /\ ld_le 8 (phdr + p_vaddr) b = Ret (sg_vaddr g, b) /\
      ld_le 8 (phdr + p_memsz) b = Ret (sg_memsz g, b) /\ ld_le 4 (phdr + p_flags) b = Ret (sg_flags g, b) /\
      exists off filesz, ld_le 8 (phdr + p_offset) b = Ret (off, b) /\ ld_le 8 (phdr + p_filesz) b = Ret (filesz, b) /\
        i32 filesz = Z.of_nat (length (sg_data g)) /\
        load_bytes (length (sg_data g)) (ehdr + off) b = Ret (sg_data g, b)
  end.

Fixpoint phdrs_at (b : bytes) (ehdr phdr : Z) (hs : list (option segment)) : Prop :=
  match hs with
  | [] => True
  | h :: r => phdr_at b ehdr phdr h /\ phdrs_at b ehdr (phdr + SIZEOF_PHDR) r
  end.

(** The segments that are loaded. *)
Definition segments (hs : list (option segment)) : list segment := omap id hs.

(** The page numbers of two segments do not meet. *)
Definition apart (lo n lo' n' : Z) : Prop := lo + n <= lo' \/ lo' + n' <= lo.
Definition seg_apart (g h : segment) : Prop :=
  apart (sg_vaddr g / 4096) (sg_pages g) (sg_vaddr h / 4096) (sg_pages h).
Fixpoint all_apart (gs : list segment) : Prop :=
  match gs with [] => True | g :: r => Forall (seg_apart g) r /\ all_apart r end.

(** The free pages that loading may use. *)
Fixpoint pages_needed (gs : list segment) : Z :=
  match gs with [] => 0 | g :: r => 4 * (sg_pages g + 1) + pages_needed r end.

Lemma pages_needed_pos gs : Forall segment_ok gs -> 0 <= pages_needed gs.
Proof.
  induction 1 as [|g gs [Hl Hf _ _ _] _ IH]; cbn [pages_needed]; [lia|].
  assert (sg_vaddr g / 4096 <= sg_end g / 4096) by (apply Z.div_le_mono; unfold sg_end; lia).
  unfold sg_pages. lia.
Qed.

(** ** Lists of areas *)

(** The areas from [p] on: address and contents of each, apart from the links. *)
Definition linked (a : vma_struct) (nx : Z) : vma_struct := Vma (vma_start a) (vma_end a) (vma_type a) (vma_flags a) nx.

Fixpoint area_list (vm : gmap Z vma_struct) (p : Z) (l : list (Z * vma_struct)) : Prop :=
  match l with
  | [] => p = 0
  | (a, v) :: r => p = a /\ a <> 0 /\ exists nx, vm !! a = Some (linked v nx) /\ area_list vm nx r
  end.

Definition last_area (l : list (Z * vma_struct)) : Z := match list.last l with Some x => x.1 | None => 0 end.
Definition first_area (l : list (Z * vma_struct)) : Z := match l with x :: _ => x.1 | [] => 0 end.

Lemma area_list_insert vm p l a v :
  area_list vm p l -> (a ∉ l.*1) -> area_list (<[a := v]> vm) p l.
Proof.
  revert p; induction l as [|[b w] l IH]; intros p H Ha; [done|].
  cbn [fmap list_fmap fst] in Ha. apply not_elem_of_cons in Ha as [Hne Ha].
  destruct H as (-> & Hb & nx & Hl & H). split_and!; [done|done|]. exists nx.
  split; [by rewrite lookup_insert_ne|by apply IH].
Qed.

Lemma area_list_nonzero vm p l : area_list vm p l -> 0 ∉ l.*1.
Proof.
  revert p; induction l as [|[b w] l IH]; intros p H; [apply not_elem_of_nil|].
  destruct H as (_ & Hb & nx & _ & H). cbn [fmap list_fmap fst]. apply not_elem_of_cons. eauto.
Qed.

(** Appending behind the last area. *)
Definition link_last (iter v : Z) (vm : gmap Z vma_struct) : gmap Z vma_struct :=
  match vm !! iter with
  | Some b => if iter =? 0 then vm else <[iter := linked b v]> vm
  | None => vm
  end.

Lemma last_area_cons x l : l <> [] -> last_area (x :: l) = last_area l.
Proof. intros H. unfold last_area. destruct l as [|y l]; [done|]. by rewrite last_cons_cons. Qed.

Lemma last_area_in l : l <> [] -> last_area l ∈ l.*1.
Proof.
  intros H. unfold last_area. destruct (list.last l) as [x|] eqn:E; [|by apply last_None in E].
  apply last_Some in E as (l' & ->). rewrite fmap_app. apply elem_of_app. right. by left.
Qed.

Lemma area_list_append vm p l v a :
  area_list vm p l -> NoDup l.*1 -> v ∉ l.*1 -> v <> 0 -> vm !! v = Some (linked a 0) ->
  area_list (link_last (last_area l) v vm) (if last_area l =? 0 then v else p) (l ++ [(v, a)]).
Proof.
  revert p; induction l as [|[b w] l IH]; intros p Hl Hnd Hv Hv0 Hva.
  - unfold last_area; simpl. unfold link_last. split_and!; [done|done|]. exists 0. split; [|done].
    by destruct (vm !! 0).
  - destruct Hl as (-> & Hb & nx & Hw & Hl). cbn [fmap list_fmap fst] in *.
    apply list.NoDup_cons in Hnd as [Hbl Hnd]. apply not_elem_of_cons in Hv as [Hvb Hv].
    destruct l as [|y l'].
    + unfold last_area; simpl. unfold link_last. rewrite Hw. destruct (Z.eqb_spec b 0); [done|].
      split_and!; [done|done|]. exists v. rewrite lookup_insert_eq. split; [done|].
      split_and!; [done|done|]. exists 0. by rewrite lookup_insert_ne.
    + rewrite last_area_cons by done. specialize (IH nx Hl Hnd Hv Hv0 Hva).
      pose proof (last_area_in (y :: l') ltac:(done)) as Hin. set (la := last_area (y :: l')) in *.
      assert (la <> 0) as Hla by (intros E; rewrite E in Hin; by apply (area_list_nonzero vm nx (y :: l'))).
      destruct (Z.eqb_spec la 0) as [?|_]; [done|].
      cbn [app area_list]. split_and!; [done|done|]. exists nx. split; [|exact IH].
      unfold link_last. destruct (vm !! la); [|done]. destruct (la =? 0); [done|].
      rewrite lookup_insert_ne; [done|]. by intros ->.
Qed.

(** ** One segment *)

Lemma on_bytes_read {A} (c : M bytes A) s a :
  c (mem (con (term s))) = Ret (a, mem (con (term s))) -> on_bytes c s = Ret (a, s).
Proof.
  intros H. unfold on_bytes, on_term, on_con, on_mem. destruct s as [m t v mm_ c0 ps [[b x y] buf i] o r]. simpl in *.
  erewrite zoom_ret; [|apply zoom_ret, zoom_ret; exact H]. done.
Qed.

(** The list of pages of the loop of [load_segment]. *)
Lemma segment_loop_pages g : segment_ok g ->
  (fun i => u64 (sg_vaddr g / PAGE_SIZE * PAGE_SIZE + i * PAGE_SIZE)) <$> seqZ 0 (Z.of_nat (Z.to_nat (sg_pages g))) =
  page_range (page_base (sg_vaddr g)) (Z.to_nat (sg_pages g)).
Proof.
  intros [Hl Hf Hh Hp _]. apply list_fmap_ext. intros i x Hx. apply list_elem_of_lookup_2, elem_of_seqZ in Hx.
  unfold PAGE_SIZE, page_base. apply u64_small.
  pose proof (Z.div_pos (sg_vaddr g) 4096 Hl ltac:(lia)). pose proof (Z.div_mod (sg_vaddr g) 4096 ltac:(lia)).
  pose proof (Z.mod_pos_bound (sg_vaddr g) 4096 ltac:(lia)). unfold sg_end in *. lia.
Qed.

Lemma segment_pages_ok g : segment_ok g ->
  u64 (sg_vaddr g + sg_memsz g) = sg_end g /\ segment_pages (sg_vaddr g) (sg_end g) = sg_pages g /\ 2 <= sg_pages g.
Proof.
  intros [Hl Hf Hh Hp _]. assert (0 <= sg_memsz g) by lia. unfold sg_pages, segment_pages, PAGE_SIZE in *.
  pose proof (Z.div_mod (sg_end g) 4096 ltac:(lia)). pose proof (Z.mod_pos_bound (sg_end g) 4096 ltac:(lia)).
  assert (0 <= sg_vaddr g / 4096 <= sg_end g / 4096).
  { split; [apply Z.div_pos; lia|apply Z.div_le_mono; unfold sg_end; lia]. }
  split_and!; [apply u64_small; unfold sg_end in *; lia| |lia].
  rewrite (u64_small ((sg_end g / 4096 + 1) * 4096)), u64_small by lia.
  replace ((sg_end g / 4096 + 1) * 4096 - sg_vaddr g / 4096 * 4096)
    with ((sg_end g / 4096 + 1 - sg_vaddr g / 4096) * 4096) by lia.
  rewrite Z.div_mul by lia. lia.
Qed.

(** Addresses whose mapping loading [g] may change. *)
Definition touched (g : segment) (va : Z) : Prop :=
  kernel_va va \/ on_pages (page_range (page_base (sg_vaddr g)) (Z.to_nat (sg_pages g))) va.

Definition iter_ok (iter : Z) (vm : gmap Z vma_struct) : Prop := iter = 0 \/ is_Some (vm !! iter).

Lemma iter_ok_insert iter vm a v : iter_ok iter vm -> iter_ok iter (<[a := v]> vm).
Proof.
  intros [->|Hb]; [by left|right]. destruct (decide (a = iter)) as [->|Hne]; [rewrite lookup_insert_eq; eauto|].
  by rewrite lookup_insert_ne.
Qed.

Lemma append_vma_ok map iter v s : iter_ok iter (vmas s) ->
  append_vma map iter v s = Ret (if iter =? 0 then v else map, set_vmas (link_last iter v (vmas s)) s).
Proof.
  intros [->|[b Hb]]; unfold append_vma, link_last.
  - simpl. destruct (vmas s !! 0); by destruct s.
  - rewrite Hb. destruct (iter =? 0) eqn:E; [by destruct s|].
    by rewrite (bind_ret _ _ _ _ _ (vma_ok _ _ _ Hb)).
Qed.

Section load.
Context (roots : list Z).

(** The state of the machine while a program is being loaded. *)
Record ready (m : machine) (l : list Z) : Prop := {
  rd_inv : spaces_inv m roots l;
  rd_root : cr3 m ∈ roots;
  rd_kvb : kernel_virtual_base m = KERNEL_BASE;
  rd_zero : 0 ∉ l
}.

Lemma ready_kept V m l m' l' : ready m l -> kept roots V m l m' l' -> ready m' l'.
Proof.
  intros [I R K Z0] [I' G S _ _]. split; [done|by rewrite (sr_cr3 _ _ G)|by rewrite (sr_kvb _ _ G)|].
  intros H. apply Z0. by eapply suffix_elem.
Qed.

(** A kernel page for a descriptor. *)
Lemma ready_kmalloc m l bytes :
  ready m l -> 0 < bytes <= 4096 -> MIN_PAGES + 4 <= Z.of_nat (length l) ->
  exists p m1 l1, kmalloc bytes m = Ret (kva p, m1) /\ kept roots kernel_va m l m1 l1 /\
    p ∈ l /\ (p ∉ l1) /\ 0 <= p < MAX_PAGES /\ Z.of_nat (length l) <= Z.of_nat (length l1) + 4 /\ ready m1 l1.
Proof.
  intros Hr Hb Hl. destruct (kmalloc_page roots m l bytes) as (p & m1 & l1 & H1 & H2 & _ & H3 & H4 & H5 & H6);
    [apply Hr..|done|done|]. exists p, m1, l1. split_and!; try done; try lia; [|by eapply ready_kept].
  eapply kept_mono; [exact H2|]. intros va. by apply kva_kernel.
Qed.

Lemma load_segment_ok s l ehdr phdr map iter g :
  ready (mach s) l -> segment_ok g -> phdr_at (mem (con (term s))) ehdr phdr (Some g) ->
  iter_ok iter (vmas s) ->
  MIN_PAGES + 4 * (sg_pages g + 1) <= Z.of_nat (length l) ->
  exists p m' l', load_segment ehdr phdr map iter s =
      Ret ((if iter =? 0 then kva p else map, kva p),
        set_vmas (link_last iter (kva p) (<[kva p := sg_area g]> (vmas s))) (set_mach m' s)) /\
    kept roots (touched g) (mach s) l m' l' /\ holds roots m' l' (sg_vaddr g) (sg_image g) /\
    p ∈ l /\ (p ∉ l') /\ 0 <= p < MAX_PAGES /\
    Z.of_nat (length l) <= Z.of_nat (length l') + 4 * (sg_pages g + 1).
Proof.
  intros Hr Hg (Hty & Hva & Hms & Hfl & off & filesz & Hof & Hfs & Hi & Hld) Hit Hlen.
  destruct (segment_pages_ok g Hg) as (Hend & Hpg & Hp2).
  destruct (ready_kmalloc (mach s) l SIZEOF_VMA Hr) as (p & m1 & l1 & Hrun1 & Hk1 & Hpl & Hpl1 & Hpr & Hlen1 & Hr1);
    [done|lia|].
  destruct (map_copy_ok roots m1 l1 (sg_vaddr g) (Z.to_nat (sg_pages g)) (sg_data g)
    (Z.to_nat (sg_memsz g) - length (sg_data g))) as (m2 & m3 & l3 & Hrun2 & Hrun3 & Hk3 & Hh & Hlen3 & _);
    [apply Hr1|apply Hr1|apply Hr1|apply Hg| | |destruct Hg; lia|apply Hg|lia|].
  1,2: destruct Hg as [Hl Hf Hh Hp _]; destruct (page_base_facts (sg_vaddr g)) as (_ & _ & Hpb); unfold page_base in *;
    pose proof (Z.div_mod (sg_end g) 4096 ltac:(lia)); pose proof (Z.mod_pos_bound (sg_end g) 4096 ltac:(lia));
    unfold sg_pages, sg_end in *; lia.
  exists p, m3, l3. split_and!; [|by eapply kept_trans|done|done| |lia..].
  - unfold load_segment. rewrite (bind_ret _ _ _ _ _ (on_mach_ret _ s _ _ Hrun1)).
    set (s1 := set_mach m1 s).
    rewrite (bind_ret _ _ _ _ _ (on_bytes_read _ s1 _ Hva)), (bind_ret _ _ _ _ _ (on_bytes_read _ s1 _ Hms)).
    cbv zeta. rewrite Hend, Hpg. rewrite <- (segment_loop_pages g Hg) in Hrun2.
    rewrite (bind_ret _ _ _ _ _ (map_loop _ _ _ 0 s1 m2 Hrun2)). set (s2 := set_mach m2 s1).
    rewrite (bind_ret _ _ _ _ _ (on_bytes_read _ s2 _ Hfl)), (bind_ret _ _ _ _ _ (on_bytes_read _ s2 _ Hof)).
    rewrite (bind_ret _ _ _ _ _ (on_bytes_read _ s2 _ Hfs)), Hi, Nat2Z.id.
    rewrite (bind_ret _ _ _ _ _ (on_bytes_read _ s2 _ Hld)).
    rewrite (bind_ret _ _ _ _ _ (on_mach_ret _ s2 _ _ Hrun3)).
    unfold set_vma at 1. unfold modify. rewrite (bind_ret _ _ _ _ _ eq_refl). fold (sg_area g).
    set (s3 := set_vmas _ _). assert (iter_ok iter (vmas s3)) as Hit3 by (by apply iter_ok_insert).
    by rewrite (bind_ret _ _ _ _ _ (append_vma_ok map iter (kva p) s3 Hit3)).
  - intros H. apply Hpl1. by eapply suffix_elem; [apply (kp_sub _ _ _ _ _ _ Hk3)|].
Qed.

(** ** The list of areas under construction *)

(** A record on a page that was free in [l0] and is in use in [l]. *)
Definition taken (l0 l : list Z) (a : Z) : Prop := exists q, a = kva q /\ 0 <= q < MAX_PAGES /\ q ∈ l0 /\ q ∉ l.

Lemma taken_suffix l0 l l' a : suffix l' l -> taken l0 l a -> taken l0 l' a.
Proof. intros S (q & -> & Hq & H0 & Hl). exists q. split_and!; [done|lia..|done|]. intros H. apply Hl. by eapply suffix_elem. Qed.

Lemma taken_fresh l0 l a p : taken l0 l a -> p ∈ l -> 0 <= p < MAX_PAGES -> a <> kva p.
Proof. intros (q & -> & Hq & _ & Hl) Hp Hr E. apply kva_inj in E; [|done..]. by subst. Qed.

Record chain_of (l0 l : list Z) (vm0 vm : gmap Z vma_struct) (map iter : Z) (areas : list (Z * vma_struct)) : Prop := {
  ch_list : area_list vm map areas;
  ch_nodup : NoDup areas.*1;
  ch_taken : Forall (taken l0 l) areas.*1;
  ch_last : iter = last_area areas;
  ch_frame : forall a, a ∉ areas.*1 -> vm !! a = vm0 !! a
}.

Lemma chain_iter_ok l0 l vm0 vm map iter areas : chain_of l0 l vm0 vm map iter areas -> iter_ok iter vm.
Proof.
  intros [Hl _ _ -> _]. clear -Hl. revert map Hl. induction areas as [|[a v] areas IH]; intros map Hl; [by left|].
  destruct Hl as (-> & _ & nx & Ha & Hl). destruct areas as [|y areas]; [right; exists (linked v nx); done|].
  rewrite last_area_cons by done. by eapply IH.
Qed.

Lemma chain_suffix l0 l l' vm0 vm map iter areas :
  suffix l' l -> chain_of l0 l vm0 vm map iter areas -> chain_of l0 l' vm0 vm map iter areas.
Proof. intros S [H1 H2 H3 H4 H5]. split; try done. eapply Forall_impl; [|exact H3]. intros a. by apply taken_suffix. Qed.

Lemma last_area_snoc l x : last_area (l ++ [x]) = x.1.
Proof. unfold last_area. by rewrite last_snoc. Qed.

(** A new record, behind the last one. *)
Lemma chain_add l0 l l' vm0 vm map iter areas p a :
  chain_of l0 l vm0 vm map iter areas -> suffix l' l -> suffix l l0 -> p ∈ l -> p ∉ l' -> 0 <= p < MAX_PAGES ->
  chain_of l0 l' vm0 (link_last iter (kva p) (<[kva p := linked a 0]> vm)) (if iter =? 0 then kva p else map) (kva p)
    (areas ++ [(kva p, a)]).
Proof.
  intros [H1 H2 H3 -> H5] S S0 Hp Hp' Hr.
  assert (kva p ∉ areas.*1) as Hnew.
  { intros Hin. rewrite List.Forall_forall in H3.
    by apply (taken_fresh _ _ _ p (H3 _ (proj1 (list_elem_of_In _ _) Hin))). }
  split.
  - apply area_list_append; [by apply area_list_insert|done|done|by apply kva_nonzero|apply lookup_insert_eq].
  - rewrite fmap_app. apply list.NoDup_app. split_and!; [done| |apply NoDup_singleton].
    intros x Hx ->%list_elem_of_singleton. done.
  - rewrite fmap_app. apply Forall_app. split; [eapply Forall_impl; [|exact H3]; intros x; by apply taken_suffix|].
    constructor; [|constructor]. exists p. split_and!; [done|lia..| |done]. by eapply suffix_elem.
  - by rewrite last_area_snoc.
  - intros x Hx. rewrite fmap_app in Hx. apply not_elem_of_app in Hx as [Hx Hxp].
    apply not_elem_of_cons in Hxp as [Hxp _]. cbn [fst] in Hxp.
    assert (<[kva p := linked a 0]> vm !! x = vm0 !! x) as Hvm by (rewrite lookup_insert_ne by done; by apply H5).
    unfold link_last. destruct (_ !! last_area areas) eqn:E; [|done].
    destruct (Z.eqb_spec (last_area areas) 0); [done|]. rewrite lookup_insert_ne; [done|]. intros <-.
    apply Hx, last_area_in. by intros ->.
Qed.

(** ** All segments *)

Definition all_touched (gs : list segment) (va : Z) : Prop := kernel_va va \/ exists g, g ∈ gs /\ touched g va.

(** Loading took [s0] to [s]: the segments [gs] are in memory and their areas in the list. *)
Record loading (s0 : kern) (l0 : list Z) (gs : list segment) (s : kern) (l : list Z)
    (map iter : Z) (areas : list (Z * vma_struct)) : Prop := {
  lo_state : s = set_vmas (vmas s) (set_mach (mach s) s0);
  lo_ready : ready (mach s) l;
  lo_kept : kept roots (all_touched gs) (mach s0) l0 (mach s) l;
  lo_holds : Forall (fun g => holds roots (mach s) l (sg_vaddr g) (sg_image g)) gs;
  lo_chain : chain_of l0 l (vmas s0) (vmas s) map iter areas;
  lo_areas : areas.*2 = sg_area <$> gs
}.

Lemma sg_image_length g : segment_ok g -> Z.of_nat (length (sg_image g)) = sg_memsz g.
Proof. intros [_ Hf _ _ _]. unfold sg_image. rewrite length_app, length_replicate. lia. Qed.

(** A user address of segment [h] is not on [n] pages from [start] on that are apart from it. *)
Lemma apart_pages start n h va : segment_ok h -> 0 <= start -> start mod 4096 = 0 -> start + Z.of_nat n * 4096 <= 2 ^ 47 ->
  apart (sg_vaddr h / 4096) (sg_pages h) (start / 4096) (Z.of_nat n) ->
  sg_vaddr h <= va < sg_vaddr h + Z.of_nat (length (sg_image h)) -> ~ kernel_va va /\ ~ on_pages (page_range start n) va.
Proof.
  intros Hh H0 Hal Hhi Hap Hva. rewrite sg_image_length in Hva by done. destruct Hh as [Hl _ Hh _ _]. unfold sg_end in Hh.
  split; [apply (user_offset va); lia|]. intros Hon. apply on_pages_number in Hon; [|done|done|done|lia].
  unfold apart, sg_pages, sg_end in Hap.
  assert (sg_vaddr h / 4096 <= va / 4096 <= (sg_vaddr h + sg_memsz h) / 4096) by (split; apply Z.div_le_mono; lia). lia.
Qed.

(** The pages of a segment are not touched by loading another. *)
Lemma apart_untouched g h va : segment_ok g -> segment_ok h -> seg_apart h g ->
  sg_vaddr h <= va < sg_vaddr h + Z.of_nat (length (sg_image h)) -> ~ touched g va.
Proof.
  intros Hg Hh Hap Hva. destruct (segment_pages_ok g Hg) as (_ & _ & Hp2).
  destruct (page_base_facts (sg_vaddr g)) as (Hal & Hpb & Hb).
  destruct (apart_pages (page_base (sg_vaddr g)) (Z.to_nat (sg_pages g)) h va) as [H1 H2]; try done.
  - unfold page_base. pose proof (Z.div_pos (sg_vaddr g) 4096 (go_low _ Hg)). lia.
  - destruct Hg as [Hgl Hgf Hgh _ _]. unfold page_base, sg_pages in *.
    pose proof (Z.div_mod (sg_end g) 4096 ltac:(lia)). pose proof (Z.mod_pos_bound (sg_end g) 4096 ltac:(lia)). lia.
  - rewrite Hpb, Z2Nat.id by lia. exact Hap.
  - by intros [?|?].
Qed.

Lemma all_apart_mid gs g r : all_apart (gs ++ g :: r) -> Forall (fun h => seg_apart h g) gs.
Proof.
  induction gs as [|h gs IH]; intros H; [constructor|]. destruct H as [H1 H2]. constructor; [|by apply IH].
  apply List.Forall_app in H1 as [_ H1]. by inversion H1.
Qed.

(** What is held while another part of the address space is set up. *)
Lemma holds_step V m l m' l' gs : Forall segment_ok gs ->
  kept roots V m l m' l' -> Forall (fun g => holds roots m l (sg_vaddr g) (sg_image g)) gs ->
  Forall (fun h => forall va, sg_vaddr h <= va < sg_vaddr h + Z.of_nat (length (sg_image h)) -> ~ V va) gs ->
  Forall (fun g => holds roots m' l' (sg_vaddr g) (sg_image g)) gs.
Proof.
  intros Hok Hk. rewrite !List.Forall_forall in *. intros Hh HV g Hg. eapply holds_kept; [done|by apply Hh|by apply HV].
Qed.

Lemma loading_step s0 l0 gs s l map iter areas ehdr phdr g :
  loading s0 l0 gs s l map iter areas -> phdr_at (mem (con (term s0))) ehdr phdr (Some g) ->
  Forall segment_ok gs -> segment_ok g -> Forall (fun h => seg_apart h g) gs ->
  MIN_PAGES + 4 * (sg_pages g + 1) <= Z.of_nat (length l) ->
  exists s' l' map' iter' areas', load_segment ehdr phdr map iter s = Ret ((map', iter'), s') /\
    loading s0 l0 (gs ++ [g]) s' l' map' iter' areas' /\
    Z.of_nat (length l) <= Z.of_nat (length l') + 4 * (sg_pages g + 1).
Proof.
  intros [Hst Hr Hk Hh Hc Ha] Hat Hgs Hg Hap Hlen.
  destruct (load_segment_ok s l ehdr phdr map iter g) as (p & m' & l' & Hrun & Hk' & Hh' & Hp & Hp' & Hpr & Hl');
    [done|done|rewrite Hst; done|by eapply chain_iter_ok|done|].
  pose proof (chain_add _ _ l' _ _ _ _ _ p (sg_area g) Hc (kp_sub _ _ _ _ _ _ Hk') (kp_sub _ _ _ _ _ _ Hk) Hp Hp' Hpr) as Hc'.
  eexists _, l', _, _, _. split_and!; [exact Hrun| |done]. split.
  - rewrite Hst. done.
  - by eapply ready_kept.
  - eapply kept_mono; [by eapply kept_trans|]. intros va [[Hv|(h & Hin & Hv)]|Hv]; [by left|right..].
    + exists h. split; [|done]. apply elem_of_app. by left.
    + exists g. split; [|done]. apply elem_of_app. right. by left.
  - apply List.Forall_app. split; [|by constructor]. eapply holds_step; [done|exact Hk'|done|].
    rewrite List.Forall_forall in *. intros h Hin va. apply apart_untouched; auto.
  - exact Hc'.
  - by rewrite !fmap_app, Ha.
Qed.

Lemma load_segments_ok hs s0 l0 gs s l map iter areas ehdr phdr :
  loading s0 l0 gs s l map iter areas -> phdrs_at (mem (con (term s0))) ehdr phdr hs ->
  Forall segment_ok (gs ++ segments hs) -> all_apart (gs ++ segments hs) ->
  MIN_PAGES + pages_needed (segments hs) <= Z.of_nat (length l) ->
  exists s' l' map' iter' areas', load_segments (length hs) ehdr phdr map iter s = Ret ((map', iter'), s') /\
    loading s0 l0 (gs ++ segments hs) s' l' map' iter' areas' /\
    Z.of_nat (length l) <= Z.of_nat (length l') + pages_needed (segments hs).
Proof.
  revert gs s l map iter areas phdr. induction hs as [|[g|] hs IH]; intros gs s l map iter areas phdr Hlo Hat Hok Hap Hlen.
  - exists s, l, map, iter, areas. cbn [segments omap list_omap pages_needed] in *. rewrite app_nil_r. split_and!; [done|done|lia].
  - destruct Hat as [Hg Hat]. cbn [segments omap list_omap id pages_needed] in *. fold (segments hs) in *.
    pose proof (all_apart_mid _ _ _ Hap) as Hap1.
    replace (gs ++ g :: segments hs) with ((gs ++ [g]) ++ segments hs) in * by (by rewrite <- app_assoc).
    pose proof Hok as [Hok1 Hok2]%List.Forall_app. apply List.Forall_app in Hok1 as [Hgs Hgok].
    assert (segment_ok g) as Hgg by (by inversion Hgok). pose proof (pages_needed_pos _ Hok2).
    destruct (loading_step _ _ _ _ _ _ _ _ _ _ g Hlo Hg Hgs Hgg Hap1)
      as (s1 & l1 & map1 & iter1 & areas1 & Hrun1 & Hlo1 & Hlen1); [lia|].
    destruct (IH (gs ++ [g]) s1 l1 map1 iter1 areas1 (phdr + SIZEOF_PHDR))
      as (s' & l' & map' & iter' & areas' & Hrun & Hlo' & Hlen'); [done|done|done|done|lia|].
    exists s', l', map', iter', areas'. split_and!; [|done|lia]. cbn [length load_segments].
    destruct Hg as [Hty _]. rewrite (lo_state _ _ _ _ _ _ _ _ Hlo) at 1.
    rewrite (bind_ret _ _ _ _ _ (on_bytes_read _ (set_vmas (vmas s) (set_mach (mach s) s0)) _ Hty)).
    rewrite <- (lo_state _ _ _ _ _ _ _ _ Hlo). cbn [Z.eqb Pos.eqb]. by rewrite (bind_ret _ _ _ _ _ Hrun1).
  - destruct Hat as [(ty & Hty & Hne) Hat]. destruct (IH gs s l map iter areas (phdr + SIZEOF_PHDR))
      as (s' & l' & map' & iter' & areas' & Hrun & Hlo' & Hlen'); [done..|].
    exists s', l', map', iter', areas'. split_and!; [|done|done]. cbn [length load_segments].
    rewrite (lo_state _ _ _ _ _ _ _ _ Hlo) at 1.
    rewrite (bind_ret _ _ _ _ _ (on_bytes_read _ (set_vmas (vmas s) (set_mach (mach s) s0)) _ Hty)).
    rewrite <- (lo_state _ _ _ _ _ _ _ _ Hlo). destruct (Z.eqb_spec ty 1); [done|]. exact Hrun.
Qed.
(** ** Heap and stack *)

Lemma map_one_page m l start : ready m l -> 0 <= start -> start mod 4096 = 0 -> start + 4096 <= 2 ^ 47 ->
  MIN_PAGES + 4 <= Z.of_nat (length l) ->
  exists m' l', map_fresh_page PAGING_USER_R_W_FLAGS start m = Ret (tt, m') /\
    kept roots (on_pages (page_range start 1)) m l m' l' /\ holds roots m' l' start (replicate 4096 0) /\
    Z.of_nat (length l) <= Z.of_nat (length l') + 4 /\ ready m' l' /\ backed m' l start 4096.
Proof.
  intros Hr H0 Hal Hhi Hlen.
  assert (page_base start = start) as Hpb by (unfold page_base; pose proof (Z.div_mod start 4096 ltac:(lia)); lia).
  destruct (map_copy_ok roots m l start 1 [] 4096) as (m1 & m2 & l' & Hrun & Hrun2 & Hk & Hh & Hl & Hba);
    [apply Hr..|done|rewrite Hpb; simpl; lia|rewrite Hpb; simpl; lia|done|constructor|lia|].
  injection Hrun2 as <-. rewrite Hpb in Hrun, Hk. exists m1, l'. split_and!; [|done|done|lia|by eapply ready_kept|exact Hba].
  change (page_range start 1) with [start + 0 * 4096] in Hrun. rewrite Z.add_0_r in Hrun.
  by apply map_fresh_inv in Hrun as (m0 & H1 & [= ->]).
Qed.

Definition heap_pages : list Z := page_range HEAP_START 1.
Definition stack_pages : list Z := page_range STACK_START 1.
Definition tail_touched (va : Z) : Prop := kernel_va va \/ on_pages heap_pages va \/ on_pages stack_pages va.

Lemma page_not_on x y va : 0 <= x -> x mod 4096 = 0 -> x + 4096 <= 2 ^ 47 -> 0 <= y < 2 ^ 47 -> y mod 4096 = 0 -> x <> y ->
  y <= va < y + Z.of_nat (length (replicate 4096 0)) -> ~ on_pages (page_range x 1) va.
Proof.
  intros H0 Hx Hhi Hy Hym Hne Hva Hon. rewrite length_replicate in Hva. apply on_pages_number in Hon; [|lia..].
  pose proof (Z.div_mod x 4096 ltac:(lia)). pose proof (Z.div_mod y 4096 ltac:(lia)).
  pose proof (Z.div_mod va 4096 ltac:(lia)). pose proof (Z.mod_pos_bound va 4096 ltac:(lia)). lia.
Qed.

Lemma tail_machine m l : ready m l -> MIN_PAGES + 16 <= Z.of_nat (length l) ->
  exists ph ps m1 m2 m3 m4 l1 l3 l4,
    kmalloc SIZEOF_VMA m = Ret (kva ph, m1) /\ map_fresh_page PAGING_USER_R_W_FLAGS HEAP_START m1 = Ret (tt, m2) /\
    kmalloc SIZEOF_VMA m2 = Ret (kva ps, m3) /\ map_fresh_page PAGING_USER_R_W_FLAGS STACK_START m3 = Ret (tt, m4) /\
    kept roots tail_touched m l m4 l4 /\ holds roots m4 l3 HEAP_START (replicate 4096 0) /\
    holds roots m4 l4 STACK_START (replicate 4096 0) /\ backed m4 l3 STACK_START 4096 /\ suffix l3 l /\ suffix l4 l3 /\
    suffix l1 l /\ suffix l4 l1 /\ ph ∈ l /\ (ph ∉ l1) /\ ps ∈ l1 /\ (ps ∉ l4) /\ 0 <= ph < MAX_PAGES /\ 0 <= ps < MAX_PAGES.
Proof.
  intros Hr Hlen.
  destruct (ready_kmalloc m l SIZEOF_VMA Hr) as (ph & m1 & l1 & R1 & K1 & P1 & P1' & Q1 & L1 & Hr1); [done|lia|].
  destruct (map_one_page m1 l1 HEAP_START Hr1) as (m2 & l2 & R2 & K2 & HH & L2 & Hr2 & _); [done|done|done|lia|].
  destruct (ready_kmalloc m2 l2 SIZEOF_VMA Hr2) as (ps & m3 & l3 & R3 & K3 & P3 & P3' & Q3 & L3 & Hr3); [done|lia|].
  destruct (map_one_page m3 l3 STACK_START Hr3) as (m4 & l4 & R4 & K4 & HS & L4 & Hr4 & HB); [done|done|done|lia|].
  exists ph, ps, m1, m2, m3, m4, l1, l3, l4. split_and!; try done; try lia.
  - eapply kept_mono; [eapply kept_trans; [exact K1|]; eapply kept_trans; [exact K2|]; by eapply kept_trans|].
    unfold tail_touched. tauto.
  - eapply holds_kept_from; [exact K4|done| |].
    + eapply holds_kept; [exact K3|exact HH|]. intros va Hva. rewrite length_replicate in Hva.
      refine (user_offset va _). unfold HEAP_START in Hva. lia.
    + intros va Hva. by apply (page_not_on _ HEAP_START).
  - etransitivity; [apply K3|]. etransitivity; [apply K2|apply K1].
  - apply K4.
  - apply K1.
  - etransitivity; [apply K4|]. etransitivity; [apply K3|apply K2].
  - eapply suffix_elem; [apply K2|done].
  - intros H. apply P3'. eapply suffix_elem; [apply K4|done].
Qed.
(** ** The whole file *)

Context {PS : ProcSymbols}.

(** The ELF file at [loc]: its entry point and its program headers. *)
Record elf_at (b : bytes) (loc entry : Z) (hs : list (option segment)) : Prop := {
  ea_entry : ld_le 8 (loc + e_entry) b = Ret (entry, b);
  ea_phnum : ld_le 2 (loc + e_phnum) b = Ret (Z.of_nat (length hs), b);
  ea_phdrs : exists phoff, ld_le 8 (loc + e_phoff) b = Ret (phoff, b) /\ phdrs_at b loc (loc + phoff) hs
}.

Lemma elf_at_mono b0 b loc entry hs : b0 ⊆ b -> elf_at b0 loc entry hs -> elf_at b loc entry hs.
Proof.
  intros Hs [H1 H2 (phoff & H3 & H4)]. split; [by eapply ld_le_mono..|]. exists phoff. split; [by eapply ld_le_mono|].
  clear H1 H2 H3. revert H4. generalize (loc + phoff). induction hs as [|h hs IH]; intros ph; cbn [phdrs_at]; [done|].
  intros [Hh Hr]. split; [|by apply IH]. clear -Hs Hh. destruct h as [g|]; cbn [phdr_at] in *.
  - destruct Hh as (A1 & A2 & A3 & A4 & off & fsz & A5 & A6 & A7 & A8). split_and!; [by eapply ld_le_mono..|].
    exists off, fsz. split_and!; [by eapply ld_le_mono..|done|by eapply load_bytes_mono].
  - destruct Hh as (ty & A1 & A2). exists ty. split; [by eapply ld_le_mono|done].
Qed.

(** The file that the archive lookup finds under the name at [fn]. *)
Record program_at (b : bytes) (fn loc entry : Z) (hs : list (option segment)) : Prop := {
  pa_found : get_file_binary tarfs_start tarfs_end fn b = Ret (loc, b);
  pa_loc : loc <> 0;
  pa_elf : elf_at b loc entry hs
}.

(** The segments are well formed, and they, the heap and the stack are on different pages. *)
Record layout_ok (gs : list segment) : Prop := {
  ly_segments : Forall segment_ok gs;
  ly_apart : all_apart gs;
  ly_heap : Forall (fun g => apart (sg_vaddr g / 4096) (sg_pages g) (HEAP_START / 4096) 1) gs;
  ly_stack : Forall (fun g => apart (sg_vaddr g / 4096) (sg_pages g) (STACK_START / 4096) 1) gs
}.

Definition heap_area : vma_struct := Vma HEAP_START (HEAP_START + PAGE_SIZE) HEAP (Z.lor PR PW) 0.
Definition stack_area : vma_struct := Vma (STACK_START + PAGE_SIZE - 16) STACK_START STACK (Z.lor PR PW) 0.

(** The memory of the machine holds the program. *)
Record image_loaded (m : machine) (gs : list segment) : Prop := {
  im_segments : forall g k b, g ∈ gs -> sg_image g !! k = Some b ->
    ld8_va (sg_vaddr g + Z.of_nat k) m = Ret (b, m);
  im_heap : forall k, 0 <= k < 4096 -> ld8_va (HEAP_START + k) m = Ret (0, m);
  im_stack : forall k, 0 <= k < 4096 -> ld8_va (STACK_START + k) m = Ret (0, m)
}.

(** The descriptor of the memory lists the areas. *)
Record areas_listed (s s' : kern) (t : kthread) (gs : list segment) : Prop := {
  al_lists : exists map vh vs areas, mms s' = <[process_mm t := MM map vh vs vh]> (mms s) /\
    area_list (vmas s') map (areas ++ [(vh, heap_area)]) /\ areas.*2 = sg_area <$> gs /\
    vmas s' !! vs = Some stack_area /\
    (forall a, a ∉ vs :: (areas ++ [(vh, heap_area)]).*1 -> vmas s' !! a = vmas s !! a)
}.

Lemma held_zero m l start k : spaces_inv m roots l -> cr3 m ∈ roots ->
  holds roots m l start (replicate 4096 0) -> 0 <= k < 4096 -> ld8_va (start + k) m = Ret (0, m).
Proof.
  intros Hi Hr Hh Hk. replace k with (Z.of_nat (Z.to_nat k)) by lia. eapply holds_read; [done..|].
  apply lookup_replicate. lia.
Qed.

(** The memory of a loaded program: the segments and the heap avoid the pages [l0], from which the stack was taken. *)
Record image_held (m : machine) (l0 l : list Z) (gs : list segment) : Prop := {
  ih_segments : forall g, g ∈ gs -> holds roots m l0 (sg_vaddr g) (sg_image g);
  ih_heap : holds roots m l0 HEAP_START (replicate 4096 0);
  ih_stack : holds roots m l STACK_START (replicate 4096 0);
  ih_backed : backed m l0 STACK_START 4096;
  ih_sub : suffix l l0
}.

Lemma image_held_loaded m l0 l gs : spaces_inv m roots l -> cr3 m ∈ roots -> image_held m l0 l gs -> image_loaded m gs.
Proof.
  intros Hi Hr [Hs Hh Ht _ Hsub]. assert (forall q, q ∈ l -> q ∈ l0) as Hl by (intros q; by apply suffix_elem).
  split; [|by intros; eapply held_zero; try done; eapply holds_weaken..].
  intros g k b Hg Hb. eapply holds_read; [done|done| |exact Hb]. eapply holds_weaken; [exact Hl|by apply Hs].
Qed.

(** Segments, then heap and stack. *)
Lemma loaded_image s0 l0 gs s l map iter areas m' l3 l' :
  loading s0 l0 gs s l map iter areas -> layout_ok gs -> kept roots tail_touched (mach s) l m' l' -> suffix l3 l -> suffix l' l3 ->
  holds roots m' l3 HEAP_START (replicate 4096 0) -> holds roots m' l' STACK_START (replicate 4096 0) ->
  backed m' l3 STACK_START 4096 -> image_held m' l3 l' gs.
Proof.
  intros Hlo [Hok _ Hhe Hst] Hk S3 S' HH HS HB. pose proof (lo_holds _ _ _ _ _ _ _ _ Hlo) as Hall.
  rewrite List.Forall_forall in Hok, Hhe, Hst, Hall. split; try done. intros h Hin%list_elem_of_In.
  eapply (holds_weaken _ _ l); [intros q; by apply suffix_elem|].
  eapply holds_kept_from; [exact Hk|done|by apply Hall|]. intros va Hva.
  destruct (apart_pages HEAP_START 1 h va) as [N1 N2]; [auto|done|done|done|by apply Hhe|done|].
  destruct (apart_pages STACK_START 1 h va) as [_ N3]; [auto|done|done|done|by apply Hst|done|].
  by intros [?|[?|?]].
Qed.

Lemma heap_stack_run s p t map iter ph ps m1 m2 m3 m4 :
  iter_ok iter (vmas s) -> threads s !! p = Some t ->
  kmalloc SIZEOF_VMA (mach s) = Ret (kva ph, m1) -> map_fresh_page PAGING_USER_R_W_FLAGS HEAP_START m1 = Ret (tt, m2) ->
  kmalloc SIZEOF_VMA m2 = Ret (kva ps, m3) -> map_fresh_page PAGING_USER_R_W_FLAGS STACK_START m3 = Ret (tt, m4) ->
  load_heap_stack p (map, iter) s = Ret (0,
    set_threads (<[p := with_rsp_user (STACK_START + 4096 - 16) t]> (threads s))
      (set_mms (<[process_mm t := MM (if iter =? 0 then kva ph else map) (kva ph) (kva ps) (kva ph)]> (mms s))
        (set_vmas (<[kva ps := stack_area]> (link_last iter (kva ph) (<[kva ph := heap_area]> (vmas s)))) (set_mach m4 s)))).
Proof.
  intros Hit Ht R1 R2 R3 R4. unfold load_heap_stack. rewrite (bind_ret _ _ _ _ _ (on_mach_ret _ s _ _ R1)).
  rewrite (bind_ret _ _ _ tt (set_vmas (<[kva ph := heap_area]> (vmas s)) (set_mach m1 s))) by done.
  set (s3 := set_vmas _ (set_mach m1 s)).
  assert (iter_ok iter (vmas s3)) as Hit3 by (by apply iter_ok_insert). cbn [fst snd].
  rewrite (bind_ret _ _ _ _ _ (append_vma_ok map iter (kva ph) s3 Hit3)).
  set (s4 := set_vmas _ s3). rewrite (bind_ret _ _ _ _ _ (on_mach_ret _ s4 _ _ R2)).
  set (s5 := set_mach m2 s4). rewrite (bind_ret _ _ _ _ _ (on_mach_ret _ s5 _ _ R3)).
  set (s6 := set_mach m3 s5). rewrite (bind_ret _ _ _ _ _ (on_mach_ret _ s6 _ _ R4)).
  rewrite (bind_ret _ _ _ tt (set_vmas (<[kva ps := stack_area]> (vmas s6)) (set_mach m4 s6))) by done.
  set (s7 := set_vmas _ (set_mach m4 s6)). assert (threads s7 !! p = Some t) as Ht7 by done.
  rewrite (bind_ret _ _ _ _ _ (th_ok _ _ _ Ht7)). unfold set_mm, modify. rewrite (bind_ret _ _ _ _ _ eq_refl).
  set (s8 := set_mms _ s7).
  by rewrite (bind_ret _ _ _ _ _ (upd_th_ok s8 p _ (with_rsp_user (STACK_START + 4096 - 16)) Ht7)).
Qed.

Lemma load_file_spec s l p t fn loc entry hs :
  threads s !! p = Some t -> ready (mach s) l -> program_at (mem (con (term s))) fn loc entry hs ->
  layout_ok (segments hs) -> MIN_PAGES + pages_needed (segments hs) + 16 <= Z.of_nat (length l) ->
  exists s' l0 l', elf_load_file p fn s = Ret (0, s') /\
    image_held (mach s') l0 l' (segments hs) /\ areas_listed s s' t (segments hs) /\
    kept roots (fun va => all_touched (segments hs) va \/ tail_touched va) (mach s) l (mach s') l' /\
    s' = set_mms (mms s') (set_vmas (vmas s') (set_mach (mach s')
      (set_threads (<[p := with_rsp_user (STACK_START + 4096 - 16) (with_rip entry t)]> (threads s)) s))).
Proof.
  intros Ht Hr [Hf Hloc [He Hn (phoff & Hph & Hphs)]] Hly Hlen.
  set (s0 := set_threads (<[p := with_rip entry t]> (threads s)) s).
  assert (loading s0 l [] s0 l 0 0 []) as Hlo0.
  { split; [by destruct s|done|apply kept_refl, Hr|constructor| |done]. split; [done|constructor|constructor|done|done]. }
  destruct (load_segments_ok hs s0 l [] s0 l 0 0 [] loc (loc + phoff) Hlo0)
    as (s1 & l1 & map & iter & areas & Hrun1 & Hlo1 & Hlen1); [done|apply Hly|apply Hly|lia|]. cbn [app] in Hlo1.
  destruct (tail_machine (mach s1) l1 (lo_ready _ _ _ _ _ _ _ _ Hlo1))
    as (ph & ps & m1 & m2 & m3 & m4 & l2 & l3 & l4 & R1 & R2 & R3 & R4 & K & HH & HS & HB & S3 & S34 & S2 & S4 & P1 & P1' & P2 & P2' & Q1 & Q2); [lia|].
  pose proof (lo_chain _ _ _ _ _ _ _ _ Hlo1) as Hc. pose proof (lo_kept _ _ _ _ _ _ _ _ Hlo1) as K1.
  pose proof (chain_add _ _ l2 _ _ _ _ _ ph heap_area Hc S2 (kp_sub _ _ _ _ _ _ K1) P1 P1' Q1) as Hc'.
  set (vm := link_last iter (kva ph) (<[kva ph := heap_area]> (vmas s1))) in *.
  change (linked heap_area 0) with heap_area in Hc'. fold vm in Hc'.
  assert (kva ps ∉ (areas ++ [(kva ph, heap_area)]).*1) as Hnew.
  { intros Hin. pose proof (ch_taken _ _ _ _ _ _ _ Hc') as HT. rewrite List.Forall_forall in HT.
    by apply (taken_fresh _ _ _ ps (HT _ (proj1 (list_elem_of_In _ _) Hin))). }
  eexists (set_threads _ (set_mms (<[process_mm t := MM (if iter =? 0 then kva ph else map) (kva ph) (kva ps) (kva ph)]> (mms s))
    (set_vmas (<[kva ps := stack_area]> vm) (set_mach m4 s0)))), l3, l4. split_and!.
  - unfold elf_load_file. rewrite (bind_ret _ _ _ _ _ (on_bytes_read _ s _ Hf)).
    destruct (Z.eqb_spec loc 0); [done|].
    rewrite (bind_ret _ _ _ _ _ (on_bytes_read _ s _ Hph)), (bind_ret _ _ _ _ _ (on_bytes_read _ s _ He)).
    rewrite (bind_ret _ _ _ _ _ (upd_th_ok _ _ _ _ Ht)). fold s0.
    rewrite (bind_ret _ _ _ _ _ (on_bytes_read _ s0 _ Hn)), Nat2Z.id, (bind_ret _ _ _ _ _ Hrun1). cbn [fst snd].
    rewrite (heap_stack_run s1 p (with_rip entry t) map iter ph ps m1 m2 m3 m4);
      [|by eapply chain_iter_ok|rewrite (lo_state _ _ _ _ _ _ _ _ Hlo1); apply lookup_insert_eq|done..].
    assert (forall x y z, set_threads x (set_mms y (set_vmas z (set_mach m4 s1))) =
      set_threads x (set_mms y (set_vmas z (set_mach m4 s0)))) as E by (intros; by rewrite (lo_state _ _ _ _ _ _ _ _ Hlo1)).
    assert (threads s1 = threads s0 /\ mms s1 = mms s) as [E1 E2] by (by rewrite (lo_state _ _ _ _ _ _ _ _ Hlo1)).
    by rewrite E, E1, E2.
  - by eapply loaded_image.
  - split. exists (if iter =? 0 then kva ph else map), (kva ph), (kva ps), areas. split_and!; [done| |apply Hlo1|apply lookup_insert_eq|].
    + apply area_list_insert; [apply Hc'|done].
    + intros a [Hne Ha]%not_elem_of_cons. cbn [set_threads set_mms set_vmas vmas]. rewrite lookup_insert_ne by done.
      by apply Hc'.
  - by eapply kept_trans.
  - unfold s0. simpl. by rewrite insert_insert_eq.
Qed.
(** The archive between [tarfs_start] and [tarfs_end] has the entries [es]. *)
Record archive_ok (b : bytes) (es : list entry) : Prop := {
  ar_archive : archive b tarfs_end tarfs_start es;
  ar_walkable : Forall walkable es;
  ar_range : 0 < tarfs_start < tarfs_end
}.

(** C2: loading a program that is in the archive: when its segments are well formed and,
    with the heap and the stack, on different pages, and there are enough free pages, [load_file]
    returns 0 and afterwards every segment reads, through the page tables, as the bytes of
    the file followed by zeros, the heap and the stack page are zero, the memory descriptor lists the
    areas of the segments in file order and the heap behind them, the entry point and the
    stack pointer are set, and no other page, record or process changes. *)
Theorem load_file_loads s l p t fn name es x entry hs :
  threads s !! p = Some t -> ready (mach s) l -> let b := mem (con (term s)) in
  archive_ok b es -> cstr b fn name -> find_entry (is_entry name 0) tarfs_start es = Some x ->
  elf_at b (x + HEADER) entry hs -> layout_ok (segments hs) ->
  MIN_PAGES + pages_needed (segments hs) + 16 <= Z.of_nat (length l) ->
  exists s' l', elf_load_file p fn s = Ret (0, s') /\
    image_loaded (mach s') (segments hs) /\ areas_listed s s' t (segments hs) /\
    kept roots (fun va => all_touched (segments hs) va \/ tail_touched va) (mach s) l (mach s') l' /\
    s' = set_mms (mms s') (set_vmas (vmas s') (set_mach (mach s')
      (set_threads (<[p := with_rsp_user (STACK_START + 4096 - 16) (with_rip entry t)]> (threads s)) s))).
Proof.
  intros Ht Hr b [Ha Hw Hs] Hn Hx He Hly Hlen.
  destruct (load_file_spec s l p t fn (x + HEADER) entry hs) as (s' & l0 & l' & Hrun & Him & Har & Hk & Hst); try done.
  - split; try done.
    + pose proof (get_file_binary_ok b _ _ es fn name Ha Hw Hs Hn) as H. by rewrite Hx in H.
    + eapply find_entry_pos in Hx; [unfold HEADER; lia|done].
  - destruct (ready_kept _ _ _ _ _ Hr Hk) as [Hi Hc _ _]. exists s', l'. split_and!; try done. by eapply image_held_loaded.
Qed.

(** a program that is not in the archive: [load_file] returns -1 and changes nothing. *)
Theorem load_file_missing s p fn name es :
  let b := mem (con (term s)) in
  archive_ok b es -> cstr b fn name -> find_entry (is_entry name 0) tarfs_start es = None ->
  elf_load_file p fn s = Ret (-1, s).
Proof.
  intros b [Ha Hw Hs] Hn Hx. unfold elf_load_file.
  pose proof (get_file_binary_ok b _ _ es fn name Ha Hw Hs Hn) as H. rewrite Hx in H.
  by rewrite (bind_ret _ _ _ _ _ (on_bytes_read _ s _ H)).
Qed.
End load.

(** ** Witnesses *)

(** [n] little-endian bytes of [x]. *)
Fixpoint le_bytes (n : nat) (x : Z) : list Z :=
  match n with O => [] | S n' => x mod 256 :: le_bytes n' (x / 256) end.

(** A program ["p"] with a note (not loaded) and one segment of 5 bytes (2 in the file) at 0x400010. *)
Definition demo_elf : list Z :=
  replicate 24 0 ++ le_bytes 8 0x400011 ++ le_bytes 8 64 ++ replicate 16 0 ++ le_bytes 2 2 ++ replicate 6 0 ++
  (le_bytes 4 4 ++ replicate 52 0) ++
  (le_bytes 4 1 ++ le_bytes 4 5 ++ le_bytes 8 176 ++ le_bytes 8 0x400010 ++ replicate 8 0 ++ le_bytes 8 2 ++ le_bytes 8 5 ++
   replicate 8 0) ++ [7; 9].

Definition demo_program : bytes :=
  write_bytes 512 (header_bytes (Entry [112] 178 0) ++ demo_elf ++ replicate 334 0 ++ replicate 512 0)
    (write_bytes 100 [112; 0] (write_bytes 110 [113; 0] ∅)).

(** An archive from 512 to [end_]; the literals do not matter here. *)
Definition archive_symbols (end_ : Z) : ProcSymbols := {|
  msg_no_process := 0; msg_bad_state := 0; msg_reap_only := 0; msg_exit_only := 0;
  msg_kill_le_0 := 0; msg_kill_range := 0; msg_kill_idle := 0; msg_kill_none := 0;
  msg_kill_only := 0; msg_segv := 0; str_sbush := 0; str_idle := 0; str_pid := 0;
  str_ppid := 0; str_name := 0; str_status := 0; str_running := 0; str_queued := 0;
  str_zombie := 0; str_nl := 0; fn_init_scheduler := 0; tarfs_start := 512; tarfs_end := end_;
  p_name_create := 0; p_name_copy := 0; p_name_exec := 0; filename_copy := 0; num_array := 0; left_over := fun _ _ => 0 |}.
Definition elf_symbols : ProcSymbols := archive_symbols 2048.

Definition demo_segment : segment := Segment 0x400010 5 5 [7; 9].

Definition demo_load : kern :=
  Kern demo_machine (<[100 := demo_owner_thread]> ∅) ∅ ∅ 100 [] (Tty (Console demo_program 0 0) [] 0) demo_vfs 0.

Lemma demo_program_archive : @archive_ok elf_symbols demo_program [Entry [112] 178 0].
Proof.
  split; [|constructor; [left; done|constructor]|done]. split; [done|]. split.
  - split; [by apply cstrb_sound; vm_compute|done|by apply cstrb_sound; vm_compute|by vm_compute|
            by apply cstrb_sound; vm_compute|simpl; lia].
  - right. vm_compute. reflexivity.
Qed.

(** Loads by computation. *)
Lemma ld_le_keeps n p b x b' : ld_le n p b = Ret (x, b') -> b' = b.
Proof.
  revert p x; induction n as [|n IH]; intros p x; cbn [ld_le]; [by intros [= _ <-]|].
  intros (c & b1 & H1 & (r & b2 & H2 & [= _ <-])%bind_inv)%bind_inv. unfold ld8 in H1.
  destruct (b !! p); [|done]. injection H1 as _ <-. by eapply IH.
Qed.

Lemma load_bytes_keeps n p b x b' : load_bytes n p b = Ret (x, b') -> b' = b.
Proof.
  revert p x; induction n as [|n IH]; intros p x; cbn [load_bytes]; [by intros [= _ <-]|].
  intros (c & b1 & H1 & (r & b2 & H2 & [= _ <-])%bind_inv)%bind_inv. unfold ld8 in H1.
  destruct (b !! p); [|done]. injection H1 as _ <-. by eapply IH.
Qed.

Lemma ld_le_eval n p b x : match ld_le n p b with Ret (y, _) => y =? x | _ => false end = true -> ld_le n p b = Ret (x, b).
Proof.
  destruct (ld_le n p b) as [[y b']| |] eqn:E; [|done..]. intros ->%Z.eqb_eq. by rewrite (ld_le_keeps _ _ _ _ _ E).
Qed.

Lemma load_bytes_eval n p b x :
  match load_bytes n p b with Ret (y, _) => bool_decide (y = x) | _ => false end = true -> load_bytes n p b = Ret (x, b).
Proof.
  destruct (load_bytes n p b) as [[y b']| |] eqn:E; [|done..]. intros ->%bool_decide_eq_true.
  by rewrite (load_bytes_keeps _ _ _ _ _ E).
Qed.

Lemma demo_elf_at : elf_at demo_program 1024 0x400011 [None; Some demo_segment].
Proof.
  split; [apply ld_le_eval; vm_compute; reflexivity|apply ld_le_eval; vm_compute; reflexivity|].
  exists 64. split; [apply ld_le_eval; vm_compute; reflexivity|]. split; [|split; [|done]].
  - exists 4. split; [apply ld_le_eval; vm_compute; reflexivity|done].
  - split_and!; try (apply ld_le_eval; vm_compute; reflexivity). exists 176, 2.
    split_and!; try (apply ld_le_eval; vm_compute; reflexivity); [done|].
    apply load_bytes_eval. vm_compute. reflexivity.
Qed.

Lemma demo_layout : layout_ok (segments [None; Some demo_segment]).
Proof.
  split; cbn [segments omap list_omap id].
  - constructor; [|constructor]. split; [done|done|by vm_compute|by vm_compute|]. constructor; [lia|]. constructor; [lia|constructor].
  - split; [constructor|done].
  - constructor; [|constructor]. left. by vm_compute.
  - constructor; [|constructor]. left. by vm_compute.
Qed.

Lemma demo_ready : ready [4096] demo_machine (seqZ 2 38).
Proof. split; [apply demo_machine_inv|apply demo_root|done|]. rewrite elem_of_seqZ. lia. Qed.

Lemma load_file_loads_witness :
  exists s', @elf_load_file elf_symbols 100 100 demo_load = Ret (0, s') /\
    ld8_va 0x400011 (mach s') = Ret (9, mach s') /\ ld8_va 0x400014 (mach s') = Ret (0, mach s').
Proof.
  destruct (@load_file_loads [4096] elf_symbols demo_load (seqZ 2 38) 100 demo_owner_thread 100 [112] [Entry [112] 178 0]
    512 0x400011 [None; Some demo_segment]) as (s' & l' & Hrun & Him & _);
    [reflexivity|apply demo_ready|apply demo_program_archive|by apply cstrb_sound; vm_compute|reflexivity
    |apply demo_elf_at|apply demo_layout|by vm_compute|].
  exists s'. split_and!; [exact Hrun|apply (im_segments _ _ Him demo_segment 1)|apply (im_segments _ _ Him demo_segment 4)];
    try (by left); reflexivity.
Defined.

Lemma load_file_missing_witness : @elf_load_file elf_symbols 100 110 demo_load = Ret (-1, demo_load).
Proof.
  apply (@load_file_missing elf_symbols demo_load 100 110 [113] [Entry [112] 178 0]);
    [apply demo_program_archive|by apply cstrb_sound; vm_compute|reflexivity].
Defined.
