(* ===== verification/ForkExec.v ===== *)
(** * What [fork] and [exec] do to the ring of processes

    [fork] links the child behind its parent and [exec] puts the new program in the place of the current
    process; both keep the other processes, in their order. *)

From S2P Require Import Prelude PhysMem Paging PagingSpec VaMem CStr Console Terminal Tarfs Vfs Process KernInv Elf ProcessSpec ElfSpec.

(** ** Steps that do not touch the threads *)

Definition at_threads (T : gmap Z kthread) (c : Z) (s : kern) : Prop := threads s = T /\ current_process s = c.
Definition quiet {A} (m : M kern A) : Prop := forall T c, triple (at_threads T c) m (fun _ => at_threads T c).

Lemma quiet_run {A} (m : M kern A) s a s' : quiet m -> m s = Ret (a, s') ->
  threads s' = threads s /\ current_process s' = current_process s.
Proof. intros H. by apply (H (threads s) (current_process s)). Qed.

Lemma quiet_bind {A B} (m : M kern A) (f : A -> M kern B) : quiet m -> (forall a, quiet (f a)) -> quiet (m ≫= f).
Proof. intros Hm Hf T c. eapply triple_bind; [apply Hm|intros a; apply Hf]. Qed.

Lemma quiet_ret {A} (a : A) : quiet (mret a).
Proof. intros T c. by apply triple_ret. Qed.

Lemma quiet_gets {A} (f : kern -> A) : quiet (gets f).
Proof. by intros T c s a s' H [= _ <-]. Qed.

Lemma quiet_deref {A} (o : option A) : quiet (deref o).
Proof. destruct o; [apply quiet_ret|intros T c; apply triple_fault]. Qed.

Lemma quiet_fuel {A} : quiet (mfuel (A := A)).
Proof. intros T c. apply triple_fuel. Qed.

Lemma quiet_fault {A} : quiet (mfault (A := A)).
Proof. intros T c. apply triple_fault. Qed.

Lemma quiet_mach {A} (m : M machine A) : quiet (on_mach m).
Proof. intros T c s a s' H (t & _ & ->)%zoom_inv. exact H. Qed.

Lemma quiet_term {A} (m : M tty A) : quiet (on_term m).
Proof. intros T c s a s' H (t & _ & ->)%zoom_inv. exact H. Qed.

Lemma quiet_bytes {A} (m : M bytes A) : quiet (on_bytes m).
Proof. apply quiet_term. Qed.

Lemma quiet_vfs {A} (m : VM A) : quiet (on_vfs m).
Proof. intros T c s a s' H (t & _ & ->)%zoom_inv. exact H. Qed.

Lemma quiet_set_vma p v : quiet (set_vma p v).
Proof. by intros T c s a s' H [= _ <-]. Qed.

Lemma quiet_set_mm p v : quiet (set_mm p v).
Proof. by intros T c s a s' H [= _ <-]. Qed.

Lemma quiet_tss p : quiet (set_tss p).
Proof. by intros T c s a s' H [= _ <-]. Qed.

Create HintDb quiet.
#[export] Hint Resolve quiet_ret quiet_gets quiet_deref quiet_fuel quiet_fault quiet_mach quiet_term quiet_bytes quiet_vfs
  quiet_set_vma quiet_set_mm quiet_tss : quiet.

Ltac quiet_go :=
  repeat match goal with
  | |- quiet (mbind _ _) => apply quiet_bind; [|intros ?]
  | |- quiet (if ?c then _ else _) => destruct c
  | |- quiet (match ?x with _ => _ end) => destruct x
  end; auto with quiet.

Lemma quiet_vma p : quiet (vma p).
Proof. unfold vma. quiet_go. Qed.

Lemma quiet_mm p : quiet (mm p).
Proof. unfold mm. quiet_go. Qed.

Lemma quiet_th p : quiet (th p).
Proof. unfold th. quiet_go. Qed.
#[export] Hint Resolve quiet_vma quiet_mm quiet_th : quiet.

Lemma quiet_set_processes l : quiet (modify (set_processes l)).
Proof. by intros T c s a s' H [= _ <-]. Qed.
#[export] Hint Resolve quiet_set_processes : quiet.

Lemma quiet_getPID : quiet getPID.
Proof.
  assert (forall fuel i, quiet (get_pid_loop fuel i)) as H; [|apply H].
  induction fuel as [|f IH]; intros i; cbn [get_pid_loop]; quiet_go.
Qed.

Lemma quiet_copy_vmas fuel stop p first iter : quiet (copy_vmas fuel stop p first iter).
Proof. revert p first iter; induction fuel as [|f IH]; intros; cbn [copy_vmas]; quiet_go. Qed.

Lemma quiet_copy_heap fuel p first iter : quiet (copy_heap fuel p first iter).
Proof. revert p first iter; induction fuel as [|f IH]; intros; cbn [copy_heap]; quiet_go. Qed.

Lemma quiet_find_last fuel cur last : quiet (find_last fuel cur last).
Proof. revert last; induction fuel as [|f IH]; intros; cbn [find_last]; quiet_go. Qed.
#[export] Hint Resolve quiet_getPID quiet_copy_vmas quiet_copy_heap quiet_find_last : quiet.

Lemma quiet_ring_fuel : quiet ring_fuel.
Proof. apply quiet_gets. Qed.
#[export] Hint Resolve quiet_ring_fuel : quiet.

Lemma quiet_read_args argv : quiet (read_args argv).
Proof. unfold read_args. quiet_go. Qed.
#[export] Hint Resolve quiet_read_args : quiet.

Lemma upd_th_run s p f u s' : upd_th p f s = Ret (u, s') ->
  exists t, threads s !! p = Some t /\ s' = set_threads (<[p := f t]> (threads s)) s.
Proof.
  unfold upd_th. intros (t & s1 & H1 & H2)%bind_inv. unfold th, gets in H1. rewrite (bind_ret _ _ _ _ _ eq_refl) in H1.
  destruct (threads s !! p) as [t'|] eqn:E; [|done]. injection H1 as -> ->. injection H2 as _ <-. by exists t.
Qed.

Lemma th_run s p t s' : th p s = Ret (t, s') -> threads s !! p = Some t /\ s' = s.
Proof.
  unfold th, gets. rewrite (bind_ret _ _ _ _ _ eq_refl). destruct (threads s !! p); [|done]. by intros [= -> ->].
Qed.

(** One step of a run: [qstep H T C] splits off the first operation of [H], which does not touch the threads;
    [tstep] reads a thread, [ustep] updates one. *)
Ltac qstep H T C :=
  let a := fresh "a" in let s := fresh "z" in let R := fresh "R" in
  apply bind_inv in H as (a & s & R & H); apply quiet_run in R as [T C]; [|by auto with quiet].
Ltac tstep H t T :=
  let s := fresh "z" in apply bind_inv in H as (t & s & [T ->]%th_run & H).
Ltac ustep H t T :=
  let a := fresh "a" in let s := fresh "z" in apply bind_inv in H as (a & s & (t & T & ->)%upd_th_run & H).

Section ring_ops.
Context {LD : Loader} {PS : ProcSymbols} {VS : VfsSymbols}.

(** ** [fork] *)

(** A new process: the child of [tp]. *)
Record child_of (tp tc : kthread) : Prop := {
  ch_ppid : ppid tc = pid tp;
  ch_cwd : cwd tc = cwd tp;
  ch_stack : rsp_user tc = rsp_user tp;
  ch_running : state tc = RUNNING
}.

Lemma copy_process_run s parent child s' : copy_process parent s = Ret (child, s') ->
  exists tp tc n, threads s !! parent = Some tp /\ child_of tp tc /\
    threads s' = <[child := tc]> (<[parent := with_num_child n tp]> (threads s)) /\ current_process s' = current_process s.
Proof.
  unfold copy_process. intros H. apply bind_inv in H as (a0 & s0 & [T0 C0]%quiet_run & H); [|auto with quiet].
  tstep H tp Htp. qstep H T1 C1. qstep H T2 C2. qstep H T3 C3. ustep H tq Htq. qstep H T4 C4. qstep H T5 C5. qstep H T6 C6.
  apply bind_inv in H as (u & z7 & [= _ <-] & H). qstep H T7 C7. qstep H T8 C8. qstep H T9 C9. qstep H T10 C10. qstep H T11 C11.
  qstep H T12 C12. qstep H T13 C13. qstep H T14 C14. injection H as -> <-.
  exists tp. eexists. eexists. split_and!; [congruence| | |].
  3: { simpl in *. congruence. }
  2: { rewrite T14, T13, T12, T11, T10, T9, T8, T7. simpl. f_equal. rewrite T6, T5, T4. simpl. f_equal; [|congruence].
       f_equal. congruence. }
  by split.
Qed.

(** [fork] inserts the child behind its parent: the ring of the processes gets one more, waiting process, next after
    the current one, which stays current; the child has the parent's identifier as its parent, the parent's
    directory and stack pointer, and no other process changes. *)
Lemma fork_ring s c r child s' :
  ring s (c :: r) -> threads s !! child = None -> fork s = Ret (child, s') ->
  exists tp tc, threads s !! c = Some tp /\ threads s' !! child = Some tc /\
    ring s' (c :: child :: r) /\ state tc = QUEUED /\ ppid tc = pid tp /\ cwd tc = cwd tp /\ rsp_user tc = rsp_user tp /\
    (forall q, q <> c -> q <> child -> threads s' !! q = threads s !! q).
Proof.
  intros [Hhd [(t0 & Ht0 & Hn0) Hl] Hnd] Hnew. injection Hhd as Hc. unfold fork, gets. rewrite (bind_ret _ _ _ _ _ eq_refl).
  intros (ch & s1 & (tp & tc & n & Htp & [E1 E2 E3 E4] & T1 & C1)%copy_process_run & H)%bind_inv. rewrite <- Hc in *.
  tstep H tp1 Htp1. ustep H tp2 Htp2. ustep H tc2 Htc2. qstep H T3 C3. injection H as -> ->.
  assert (child <> c) as Hne by (intros ->; congruence).
  assert (tp2 = with_num_child n tp /\ tp1 = with_num_child n tp) as [-> ->].
  { rewrite T1, lookup_insert_ne, lookup_insert_eq in Htp1, Htp2 by done. split; congruence. }
  simpl in Htc2. rewrite lookup_insert_ne, T1, lookup_insert_eq in Htc2 by done. injection Htc2 as <-.
  assert (t0 = tp) as -> by congruence. simpl in T3, C3.
  assert (threads s' !! child = Some (with_state QUEUED (with_next (next tp) tc))) as Hch.
  { rewrite T3. apply lookup_insert_eq. }
  assert (threads s' !! c = Some (with_next child (with_num_child n tp))) as Hcc.
  { rewrite T3, lookup_insert_ne by done. apply lookup_insert_eq. }
  assert (forall q, q <> c -> q <> child -> threads s' !! q = threads s !! q) as Hq.
  { intros q H1 H2. rewrite T3, !lookup_insert_ne, T1, !lookup_insert_ne by done. done. }
  apply list.NoDup_cons in Hnd as [Hcr Hnd].
  assert (child ∉ r) as Hchr by (intros Hin; destruct (links_elem _ _ _ _ Hl Hin) as [? ?]; congruence).
  exists tp. eexists. split_and!; [done|exact Hch| |done|done|done|done|done].
  split.
  - simpl. congruence.
  - rewrite C3, C1. split; [eexists; split; [exact Hcc|done]|]. split; [eexists; split; [exact Hch|exact Hn0]|].
    eapply links_ext; [exact Hl|]. intros p t Hp Ht. exists t. split; [|done]. rewrite Hq; [done|by intros ->|by intros ->].
  - apply list.NoDup_cons. split; [|by apply list.NoDup_cons]. rewrite elem_of_cons. intros [?|?]; congruence.
Qed.

(** ** [exec] *)

(** The process before the current one in the ring. *)
Definition before (c : Z) (r : list Z) : Z := default c (list.last r).

Lemma find_last_run s l c fuel : links (threads s) l c -> c ∉ l -> l <> [] -> forall s' q x,
  head l = Some x -> find_last fuel c x s = Ret (q, s') -> list.last l = Some q.
Proof.
  revert fuel; induction l as [|p l IH]; intros fuel Hl Hc Hne s' q x Hx; [done|]. injection Hx as ->.
  destruct fuel as [|f]; [done|]. cbn [find_last]. intros (t & z & [Ht ->]%th_run & H)%bind_inv.
  destruct Hl as [(t' & Ht' & Hn) Hl]. assert (t' = t) as -> by congruence. apply not_elem_of_cons in Hc as [Hcx Hc].
  destruct l as [|y l].
  - rewrite Hn, Z.eqb_refl in H. injection H as -> _. done.
  - destruct (Z.eqb_spec (next t) c) as [E|_]; [exfalso; apply Hc; rewrite <- E, Hn; by left|].
    rewrite Hn in H. change (list.last (x :: y :: l)) with (list.last (y :: l)). by apply (IH f Hl Hc ltac:(done) s' q y).
Qed.

(** The place of the current process [c] is taken by [np]. *)
Lemma links_replace T T' c np r :
  links T (c :: r) c -> c ∉ r -> np ∉ r -> NoDup r ->
  (exists t, T' !! np = Some t /\ next t = match r with [] => np | q :: _ => q end) ->
  (forall q t, q ∈ r -> T !! q = Some t -> exists t', T' !! q = Some t' /\ next t' = if decide (q = before c r) then np else next t) ->
  links T' (np :: r) np.
Proof.
  intros [_ Hl] Hc Hnp Hnd Hn Hq. split; [done|]. clear Hn Hnp. unfold before in Hq.
  revert Hl Hq Hc Hnd. induction r as [|p r IH]; intros Hl Hq Hc Hnd; [done|].
  destruct Hl as [(t & Ht & Hnx) Hl]. apply list.NoDup_cons in Hnd as [Hpr Hnd]. apply not_elem_of_cons in Hc as [Hcp Hc].
  destruct (Hq p t) as (t' & Ht' & Hn'); [by left|done|].
  destruct r as [|y r].
  - split; [|done]. exists t'. split; [done|]. rewrite Hn'. simpl. by rewrite decide_True.
  - split.
    + exists t'. split; [done|]. rewrite Hn', decide_False; [done|]. change (list.last (p :: y :: r)) with (list.last (y :: r)).
      intros ->. apply Hpr. destruct (list.last (y :: r)) eqn:E; [|by apply last_None in E]. simpl. by apply last_Some_elem_of.
    + apply IH; [done| |done|done]. intros q u Hin Hu. apply (Hq q u); [by right|done].
Qed.

Lemma find_before s c r tc fuel q z : links (threads s) (c :: r) c -> c ∉ r -> threads s !! c = Some tc ->
  find_last fuel c (next tc) s = Ret (q, z) -> q = before c r /\ z = s.
Proof.
  intros [(tc' & Htc' & Hnc) Hr] Hcr Htc. assert (tc' = tc) as -> by congruence. intros Hq. split.
  - destruct r as [|p r]; [|by rewrite Hnc in Hq; unfold before; rewrite (find_last_run s (p :: r) c fuel Hr Hcr ltac:(done) z q p)].
    rewrite Hnc in Hq. destruct fuel as [|f]; [done|]. cbn [find_last] in Hq.
    apply bind_inv in Hq as (t & z' & [Ht ->]%th_run & Hq). assert (t = tc) as -> by congruence.
    rewrite Hnc, Z.eqb_refl in Hq. by injection Hq as -> _.
  - clear -Hq. revert Hq. generalize (next tc). induction fuel as [|f IH]; intros x; cbn [find_last]; [done|].
    intros (t & z' & [Ht ->]%th_run & Hq)%bind_inv. destruct (next t =? c); [by injection Hq|by eapply IH].
Qed.

(** The last part of [exec_vpe]: the new thread [np] takes the place of [cur]. *)
Definition take_place (cur np c3 : Z) : M kern (option Z) :=
  t0 ← th cur; fuel ← ring_fuel; last ← find_last fuel cur (next t0);
  upd_th last (with_next np) ≫= fun _ =>
  t1 ← th cur;
  upd_th np (with_next (next t1)) ≫= fun _ =>
  modify (set_current np) ≫= fun _ =>
  upd_th np (with_state RUNNING) ≫= fun _ =>
  set_tss np ≫= fun _ =>
  on_mach (set_new_cr3 c3) ≫= fun _ => mret None.

Lemma take_place_current cur np c3 s o s' : take_place cur np c3 s = Ret (o, s') -> current_process s' = np.
Proof.
  unfold take_place. intros H. tstep H t0 Ht0. qstep H T1 C1. qstep H T2 C2. ustep H tb Htb. tstep H t1 Ht1. ustep H tn Htn.
  apply bind_inv in H as (u & w & [= _ <-] & H). ustep H tn2 Htn2. qstep H T5 C5. qstep H T6 C6. injection H as _ ->.
  by rewrite C6, C5.
Qed.

Lemma take_place_ring s c r np c3 tn o s' :
  links (threads s) (c :: r) c -> NoDup (c :: r) -> np ∉ c :: r -> threads s !! np = Some tn -> take_place c np c3 s = Ret (o, s') ->
  ring s' (np :: r) /\ exists n, threads s' !! np = Some (with_state RUNNING (with_next n tn)).
Proof.
  intros Hl Hnd Hnp Htn H. pose proof Hl as [(tc & Htc & Hnc) Hr]. apply list.NoDup_cons in Hnd as [Hcr Hnd].
  apply not_elem_of_cons in Hnp as [Hne Hnpr]. unfold take_place in H.
  tstep H t0 Ht0. assert (t0 = tc) as -> by congruence.
  apply bind_inv in H as (fuel & z & [= _ <-] & H). apply bind_inv in H as (q & z & Hq & H).
  destruct (find_before s c r tc fuel q z) as [-> ->]; [done..|].
  ustep H tb Htb. tstep H t1 Ht1. ustep H tn1 Htn1. apply bind_inv in H as (u & z & [= _ <-] & H). ustep H tn2 Htn2.
  qstep H T5 C5. qstep H T6 C6. injection H as _ ->. simpl in *.
  assert (before c r <> np) as Hbn.
  { unfold before. destruct (list.last r) as [y|] eqn:E; simpl; [|congruence]. apply last_Some_elem_of in E. congruence. }
  rewrite lookup_insert_ne, Htn in Htn1 by done. injection Htn1 as <-. rewrite lookup_insert_eq in Htn2. injection Htn2 as <-.
  assert (next t1 = match r with [] => np | y :: _ => y end) as Hn1.
  { destruct r as [|y r]; unfold before in *; simpl in *.
    - rewrite lookup_insert_eq in Ht1. by injection Ht1 as <-.
    - rewrite lookup_insert_ne in Ht1; [congruence|]. intros E. apply Hcr. rewrite <- E.
      destruct (list.last (y :: r)) eqn:E'; [by apply last_Some_elem_of|by apply last_None in E']. }
  assert (threads s' !! np = Some (with_state RUNNING (with_next (next t1) tn))) as Hnp' by (rewrite T6, T5; apply lookup_insert_eq).
  split; [|by eexists]. split; [simpl; congruence| |by apply list.NoDup_cons].
  rewrite C6, C5. apply (links_replace (threads s) _ c); [done|done|done|done|by eexists|].
  intros q t Hq' Ht. assert (q <> np) by (by intros ->). rewrite T6, T5, !lookup_insert_ne by done.
  rewrite lookup_insert. destruct (decide (before c r = q)) as [->|Hb].
  - eexists. split; [done|]. by rewrite decide_True.
  - exists t. split; [done|]. by rewrite decide_False by congruence.
Qed.

(** [exec] replaces the current process: when it enters the new program, the ring is as before with the new process in the
    place of the old one, it is the current and running one, and it has the identifiers, the directory and the
    first three descriptors of the old one; the others are what memory held. *)
Lemma exec_ring s c r filename argv tc np s' :
  ring s (c :: r) -> threads s !! c = Some tc -> threads s !! np = None ->
  exec_vpe filename argv s = Ret (None, s') -> current_process s' = np ->
  exists t, threads s' !! np = Some t /\ ring s' (np :: r) /\ state t = RUNNING /\ pid t = pid tc /\ ppid t = ppid tc /\
    cwd t = cwd tc /\ exists s0, fds t = new_table (left_over s0) np (take 3 (fds tc)).
Proof.
  intros [Hhd Hl Hnd] Htc Hnew H Hcur. injection Hhd as Hc. unfold exec_vpe in H.
  apply bind_inv in H as (loc & z0 & [T0 C0]%quiet_run & H); [|auto with quiet]. destruct (loc =? 0); [done|].
  qstep H T1 C1. qstep H T2 C2. apply bind_inv in H as (new & z3 & [T3 C3]%quiet_run & H); [|auto with quiet].
  unfold gets in H. rewrite (bind_ret _ _ _ _ _ eq_refl) in H. assert (current_process z3 = c) as Hc3 by congruence. rewrite Hc3 in H.
  tstep H tc' Htc'. assert (tc' = tc) as -> by congruence. qstep H T4 C4.
  apply bind_inv in H as (c3 & z5 & [T5 C5]%quiet_run & H); [|auto with quiet]. qstep H T6 C6. qstep H T7 C7.
  apply bind_inv in H as (u & z8 & [= _ <-] & H). apply bind_inv in H as (v & z9 & K%load_file_keeps & H). cbv zeta in H.
  qstep H T10 C10. qstep H T11 C11. ustep H tn Htn.
  match type of H with _ ?st = Ret (?o, ?x) => change (take_place c new c3 st = Ret (o, x)) in H; set (w := st) in H end.
  rewrite (take_place_current _ _ _ _ _ _ H) in Hcur. subst new.
  assert (np ∉ c :: r) as Hnp by (intros Hin; destruct (links_elem _ _ _ _ Hl Hin) as [? ?]; congruence).
  match type of K with loader_step ?st _ => assert (forall q t, q ∈ c :: r -> threads s !! q = Some t -> threads st !! q = Some t) as Hst end.
  { intros q t Hq Ht. simpl. rewrite lookup_insert_ne by (by intros ->). congruence. }
  destruct (loader_step_thread _ _ np _ K ltac:(apply lookup_insert_eq)) as (t9 & Ht9 & (_ & _ & E1 & E2 & E3 & E4)).
  assert (tn = t9) as -> by congruence. simpl in E1, E2, E3, E4.
  assert (links (threads w) (c :: r) c) as Hlw.
  { rewrite <- Hc in Hl. eapply links_ext; [exact Hl|]. intros q t Hq Ht. destruct (loader_step_thread _ _ q t K (Hst q t Hq Ht)) as (t' & Ht' & Hk).
    exists t'. split; [|apply Hk]. simpl. rewrite lookup_insert_ne by (by intros ->). congruence. }
  destruct (take_place_ring w c r np c3 _ None s' Hlw Hnd Hnp ltac:(apply lookup_insert_eq) H) as [Hring (n & Hn')].
  eexists. split_and!; [exact Hn'|done|done|exact E1|exact E2|exact E4|eexists; exact E3].
Qed.

End ring_ops.
