(* ===== verification/ExecSpec.v ===== *)
(** * [exec]: starting a program with its arguments

    What [exec_vpe] ([sys/process.c]) does when the program is in the archive and there is enough memory: it
    returns, and the new process finds its program in memory and its arguments on its stack. *)

From S2P Require Import Prelude BitField PhysMem Paging PageTable PagingSpec Cow CowFork MapRange VaMem Image.
From S2P Require Import CStr Console Terminal Tarfs Vfs Process KernInv Elf ProcessSpec UserMem ElfSpec ForkExec.

(** ** The arguments *)

(** The strings [args] behind the array of pointers at [argv], which ends with a null pointer. *)
Fixpoint argv_at (m : bytes) (argv : Z) (args : list (list Z)) : Prop :=
  match args with
  | [] => ld_le 8 argv m = Ret (0, m)
  | a :: r => exists p, ld_le 8 argv m = Ret (p, m) /\ p <> 0 /\ cstr m p a /\ argv_at m (argv + 8) r
  end.

(** Byte [x] of the array of rows. *)
Definition row_byte (args : list (list Z)) (x : Z) : Z :=
  default 0 (a ← args !! Z.to_nat (x / BUF_SIZE); a !! Z.to_nat (x mod BUF_SIZE)).

Definition rows_hold (args : list (list Z)) (b : bytes) : Prop :=
  forall x, 0 <= x < 1024 -> b !! x = Some (row_byte args x).

Lemma local_rows : rows_hold [] (local_array 1024).
Proof.
  intros x Hx. unfold local_array. rewrite write_bytes_lookup, length_replicate, decide_True by lia.
  apply lookup_replicate. split; [done|lia].
Qed.

Lemma row_added done a b : Z.of_nat (length done) < 8 -> Z.of_nat (length a) < BUF_SIZE -> rows_hold done b ->
  rows_hold (done ++ [a]) (write_bytes (Z.of_nat (length done) * BUF_SIZE) a b).
Proof.
  intros Hd Ha Hb x Hx. rewrite write_bytes_lookup. unfold BUF_SIZE in *.
  pose proof (Z.div_mod x 128 ltac:(lia)). pose proof (Z.mod_pos_bound x 128 ltac:(lia)).
  assert (0 <= x / 128) by (apply Z.div_pos; lia). unfold row_byte, BUF_SIZE. case_decide as E.
  - assert (x / 128 = Z.of_nat (length done)) as Hr by lia. rewrite Hr, Nat2Z.id.
    rewrite lookup_app_r by lia. rewrite Nat.sub_diag. simpl.
    destruct (lookup_lt_is_Some_2 a (Z.to_nat (x mod 128))) as [c Hc]; [lia|]. rewrite Hc. simpl.
    rewrite <- Hc. f_equal. lia.
  - rewrite Hb by done. unfold row_byte, BUF_SIZE. f_equal.
    destruct (decide (x / 128 < Z.of_nat (length done))) as [Hlt|Hge]; [by rewrite lookup_app_l by lia|].
    rewrite (lookup_ge_None_2 done) by lia. rewrite lookup_app_r by lia. simpl.
    destruct (decide (x / 128 = Z.of_nat (length done))) as [Hr|Hr].
    + rewrite Hr, Nat2Z.id, Nat.sub_diag. simpl. rewrite (lookup_ge_None_2 a) by lia. done.
    + rewrite (lookup_ge_None_2 [a]); [done|]. simpl. lia.
Qed.

Lemma copy_arg_ok m p a : cstr m p a -> forall fuel dst b, (length a < fuel)%nat -> room b dst (Z.of_nat (length a)) ->
  copy_arg fuel m p dst b = Ret (tt, write_bytes dst a b).
Proof.
  revert p; induction a as [|c a IH]; intros p Hs [|f] dst b Hf Hr; cbn [length] in *; try lia; cbn [copy_arg].
  - by rewrite (ldc_ok _ _ _ Hs).
  - destruct Hs as (Hc & Hl & Hs). rewrite (ldc_ok _ _ _ Hl), i8_byte by lia. destruct (Z.eqb_spec c 0); [lia|].
    destruct (Hr 0) as [x Hx]; [lia|]. rewrite Z.add_0_r in Hx.
    rewrite (bind_ret _ _ _ _ _ (st8_ok b dst (i8 c) ltac:(by exists x))), u8_i8 by lia.
    apply IH; [done|lia|]. intros i Hi. rewrite lookup_insert. case_decide; [by eexists|].
    destruct (Hr (i + 1)) as [y Hy]; [lia|]. exists y. rewrite <- Hy. f_equal. lia.
Qed.

Lemma ld_le_mapped n p m v : ld_le n p m = Ret (v, m) -> room m p (Z.of_nat n).
Proof.
  revert p v; induction n as [|n IH]; intros p v; [intros _ i Hi; lia|]. cbn [ld_le].
  intros (c & m1 & H1 & H)%bind_inv. unfold ld8 in H1. destruct (m !! p) as [x|] eqn:Hx; [|done]. injection H1 as -> <-.
  apply bind_inv in H as (r & m2 & H2 & [= _ ->]). intros i Hi. destruct (Z.eq_dec i 0) as [->|Hne].
  - rewrite Z.add_0_r. by exists c.
  - destruct (IH (p + 1) r H2 (i - 1)) as [y Hy]; [lia|]. exists y. rewrite <- Hy. f_equal. lia.
Qed.

Lemma argv_mapped m argv args : argv_at m argv args -> room m argv (8 * Z.of_nat (length args) + 8).
Proof.
  revert argv; induction args as [|a r IH]; intros argv; cbn [argv_at length].
  - intros H%ld_le_mapped. exact H.
  - intros (p & H%ld_le_mapped & _ & _ & Hr) i Hi. destruct (decide (i < 8)) as [Hlt|Hge]; [apply H; lia|].
    destruct (IH _ Hr (i - 8)) as [y Hy]; [lia|]. exists y. rewrite <- Hy. f_equal. lia.
Qed.

Lemma copy_args_ok m args : forall argv done b fuel, argv_at m argv args -> rows_hold done b -> (length args < fuel)%nat ->
  Z.of_nat (length done + length args) <= 8 -> Forall (fun a => Z.of_nat (length a) < BUF_SIZE) args ->
  exists b', copy_args fuel m argv (Z.of_nat (length done)) b = Ret (Z.of_nat (length done + length args), b') /\
    rows_hold (done ++ args) b'.
Proof.
  induction args as [|a r IH]; intros argv done b [|f] Hat Hb Hf Hn Hl; cbn [length] in *; try lia; cbn [copy_args].
  - cbn [argv_at] in Hat. rewrite Hat. simpl (0 =? 0). exists b. by rewrite app_nil_r, Nat.add_0_r.
  - destruct Hat as (p & Hp & Hp0 & Hs & Hat). rewrite Hp. destruct (Z.eqb_spec p 0); [done|].
    inversion Hl as [|? ? Ha Hl']; subst. pose proof (cstr_size _ _ _ Hs).
    assert (room b (Z.of_nat (length done) * BUF_SIZE) (Z.of_nat (length a))) as Hroom.
    { intros i Hi. unfold BUF_SIZE in *. exists (row_byte done (Z.of_nat (length done) * 128 + i)). apply Hb. lia. }
    rewrite (bind_ret _ _ _ _ _ (copy_arg_ok m p a Hs (S (size m)) _ b ltac:(lia) Hroom)).
    destruct (IH (argv + 8) (done ++ [a]) (write_bytes (Z.of_nat (length done) * BUF_SIZE) a b) f) as (b' & Hrun & Hrows);
      [done|apply row_added; [lia|done|done]|lia|rewrite length_app; simpl; lia|done|].
    exists b'. rewrite <- app_assoc in Hrows. split; [|exact Hrows]. rewrite length_app in Hrun. cbn [length] in Hrun.
    replace (Z.of_nat (length done) + 1) with (Z.of_nat (length done + 1)) by lia. rewrite Hrun. do 3 f_equal. lia.
Qed.

(** The rows, as the list of bytes that goes to the stack. *)
Definition rows (args : list (list Z)) : list Z := row_byte args <$> seqZ 0 1024.

Lemma read_args_ok s argv args : let m := mem (con (term s)) in
  argv <> 0 -> argv_at m argv args -> (length args <= 8)%nat -> Forall (fun a => Z.of_nat (length a) < BUF_SIZE) args ->
  read_args argv s = Ret ((Z.of_nat (length args), rows args), s).
Proof.
  intros m Hv Hat Hn Hl. unfold read_args, gets. rewrite (bind_ret _ _ _ _ _ eq_refl). fold m.
  destruct (Z.eqb_spec argv 0); [done|]. pose proof (argv_mapped _ _ _ Hat) as Hroom.
  assert (8 * length args + 8 <= size m)%nat by (apply (mapped_size m argv); intros i Hi; apply Hroom; lia).
  destruct (copy_args_ok m args argv [] (local_array 1024) (S (size m)) Hat local_rows) as (b & Hrun & Hb); [lia|simpl; lia|done|].
  cbn [length Nat.add] in Hrun. change (Z.of_nat 0) with 0 in Hrun. rewrite Hrun. unfold mret, M_ret. do 3 f_equal. unfold rows.
  apply list_fmap_ext. intros i x Hx. apply lookup_seqZ in Hx as [-> Hi]. rewrite (Hb (0 + Z.of_nat i)) by lia. done.
Qed.

(** ** The stack *)

(** A load of 8 bytes from an 8-aligned address. *)
Definition ld64_va (va : Z) : M machine Z := a ← translate va; gets (fun m => word m a).

Definition ARGS : Z := STACK_START + 4096 - 16 - 1024.

Section stack.
Context (roots l0 l : list Z) (gs : list segment).

(** The stack page, which is on frame [f]. *)
Record on_stack (m : machine) (f : Z) : Prop := {
  os_ready : ready roots m l;
  os_segments : forall g, g ∈ gs -> holds roots m l0 (sg_vaddr g) (sg_image g);
  os_heap : holds roots m l0 HEAP_START (replicate 4096 0);
  os_frame : forall va, STACK_START <= va < STACK_START + 4096 -> Z.land (pte (ram (pm m)) (cr3 m) va) MASK = f * 4096;
  os_pos : 0 < f;
  os_unused : unused_frame (ram (pm m)) roots f;
  os_free : f ∉ l;
  os_taken : f ∈ l0
}.

Lemma stack_page va : STACK_START <= va < STACK_START + 4096 -> va / 4096 = STACK_START / 4096 /\ va mod 4096 = va - STACK_START.
Proof.
  intros H. change (STACK_START / 4096) with 0xF0000. unfold STACK_START in *.
  assert (va / 4096 = 0xF0000) as E by (symmetry; apply (Z.div_unique va 4096 0xF0000 (va - 0xF0000000)); lia).
  split; [done|]. pose proof (Z.div_mod va 4096 ltac:(lia)). lia.
Qed.

Lemma on_stack_held m : ready roots m l -> image_held roots m l0 l gs -> exists f, on_stack m f.
Proof.
  intros Hr Hi. destruct (ih_stack _ _ _ _ _ Hi) as (fr & Hreg & _). rewrite length_replicate in Hreg.
  change (Z.of_nat 4096) with 4096 in Hreg. exists (fr (STACK_START / 4096)).
  assert (STACK_START <= STACK_START < STACK_START + 4096) as H0 by lia.
  assert (forall va, STACK_START <= va < STACK_START + 4096 -> Z.land (pte (ram (pm m)) (cr3 m) va) MASK = fr (STACK_START / 4096) * 4096) as Hf.
  { intros va Hva. rewrite (rg_pte _ _ _ _ _ _ Hreg va Hva). by rewrite (proj1 (stack_page va Hva)). }
  split; try done; try (by apply Hreg); try (by apply Hi).
  destruct (ih_backed _ _ _ _ _ Hi _ H0) as (f & Hf0 & E). rewrite Hf in E by done. assert (f = fr (STACK_START / 4096)) by lia. by subst.
Qed.

Lemma stack_region m f : on_stack m f -> region m roots l (fun _ => f) STACK_START 4096.
Proof.
  intros [Hr _ _ Hf Hp Hu Hl _]. split; try done. intros va va' H1 H2 _.
  by rewrite (proj1 (stack_page _ H1)), (proj1 (stack_page _ H2)).
Qed.

Lemma stack_translate m f va : on_stack m f -> STACK_START <= va < STACK_START + 4096 ->
  translate va m = Ret (f * 4096 + (va - STACK_START), m).
Proof.
  intros Ho Hva. destruct Ho as [[Hi Hc _ _] _ _ Hf Hp _ _ _]. rewrite (translate_byte m va f); [|by apply Hi|done|by apply Hf].
  by rewrite (proj2 (stack_page va Hva)).
Qed.

(** Writes to the stack keep the rest of the program. *)
Lemma on_stack_written m m' f : on_stack m f -> data_written roots l (fun x => x = f) m m' -> on_stack m' f.
Proof.
  intros Ho Hd. pose proof Ho as [[Hi Hc Hk H0] Hse Hhe Hf Hp Hu Hl Ht].
  assert (forall start bs, holds roots m l0 start bs -> holds roots m' l0 start bs) as Hh.
  { intros start bs Hs. eapply holds_written; [exact Hd|done|exact Hs|]. intros fr va Hreg Hva E.
    apply (rg_free _ _ _ _ _ _ Hreg va Hva). by rewrite E. }
  split; try done; [| |by apply Hh| |by apply (dw_unused _ _ _ _ _ Hd)].
  - split; [apply Hd|by rewrite (sr_cr3 _ _ (dw_regs _ _ _ _ _ Hd))|by rewrite (sr_kvb _ _ (dw_regs _ _ _ _ _ Hd))|done].
  - intros g Hg. by apply Hh, Hse.
  - intros va Hva. rewrite (sr_cr3 _ _ (dw_regs _ _ _ _ _ Hd)), (dw_pte _ _ _ _ _ Hd) by done. by apply Hf.
Qed.

(** The arguments on the stack: an array of pointers, and behind it the rows of characters. *)
Record args_on_stack (m : machine) (args : list (list Z)) : Prop := {
  as_pointers : forall k, 0 <= k < Z.of_nat (length args) ->
    ld64_va (ARGS - 8 * Z.of_nat (length args) + 8 * k) m = Ret (ARGS + BUF_SIZE * k, m);
  as_bytes : forall x, 0 <= x < 1024 -> ld8_va (ARGS + x) m = Ret (row_byte args x, m)
}.

Lemma args_address : STACK_START + 3056 = ARGS.
Proof. done. Qed.

(** The loop of [push_argv] writes the words below the rows. *)
Lemma push_argv_ok m f n : on_stack m f -> 0 <= n <= 8 ->
  exists m', push_argv n ARGS m = Ret (tt, m') /\ data_written roots l (fun x => x = f) m m' /\
    (forall k, 0 <= k < n -> word m' (f * 4096 + 3056 - 8 * (n - k)) = ARGS + BUF_SIZE * k) /\
    (forall a, ~ (f * 4096 + 3056 - 8 * n <= a < f * 4096 + 3056) -> word m' a = word m a).
Proof.
  intros Ho Hn. pose proof Ho as [[Hi _ _ _] _ _ _ _ Hu Hl _]. set (base := f * 4096 + 3056).
  destruct (for_loop_ind (fun k t => data_written roots l (fun x => x = f) m t /\
      (forall j, 0 <= j < k -> word t (base - 8 * (n - j)) = ARGS + BUF_SIZE * j) /\
      (forall a, ~ (base - 8 * n <= a < base) -> word t a = word m a))
    (fun k => st64_va (u64 (ARGS - 8 * (n - k))) (u64 (ARGS + BUF_SIZE * k))) (Z.to_nat n) 0 m) as (m' & Hrun & Hd & Hw & Hr).
  - split_and!; [by apply data_written_refl|intros; lia|done].
  - rewrite Z2Nat.id by lia. intros k t Hk (Hd & Hw & Hr).
    pose proof (on_stack_written m t f Ho Hd) as Hot.
    assert (u64 (ARGS - 8 * (n - k)) = ARGS - 8 * (n - k)) as -> by (apply u64_small; unfold ARGS, STACK_START; lia).
    assert (u64 (ARGS + BUF_SIZE * k) = ARGS + BUF_SIZE * k) as -> by (apply u64_small; unfold ARGS, STACK_START, BUF_SIZE; lia).
    assert (f * 4096 + (ARGS - 8 * (n - k) - STACK_START) = base - 8 * (n - k)) as E by (unfold base, ARGS; lia).
    exists (set_word (base - 8 * (n - k)) (ARGS + BUF_SIZE * k) t). split_and!.
    + unfold st64_va. rewrite (bind_ret _ _ _ _ _ (stack_translate t f (ARGS - 8 * (n - k)) Hot ltac:(unfold ARGS; lia))). by rewrite E.
    + apply (data_written_trans _ _ _ (fun x => x = f) _ t); [exact Hd| |done]. apply (data_word_written t roots l f); [apply Hot|exact (os_unused _ _ Hot)|done|].
      replace (base - 8 * (n - k)) with (f * 4096 + (3056 - 8 * (n - k))) by (unfold base; lia).
            rewrite Z.div_add_l by lia. rewrite Z.div_small by lia. lia.
    + intros j Hj. unfold word. rewrite set_word_ram, ram_word_insert. case_decide as Ej; [assert (j = k) as -> by lia; done|].
      apply Hw. lia.
    + intros a Ha. unfold word. rewrite set_word_ram, ram_word_insert. rewrite decide_False by lia. by apply Hr.
  - rewrite Z2Nat.id, Z.add_0_l in * by lia. exists m'. split_and!; [exact Hrun|done|exact Hw|exact Hr].
Qed.

Lemma row_byte_range args x : Forall (Forall (fun c => 0 < c < 256)) args -> 0 <= row_byte args x < 256.
Proof.
  intros H. unfold row_byte. destruct (args !! Z.to_nat (x / BUF_SIZE)) as [a|] eqn:Ha; [|done]. simpl.
  destruct (a !! Z.to_nat (x mod BUF_SIZE)) as [c|] eqn:Hc; [|done]. simpl.
  rewrite Forall_lookup in H. specialize (H _ _ Ha). rewrite Forall_lookup in H. specialize (H _ _ Hc). lia.
Qed.

Lemma stack_args_ok m f args : on_stack m f -> (length args <= 8)%nat -> Forall (Forall (fun c => 0 < c < 256)) args ->
  exists m1 m2, copy_in ARGS (rows args) m = Ret (tt, m1) /\ push_argv (Z.of_nat (length args)) ARGS m1 = Ret (tt, m2) /\
    data_written roots l (fun x => x = f) m m2 /\ args_on_stack m2 args.
Proof.
  intros Ho Hn Hc. pose proof Ho as [[Hi Hroot _ _] _ _ _ _ _ _ _].
  assert (length (rows args) = 1024%nat) as Hlen by (unfold rows; by rewrite length_fmap, length_seqZ).
  pose proof (region_sub _ _ _ _ _ _ ARGS 1024 (stack_region m f Ho) ltac:(unfold ARGS; lia) ltac:(unfold ARGS; lia)) as Hreg.
  destruct (copy_in_ok roots l (fun _ => f) (rows args) ARGS m) as (m1 & Hr1 & [Hd1 Hdone _]);
    [done|done|rewrite Hlen; exact Hreg|done|rewrite Hlen; unfold ARGS, STACK_START; lia|].
  assert (data_written roots l (fun x => x = f) m m1) as Hd by (eapply data_written_mono; [exact Hd1|by intros x (va & _ & ->)]).
  assert (forall x, 0 <= x < 1024 -> phys_byte m1 (f * 4096 + 3056 + x) = row_byte args x) as Hb1.
  { intros x Hx. assert (rows args !! Z.to_nat x = Some (row_byte args x)) as Hrow.
    { unfold rows. rewrite list_lookup_fmap, lookup_seqZ_lt by lia. simpl. do 2 f_equal. lia. }
    pose proof (Hdone _ _ Hrow) as E. rewrite Z2Nat.id in E by lia. unfold phys in E.
    rewrite (proj2 (stack_page (ARGS + x) ltac:(unfold ARGS; lia))) in E.
    replace (f * 4096 + (ARGS + x - STACK_START)) with (f * 4096 + 3056 + x) in E by (unfold ARGS; lia). rewrite E.
    unfold u8. apply Z.mod_small. by apply row_byte_range. }
  pose proof (on_stack_written m m1 f Ho Hd) as Ho1.
  destruct (push_argv_ok m1 f (Z.of_nat (length args)) Ho1 ltac:(lia)) as (m2 & Hr2 & Hd2 & Hw & Hrest).
  pose proof (on_stack_written m1 m2 f Ho1 Hd2) as Ho2.
  exists m1, m2. split_and!; [done|done|by apply (data_written_trans _ _ _ (fun x => x = f) _ m1)|]. split.
  - intros k Hk. unfold ld64_va. rewrite (bind_ret _ _ _ _ _ (stack_translate m2 f (ARGS - 8 * Z.of_nat (length args) + 8 * k) Ho2 ltac:(unfold ARGS; lia))).
    rewrite <- Hw by done. unfold gets. do 3 f_equal. unfold ARGS. lia.
  - intros x Hx. unfold ld8_va. rewrite (bind_ret _ _ _ _ _ (stack_translate m2 f (ARGS + x) Ho2 ltac:(unfold ARGS; lia))).
    unfold gets. do 2 f_equal. rewrite <- Hb1 by done.
    replace (f * 4096 + (ARGS + x - STACK_START)) with (f * 4096 + 3056 + x) by (unfold ARGS; lia). unfold phys_byte. f_equal.
    apply Hrest. intros [_ Hlt]. pose proof (Z.mod_pos_bound (f * 4096 + 3056 + x) 8 ltac:(lia)).
    assert ((f * 4096 + 3056 + x) mod 8 = x mod 8) as E8 by (replace (f * 4096 + 3056 + x) with (x + (f * 512 + 382) * 8) by lia; apply Z.mod_add; lia).
    assert (x mod 8 <= x) by (apply Z.mod_le; lia). lia.
Qed.
End stack.

(** ** Pages for the new process *)

Lemma ready_kmalloc_many roots m l bytes :
  ready roots m l -> 0 < bytes < 2 ^ 32 -> MIN_PAGES + 4 * pages_for bytes <= Z.of_nat (length l) ->
  exists p m1 l1, kmalloc bytes m = Ret (kva p, m1) /\ ready roots m1 l1 /\ (p ∈ l) /\ suffix l1 l /\
    Z.of_nat (length l) <= Z.of_nat (length l1) + 4 * pages_for bytes /\ (p ∉ l1) /\ same_regs m m1.
Proof.
  intros [Hi Hr Hk H0] Hb Hl. destruct (kmalloc_spec m roots l bytes) as (p & phs & m1 & l1 & Hrun & Hn & Hh);
    [done|done|by rewrite Hk|done|done|].
  destruct Hh as [I R _ _ Hf _ _ S Hlen]. exists p, m1, l1. rewrite Hrun, Hk, <- Hn. split_and!; try done; [|by apply Hf; left..].
  split; [done|by rewrite (sr_cr3 _ _ R)|by rewrite (sr_kvb _ _ R)|]. intros H. apply H0. by eapply suffix_elem.
Qed.

(** A new address space, which becomes the current one. *)
Lemma ready_space roots m p l : ready roots m (p :: l) -> MIN_PAGES <= Z.of_nat (length (p :: l)) ->
  exists m1, setup_user_page_tables m = Ret (p * 4096, m1) /\ ready (p * 4096 :: roots) (set_cr3 (p * 4096) m1) l /\ cr3 m1 = cr3 m.
Proof.
  intros [Hi Hr Hk H0] Hl. destruct (alloc_refs m p l) as (s' & Hrun & Hal & Hram & Hp & _); [apply Hi|done|].
  assert (aligned (cr3 m)) as Har by (by apply Hi). assert (aligned (p * 4096)) as Hac by (by apply page_aligned).
  assert (table_offset 0 (2 ^ 48 - 1) = 511) as H511 by done.
  pose proof (space_inv m roots l (cr3 m) p s' Hi Hr Hal Hram Hp) as Hinv.
  eexists. split.
  - unfold setup_user_page_tables. rewrite (bind_ret _ _ _ _ _ Hrun). unfold get_cr3, gets. do 2 rewrite (bind_ret _ _ _ _ _ eq_refl).
    change (cr3 (set_pm s' m)) with (cr3 m). change (kernel_virtual_base (set_pm s' m)) with (kernel_virtual_base m).
    rewrite (Z.add_comm (cr3 m)), (Z.add_comm (p * 4096)), <- H511.
    rewrite (bind_ret _ _ _ _ _ (load64_table (set_pm s' m) (cr3 m) 0 _ Har)).
    rewrite (bind_ret _ _ _ _ _ (store64_table (set_pm s' m) (p * 4096) 0 _ _ Hac)). rewrite H511.
    assert (word (set_pm s' m) (cr3 m + 8 * 511) = word m (cr3 m + 8 * 511)) as -> by (unfold word; simpl; by rewrite Hram). reflexivity.
  - split; [|done]. split; [|by left|done|by intros ?; apply H0; right]. destruct Hinv as [A B C D]. by split.
Qed.

(** ** The two copies of the name *)

(** An array of [BUF_SIZE] characters at [a], apart from the memory [b0]. *)
Record spare (b0 b : bytes) (a : Z) : Prop := {
  sp_mapped : room b a BUF_SIZE;
  sp_apart : forall i, 0 <= i < BUF_SIZE -> b0 !! (a + i) = None
}.

(** What was written is in the array. *)
Definition written_in (a : Z) (b b' : bytes) : Prop := forall x, ~ (a <= x < a + BUF_SIZE) -> b' !! x = b !! x.

Lemma spare_keeps b0 b b' a : b0 ⊆ b -> spare b0 b a -> written_in a b b' -> b0 ⊆ b'.
Proof.
  intros Hs [_ Ha] Hw. apply map_subseteq_spec. intros x c Hx. rewrite Hw; [by eapply lookup_weaken|].
  intros Hin. specialize (Ha (x - a) ltac:(lia)). replace (a + (x - a)) with x in Ha by lia. congruence.
Qed.

Lemma spare_other b0 b b' a c : spare b0 b c -> disjoint_regions a BUF_SIZE c BUF_SIZE -> written_in a b b' -> spare b0 b' c.
Proof.
  intros [Hm Ha] Hd Hw. split; [|done]. intros i Hi. rewrite Hw; [by apply Hm|]. unfold disjoint_regions in Hd. lia.
Qed.

Lemma cstr_other b b' a c s : cstr b c s -> Z.of_nat (length s) < BUF_SIZE -> disjoint_regions a BUF_SIZE c BUF_SIZE ->
  written_in a b b' -> cstr b' c s.
Proof.
  intros Hs Hl Hd Hw. apply cstr_of_lookup; [by eapply cstr_chars|]. intros i x Hx.
  pose proof (lookup_lt_Some _ _ _ Hx) as Hi. rewrite length_app in Hi. simpl in Hi.
  rewrite Hw; [by eapply cstr_lookup|]. unfold disjoint_regions in Hd. lia.
Qed.

Lemma name_apart b0 b a fn name : spare b0 b a -> cstr b0 fn name -> disjoint_regions a BUF_SIZE fn (Z.of_nat (length name) + 1).
Proof.
  intros [_ Ha] Hs. unfold disjoint_regions. destruct (decide (a + BUF_SIZE <= fn \/ fn + (Z.of_nat (length name) + 1) <= a)) as [|Hn]; [done|].
  exfalso. unfold BUF_SIZE in *. set (x := Z.max a fn). destruct (cstr_mapped _ _ _ (x - fn) Hs) as [c Hc]; [lia|].
  specialize (Ha (x - a) ltac:(lia)). replace (a + (x - a)) with (fn + (x - fn)) in Ha by lia. congruence.
Qed.

Lemma copy_loop_ok b dst src n : 0 <= n -> room b src n -> room b dst n -> disjoint_regions dst n src n ->
  exists b', for_loop (Z.to_nat n) 0 (fun i => c ← ld8 (src + i); st8 (dst + i) c) b = Ret (tt, b') /\
    forall x, b' !! x = if decide (dst <= x < dst + n) then u8 <$> b !! (src + (x - dst)) else b !! x.
Proof.
  intros Hn Hs Hd Hdis.
  destruct (for_loop_ind (fun k t => forall x, t !! x = if decide (dst <= x < dst + k) then u8 <$> b !! (src + (x - dst)) else b !! x)
    (fun i => c ← ld8 (src + i); st8 (dst + i) c) (Z.to_nat n) 0 b) as (b' & Hrun & Hb').
  - intros x. by rewrite decide_False by lia.
  - intros k t Hk Ht. rewrite Z2Nat.id, Z.add_0_l in Hk by lia. destruct (Hs k) as [c Hc]; [lia|]. unfold disjoint_regions in Hdis.
    assert (t !! (src + k) = Some c) as Hl by (rewrite Ht, decide_False by lia; done).
    eexists. split.
    + rewrite (bind_ret _ _ _ _ _ (ld8_ok _ _ _ Hl)). apply st8_ok. rewrite Ht. case_decide; [lia|]. apply Hd. lia.
    + intros x. rewrite lookup_insert, Ht. repeat case_decide; try lia; try done. subst x.
      replace (src + (dst + k - dst)) with (src + k) by lia. by rewrite Hc.
  - exists b'. split; [done|]. rewrite Z2Nat.id, Z.add_0_l in Hb' by lia. exact Hb'.
Qed.

Lemma copy_name_ok b0 b fc fn name :
  b0 ⊆ b -> spare b0 b fc -> cstr b0 fn name -> fn <> 0 -> Z.of_nat (length name) < BUF_SIZE ->
  exists b', copy_name fc fn b = Ret (tt, b') /\ written_in fc b b' /\ cstr b' fc name.
Proof.
  intros Hsub Hsp Hn Hf Hl. pose proof (cstr_mono _ _ _ _ Hsub Hn) as Hn1.
  pose proof (name_apart b0 b fc fn name Hsp Hn) as Hdis. unfold disjoint_regions in Hdis. set (n := Z.of_nat (length name)) in *.
  pose proof (sp_mapped _ _ _ Hsp) as Hr1.
  destruct (copy_loop_ok b fc fn n) as (b2 & R2 & H2); [lia|intros i Hi; eapply cstr_mapped; [exact Hn1|lia]|intros i Hi; apply Hr1; lia|unfold disjoint_regions; lia|].
  assert (is_Some (b2 !! (fc + n))) as Hend by (rewrite H2, decide_False by lia; apply Hr1; lia).
  exists (<[fc + n := u8 0]> b2). split_and!.
  - unfold copy_name. rewrite (bind_ret _ _ _ _ _ (strlen_ok _ _ _ Hf Hn1)). fold n.
    destruct (Z.leb_spec BUF_SIZE n); [lia|]. rewrite (bind_ret _ _ _ _ _ R2). by apply st8_ok.
  - intros x Hx. rewrite lookup_insert_ne by lia. by rewrite H2, decide_False by lia.
  - pose proof (cstr_chars _ _ _ Hn) as Hch. apply cstr_of_lookup; [done|]. intros i c Hi.
    apply lookup_app_Some in Hi as [Hi|[Hi Hc]].
    + pose proof (lookup_lt_Some _ _ _ Hi). rewrite lookup_insert_ne by lia. rewrite H2, decide_True by lia.
      replace (fn + (fc + Z.of_nat i - fc)) with (fn + Z.of_nat i) by lia.
      rewrite (cstr_lookup _ _ _ i c Hn1) by (by rewrite lookup_app_l by lia). simpl. f_equal.
      rewrite Forall_lookup in Hch. specialize (Hch _ _ Hi). unfold u8. apply Z.mod_small. lia.
    + destruct (i - length name)%nat as [|k] eqn:E; [|done]. injection Hc as <-. replace (fc + Z.of_nat i) with (fc + n) by lia.
      apply lookup_insert_eq.
Qed.

(** [filename_copy]. *)
Lemma name_copied b0 b fc fn name :
  b0 ⊆ b -> spare b0 b fc -> cstr b0 fn name -> fn <> 0 -> Z.of_nat (length name) < BUF_SIZE ->
  exists b', (memset fc 0 BUF_SIZE ≫= fun _ => copy_name fc fn) b = Ret (tt, b') /\ written_in fc b b' /\ cstr b' fc name.
Proof.
  intros Hsub Hsp Hn Hf Hl. destruct (memset_ok b fc 0 BUF_SIZE) as (b1 & R1 & H1); [done|apply Hsp|].
  assert (written_in fc b b1) as W1 by (intros x Hx; by rewrite H1, decide_False).
  assert (spare b0 b1 fc) as Hsp1.
  { split; [|apply Hsp]. intros i Hi. rewrite H1, decide_True by lia. by eexists. }
  destruct (copy_name_ok b0 b1 fc fn name (spare_keeps b0 b b1 fc Hsub Hsp W1) Hsp1 Hn Hf Hl) as (b2 & R2 & W2 & C2).
  exists b2. split_and!; [by rewrite (bind_ret _ _ _ _ _ R1)| |done]. intros x Hx. rewrite W2 by done. by apply W1.
Qed.

(** [p_name]. *)
Lemma name_set b0 b pn fn name :
  b0 ⊆ b -> spare b0 b pn -> cstr b0 fn name -> Z.of_nat (length name) < BUF_SIZE ->
  exists b', (st8 pn 0 ≫= fun _ => strcat pn fn) b = Ret (pn, b') /\ written_in pn b b'.
Proof.
  intros Hsub Hsp Hn Hl. destruct (sp_mapped _ _ _ Hsp 0) as [x0 H0]; [done|]. rewrite Z.add_0_r in H0.
  set (b1 := <[pn := u8 0]> b). assert (written_in pn b b1) as W1 by (intros x Hx; unfold b1, BUF_SIZE in *; by rewrite lookup_insert_ne by lia).
  pose proof (spare_keeps b0 b b1 pn Hsub Hsp W1) as Hs1. pose proof (name_apart b0 b pn fn name Hsp Hn) as Hdis.
  destruct (strcat_ok b1 pn fn [] name) as (b2 & R2 & _ & H2).
  - simpl. apply lookup_insert_eq.
  - by eapply cstr_mono.
  - simpl. intros i Hi. unfold b1. rewrite lookup_insert. case_decide; [by eexists|]. replace (pn + Z.of_nat 0 + i) with (pn + i) by lia. apply (sp_mapped _ _ _ Hsp). lia.
  - simpl. unfold disjoint_regions in *. lia.
  - exists b2. split.
    + rewrite (bind_ret _ _ _ _ _ (st8_ok b pn 0 ltac:(by exists x0))). exact R2.
    + intros x Hx. rewrite H2; [by apply W1|]. simpl. lia.
Qed.

(** ** The place in the ring *)

Lemma find_last_ok s l c fuel : links (threads s) l c -> (length l < fuel)%nat -> forall x,
  head l = Some x -> exists q, find_last fuel c x s = Ret (q, s).
Proof.
  revert fuel; induction l as [|p l IH]; intros fuel Hl Hf x Hx; [done|]. injection Hx as ->.
  destruct fuel as [|f]; [simpl in Hf; lia|]. destruct Hl as [(t & Ht & Hn) Hl]. cbn [find_last]. rewrite (bind_ret _ _ _ _ _ (th_ok _ _ _ Ht)).
  destruct (Z.eqb_spec (next t) c) as [E|E]; [by exists x|]. destruct l as [|y l]; [done|].
  apply (IH f Hl ltac:(simpl in *; lia)). by rewrite Hn.
Qed.

Lemma before_linked T c r : links T (c :: r) c -> exists t, T !! before c r = Some t.
Proof.
  intros Hl. apply (links_elem _ _ _ _ Hl). unfold before. destruct (list.last r) eqn:E; simpl; [right; by apply last_Some_elem_of|left].
Qed.

Lemma take_place_ok s c r np c3 tn :
  links (threads s) (c :: r) c -> NoDup (c :: r) -> np ∉ c :: r -> threads s !! np = Some tn ->
  exists s', take_place c np c3 s = Ret (None, s') /\ s' = set_rsp0 (tss_rsp0 s') (set_current np (set_threads (threads s') (set_mach (set_cr3 c3 (mach s)) s))) /\
    forall q, q <> np -> q <> before c r -> threads s' !! q = threads s !! q.
Proof.
  intros Hl Hnd Hnp Htn. pose proof Hl as [(tc & Htc & Hnc) Hr]. apply list.NoDup_cons in Hnd as [Hcr Hnd].
  apply not_elem_of_cons in Hnp as [Hne Hnpr]. destruct (before_linked _ _ _ Hl) as [tb Htb].
  assert (length (c :: r) <= size (threads s))%nat as Hsz.
  { apply (ring_size (set_current c s)). split; [done|done|]. by apply list.NoDup_cons. }
  assert (exists q, find_last (S (size (threads s))) c (next tc) s = Ret (q, s)) as [q Hq].
  { destruct r as [|y r]; [apply (find_last_ok s [c] c); [done|lia|by rewrite Hnc]|].
    apply (find_last_ok s (y :: r) c); [done|simpl in *; lia|by rewrite Hnc]. }
  destruct (find_before s c r tc _ q s Hl Hcr Htc Hq) as [-> _].
  assert (before c r <> np) as Hbn.
  { unfold before. destruct (list.last r) as [y|] eqn:E; simpl; [|congruence]. apply last_Some_elem_of in E. congruence. }
  unfold take_place, ring_fuel, gets. rewrite (bind_ret _ _ _ _ _ (th_ok _ _ _ Htc)), (bind_ret _ _ _ _ _ eq_refl), (bind_ret _ _ _ _ _ Hq).
  rewrite (bind_ret _ _ _ _ _ (upd_th_ok _ _ _ _ Htb)). set (T1 := <[before c r := with_next np tb]> (threads s)).
  assert (exists t1, T1 !! c = Some t1) as [t1 Ht1] by (unfold T1; rewrite lookup_insert; case_decide; by eexists).
  rewrite (bind_ret _ _ _ _ _ (th_ok (set_threads T1 s) _ _ Ht1)).
  assert (T1 !! np = Some tn) as Htn1 by (unfold T1; by rewrite lookup_insert_ne).
  rewrite (bind_ret _ _ _ _ _ (upd_th_ok (set_threads T1 s) _ _ _ Htn1)). unfold modify at 1. rewrite (bind_ret _ _ _ _ _ eq_refl).
  set (s2 := set_current np _). set (tn2 := with_next (next t1) tn).
  assert (threads s2 !! np = Some tn2) as Htn2 by apply lookup_insert_eq.
  rewrite (bind_ret _ _ _ _ _ (upd_th_ok s2 _ _ _ Htn2)). unfold set_tss, modify. rewrite (bind_ret _ _ _ _ _ eq_refl).
  eexists. split_and!; [reflexivity|by destruct s|].
  intros x Hx Hxb. simpl. unfold T1. by rewrite !lookup_insert_ne by done.
Qed.

(** ** The whole call *)

Section exec.
Context {PS : ProcSymbols}.

Lemma archive_ok_mono b0 b es : b0 ⊆ b -> archive_ok b0 es -> archive_ok b es.
Proof. intros Hs [H1 H2 H3]. split; [by eapply archive_mono|done|done]. Qed.

Lemma argv_at_mono b0 b argv args : b0 ⊆ b -> argv_at b0 argv args -> argv_at b argv args.
Proof.
  intros Hs. revert argv; induction args as [|a r IH]; intros argv; cbn [argv_at]; [by apply ld_le_mono|].
  intros (p & H1 & H2 & H3 & H4). exists p. split_and!; [by eapply ld_le_mono|done|by eapply cstr_mono|by apply IH].
Qed.

Lemma argv_chars b argv args : argv_at b argv args -> Forall (Forall (fun c => 0 < c < 256)) args.
Proof.
  revert argv; induction args as [|a r IH]; intros argv; cbn [argv_at]; [done|].
  intros (p & _ & _ & H3%cstr_chars & H4%IH). by constructor.
Qed.

(** The program [name] is in the archive, and the arguments are in memory. *)
Record exec_input (s : kern) (b0 : bytes) (fn argv : Z) (name : list Z) (args : list (list Z)) (loc entry : Z)
    (hs : list (option segment)) : Prop := {
  ei_mem : b0 ⊆ mem (con (term s));
  ei_fn : fn <> 0;
  ei_name : cstr b0 fn name;
  ei_short : Z.of_nat (length name) < BUF_SIZE;
  ei_found : exists es x, archive_ok b0 es /\ find_entry (is_entry name 0) tarfs_start es = Some x /\ loc = x + HEADER;
  ei_elf : elf_at b0 loc entry hs;
  ei_layout : layout_ok (segments hs);
  ei_argv : argv <> 0;
  ei_args : argv_at b0 argv args;
  ei_argc : (length args <= 8)%nat;
  ei_lengths : Forall (fun a => Z.of_nat (length a) < BUF_SIZE) args;
  ei_copy : spare b0 (mem (con (term s))) filename_copy;
  ei_pname : spare b0 (mem (con (term s))) p_name_exec;
  ei_arrays : disjoint_regions filename_copy BUF_SIZE p_name_exec BUF_SIZE;
  ei_addresses : filename_copy <> 0 /\ p_name_exec <> 0
}.

Lemma input_program s b0 b fn argv name args loc entry hs f :
  exec_input s b0 fn argv name args loc entry hs -> b0 ⊆ b -> cstr b f name -> program_at b f loc entry hs.
Proof.
  intros Hi Hs Hn. destruct (ei_found _ _ _ _ _ _ _ _ _ Hi) as (es & x & Ha & Hx & ->).
  destruct (archive_ok_mono _ _ _ Hs Ha) as [H1 H2 H3]. split.
  - pose proof (get_file_binary_ok b _ _ es f name H1 H2 H3 Hn) as H. by rewrite Hx in H.
  - eapply find_entry_pos in Hx; [unfold HEADER; lia|exact H1].
  - eapply elf_at_mono; [exact Hs|]. by apply Hi.
Qed.

(** The new process [np], which runs the program with its arguments. *)
Record started (s s' : kern) (tc : kthread) (r : list Z) (np : Z) (t : kthread) (args : list (list Z)) (entry : Z)
    (gs : list segment) : Prop := {
  st_new : threads s !! np = None;
  st_thread : threads s' !! np = Some t;
  st_ring : ring s' (np :: r);
  st_state : state t = RUNNING;
  st_ids : pid t = pid tc /\ ppid t = ppid tc;
  st_cwd : cwd t = cwd tc;
  st_fds : exists s0, fds t = new_table (left_over s0) np (take 3 (fds tc));
  st_rip : rip t = entry;
  st_rsp : rsp_user t = ARGS - 8 * Z.of_nat (length args);
  st_cr3 : cr3 (mach s') = cr3_ t;
  st_segments : forall g k b, g ∈ gs -> sg_image g !! k = Some b -> ld8_va (sg_vaddr g + Z.of_nat k) (mach s') = Ret (b, mach s');
  st_heap : forall k, 0 <= k < 4096 -> ld8_va (HEAP_START + k) (mach s') = Ret (0, mach s');
  st_args : args_on_stack (mach s') args
}.

(** The free pages that [exec_vpe] may use. *)
Definition exec_pages (gs : list segment) : Z := 4 * pages_for SIZEOF_KTHREAD + 1 + 4 + pages_needed gs + 16.

(** The calls before the program is loaded: the machine has a new address space. *)
Lemma exec_pages_ok roots m l n : ready roots m l -> 0 <= n -> MIN_PAGES + (4 * pages_for SIZEOF_KTHREAD + 1 + 4 + n) <= Z.of_nat (length l) ->
  exists p q mmp m1 m2 m3 l3, kmalloc SIZEOF_KTHREAD m = Ret (kva p, m1) /\ (p ∈ l) /\
    setup_user_page_tables m1 = Ret (q * 4096, m2) /\ kmalloc SIZEOF_MM (set_cr3 (q * 4096) m2) = Ret (mmp, m3) /\
    ready (q * 4096 :: roots) m3 l3 /\ cr3 m3 = q * 4096 /\ MIN_PAGES + n <= Z.of_nat (length l3) /\ suffix l3 l /\
    cr3 m2 = cr3 m.
Proof.
  intros Hr Hn Hl. change (pages_for SIZEOF_KTHREAD) with 9 in Hl. assert (0 < MIN_PAGES) by done.
  destruct (ready_kmalloc_many roots m l SIZEOF_KTHREAD Hr ltac:(done)) as (p & m1 & l1 & R1 & Hr1 & Hp & S1 & L1 & _ & G1);
    change (pages_for SIZEOF_KTHREAD) with 9 in *; [lia|].
  destruct l1 as [|q l1]; [cbn [length] in L1; lia|]. cbn [length] in L1.
  destruct (ready_space roots m1 q l1 Hr1) as (m2 & R2 & Hr2 & C2); [cbn [length]; lia|].
  destruct (ready_kmalloc (q * 4096 :: roots) (set_cr3 (q * 4096) m2) l1 SIZEOF_MM Hr2) as (pm_ & m3 & l3 & R3 & K3 & _ & _ & _ & L3 & Hr3); [done|lia|].
  exists p, q, (kva pm_), m1, m2, m3, l3. split_and!; try done; [by rewrite (sr_cr3 _ _ (kp_regs _ _ _ _ _ _ K3))|lia| |].
  - etransitivity; [apply K3|]. etransitivity; [|exact S1]. by apply suffix_cons_r.
  - rewrite C2. apply G1.
Qed.

(** What the loaded program and its arguments are in memory. *)
Lemma exec_image roots m l0 l gs args : ready roots m l -> image_held roots m l0 l gs -> (length args <= 8)%nat ->
  Forall (Forall (fun c => 0 < c < 256)) args ->
  exists m1 m2, copy_in ARGS (rows args) m = Ret (tt, m1) /\ push_argv (Z.of_nat (length args)) ARGS m1 = Ret (tt, m2) /\
    same_regs m m2 /\ args_on_stack m2 args /\
    (forall g k b, g ∈ gs -> sg_image g !! k = Some b -> ld8_va (sg_vaddr g + Z.of_nat k) m2 = Ret (b, m2)) /\
    (forall k, 0 <= k < 4096 -> ld8_va (HEAP_START + k) m2 = Ret (0, m2)).
Proof.
  intros Hr Hi Hn Hc. destruct (on_stack_held roots l0 l gs m Hr Hi) as [f Ho].
  destruct (stack_args_ok roots l0 l gs m f args Ho Hn Hc) as (m1 & m2 & R1 & R2 & Hd & Ha).
  pose proof (on_stack_written roots l0 l gs m m2 f Ho Hd) as [[I R K Z0] Hs Hh _ _ _ _ _].
  assert (forall q, q ∈ l -> q ∈ l0) as Hl by (intros q; apply suffix_elem, Hi).
  exists m1, m2. split_and!; try done; [apply Hd| |].
  - intros g k b Hg Hb. eapply holds_read; [exact I|exact R| |exact Hb]. eapply holds_weaken; [exact Hl|by apply Hs].
  - intros k Hk. eapply held_zero; [exact I|exact R| |exact Hk]. eapply holds_weaken; [exact Hl|done].
Qed.

(** Before the new thread enters the ring: it is a thread of its own, and the machine holds the program. *)
Record prepared (s s9 : kern) (tc : kthread) (np : Z) (t9 : kthread) (args : list (list Z)) (entry : Z) (gs : list segment) : Prop := {
  pr_threads : forall x, x <> np -> threads s9 !! x = threads s !! x;
  pr_thread : threads s9 !! np = Some t9;
  pr_ids : pid t9 = pid tc /\ ppid t9 = ppid tc;
  pr_cwd : cwd t9 = cwd tc;
  pr_fds : exists s0, fds t9 = new_table (left_over s0) np (take 3 (fds tc));
  pr_rip : rip t9 = entry;
  pr_rsp : rsp_user t9 = ARGS - 8 * Z.of_nat (length args);
  pr_cr3 : cr3 (mach s9) = cr3_ t9;
  pr_segments : forall g k b, g ∈ gs -> sg_image g !! k = Some b -> ld8_va (sg_vaddr g + Z.of_nat k) (mach s9) = Ret (b, mach s9);
  pr_heap : forall k, 0 <= k < 4096 -> ld8_va (HEAP_START + k) (mach s9) = Ret (0, mach s9);
  pr_args : args_on_stack (mach s9) args
}.

Lemma exec_prepared roots s l c tc b0 fn argv name args loc entry hs :
  current_process s = c -> threads s !! c = Some tc -> ready roots (mach s) l ->
  exec_input s b0 fn argv name args loc entry hs ->
  MIN_PAGES + exec_pages (segments hs) <= Z.of_nat (length l) ->
  exists p t9 s9, exec_vpe (LD := elf_loader) fn argv s = take_place c (kva p) (cr3_ t9) s9 /\ (p ∈ l) /\
    prepared s s9 tc (kva p) t9 args entry (segments hs).
Proof.
  intros Hc Htc Hr Hi Hl.
  pose proof (pages_needed_pos _ (ly_segments _ (ei_layout _ _ _ _ _ _ _ _ _ Hi))) as Hpn.
  destruct (exec_pages_ok roots (mach s) l (pages_needed (segments hs) + 16) Hr) as (p & q & mmp & m1 & m2 & m3 & l3 & R1 & Hp & R2 & R3 & Hr3 & C3 & L3 & _ & _);
    [lia|unfold exec_pages in Hl; lia|].
  pose proof Hi as [Hm Hfn Hname Hshort _ Helf Hly Hav Hargs Hargc Hlen Hcopy Hpname Harr [Hfc Hpn0]].
  pose proof (input_program s b0 _ fn argv name args loc entry hs fn Hi Hm (cstr_mono _ _ _ _ Hm Hname)) as Hprog.
  destruct (name_copied b0 _ filename_copy fn name Hm Hcopy Hname Hfn Hshort) as (b1 & B1 & W1 & N1).
  pose proof (spare_keeps _ _ _ _ Hm Hcopy W1) as Hm1. pose proof (spare_other _ _ _ _ _ Hpname Harr W1) as Hpname1.
  destruct (name_set b0 b1 p_name_exec fn name Hm1 Hpname1 Hname Hshort) as (b2 & B2 & W2).
  pose proof (spare_keeps _ _ _ _ Hm1 Hpname1 W2) as Hm2.
  assert (cstr b2 filename_copy name) as N2 by (eapply (cstr_other b1 b2 p_name_exec); [exact N1|done|unfold disjoint_regions in *; lia|exact W2]).
  unfold exec_vpe. rewrite (bind_ret _ _ _ _ _ (on_bytes_read _ s _ (pa_found _ _ _ _ _ Hprog))).
  destruct (Z.eqb_spec loc 0) as [E|_]; [by destruct (pa_loc _ _ _ _ _ Hprog)|].
  rewrite (bind_ret _ _ _ _ _ (on_bytes_ret _ s _ _ B1)). set (s1 := with_mem b1 s).
  rewrite (bind_ret _ _ _ _ _ (read_args_ok s1 argv args Hav (argv_at_mono _ _ _ _ Hm1 Hargs) Hargc Hlen)).
  rewrite (bind_ret _ _ _ _ _ (on_mach_ret _ s1 _ _ R1)). unfold gets at 1. rewrite (bind_ret _ _ _ _ _ eq_refl).
  set (s2 := set_mach m1 s1). change (current_process s2) with (current_process s). rewrite Hc.
  rewrite (bind_ret _ _ _ _ _ (th_ok s2 c tc Htc)). rewrite (bind_ret _ _ _ _ _ (on_bytes_ret _ s2 _ _ B2)).
  set (s3 := with_mem b2 s2). rewrite (bind_ret _ _ _ _ _ (on_mach_ret _ s3 _ _ R2)).
  rewrite (bind_ret _ _ _ tt (set_mach (set_cr3 (q * 4096) m2) s3)) by done. set (s4 := set_mach _ s3).
  rewrite (bind_ret _ _ _ _ _ (on_mach_ret _ s4 _ _ R3)). unfold new_th at 1, modify at 1. rewrite (bind_ret _ _ _ _ _ eq_refl).
  set (np := kva p) in *. set (tn := KThread _ _ _ _ _ _ _ _ _ _ _ _). set (s5 := set_threads _ _).
  assert (threads s5 !! np = Some tn) as Hn5 by apply lookup_insert_eq.
  destruct (load_file_spec (q * 4096 :: roots) s5 l3 np tn filename_copy loc entry hs Hn5 Hr3
    (input_program s b0 b2 fn argv name args loc entry hs filename_copy Hi Hm2 N2) Hly ltac:(lia)) as (s6 & l0 & l6 & R6 & Him & _ & K6 & E6).
  pose proof (ready_kept _ _ _ _ _ _ Hr3 K6) as Hr6.
  change (load_file (Loader := elf_loader) np filename_copy s5 = Ret (0, s6)) in R6. rewrite (bind_ret _ _ _ _ _ R6). cbv zeta. fold ARGS. cbn [fst snd].
  destruct (exec_image _ _ _ _ _ args Hr6 Him Hargc (argv_chars _ _ _ Hargs)) as (m7 & m8 & R7 & R8 & G8 & Ha & Hse & Hhe).
  rewrite (bind_ret _ _ _ _ _ (on_mach_ret _ s6 _ _ R7)). rewrite (bind_ret _ _ _ _ _ (on_mach_ret _ (set_mach m7 s6) _ _ R8)).
  set (s8 := set_mach m8 _). set (t6 := with_rsp_user (STACK_START + 4096 - 16) (with_rip entry tn)).
  assert (threads s8 = <[np := t6]> (threads s)) as T8.
  { change (threads s8) with (threads s6). rewrite E6. simpl. by rewrite insert_insert_eq. }
  assert (threads s8 !! np = Some t6) as Hn8 by (rewrite T8; apply lookup_insert_eq).
  rewrite (bind_ret _ _ _ _ _ (upd_th_ok s8 _ _ _ Hn8)).
  assert (u64 (ARGS - 8 * Z.of_nat (length args)) = ARGS - 8 * Z.of_nat (length args)) as ->
    by (apply u64_small; unfold ARGS, STACK_START; lia).
  set (t9 := with_rsp_user _ t6). set (s9 := set_threads _ s8).
  assert (forall x, x <> np -> threads s9 !! x = threads s !! x) as T9 by (intros x Hx; change (threads s9) with (<[np := t9]> (threads s8)); by rewrite lookup_insert_ne, T8, lookup_insert_ne by done).
  assert (threads s9 !! np = Some t9) as Hn9 by apply lookup_insert_eq.
  exists p, t9, s9. split_and!; [reflexivity|done|]. split; try done; [by eexists|].
  change (cr3 m8 = q * 4096). rewrite (sr_cr3 _ _ G8), (sr_cr3 _ _ (kp_regs _ _ _ _ _ _ K6)). exact C3.
Qed.

(** C8: [exec] starts the program: when it is in the archive, its image and the arguments are well formed and there is enough
    memory, [exec_vpe] enters a new process, which takes the place of the current one in the ring and has its identifiers,
    its directory and its first three descriptors (the others are what memory held); it is at the entry point of the program, its memory, seen through its own
    page tables, holds the segments of the file and an empty heap, and its stack pointer is at the array of the
    addresses of the arguments, whose bytes follow. *)
Theorem exec_starts_program roots s l c r tc b0 fn argv name args loc entry hs :
  ring s (c :: r) -> threads s !! c = Some tc -> ready roots (mach s) l ->
  (forall q, q ∈ l -> threads s !! kva q = None) ->
  exec_input s b0 fn argv name args loc entry hs ->
  MIN_PAGES + exec_pages (segments hs) <= Z.of_nat (length l) ->
  exists s' np t, exec_vpe (LD := elf_loader) fn argv s = Ret (None, s') /\ started s s' tc r np t args entry (segments hs).
Proof.
  intros [Hhd Hlk Hnd] Htc Hr Hfresh Hi Hl. injection Hhd as Hc.
  destruct (exec_prepared roots s l c tc b0 fn argv name args loc entry hs (eq_sym Hc) Htc Hr Hi Hl) as (p & t9 & s9 & R & Hp & Hpr).
  destruct Hpr as [T9 Hn9 E1 E2 E3 E4 E5 E6 Hse Hhe Ha]. pose proof (Hfresh p Hp) as Hnew. set (np := kva p) in *.
  assert (np ∉ c :: r) as Hnp by (intros Hin; destruct (links_elem _ _ _ _ Hlk Hin) as [t0 Ht0]; congruence).
  assert (links (threads s9) (c :: r) c) as Hl9.
  { rewrite Hc at 2. eapply links_ext; [exact Hlk|]. intros x t Hx Ht. exists t. rewrite T9; [done|by intros ->]. }
  destruct (take_place_ok s9 c r np (cr3_ t9) t9 Hl9 Hnd Hnp Hn9) as (s' & Rp & Es & _).
  destruct (take_place_ring s9 c r np (cr3_ t9) t9 None s' Hl9 Hnd Hnp Hn9 Rp) as [Hring' (n & Hn')].
  assert (mach s' = mach s9) as Em by (rewrite Es, <- E6; simpl; by destruct (mach s9)).
  exists s', np. eexists. split; [by rewrite R|]. split; try done; rewrite Em; done.
Qed.
End exec.

(** ** Witness *)

Definition exec_symbols : ProcSymbols := {|
  msg_no_process := 0; msg_bad_state := 0; msg_reap_only := 0; msg_exit_only := 0;
  msg_kill_le_0 := 0; msg_kill_range := 0; msg_kill_idle := 0; msg_kill_none := 0;
  msg_kill_only := 0; msg_segv := 0; str_sbush := 0; str_idle := 0; str_pid := 0;
  str_ppid := 0; str_name := 0; str_status := 0; str_running := 0; str_queued := 0;
  str_zombie := 0; str_nl := 0; fn_init_scheduler := 0; tarfs_start := 512; tarfs_end := 2048;
  p_name_create := 0; p_name_copy := 0; p_name_exec := 2400; filename_copy := 2600; num_array := 0; left_over := fun _ _ => 170 |}.

(** A machine with 198 free pages. *)
Definition exec_physmem : physmem :=
  match init_physical_memory 8192 0 (200 * 4096) (physmem_boot ∅) with Ret (_, s) => s | _ => physmem_boot ∅ end.
Definition exec_machine : machine := empty_machine exec_physmem.

Lemma exec_physmem_inv : alloc_inv exec_physmem (seqZ 2 198).
Proof. split; [apply chainb_sound; vm_compute; reflexivity|apply NoDup_seqZ|by vm_compute]. Qed.

Lemma exec_ram a : ram_word (ram exec_physmem) a = 0.
Proof. apply zero_ram. vm_compute. reflexivity. Qed.

Lemma exec_ready : ready [4096] exec_machine (seqZ 2 198).
Proof.
  assert ((0 ∉ seqZ 2 198) /\ (1 ∉ seqZ 2 198)) as [H0 H1] by (rewrite !elem_of_seqZ; lia).
  split; [|by left|done|exact H0]. apply (empty_space_inv exec_physmem (seqZ 2 198) 1); [apply exec_physmem_inv|by vm_compute|exact H1|apply exec_ram].
Qed.

(** The program ["p"] of the loader's witness, started with its own name and ["q"] as the arguments. *)
Definition exec_memory : bytes := write_bytes 200 (le_bytes 8 100 ++ le_bytes 8 110 ++ replicate 8 0) demo_program.
Definition exec_arrays : bytes := write_bytes 2400 (replicate 400 0) exec_memory.
Definition demo_exec : kern :=
  Kern exec_machine (threads demo_kern) ∅ ∅ 100 ([0; 1; 1; 1] ++ replicate 996 0) (Tty (Console exec_arrays 0 0) [] 0) demo_vfs 0.

Lemma demo_exec_ring : ring demo_exec [100; 200; 300].
Proof. split; apply demo_ring. Qed.

Lemma exec_apart x : 2400 <= x < 2800 -> exec_memory !! x = None.
Proof.
  intros Hx. assert (forallb (fun i => bool_decide (exec_memory !! i = None)) (seqZ 2400 400) = true) as H by (by vm_compute).
  rewrite forallb_forall in H. apply (bool_decide_eq_true _), (H x), list_elem_of_In, elem_of_seqZ. lia.
Qed.

Lemma exec_spare a : 2400 <= a -> a + BUF_SIZE <= 2800 -> spare exec_memory exec_arrays a.
Proof.
  intros H1 H2. split; intros i Hi; [|apply exec_apart; lia]. unfold exec_arrays. rewrite write_bytes_lookup, length_replicate, decide_True by lia.
  apply lookup_lt_is_Some_2. rewrite length_replicate. lia.
Qed.

Lemma demo_sub : demo_program ⊆ exec_memory.
Proof.
  apply map_subseteq_spec. intros x c Hx. unfold exec_memory. rewrite write_bytes_lookup. case_decide as Hd; [|done]. exfalso.
  assert (forallb (fun i => bool_decide (demo_program !! i = None)) (seqZ 200 24) = true) as H by (by vm_compute).
  rewrite forallb_forall in H. change (Z.of_nat _) with 24 in Hd.
  assert (x ∈ seqZ 200 24) as Hin%list_elem_of_In by (apply elem_of_seqZ; lia). apply H in Hin. apply bool_decide_eq_true in Hin.
  rewrite Hin in Hx. discriminate Hx.
Qed.

Lemma demo_input : @exec_input exec_symbols demo_exec exec_memory 100 200 [112] [[112]; [113]] 1024 0x400011 [None; Some demo_segment].
Proof.
  split.
  - apply map_subseteq_spec. intros x c Hx. change (exec_arrays !! x = Some c). unfold exec_arrays. rewrite write_bytes_lookup. case_decide as Hd; [|done].
    rewrite length_replicate in Hd. rewrite exec_apart in Hx by lia. done.
  - done.
  - by apply cstrb_sound; vm_compute.
  - done.
  - exists [Entry [112] 178 0], 512. split_and!; [|done|done]. apply (@archive_ok_mono exec_symbols demo_program); [apply demo_sub|].
    destruct demo_program_archive as [A B C]. by split.
  - eapply elf_at_mono; [apply demo_sub|apply demo_elf_at].
  - apply demo_layout.
  - done.
  - exists 100. split_and!; [by apply ld_le_eval; vm_compute|done|by apply cstrb_sound; vm_compute|].
    exists 110. split_and!; [by apply ld_le_eval; vm_compute|done|by apply cstrb_sound; vm_compute|]. by apply ld_le_eval; vm_compute.
  - simpl. lia.
  - by repeat constructor.
  - by apply exec_spare.
  - by apply exec_spare.
  - right. by vm_compute.
  - done.
Qed.

Lemma exec_starts_program_witness : exists s' np t,
  exec_vpe (LD := @elf_loader exec_symbols) (PS := exec_symbols) 100 200 demo_exec = Ret (None, s') /\
  threads s' !! np = Some t /\ rip t = 0x400011 /\ ring s' [np; 200; 300] /\ ld8_va (ARGS + 128) (mach s') = Ret (113, mach s').
Proof.
  destruct (@exec_starts_program exec_symbols [4096] demo_exec (seqZ 2 198) 100 [200; 300] (demo_thread 1 0 0x1000 200 RUNNING) exec_memory
    100 200 [112] [[112]; [113]] 1024 0x400011 [None; Some demo_segment] demo_exec_ring eq_refl exec_ready) as (s' & np & t & R & Hst).
  - intros q Hq%elem_of_seqZ. unfold kva. rewrite u64_small by (unfold KERNEL_BASE; lia). unfold KERNEL_BASE.
    change (threads demo_exec) with (threads demo_kern). unfold demo_kern. simpl. rewrite !lookup_insert_ne by lia. reflexivity.
  - exact demo_input.
  - by vm_compute.
  - exists s', np, t. split_and!; [exact R|apply Hst|apply Hst|apply Hst|].
    rewrite (as_bytes _ _ (st_args _ _ _ _ _ _ _ _ _ Hst) 128) by lia. reflexivity.
Defined.
