(* ===== verification/ForkSpec.v ===== *)
(** * [fork]: the new process

    What [fork] ([sys/process.c]) does when there is enough memory: it returns, the child is in the ring behind its parent, its
    address space shares the pages of the parent copy-on-write, and its memory descriptor lists copies of the
    parent's areas. *)

From S2P Require Import Prelude BitField PhysMem Paging PageTable PagingSpec Cow CowFork MapRange VaMem Image.
From S2P Require Import CStr Console Terminal Tarfs Vfs Process KernInv Elf Syscalls ProcessSpec UserMem SyscallsSpec ElfSpec ForkExec ExecSpec.

(** ** Steps of the kernel's heap *)

(** The user part of every address space is as before. *)
Record kernel_step (roots : list Z) (m : machine) (l : list Z) (m' : machine) (l' : list Z) : Prop := {
  kn_ready : ready roots m' l';
  kn_regs : same_regs m m';
  kn_sub : suffix l' l;
  kn_user : forall x va, x ∈ roots -> user va -> pte (ram (pm m')) x va = pte (ram (pm m)) x va;
  kn_tables : forall x va d, x ∈ roots -> (d <= 3)%nat -> user va -> table_at (ram (pm m')) x va d = table_at (ram (pm m)) x va d
}.

Lemma kernel_step_refl roots m l : ready roots m l -> kernel_step roots m l m l.
Proof. intros H. by split. Qed.

Lemma kernel_step_trans roots m1 l1 m2 l2 m3 l3 :
  kernel_step roots m1 l1 m2 l2 -> kernel_step roots m2 l2 m3 l3 -> kernel_step roots m1 l1 m3 l3.
Proof.
  intros [_ B1 C1 D1 E1] [A2 B2 C2 D2 E2]. split; [done|by eapply same_regs_trans|by etransitivity| |].
  - intros x va Hx Hu. by rewrite D2, D1.
  - intros x va d Hx Hd Hu. by rewrite E2, E1.
Qed.

Lemma kmalloc_step roots m l bytes :
  ready roots m l -> 0 < bytes < 2 ^ 20 -> MIN_PAGES + 4 * pages_for bytes <= Z.of_nat (length l) ->
  exists p m1 l1, kmalloc bytes m = Ret (kva p, m1) /\ kernel_step roots m l m1 l1 /\ (p ∈ l) /\ (p ∉ l1) /\ 0 <= p < MAX_PAGES /\
    Z.of_nat (length l) <= Z.of_nat (length l1) + 4 * pages_for bytes.
Proof.
  intros [Hi Hr Hk H0] Hb Hl. destruct (kmalloc_spec m roots l bytes) as (p & phs & m1 & l1 & Hrun & Hn & Hh);
    [done|done|by rewrite Hk|lia|done|].
  destruct Hh as [I R _ Ho Hf _ _ S Hlen Ht]. destruct (Hf p) as (Hp & Hp1 & _); [by left|].
  pose proof (chain_range _ _ _ _ (inv_chain _ _ (sp_alloc _ _ _ Hi)) Hp) as Hpr.
  assert (forall k, (k < length (p :: phs))%nat -> table_offset 0 (heap_va m (p * 4096) (0 + Z.of_nat k)) = 511) as Hoff.
  { intros k Hkl. assert (pages_for bytes <= 257) as Hpf.
    { unfold pages_for, PAGE_SIZE. assert (bytes / 4096 < 256) by (apply Z.div_lt_upper_bound; lia). destruct (_ =? 0); lia. }
    unfold heap_va, PAGE_SIZE. rewrite Hk, u32_small by lia. rewrite <- Z.add_assoc. apply kernel_va_offset. unfold MAX_PAGES in Hpr. lia. }
  exists p, m1, l1. rewrite Hrun, Hk, <- Hn. split_and!; try done; try lia. split; try done.
  - split; [done|by rewrite (sr_cr3 _ _ R)|by rewrite (sr_kvb _ _ R)|]. intros H. apply H0. by eapply suffix_elem.
  - intros x va Hx Hu. apply Ho; [done|]. intros k Hkl Hv. unfold user in Hu. apply Hu. rewrite <- (Hoff k Hkl).
    unfold vpn in Hv. by injection Hv as <- _ _ _.
  - intros x va d Hx Hd Hu. apply Ht; [done|done|]. intros k Hkl. rewrite Hoff by done. intros E. by apply Hu.
Qed.

Lemma with_index_user d i va : (0 < d <= 3)%nat -> 0 <= i < 512 -> user va -> user (with_index d i va).
Proof. intros Hd Hi Hu. unfold user. rewrite table_offset_with by lia. by rewrite decide_False by lia. Qed.

(** The user tables of an address space are as before. *)
Lemma entry_tables_user roots m l m' l' root k : kernel_step roots m l m' l' -> root ∈ roots -> (k <= 3)%nat ->
  forall va, user va -> entry_tables root (ram (pm m')) k va = entry_tables root (ram (pm m)) k va.
Proof.
  intros Hs Hr. induction k as [|k IH]; intros Hk va Hu; [done|]. cbn [entry_tables].
  rewrite (kn_tables _ _ _ _ _ Hs) by (done || lia). destruct (table_at _ root va (3 - k)); [|done]. f_equal. f_equal.
  apply list_fmap_ext. intros j i Hi. apply list_elem_of_lookup_2, elem_of_seqZ in Hi. destruct k as [|k]; [done|].
  apply IH; [lia|]. apply with_index_user; [lia|lia|done].
Qed.

Lemma user_tables_step roots m l m' l' root : kernel_step roots m l m' l' -> root ∈ roots -> user_tables m' root = user_tables m root.
Proof.
  intros Hs Hr. unfold user_tables, tables_below. f_equal. apply list_fmap_ext. intros j i Hi.
  apply list_elem_of_lookup_2, elem_of_seqZ in Hi. apply (entry_tables_user roots m l m' l'); [done|done|lia|].
  unfold user. rewrite table_offset_with by lia. rewrite decide_True by done. lia.
Qed.

Lemma frames_used_step roots m l m' l' root : kernel_step roots m l m' l' -> root ∈ roots -> frames_used root m l -> frames_used root m' l'.
Proof.
  intros Hs Hr Hf va Hu. rewrite (kn_user _ _ _ _ _ Hs) by done. intros Hp. destruct (Hf va Hu Hp) as (p & E & Hpr & Hl).
  exists p. split_and!; [done|lia|lia|]. intros Hin. apply Hl. eapply suffix_elem; [apply Hs|done].
Qed.

(** ** Copies of lists of areas *)

Definition contents (areas : list (Z * vma_struct)) : list vma_struct := (fun x => linked x.2 0) <$> areas.

Lemma link_step iter c s : iter_ok iter (vmas s) ->
  (if iter =? 0 then mret tt else b ← vma iter; set_vma iter (Vma (vma_start b) (vma_end b) (vma_type b) (vma_flags b) c)) s =
  Ret (tt, set_vmas (link_last iter c (vmas s)) s).
Proof.
  intros [->|[b Hb]]; unfold link_last.
  - simpl. destruct (vmas s !! 0); by destruct s.
  - rewrite Hb. destruct (iter =? 0); [by destruct s|]. by rewrite (bind_ret _ _ _ _ _ (vma_ok _ _ _ Hb)).
Qed.

(** The areas are not on pages of [l0]. *)
Definition old_areas (l0 : list Z) (areas : list (Z * vma_struct)) : Prop := forall a q, a ∈ areas.*1 -> q ∈ l0 -> a <> kva q.

Lemma old_lookup l0 l vm0 vm first iter done areas a : chain_of l0 l vm0 vm first iter done -> old_areas l0 areas -> a ∈ areas.*1 -> vm !! a = vm0 !! a.
Proof.
  intros Hc Ho Ha. apply (ch_frame _ _ _ _ _ _ _ Hc). intros Hin. pose proof (ch_taken _ _ _ _ _ _ _ Hc) as Ht.
  rewrite List.Forall_forall in Ht. destruct (Ht a) as (q & -> & _ & Hq & _); [by apply list_elem_of_In|]. by apply (Ho _ q Ha Hq).
Qed.

(** The state while areas are copied. *)
Record copying (roots : list Z) (s0 : kern) (l0 : list Z) (s : kern) (l : list Z) : Prop := {
  cp_state : s = set_vmas (vmas s) (set_mach (mach s) s0);
  cp_step : kernel_step roots (mach s0) l0 (mach s) l
}.

Lemma copying_refl roots s l : ready roots (mach s) l -> copying roots s l s l.
Proof. intros H. split; [by destruct s|by apply kernel_step_refl]. Qed.

Lemma copying_trans roots s0 l0 s1 l1 s2 l2 : copying roots s0 l0 s1 l1 -> copying roots s1 l1 s2 l2 -> copying roots s0 l0 s2 l2.
Proof. intros [A1 B1] [A2 B2]. split; [rewrite A2, A1; done|by eapply kernel_step_trans]. Qed.

(** A fresh record for a copy. *)
Lemma copy_record roots s l v : ready roots (mach s) l -> MIN_PAGES + 4 <= Z.of_nat (length l) ->
  exists p m' l', on_mach (kmalloc SIZEOF_VMA) s = Ret (kva p, set_mach m' s) /\
    set_vma (kva p) v (set_mach m' s) = Ret (tt, set_vmas (<[kva p := v]> (vmas s)) (set_mach m' s)) /\
    kernel_step roots (mach s) l m' l' /\ (p ∈ l) /\ (p ∉ l') /\ 0 <= p < MAX_PAGES /\ Z.of_nat (length l) <= Z.of_nat (length l') + 4.
Proof.
  intros Hr Hl. destruct (kmalloc_step roots (mach s) l SIZEOF_VMA Hr) as (p & m' & l' & R & K & H1 & H2 & H3 & H4); [done|by change (pages_for SIZEOF_VMA) with 1; lia|].
  exists p, m', l'. split_and!; try done; try lia. by apply on_mach_ret.
Qed.

Lemma copy_vmas_ok roots l0 vm0 stop rest : forall segs p done s l first iter fuel,
  area_list vm0 p (segs ++ rest) -> first_area rest = stop -> stop ∉ segs.*1 -> old_areas l0 segs -> chain_of l0 l vm0 (vmas s) first iter done ->
  ready roots (mach s) l -> suffix l l0 -> MIN_PAGES + 4 * Z.of_nat (length segs) <= Z.of_nat (length l) -> (length segs < fuel)%nat ->
  exists s' l' done' first' iter', copy_vmas fuel stop p first iter s = Ret ((first', iter'), s') /\
    chain_of l0 l' vm0 (vmas s') first' iter' (done ++ done') /\ contents done' = contents segs /\ copying roots s l s' l' /\
    Z.of_nat (length l) <= Z.of_nat (length l') + 4 * Z.of_nat (length segs).
Proof.
  induction segs as [|[a v] segs IH]; intros p done s l first iter fuel Hal Hst Hns Hold Hc Hr Hsuf Hlen Hf; (destruct fuel as [|f]; [cbn [length] in Hf; lia|]); cbn [copy_vmas].
  - assert ((p =? 0) || (p =? stop) = true) as ->.
    { cbn [app] in Hal. destruct rest as [|[b w] rest]; cbn [area_list first_area] in *; [by subst|]. destruct Hal as (-> & _). subst stop. cbn [fst].
      by rewrite Z.eqb_refl, orb_true_r. }
    exists s, l, [], first, iter. rewrite app_nil_r. split_and!; [done|done|done|by apply copying_refl|cbn [length]; lia].
  - cbn [app area_list] in Hal. destruct Hal as (-> & Ha0 & nx & Hva & Hal). cbn [fmap list_fmap fst] in Hns. apply not_elem_of_cons in Hns as [Hns Hns'].
    destruct (Z.eqb_spec a 0); [done|]. destruct (Z.eqb_spec a stop); [done|]. cbn [orb].
    assert (vmas s !! a = Some (linked v nx)) as Hva' by (rewrite (old_lookup _ _ _ _ _ _ _ _ a Hc Hold) by (by left); done).
    rewrite (bind_ret _ _ _ _ _ (vma_ok _ _ _ Hva')). cbn [linked vma_start vma_end vma_type vma_flags vma_next].
    destruct (copy_record roots s l (linked v 0) Hr) as (q & m' & l' & R1 & R2 & K & Hq & Hq' & Hqr & Hlen'); [cbn [length] in Hlen; lia|].
    rewrite (bind_ret _ _ _ _ _ R1). unfold linked in R2 at 1. rewrite (bind_ret _ _ _ _ _ R2). fold (linked v 0). set (s1 := set_vmas _ _).
    pose proof (chain_iter_ok _ _ _ _ _ _ _ Hc) as Hit. rewrite (bind_ret _ _ _ _ _ (link_step iter (kva q) s1 (iter_ok_insert _ _ _ _ Hit))).
    set (s2 := set_vmas _ s1). pose proof (chain_add _ _ l' _ _ _ _ _ q v Hc (kn_sub _ _ _ _ _ K) Hsuf Hq Hq' Hqr) as Hc2.
    assert (copying roots s l s2 l') as Hcp by (by split).
    destruct (IH nx (done ++ [(kva q, v)]) s2 l' (if iter =? 0 then kva q else first) (kva q) f Hal Hst Hns') as (s' & l'' & done' & first' & iter' & R & Hc' & E & Hcp' & L);
      [intros b x Hb; apply Hold; by right|exact Hc2|apply K|etransitivity; [apply K|done]|cbn [length] in *; lia|cbn [length] in *; lia|].
    exists s', l'', ((kva q, v) :: done'), first', iter'. split_and!; [exact R|by rewrite <- app_assoc in Hc'| |by eapply copying_trans|cbn [length] in *; lia].
    cbn [contents fmap list_fmap]. f_equal. exact E.
Qed.

(** The heap list: while it is copied, the last copy still has the link of its original. *)
Definition relinked (vm vm1 : gmap Z vma_struct) (done : list (Z * vma_struct)) (iter p : Z) : Prop :=
  (done = [] /\ vm = vm1) \/ (exists v, iter <> 0 /\ vm1 !! iter = Some (linked v 0) /\ vm = <[iter := linked v p]> vm1).

Lemma relinked_step vm vm1 done iter p c v nx : relinked vm vm1 done iter p -> (done = [] -> iter = 0) -> iter <> c -> c <> 0 ->
  let vm2 := link_last iter c (<[c := linked v nx]> vm) in let vm1' := link_last iter c (<[c := linked v 0]> vm1) in
  vm1' !! c = Some (linked v 0) /\ vm2 = <[c := linked v nx]> vm1'.
Proof.
  intros [[-> ->]|(w & H0 & Hw & ->)] Hi Hne Hc; cbv zeta.
  - rewrite (Hi eq_refl). unfold link_last. split.
    + destruct (_ !! 0); simpl; apply lookup_insert_eq.
    + destruct (_ !! 0), (_ !! 0); simpl; by rewrite insert_insert_eq.
  - unfold link_last. rewrite !lookup_insert_ne, Hw, lookup_insert_eq by done. destruct (Z.eqb_spec iter 0); [done|].
    rewrite lookup_insert_ne, lookup_insert_eq by done. split; [done|].
    rewrite (insert_insert_ne _ c iter) by done. rewrite insert_insert_eq.
    rewrite (insert_insert_ne _ c iter) by done. by rewrite insert_insert_eq.
Qed.

Lemma relinked_other vm vm1 done iter p a : relinked vm vm1 done iter p -> a <> iter -> vm !! a = vm1 !! a.
Proof. intros [[_ ->]|(v & _ & _ & ->)] Ha; [done|]. by rewrite lookup_insert_ne. Qed.

Lemma relinked_done vm vm1 done iter : relinked vm vm1 done iter 0 -> vm = vm1.
Proof. intros [[_ ->]|(v & _ & Hv & ->)]; [done|]. by apply insert_id. Qed.

Lemma relinked_iter vm vm1 done iter p : relinked vm vm1 done iter p -> (done = [] -> iter = 0) -> iter_ok iter vm.
Proof. intros [[-> ->]|(v & _ & Hv & ->)] Hi; [left; auto|]. right. rewrite lookup_insert_eq. by eexists. Qed.

Lemma copy_heap_ok roots l0 vm0 : forall heap p done s l vm1 first iter fuel,
  area_list vm0 p heap -> old_areas l0 heap -> chain_of l0 l vm0 vm1 first iter done -> relinked (vmas s) vm1 done iter p ->
  ready roots (mach s) l -> suffix l l0 -> MIN_PAGES + 4 * Z.of_nat (length heap) <= Z.of_nat (length l) -> (length heap < fuel)%nat ->
  exists s' l' done' first' iter', copy_heap fuel p first iter s = Ret (first', s') /\
    chain_of l0 l' vm0 (vmas s') first' iter' (done ++ done') /\ contents done' = contents heap /\ copying roots s l s' l' /\
    Z.of_nat (length l) <= Z.of_nat (length l') + 4 * Z.of_nat (length heap).
Proof.
  induction heap as [|[a v] heap IH]; intros p done s l vm1 first iter fuel Hal Hold Hc Hrl Hr Hsuf Hlen Hf; (destruct fuel as [|f]; [cbn [length] in Hf; lia|]); cbn [copy_heap].
  - cbn [area_list] in Hal. subst p. simpl (0 =? 0). apply relinked_done in Hrl as <-.
    exists s, l, [], first, iter. rewrite app_nil_r. split_and!; [done|done|done|by apply copying_refl|cbn [length]; lia].
  - cbn [area_list] in Hal. destruct Hal as (-> & Ha0 & nx & Hva & Hal). destruct (Z.eqb_spec a 0); [done|].
    pose proof (ch_last _ _ _ _ _ _ _ Hc) as Hil. assert (done = [] -> iter = 0) as Hi0 by (intros ->; done).
    assert (forall b, b ∈ done.*1 -> exists q, b = kva q /\ q ∈ l0 /\ (q ∉ l) /\ 0 <= q < MAX_PAGES) as Htk.
    { intros b Hb%list_elem_of_In. pose proof (ch_taken _ _ _ _ _ _ _ Hc) as Ht. rewrite List.Forall_forall in Ht. destruct (Ht b Hb) as (x & ? & ? & ? & ?). eauto. }
    assert (a <> iter) as Hai.
    { intros ->. destruct done as [|d done]; [by rewrite Hi0 in Ha0|]. destruct (Htk iter) as (x & E & Hx & _); [rewrite Hil; by apply last_area_in|].
      apply (Hold iter x); [by left|done|done]. }
    assert (vmas s !! a = Some (linked v nx)) as Hva'.
    { rewrite (relinked_other _ _ _ _ _ a Hrl Hai). rewrite (old_lookup _ _ _ _ _ _ _ _ a Hc Hold) by (by left). done. }
    rewrite (bind_ret _ _ _ _ _ (vma_ok _ _ _ Hva')).
    destruct (copy_record roots s l (linked v nx) Hr) as (q & m' & l' & R1 & R2 & K & Hq & Hq' & Hqr & Hlen'); [cbn [length] in Hlen; lia|].
    rewrite (bind_ret _ _ _ _ _ R1), (bind_ret _ _ _ _ _ R2). set (s1 := set_vmas _ _). cbn [vma_next linked].
    rewrite (bind_ret _ _ _ _ _ (link_step iter (kva q) s1 (iter_ok_insert _ _ _ _ (relinked_iter _ _ _ _ _ Hrl Hi0)))).
    set (s2 := set_vmas _ s1). assert (iter <> kva q) as Hiq.
    { destruct done as [|d done]; [rewrite Hi0 by done; intros E; by apply (kva_nonzero q)|].
      destruct (Htk iter) as (x & E & _ & Hxl & Hxr); [rewrite Hil; by apply last_area_in|]. rewrite E. intros Ek%kva_inj; [|done..]. by subst x. }
    destruct (relinked_step (vmas s) vm1 done iter a (kva q) v nx Hrl Hi0 Hiq (kva_nonzero q Hqr)) as [E1 E2].
    pose proof (chain_add _ _ l' _ _ _ _ _ q v Hc (kn_sub _ _ _ _ _ K) Hsuf Hq Hq' Hqr) as Hc2.
    destruct (IH nx (done ++ [(kva q, v)]) s2 l' (link_last iter (kva q) (<[kva q := linked v 0]> vm1)) (if iter =? 0 then kva q else first) (kva q) f Hal) as (s' & l'' & done' & first' & iter' & R & Hc' & E & Hcp' & L);
      [intros b x Hb; apply Hold; by right|exact Hc2| |apply K|etransitivity; [apply K|done]|cbn [length] in *; lia|cbn [length] in *; lia|].
    { right. exists v. split_and!; [by apply kva_nonzero|exact E1|exact E2]. }
    exists s', l'', ((kva q, v) :: done'), first', iter'. split_and!; [exact R|by rewrite <- app_assoc in Hc'| | |cbn [length] in *; lia].
    + cbn [contents fmap list_fmap]. f_equal. exact E.
    + eapply copying_trans; [|exact Hcp']. by split.
Qed.

Lemma area_list_ext vm vm' p areas : area_list vm p areas -> (forall a, a ∈ areas.*1 -> vm' !! a = vm !! a) -> area_list vm' p areas.
Proof.
  revert p; induction areas as [|[b w] areas IH]; intros p H E; [done|]. destruct H as (-> & Hb & nx & Hl & H). split_and!; [done|done|].
  exists nx. split; [rewrite E by (by left); done|]. apply IH; [done|]. intros a Ha. apply E. by right.
Qed.

Lemma chain_start l vm : chain_of l l vm vm 0 0 [].
Proof. split; try done; constructor. Qed.

Lemma taken_in l0 l vm0 vm first iter areas a : chain_of l0 l vm0 vm first iter areas -> a ∈ areas.*1 -> taken l0 l a.
Proof. intros Hc Ha. pose proof (ch_taken _ _ _ _ _ _ _ Hc) as Ht. rewrite List.Forall_forall in Ht. by apply Ht, list_elem_of_In. Qed.

(** The last part of [copy_process]: the descriptor of the memory and its areas. *)
Definition copy_areas (mm_ : Z) (pm_ : mm_struct) (child : Z) : M kern Z :=
  n ← gets (fun s => S (size (vmas s)));
  maps ← copy_vmas n (vma_heap pm_) (vma_map pm_) 0 0;
  heap ← copy_heap n (vma_heap pm_) 0 0;
  st ← vma (vma_stack pm_);
  cst ← on_mach (kmalloc SIZEOF_VMA);
  set_vma cst st ≫= fun _ =>
  set_mm mm_ (MM (fst maps) (snd maps) cst heap) ≫= fun _ =>
  mret child.

(** The memory of a process: its segments, its heap and what it allocated, its stack. *)
Record memory_of (s : kern) (l : list Z) (pm_ : mm_struct) (segs heap : list (Z * vma_struct)) (st : vma_struct) : Prop := {
  mo_list : area_list (vmas s) (vma_map pm_) (segs ++ heap);
  mo_heap : heap <> [] /\ first_area heap = vma_heap pm_;
  mo_nodup : NoDup (segs ++ heap).*1;
  mo_stack : vmas s !! vma_stack pm_ = Some st;
  mo_old : forall q, q ∈ l -> vmas s !! kva q = None
}.

(** The copies: the segments and the heap are two lists, and the place for new areas is the last segment. *)
Record memory_copied (s s' : kern) (mm_ : Z) (segs heap : list (Z * vma_struct)) (st : vma_struct) : Prop := {
  mc_lists : exists map iter cst hp segs' heap', mms s' = <[mm_ := MM map iter cst hp]> (mms s) /\
    area_list (vmas s') map segs' /\ contents segs' = contents segs /\ iter = last_area segs' /\
    area_list (vmas s') hp heap' /\ contents heap' = contents heap /\ vmas s' !! cst = Some st;
  mc_old : forall a v, vmas s !! a = Some v -> vmas s' !! a = Some v
}.

Lemma area_list_bound vm p areas : area_list vm p areas -> NoDup areas.*1 -> (length areas <= size vm)%nat.
Proof.
  intros Hl Hnd. rewrite <- (length_fmap fst areas), <- (size_list_to_set (C := gset Z) _ Hnd), <- (size_dom (D := gset Z)).
  apply subseteq_size. intros a Ha%elem_of_list_to_set. apply elem_of_dom. clear Hnd. revert p Hl. induction areas as [|[b w] areas IH]; intros p Hl; [by apply not_elem_of_nil in Ha|].
  destruct Hl as (-> & _ & nx & Hb & Hl). cbn [fmap list_fmap fst] in Ha. apply elem_of_cons in Ha as [->|Ha]; [by exists (linked w nx)|by eapply IH].
Qed.

Lemma area_list_app vm p l1 l2 : area_list vm p (l1 ++ l2) -> area_list vm (if decide (l2 = []) then 0 else first_area l2) l2.
Proof.
  revert p; induction l1 as [|[b w] l1 IH]; intros p; cbn [app area_list].
  - destruct l2 as [|[c x] l2]; [by rewrite decide_True|]. rewrite decide_False by done. by intros (-> & H).
  - intros (_ & _ & nx & _ & H). by eapply IH.
Qed.

Lemma area_in vm p areas a : area_list vm p areas -> a ∈ areas.*1 -> is_Some (vm !! a).
Proof.
  revert p; induction areas as [|[b w] areas IH]; intros p Hl Ha; [by apply not_elem_of_nil in Ha|]. destruct Hl as (-> & _ & nx & Hb & Hl).
  cbn [fmap list_fmap fst] in Ha. apply elem_of_cons in Ha as [->|Ha]; [by exists (linked w nx)|by eapply IH].
Qed.

Lemma copy_areas_ok roots s l mm_ pm_ child segs heap st :
  ready roots (mach s) l -> memory_of s l pm_ segs heap st -> MIN_PAGES + 4 * Z.of_nat (length (segs ++ heap) + 1) <= Z.of_nat (length l) ->
  exists s' l', copy_areas mm_ pm_ child s = Ret (child, s') /\ memory_copied s s' mm_ segs heap st /\ kernel_step roots (mach s) l (mach s') l' /\
    s' = set_mms (mms s') (set_vmas (vmas s') (set_mach (mach s') s)).
Proof.
  intros Hr [Hal [Hne Hfst] Hnd Hst Hold] Hlen. rewrite length_app in Hlen.
  assert (forall a q v, vmas s !! a = Some v -> q ∈ l -> a <> kva q) as Hdis by (intros a q v Hv Hq ->; rewrite Hold in Hv; done).
  assert (old_areas l (segs ++ heap)) as Ho.
  { intros a q Ha Hq. destruct (area_in _ _ _ _ Hal Ha) as [v Hv]. by eapply Hdis. }
  assert (old_areas l segs /\ old_areas l heap) as [Ho1 Ho2].
  { split; intros a q Ha; apply Ho; rewrite fmap_app; apply elem_of_app; auto. }
  assert (vma_heap pm_ ∉ segs.*1) as Hns.
  { rewrite fmap_app in Hnd. apply list.NoDup_app in Hnd as (_ & Hnd & _). intros Hin. apply (Hnd _ Hin). rewrite <- Hfst. destruct heap as [|[b w] heap]; [done|by left]. }
  pose proof (area_list_bound _ _ _ Hal Hnd) as Hsz. rewrite length_app in Hsz.
  destruct (copy_vmas_ok roots l (vmas s) (vma_heap pm_) heap segs (vma_map pm_) [] s l 0 0 (S (size (vmas s))) Hal Hfst Hns Ho1 (chain_start _ _) Hr)
    as (s1 & l1 & segs' & f1 & i1 & R1 & C1 & E1 & [P1 K1] & L1); [done|lia|lia|]. cbn [app] in C1.
  assert (forall a v, vmas s !! a = Some v -> vmas s1 !! a = Some v) as Hk1.
  { intros a v Hv. rewrite (ch_frame _ _ _ _ _ _ _ C1); [done|]. intros Hin. destruct (taken_in _ _ _ _ _ _ _ _ C1 Hin) as (q & -> & _ & Hq & _). by rewrite Hold in Hv. }
  assert (area_list (vmas s1) (vma_heap pm_) heap) as Hh1.
  { apply area_list_app in Hal. rewrite decide_False, Hfst in Hal by done. eapply area_list_ext; [exact Hal|]. intros a Ha. destruct (area_in _ _ _ _ Hal Ha) as [v Hv]. rewrite Hv. by apply Hk1. }
  destruct (copy_heap_ok roots l1 (vmas s1) heap (vma_heap pm_) [] s1 l1 (vmas s1) 0 0 (S (size (vmas s))) Hh1)
    as (s2 & l2 & heap' & hp & i2 & R2 & C2 & E2 & [P2 K2] & L2);
    [intros a q Ha Hq; apply Ho2; [done|by eapply suffix_elem; [apply K1|]]|apply chain_start|by left|apply K1|done|lia|lia|]. cbn [app] in C2.
  assert (forall a v, vmas s !! a = Some v -> vmas s2 !! a = Some v) as Hk2.
  { intros a v Hv. rewrite (ch_frame _ _ _ _ _ _ _ C2); [by apply Hk1|]. intros Hin. destruct (taken_in _ _ _ _ _ _ _ _ C2 Hin) as (q & -> & _ & Hq & _).
    eapply suffix_elem in Hq; [|apply K1]. by rewrite Hold in Hv. }
  destruct (copy_record roots s2 l2 st (kn_ready _ _ _ _ _ K2)) as (q & m3 & l3 & R3 & R4 & K3 & Hq & Hq' & Hqr & L3); [lia|].
  assert (forall l0 vm0 vm f i areas, chain_of l0 l2 vm0 vm f i areas -> kva q ∉ areas.*1) as Hnew.
  { intros l0 vm0 vm f i areas Hc Hin. by apply (taken_fresh _ _ _ q (taken_in _ _ _ _ _ _ _ _ Hc Hin)). }
  set (s3 := set_vmas (<[kva q := st]> (vmas s2)) (set_mach m3 s2)).
  exists (set_mms (<[mm_ := MM f1 i1 (kva q) hp]> (mms s2)) s3), l3. split_and!.
  - unfold copy_areas, gets. rewrite (bind_ret _ _ _ _ _ eq_refl), (bind_ret _ _ _ _ _ R1), (bind_ret _ _ _ _ _ R2).
    rewrite (bind_ret _ _ _ _ _ (vma_ok _ _ _ (Hk2 _ _ Hst))), (bind_ret _ _ _ _ _ R3), (bind_ret _ _ _ _ _ R4). done.
  - split.
    + exists f1, i1, (kva q), hp, segs', heap'. cbn [mms vmas set_mms set_vmas s3]. split_and!.
      * by rewrite P2, P1.
      * apply area_list_insert; [|eapply Hnew, chain_suffix; [apply K2|exact C1]]. eapply area_list_ext; [apply C1|]. intros a Ha.
        apply (ch_frame _ _ _ _ _ _ _ C2). intros Hin. destruct (taken_in _ _ _ _ _ _ _ _ C1 Ha) as (x & -> & Hx & _ & Hx1).
        destruct (taken_in _ _ _ _ _ _ _ _ C2 Hin) as (y & E & Hy & Hy1 & _). apply kva_inj in E; [|done..]. by subst.
      * exact E1.
      * apply C1.
      * apply area_list_insert; [apply C2|by eapply Hnew].
      * exact E2.
      * apply lookup_insert_eq.
    + intros a v Hv. cbn [vmas set_mms set_vmas s3]. rewrite lookup_insert_ne; [by apply Hk2|]. intros <-.
      rewrite Hold in Hv; [done|]. eapply suffix_elem; [apply K1|]. eapply suffix_elem; [apply K2|done].
  - eapply kernel_step_trans; [exact K1|]. by eapply kernel_step_trans.
  - assert (forall x y z, set_mms x (set_vmas y (set_mach z s2)) = set_mms x (set_vmas y (set_mach z s))) as E by (intros; by rewrite P2, P1).
    apply E.
Qed.

(** ** The whole call *)

Section fork.
Context {LD : Loader} {PS : ProcSymbols} {VS : VfsSymbols}.

(** The file objects of the terminal exist. *)
Record std_open (v : vfs) : Prop := {
  so_stdin : stdin_fo v <> 0 /\ is_Some (fobjs v !! stdin_fo v);
  so_stdout : stdout_fo v <> 0 /\ is_Some (fobjs v !! stdout_fo v)
}.

Lemma inc_ref_ok p m v f : fobjs v !! p = Some f ->
  inc_ref p (m, v) = Ret (tt, (m, set_fobjs (<[p := with_ref_count (u16 (fo_ref_count f + 1)) f]> (fobjs v)) v)).
Proof.
  intros Hf. unfold inc_ref, upd_fo. rewrite (bind_ret _ _ _ f (m, v)); [done|].
  unfold fo, vgets, gets. rewrite (bind_ret _ _ _ _ _ eq_refl). cbn [snd]. by rewrite Hf.
Qed.

Lemma std_fds_ok m v : std_open v -> exists v', std_fds (m, v) = Ret ((stdin_fo v, stdout_fo v), (m, v')).
Proof.
  intros [[Hi0 [fi Hi]] [Ho0 [fo_ Ho]]]. unfold std_fds.
  rewrite (bind_ret _ _ _ (stdin_fo v) (m, v)).
  2: { unfold get_stdin_fo. rewrite (bind_ret _ _ _ (stdin_fo v) (m, v)) by reflexivity. destruct (Z.eqb_spec (stdin_fo v) 0); [done|]. done. }
  rewrite (bind_ret _ _ _ _ _ (inc_ref_ok _ m v fi Hi)). set (v1 := set_fobjs _ v).
  rewrite (bind_ret _ _ _ (stdout_fo v) (m, v1)).
  2: { unfold get_stdout_fo. rewrite (bind_ret _ _ _ (stdout_fo v) (m, v1)) by reflexivity. destruct (Z.eqb_spec (stdout_fo v) 0); [done|]. done. }
  assert (exists f, fobjs v1 !! stdout_fo v = Some f) as [f Hf] by (simpl; rewrite lookup_insert; case_decide; by eexists).
  rewrite (bind_ret _ _ _ _ _ (inc_ref_ok _ m v1 f Hf)). by eexists.
Qed.

Lemma on_vfs_ok {A} (c : VM A) s a v' : c (mach s, openf s) = Ret (a, (mach s, v')) -> on_vfs c s = Ret (a, set_openf v' s).
Proof. intros H. unfold on_vfs. rewrite (zoom_ret _ _ c s a (mach s, v') H). by destruct s. Qed.

Lemma getPID_runs s : Z.of_nat (length (processes s)) = MAX_P ->
  exists n ps, getPID s = Ret (n, set_processes ps s) /\ (n = -1 \/ (1 <= n < MAX_P /\ processes s !! Z.to_nat n = Some 0)).
Proof.
  intros H. destruct (getPID_least_unused s H) as [(p & Hp & Hz & _ & R)|[_ R]].
  - exists p. eexists. split; [exact R|]. by right.
  - exists (-1), (processes s). split; [rewrite R; by destruct s|by left].
Qed.

(** The process [c] can fork. *)
Record fork_input (roots : list Z) (s : kern) (l : list Z) (c : Z) (tp : kthread) (pm_ : mm_struct) (segs heap : list (Z * vma_struct)) (st : vma_struct)
    (b0 : bytes) (name : list Z) : Prop := {
  fi_thread : threads s !! c = Some tp;
  fi_cr3 : cr3_ tp = cr3 (mach s);
  fi_ready : ready roots (mach s) l;
  fi_frames : frames_used (cr3 (mach s)) (mach s) l;
  fi_fresh : forall q, q ∈ l -> threads s !! kva q = None;
  fi_mm : mms s !! process_mm tp = Some pm_;
  fi_memory : memory_of s l pm_ segs heap st;
  fi_processes : Z.of_nat (length (processes s)) = MAX_P;
  fi_std : std_open (openf s);
  fi_name : b0 ⊆ mem (con (term s)) /\ cstr b0 (process_name tp) name /\ Z.of_nat (length name) < BUF_SIZE;
  fi_copy : spare b0 (mem (con (term s))) p_name_copy;
  fi_room : MIN_PAGES + 4 * pages_for SIZEOF_KTHREAD + 1 + Z.of_nat (user_tables (mach s) (cr3 (mach s))) + 4 + 4 * Z.of_nat (length (segs ++ heap) + 1)
    <= Z.of_nat (length l)
}.

(** The address space [child] shares the user pages of [root]; the others are as before. *)
Record shares (roots : list Z) (root child : Z) (m m' : machine) : Prop := {
  sh_new : child ∉ roots;
  sh_child : forall va, user va -> pte (ram (pm m')) child va = cow_child (pte (ram (pm m)) root va);
  sh_parent : forall va, user va -> pte (ram (pm m')) root va = cow_parent (pte (ram (pm m)) root va);
  sh_others : forall x va, x ∈ roots -> x <> root -> user va -> pte (ram (pm m')) x va = pte (ram (pm m)) x va
}.

Lemma shares_compose roots root child m l m1 l1 m2 l2 x m3 l3 :
  root ∈ roots -> kernel_step roots m l m1 l1 -> forked m1 roots l1 root child m2 l2 -> kernel_step (child :: roots) (set_cr3 x m2) l2 m3 l3 ->
  shares roots root child m m3.
Proof.
  intros Hr K1 F K3. split.
  - apply F.
  - intros va Hu. rewrite (kn_user _ _ _ _ _ K3) by (by left || done). change (ram (pm (set_cr3 x m2))) with (ram (pm m2)).
    rewrite (fk_child _ _ _ _ _ _ _ F) by done. by rewrite (kn_user _ _ _ _ _ K1).
  - intros va Hu. rewrite (kn_user _ _ _ _ _ K3) by (by right || done). change (ram (pm (set_cr3 x m2))) with (ram (pm m2)).
    rewrite (fk_parent _ _ _ _ _ _ _ F) by done. by rewrite (kn_user _ _ _ _ _ K1).
  - intros y va Hy Hne Hu. rewrite (kn_user _ _ _ _ _ K3) by (by right || done). change (ram (pm (set_cr3 x m2))) with (ram (pm m2)).
    rewrite (fk_others _ _ _ _ _ _ _ F) by auto. by rewrite (kn_user _ _ _ _ _ K1).
Qed.

Lemma cow_space roots m l : ready roots m l -> frames_used (cr3 m) m l -> MIN_PAGES + 1 + Z.of_nat (user_tables m (cr3 m)) <= Z.of_nat (length l) ->
  exists child m' l', cow_page_tables m = Ret (child, m') /\ forked m roots l (cr3 m) child m' l' /\ ready (child :: roots) (set_cr3 child m') l' /\
    Z.of_nat (length l) <= Z.of_nat (length l') + 1 + Z.of_nat (user_tables m (cr3 m)).
Proof.
  intros [Hi Hr Hk H0] Hf Hl. destruct (cow_page_tables_ok m roots l Hi Hr Hf Hl) as (child & m' & l' & R & F & Hlen & _).
  exists child, m', l'. split_and!; [done|done| |lia]. split.
  - apply spaces_inv_cr3, F.
  - by left.
  - change (kernel_virtual_base m' = KERNEL_BASE). by rewrite (sr_kvb _ _ (fk_regs _ _ _ _ _ _ _ F)).
  - intros Hin. apply H0. eapply suffix_elem; [apply F|done].
Qed.

(** The new thread, before it is linked into the ring. *)
Record thread_copied (s s' : kern) (c : Z) (tp : kthread) (child : Z) (tc : kthread) : Prop := {
  tc_threads : exists n, threads s' = <[child := tc]> (<[c := with_num_child n tp]> (threads s));
  tc_pid : pid tc = -1 \/ (1 <= pid tc < MAX_P /\ processes s !! Z.to_nat (pid tc) = Some 0);
  tc_fds : exists s0, fds tc = std_table (left_over s0) child (stdin_fo (openf s)) (stdout_fo (openf s))
}.

Lemma copy_process_ok roots s l c tp pm_ segs heap st b0 name : fork_input roots s l c tp pm_ segs heap st b0 name ->
  exists p tc s' l', copy_process c s = Ret (kva p, s') /\ (p ∈ l) /\ thread_copied s s' c tp (kva p) tc /\
    memory_copied s s' (process_mm tc) segs heap st /\ shares roots (cr3 (mach s)) (cr3_ tc) (mach s) (mach s') /\ ready (cr3_ tc :: roots) (mach s') l'.
Proof.
  intros [Htp Hcr Hr Hfr Hfresh Hmm Hmem Hps Hstd [Hb0 [Hname Hshort]] Hcopy Hroom].
  change (pages_for SIZEOF_KTHREAD) with 9 in Hroom. assert (0 < MIN_PAGES) by done. pose proof Hr as [_ Hroot _ _].
  destruct (kmalloc_step roots (mach s) l SIZEOF_KTHREAD Hr) as (p & m1 & l1 & R1 & K1 & Hp & Hp1 & Hpr & L1); [done|change (pages_for SIZEOF_KTHREAD) with 9; lia|].
  change (pages_for SIZEOF_KTHREAD) with 9 in L1. set (s1 := set_mach m1 s).
  destruct (getPID_runs s1 Hps) as (n & ps & R2 & Hn). set (s2 := set_processes ps s1).
  destruct (std_fds_ok (mach s2) (openf s2) Hstd) as (v' & R3). set (s3 := set_openf v' s2).
  destruct (name_set b0 _ p_name_copy (process_name tp) name Hb0 Hcopy Hname Hshort) as (b' & R4 & _). set (s4 := with_mem b' s3).
  set (tp' := with_num_child (i32 (num_child tp + 1)) tp). set (s5 := set_threads (<[c := tp']> (threads s4)) s4).
  pose proof (sr_cr3 _ _ (kn_regs _ _ _ _ _ K1)) as C1. rewrite <- C1 in Hroot.
  assert (user_tables m1 (cr3 m1) = user_tables (mach s) (cr3 (mach s))) as Ht1 by (rewrite C1 in *; by eapply user_tables_step).
  destruct (cow_space roots m1 l1 (kn_ready _ _ _ _ _ K1)) as (croot & m6 & l6 & R6 & F6 & Hr6 & L6);
    [rewrite C1 in *; by eapply frames_used_step|lia|]. rewrite Ht1 in L6.
  destruct (kmalloc_step (croot :: roots) (set_cr3 croot m6) l6 SIZEOF_MM Hr6) as (q & m7 & l7 & R7 & K7 & _ & _ & _ & L7); [done|change (pages_for SIZEOF_MM) with 1; lia|].
  change (pages_for SIZEOF_MM) with 1 in L7.
  set (s7 := set_mach m7 s5).
  set (tc := KThread (rsp_user tp) n croot (kva q) (left_word (left_over s7) (kva p + OFF_RIP)) (pid tp) 0 p_name_copy 0
    (std_table (left_over s7) (kva p) (stdin_fo (openf s2)) (stdout_fo (openf s2))) (cwd tp) RUNNING). set (s8 := set_threads (<[kva p := tc]> (threads s7)) s7).
  assert (suffix l7 l) as S7 by (etransitivity; [apply K7|]; etransitivity; [apply F6|apply K1]).
  assert (memory_of s8 l7 pm_ segs heap st) as Hmem8.
  { destruct Hmem as [A B C D E]. split; try done. intros x Hx. apply E. by eapply suffix_elem. }
  destruct (copy_areas_ok (croot :: roots) s8 l7 (kva q) pm_ (kva p) segs heap st (kn_ready _ _ _ _ _ K7) Hmem8) as (s9 & l9 & R9 & Hc9 & K9 & E9); [lia|].
  exists p, tc, s9, l9. split_and!; [|done| | | |apply K9].
  - unfold copy_process. rewrite (bind_ret _ _ _ _ _ (on_mach_ret _ s _ _ R1)). fold s1. rewrite (bind_ret _ _ _ _ _ (th_ok s1 c tp Htp)).
    rewrite (bind_ret _ _ _ _ _ R2). fold s2. rewrite (bind_ret _ _ _ _ _ (on_vfs_ok _ s2 _ _ R3)). fold s3.
    rewrite (bind_ret _ _ _ _ _ (on_bytes_ret _ s3 _ _ R4)). fold s4. rewrite (bind_ret _ _ _ _ _ (upd_th_ok s4 c tp _ Htp)). fold tp' s5.
    rewrite (bind_ret _ _ _ _ _ (on_mach_ret _ s5 _ _ R6)). rewrite (bind_ret _ _ _ tt (set_mach (set_cr3 croot m6) s5)) by reflexivity.
    rewrite (bind_ret _ _ _ _ _ (on_mach_ret _ (set_mach (set_cr3 croot m6) s5) _ _ R7)). cbn [fst snd].
    unfold new_th at 1, modify at 1. rewrite (bind_ret _ _ _ tt s8) by reflexivity. rewrite (bind_ret _ _ _ _ _ (mm_ok s8 _ pm_ Hmm)). exact R9.
  - split; [|exact Hn|by exists s7]. exists (i32 (num_child tp + 1)). by rewrite E9.
  - destruct Hc9 as [A B]. by split.
  - assert (kernel_step (croot :: roots) (set_cr3 croot m6) l6 (mach s9) l9) as K79 by (by eapply kernel_step_trans).
    rewrite <- C1. apply (shares_compose roots (cr3 m1) croot (mach s) l m1 l1 m6 l6 croot (mach s9) l9); done.
Qed.

(** The child of [c], in the ring behind it. *)
Record forked_process (roots : list Z) (s s' : kern) (c : Z) (r : list Z) (tp : kthread) (child : Z) (tc : kthread) (segs heap : list (Z * vma_struct))
    (st : vma_struct) : Prop := {
  fp_new : threads s !! child = None;
  fp_thread : threads s' !! child = Some tc;
  fp_ring : ring s' (c :: child :: r);
  fp_queued : state tc = QUEUED;
  fp_ids : ppid tc = pid tp /\ (pid tc = -1 \/ (1 <= pid tc < MAX_P /\ processes s !! Z.to_nat (pid tc) = Some 0));
  fp_context : cwd tc = cwd tp /\ rsp_user tc = rsp_user tp;
  fp_fds : exists s0, fds tc = std_table (left_over s0) child (stdin_fo (openf s)) (stdout_fo (openf s));
  fp_pages : shares roots (cr3 (mach s)) (cr3_ tc) (mach s) (mach s');
  fp_areas : memory_copied s s' (process_mm tc) segs heap st;
  fp_space : cr3 (mach s') = cr3 (mach s) /\ exists l', spaces_inv (mach s') (cr3_ tc :: roots) l';
  fp_others : forall q, q <> c -> q <> child -> threads s' !! q = threads s !! q
}.

Lemma fork_ok roots s l c r tp pm_ segs heap st b0 name :
  ring s (c :: r) -> fork_input roots s l c tp pm_ segs heap st b0 name ->
  exists child s' tc, fork s = Ret (child, s') /\ forked_process roots s s' c r tp child tc segs heap st.
Proof.
  intros Hring Hi. destruct (copy_process_ok roots s l c tp pm_ segs heap st b0 name Hi) as (p & tn & s1 & l1 & R1 & Hp & [(n & T1) Hpid Hfds] & Hmem & Hsh & Hr1).
  pose proof (fi_fresh _ _ _ _ _ _ _ _ _ _ _ Hi p Hp) as Hnew. pose proof (fi_thread _ _ _ _ _ _ _ _ _ _ _ Hi) as Htp.
  assert (current_process s = c) as Hcur by (destruct Hring as [Hhd _ _]; by injection Hhd).
  set (child := kva p) in *. assert (child <> c) as Hne by (intros E; rewrite E in Hnew; congruence).
  set (tp' := with_num_child n tp) in *.
  assert (threads s1 !! c = Some tp') as Hc1 by (rewrite T1, lookup_insert_ne by done; apply lookup_insert_eq).
  set (s2 := set_threads (<[c := with_next child tp']> (threads s1)) s1).
  assert (threads s2 !! child = Some tn) as Hch2 by (simpl; rewrite lookup_insert_ne, T1 by done; apply lookup_insert_eq).
  set (tc := with_state QUEUED (with_next (next tp') tn)). set (s3 := set_threads (<[child := tc]> (threads s2)) s2).
  set (s' := set_mach (set_cr3 (cr3_ tp') (mach s3)) s3).
  assert (fork s = Ret (child, s')) as R.
  { unfold fork, gets. rewrite (bind_ret _ _ _ _ _ eq_refl), Hcur, (bind_ret _ _ _ _ _ R1), (bind_ret _ _ _ _ _ (th_ok s1 c tp' Hc1)).
    rewrite (bind_ret _ _ _ _ _ (upd_th_ok s1 c tp' _ Hc1)), (bind_ret _ _ _ _ _ (upd_th_ok s2 child tn _ Hch2)). done. }
  destruct (fork_ring s c r child s' Hring Hnew R) as (tp2 & tc2 & Htp2 & Htc2 & Hrg & Hq & Hpp & Hcw & Hus & Hoth).
  assert (threads s' !! child = Some tc) as Htc by apply lookup_insert_eq. assert (tc2 = tc) as -> by congruence. assert (tp2 = tp) as -> by congruence.
  exists child, s', tc. split; [exact R|]. split; try done.
  - destruct Hsh as [A B C D]. split; done.
  - destruct Hmem as [A B]. by split.
  - split; [apply (fi_cr3 _ _ _ _ _ _ _ _ _ _ _ Hi)|]. exists l1. apply spaces_inv_cr3, Hr1.
Qed.

(** C7: [fork] with enough memory: it returns a new process, which waits in the ring behind its parent, with the parent's identifier, directory and stack
    pointer and the terminal as its standard files (its other descriptors are what memory held); the user pages of the parent are shared with it, copy-on-write on both sides, the
    other address spaces are as before, and its memory descriptor lists copies of the segments, of the heap with the allocated
    areas, and of the stack. *)
Theorem fork_creates_child roots s l c r tp pm_ segs heap st b0 name :
  ring s (c :: r) -> fork_input roots s l c tp pm_ segs heap st b0 name ->
  exists child s' tc, fork s = Ret (child, s') /\ forked_process roots s s' c r tp child tc segs heap st.
Proof. apply fork_ok. Qed.
End fork.

(** ** Witness *)

(** A process with a segment, a heap and a stack and one page of memory, and two others in the ring. *)
Definition fork_symbols : ProcSymbols := {|
  msg_no_process := 0; msg_bad_state := 0; msg_reap_only := 0; msg_exit_only := 0;
  msg_kill_le_0 := 0; msg_kill_range := 0; msg_kill_idle := 0; msg_kill_none := 0;
  msg_kill_only := 0; msg_segv := 0; str_sbush := 0; str_idle := 0; str_pid := 0;
  str_ppid := 0; str_name := 0; str_status := 0; str_running := 0; str_queued := 0;
  str_zombie := 0; str_nl := 0; fn_init_scheduler := 0; tarfs_start := 0; tarfs_end := 0;
  p_name_create := 0; p_name_copy := 2000; p_name_exec := 0; filename_copy := 0; num_array := 0; left_over := fun _ _ => 170 |}.

Definition fork_thread : kthread :=
  KThread 0xEFFFFF00 1 4096 50 0x400000 0 0 1000 200 (replicate NUM_FDS 0) (replicate CWD_SIZE 0) RUNNING.
Definition fork_name : bytes := write_bytes 1000 [115; 104; 0] ∅.
Definition fork_segment : vma_struct := Vma 0x400000 0x401000 1 5 0.
Definition fork_stack_area : vma_struct := Vma 0xF0000FF0 0xF0000000 4 6 0.
Definition fork_vfs : vfs :=
  VfsState (<[600 := FileObject 0 500 1 0 0]> (<[700 := FileObject 0 500 2 0 0]> ∅)) (<[500 := terminal_table]> ∅) 600 700 500 0.
Definition demo_forker_kern : kern :=
  Kern (one_page exec_physmem) (<[100 := fork_thread]> (threads demo_kern))
    (<[60 := fork_stack_area]> (<[70 := linked fork_segment 80]> (<[80 := linked heap_area 0]> ∅)))
    (<[50 := MM 70 80 60 80]> ∅) 100 ([0; 1; 1; 1] ++ replicate 996 0)
    (Tty (Console (write_bytes 2000 (replicate 128 0) fork_name) 0 0) [] 0) fork_vfs 0.

Lemma forker_ring : ring demo_forker_kern [100; 200; 300].
Proof. split; [done| |apply demo_ring]. repeat (split; [by eexists|]). done. Qed.

Lemma forker_refs : refs (pm (one_page exec_physmem)) 2 = 1.
Proof. by vm_compute. Qed.

Lemma forker_tables : user_tables (one_page exec_physmem) 4096 = 3%nat.
Proof. by vm_compute. Qed.

Lemma forker_fresh (l : list Z) q : suffix l (seqZ 3 197) -> q ∈ l -> 0xffffffff80000000 <= kva q.
Proof.
  intros Hs Hq. eapply suffix_elem in Hq; [|exact Hs]. apply elem_of_seqZ in Hq. unfold kva, KERNEL_BASE. rewrite u64_small by lia. lia.
Qed.

Lemma forker_memory l : suffix l (seqZ 3 197) -> memory_of demo_forker_kern l (MM 70 80 60 80) [(70, fork_segment)] [(80, heap_area)] fork_stack_area.
Proof.
  intros Hs. split; [|done| |done|].
  - split_and!; [done|done|]. exists 80. split; [done|]. split_and!; [done|done|]. by exists 0.
  - apply (bool_decide_unpack _). by vm_compute.
  - intros q Hq%(forker_fresh l); [|done]. cbn [vmas demo_forker_kern]. by rewrite !lookup_insert_ne by lia.
Qed.

Lemma fork_input_demo : exists l, fork_input (PS := fork_symbols) [4096] demo_forker_kern l 100 fork_thread (MM 70 80 60 80) [(70, fork_segment)] [(80, heap_area)]
  fork_stack_area fork_name [115; 104].
Proof.
  destruct (one_page_ok exec_physmem 2 (seqZ 3 197)) as (l & Hi & Hg & Hf & _ & Hsub & Hl);
    [apply exec_physmem_inv|apply exec_ram|lia|change (2 :: seqZ 3 197) with (seqZ 2 198); rewrite elem_of_seqZ; lia|rewrite elem_of_seqZ; lia|by vm_compute|exact forker_refs|].
  pose proof (sr_cr3 _ _ Hg) as Hc. rewrite length_seqZ in Hl. exists l. split; cbn [mach threads demo_forker_kern].
  - reflexivity.
  - rewrite Hc. reflexivity.
  - split; [exact Hi|rewrite Hc; by left|rewrite (sr_kvb _ _ Hg); reflexivity|]. intros H. eapply suffix_elem in H; [|exact Hsub]. apply elem_of_seqZ in H. lia.
  - rewrite Hc. exact Hf.
  - intros q Hq%(forker_fresh l); [|done]. unfold demo_kern. cbn [threads]. by rewrite !lookup_insert_ne by lia.
  - reflexivity.
  - by apply forker_memory.
  - reflexivity.
  - split; (split; [discriminate|by eexists]).
  - split_and!; [|by apply cstrb_sound; vm_compute|done]. apply map_subseteq_spec. intros x c Hx. cbn [mem con term demo_forker_kern]. rewrite write_bytes_lookup. case_decide as Hd; [|done].
    rewrite length_replicate in Hd. unfold fork_name in Hx. rewrite write_bytes_lookup in Hx. cbn [length] in Hx. rewrite decide_False in Hx by lia. done.
  - split.
    + intros i Hi'. cbn [mem con term p_name_copy fork_symbols demo_forker_kern]. rewrite write_bytes_lookup, length_replicate, decide_True by (unfold BUF_SIZE in Hi'; lia).
      apply lookup_lt_is_Some_2. rewrite length_replicate. unfold BUF_SIZE in Hi'. lia.
    + intros i Hi'. cbn [p_name_copy fork_symbols]. unfold fork_name. rewrite write_bytes_lookup. cbn [length]. rewrite decide_False by lia. done.
  - rewrite Hc. change (cr3 (empty_machine exec_physmem)) with 4096. rewrite forker_tables. change (pages_for SIZEOF_KTHREAD) with 9. unfold MIN_PAGES. cbn [length app]. lia.
Qed.

Lemma fork_creates_child_witness : exists child s' tc,
  fork (PS := fork_symbols) demo_forker_kern = Ret (child, s') /\ threads s' !! child = Some tc /\ ring s' [100; child; 200; 300] /\
  pte (ram (pm (mach s'))) (cr3_ tc) 0x400000 =
    cow_child (pte (ram (pm (mach demo_forker_kern))) (cr3 (mach demo_forker_kern)) 0x400000).
Proof.
  destruct fork_input_demo as [l Hi].
  destruct (fork_creates_child [4096] demo_forker_kern l 100 [200; 300] fork_thread (MM 70 80 60 80) [(70, fork_segment)] [(80, heap_area)] fork_stack_area
    fork_name [115; 104] forker_ring Hi) as (child & s' & tc & R & H).
  exists child, s', tc. split_and!; [exact R|apply H|apply H|]. exact (sh_child _ _ _ _ _ (fp_pages _ _ _ _ _ _ _ _ _ _ _ H) 0x400000 (proj2 user_page)).
Defined.

(** *** The system call, when memory holds something *)

#[local] Existing Instance quiet_literals.
#[local] Existing Instance quiet_messages.

Lemma forker_wf : kern_wf (PS := fork_symbols) demo_forker_kern.
Proof.
  assert (fo_valid fork_vfs 600 /\ fo_valid fork_vfs 700) as [H6 H7] by (split; (eexists; split; [reflexivity|by eexists])).
  split.
  - split; [by right|by right|right; by eexists|by left|by eexists].
  - intros p t Ht. cbn [threads demo_forker_kern demo_kern] in Ht.
    apply lookup_insert_Some in Ht as [[_ <-]|[_ Ht]]; [by split_and!; [..|intros i y [-> _]%lookup_replicate; left; left]|].
    repeat (apply lookup_insert_Some in Ht as [[_ <-]|[_ Ht]]; [apply demo_thread_wf|]). done.
  - reflexivity.
  - by eexists.
Qed.

