(* ===== verification/FilesSpec.v ===== *)
(** * Open files

    What [open], [read] and [close] promise to a process: [open] gives the least free descriptor from 3
    on a new file object at offset 0, a sequence of [read]s delivers the text of the file piece by
    piece, and [close] frees the descriptor again. *)

From S2P Require Import Prelude PhysMem Paging PageTable PagingSpec Cow MapRange VaMem Image.
From S2P Require Import CStr Console Terminal Tarfs Timer Vfs Process KernInv Syscalls ProcessSpec UserMem Elf SyscallsSpec ElfSpec.

Lemma on_kn_ret {A} (c : M kern A) s a k : c (kn s) = Ret (a, k) -> on_kn c s = Ret (a, set_kn k s).
Proof. apply zoom_ret. Qed.

Lemma set_kn_id s : set_kn (kn s) s = s.
Proof. by destruct s. Qed.

Lemma set_mach_id s : set_mach (mach s) s = s.
Proof. by destruct s. Qed.

Lemma on_kn_read {A} (c : M kern A) s a : c (kn s) = Ret (a, kn s) -> on_kn c s = Ret (a, s).
Proof. intros H. by rewrite (on_kn_ret _ _ _ _ H), set_kn_id. Qed.

Lemma on_vfs_ret {A} (c : VM A) s a m v :
  c (mach s, openf s) = Ret (a, (m, v)) -> on_vfs c s = Ret (a, set_openf v (set_mach m s)).
Proof. intros H. unfold on_vfs. by rewrite (zoom_ret _ _ _ _ _ _ H). Qed.

Lemma fo_ok p f s : fobjs (openf s) !! p = Some f -> on_vfs (fo p) s = Ret (f, s).
Proof.
  intros H. rewrite (on_vfs_ret _ s f (mach s) (openf s)); [by destruct s|].
  unfold fo, vgets, gets. rewrite (bind_ret _ _ _ _ _ eq_refl). cbn [snd]. by rewrite H.
Qed.

Lemma impl_ok p i s : impls (openf s) !! p = Some i -> on_vfs (impl p) s = Ret (i, s).
Proof.
  intros H. rewrite (on_vfs_ret _ s i (mach s) (openf s)); [by destruct s|].
  unfold impl, vgets, gets. rewrite (bind_ret _ _ _ _ _ eq_refl). cbn [snd]. by rewrite H.
Qed.

Definition with_fo (p : Z) (f : file_object_t) (s : kern) : kern :=
  set_openf (set_fobjs (<[p := f]> (fobjs (openf s))) (openf s)) s.

Lemma set_fo_ok p f s : on_vfs (set_fo p f) s = Ret (tt, with_fo p f s).
Proof. rewrite (on_vfs_ret _ s tt (mach s) (set_fobjs (<[p := f]> (fobjs (openf s))) (openf s))); [by destruct s|done]. Qed.

Section files.
Context {LD : Loader} {PS : ProcSymbols} {VS : VfsSymbols} {L : Literals} {SS : SysSymbols}.

(** ** The descriptor table *)

(** The table of the current process. *)
Record table (s : kern) (t : kthread) : Prop := {
  tb_thread : threads s !! current_process s = Some t;
  tb_length : length (fds t) = NUM_FDS
}.

(** [fd] is the least descriptor from 3 on that is free. *)
Definition least_free (t : kthread) (fd : Z) : Prop :=
  3 <= fd < Z.of_nat NUM_FDS /\ fds t !! Z.to_nat fd = Some 0 /\ forall k, 3 <= k < fd -> fds t !! Z.to_nat k <> Some 0.

Lemma free_fd_ok n lst i fd s :
  0 <= i <= fd -> fd < i + Z.of_nat n -> i + Z.of_nat n <= Z.of_nat (length lst) -> lst !! Z.to_nat fd = Some 0 ->
  (forall k, i <= k < fd -> lst !! Z.to_nat k <> Some 0) -> free_fd n lst i s = Ret (fd, s).
Proof.
  revert i; induction n as [|n IH]; intros i Hi Hn Hlen Hfd Hmin; [lia|]. cbn [free_fd].
  destruct (lookup_lt_is_Some_2 lst (Z.to_nat i)) as [v Hv]; [lia|]. rewrite Hv, (bind_ret _ _ _ _ _ eq_refl).
  destruct (decide (i = fd)) as [->|Hne]; [rewrite Hfd in Hv; by injection Hv as <-|].
  destruct (Z.eqb_spec v 0) as [->|_]; [by destruct (Hmin i); [lia|]|]. apply IH; [lia..|done|]. intros k Hk. apply Hmin. lia.
Qed.

Lemma free_fd_none n lst i s :
  0 <= i -> i + Z.of_nat n <= Z.of_nat (length lst) -> (forall k, i <= k < i + Z.of_nat n -> lst !! Z.to_nat k <> Some 0) ->
  free_fd n lst i s = Ret (i + Z.of_nat n, s).
Proof.
  revert i; induction n as [|n IH]; intros i Hi Hlen Hall; cbn [free_fd]; [by replace (i + Z.of_nat 0) with i by lia|].
  destruct (lookup_lt_is_Some_2 lst (Z.to_nat i)) as [v Hv]; [lia|]. rewrite Hv, (bind_ret _ _ _ _ _ eq_refl).
  destruct (Z.eqb_spec v 0) as [->|_]; [by destruct (Hall i); [lia|]|].
  rewrite IH; [f_equal; f_equal; lia|lia|lia|]. intros k Hk. apply Hall. lia.
Qed.

Lemma current_ok s t : threads s !! current_process s = Some t -> current s = Ret (t, s).
Proof. intros H. unfold current, gets. rewrite (bind_ret _ _ _ _ _ eq_refl). by apply th_ok. Qed.

Lemma fd_get_ok s t fd p : table s t -> fds t !! Z.to_nat fd = Some p -> fd_get fd s = Ret (p, s).
Proof.
  intros [Ht _] Hp. unfold fd_get. rewrite (bind_ret _ _ _ _ _ (current_ok _ _ Ht)). by rewrite Hp.
Qed.

(** The table with another entry. *)
Definition put_fd (t : kthread) (fd p : Z) (s : kern) : kern :=
  set_threads (<[current_process s := with_fds (<[Z.to_nat fd := p]> (fds t)) t]> (threads s)) s.

Lemma fd_set_ok s t fd p : table s t -> 0 <= fd < Z.of_nat NUM_FDS -> fd_set fd p s = Ret (tt, put_fd t fd p s).
Proof.
  intros [Ht Hl] Hfd. unfold fd_set, gets. rewrite (bind_ret _ _ _ _ _ eq_refl), (bind_ret _ _ _ _ _ (th_ok _ _ _ Ht)).
  rewrite decide_True by (rewrite Hl; lia). done.
Qed.

(** ** [open] *)

Definition tarfs_table : file_sys_impl_t := FileSysImpl (Some tarfs_read_fp) None.
Definition tarfs_ready (v : vfs) : Prop := tarfs_impl v <> 0 -> impls v !! tarfs_impl v = Some tarfs_table.

Lemma at_frame_kept roots q m l m' l' p :
  kept roots (fun va => vpn (kva q) = vpn va) m l m' l' -> 0 <= p < MAX_PAGES -> 0 <= q < MAX_PAGES -> p <> q ->
  at_frame m p -> at_frame m' p.
Proof.
  intros [_ R _ P _] Hp Hq Hne. unfold at_frame. intros H. rewrite (sr_cr3 _ _ R), P; [done|].
  intros E. apply Hne. symmetry. by apply kva_vpn.
Qed.

Lemma tarfs_impl_ok roots s l : ready roots (mach s) l -> MIN_PAGES + 4 <= Z.of_nat (length l) -> tarfs_ready (openf s) ->
  exists i m v, on_vfs get_tarfs_impl s = Ret (i, set_openf v (set_mach m s)) /\ i <> 0 /\
    fobjs v = fobjs (openf s) /\ impls v !! i = Some tarfs_table /\
    (forall l0, heap_inv l0 (mach s) -> heap_inv l0 m) /\
    (exists l', ready roots m l' /\ suffix l' l) /\
    (forall j y, impls (openf s) !! j = Some y -> (forall q, q ∈ l -> j <> kva q) -> impls v !! j = Some y) /\
    (forall p, 0 <= p < MAX_PAGES -> p ∉ l -> at_frame (mach s) p -> at_frame m p).
Proof.
  intros Hr Hlen Hv. destruct (Z.eqb_spec (tarfs_impl (openf s)) 0) as [E|E].
  - destruct (kmalloc_page roots (mach s) l SIZEOF_IMPL) as (q & m & l' & Hrun & Hk & _ & Hq & Hq' & Hqr & _);
      [apply Hr..|done|done|].
    set (v := set_tarfs_impl (kva q) (set_impls (<[kva q := tarfs_table]> (impls (openf s))) (openf s))).
    exists (kva q), m, v. split_and!.
    + apply on_vfs_ret. unfold get_tarfs_impl, vgets, gets, VM. rewrite (bind_ret _ _ _ _ _ eq_refl). cbn [snd]. rewrite E.
      cbn [Z.eqb]. rewrite (bind_ret _ _ _ tt (m, v)); [done|].
      rewrite (bind_ret _ _ _ (kva q) (m, openf s)); [done|]. by apply (zoom_ret fst (fun m s => (m, snd s))).
    + by apply kva_nonzero.
    + done.
    + apply lookup_insert_eq.
    + intros l0 H. by apply (heap_kmalloc l0 SIZEOF_IMPL _ _ _ H Hrun).
    + exists l'. split; [by eapply ready_kept|apply Hk].
    + intros j y Hj Hne. simpl. rewrite lookup_insert_ne; [done|]. intros E'. by apply (Hne q Hq).
    + intros p Hp Hpl. apply (at_frame_kept roots q _ l _ l'); try done. by intros ->.
  - exists (tarfs_impl (openf s)), (mach s), (openf s). split_and!; try done; [|by apply Hv|by exists l].
    apply on_vfs_ret. unfold get_tarfs_impl, vgets, gets, VM. rewrite (bind_ret _ _ _ _ _ eq_refl). cbn [snd].
    by destruct (Z.eqb_spec (tarfs_impl (openf s)) 0).
Qed.

(** The state after an [open]: a new object at [p], which is on a page of the kernel heap. *)
Record opened (roots l : list Z) (s : kern) (t : kthread) (path file fd p i : Z) (s' : kern) : Prop := {
  op_thread : threads s' = <[current_process s := with_fds (<[Z.to_nat fd := p]> (fds t)) t]> (threads s);
  op_fobjs : fobjs (openf s') = <[p := FileObject path i 1 file 0]> (fobjs (openf s));
  op_impl : impls (openf s') !! i = Some tarfs_table;
  op_impls : forall j y, impls (openf s) !! j = Some y -> (forall q, q ∈ l -> j <> kva q) -> impls (openf s') !! j = Some y;
  op_page : exists q, q ∈ l /\ p = kva q;
  op_nonnull : p <> 0 /\ i <> 0;
  op_kfree : kfree p (mach s') = Ret (tt, mach s');
  op_rest : current_process s' = current_process s /\ processes s' = processes s /\ term s' = term s /\
    vmas s' = vmas s /\ mms s' = mms s;
  op_ready : exists l', ready roots (mach s') l'
}.

Lemma kfree_kva roots m l0 l p : ready roots m l -> heap_inv l0 m -> p ∈ l0 -> p ∉ l -> 0 <= p < MAX_PAGES -> at_frame m p ->
  kfree (kva p) m = Ret (tt, m).
Proof.
  intros [I R _ _] Hh H0 Hl Hp Hf. assert (aligned (cr3 m)) as Hc by (by apply I).
  apply (kfree_referenced m (kva p) p); [|done|].
  - rewrite walk_ok by done. unfold at_frame in Hf. by rewrite Hf.
  - eapply heap_inv_refs; [exact Hh|apply I|done|done].
Qed.

Lemma sys_open_ok roots s l t path file fd :
  table s t -> ready roots (mach s) l -> MIN_PAGES + 8 <= Z.of_nat (length l) -> tarfs_ready (openf s) ->
  get_file_binary tarfs_start tarfs_end path (mem (con (term s))) = Ret (file, mem (con (term s))) -> file <> 0 ->
  least_free t fd -> exists p i s', sys_open path s = Ret (fd, s') /\ opened roots l s t path file fd p i s'.
Proof.
  intros Ht Hr Hlen Hv Hf Hf0 (Hfd & Hz & Hmin). pose proof Ht as [Hth Htl].
  destruct (kmalloc_page roots (mach s) l SIZEOF_FO) as (p & m1 & l1 & Hrun & Hk & Hat & Hp & Hp' & Hpr & Hl1);
    [apply Hr..|done|lia|].
  pose proof (ready_kept _ _ _ _ _ _ Hr Hk) as Hr1. set (s1 := set_mach m1 s).
  destruct (tarfs_impl_ok roots s1 l1) as (i & m2 & v & Hrun2 & Hi & Ev & Ei & Hh & (l2 & Hr2 & Hs2) & Him & Hfr);
    [done|lia|done|].
  set (s2 := set_openf v (set_mach m2 s1)). exists (kva p), i. eexists. split.
  - unfold sys_open. rewrite (bind_ret _ _ _ _ _ (on_bytes_read _ s _ Hf)). destruct (Z.eqb_spec file 0); [done|].
    rewrite (bind_ret _ _ _ _ _ (current_ok _ _ Hth)).
    rewrite (bind_ret _ _ _ fd s) by (apply free_fd_ok; [lia|unfold NUM_FDS in *; lia|rewrite Htl; done|done|done]).
    destruct (Z.eqb_spec fd (Z.of_nat NUM_FDS)); [lia|].
    rewrite (bind_ret _ _ _ _ _ (on_mach_ret _ s _ _ Hrun)). fold s1. rewrite (bind_ret _ _ _ _ _ Hrun2). fold s2.
    rewrite (bind_ret _ _ _ _ _ (set_fo_ok _ _ s2)).
    rewrite (bind_ret _ _ _ _ _ (fd_set_ok (with_fo (kva p) (FileObject path i 1 file 0) s2) t fd (kva p) ltac:(by split) ltac:(lia))).
    reflexivity.
  - split; try done.
    + simpl. by rewrite Ev.
    + intros j y Hj Hne. apply (Him j y Hj). intros q Hq. apply Hne. eapply suffix_elem; [apply Hk|exact Hq].
    + by exists p.
    + split; [by apply kva_nonzero|done].
    + simpl. assert (p ∉ l2) as Hpl2 by (intros H; apply Hp'; by eapply suffix_elem).
      apply (kfree_kva roots m2 l l2); [done| |done|done|done|].
      * apply Hh. apply (heap_kmalloc l SIZEOF_FO (mach s) _ _ (heap_inv_start _ _ (sp_alloc _ _ _ (rd_inv _ _ _ Hr))) Hrun).
      * apply Hfr; done.
    + by exists l2.
Qed.

(** ** [close] *)

Lemma sys_close_ok s t fd p f :
  table (kn s) t -> 3 <= fd < Z.of_nat NUM_FDS -> fds t !! Z.to_nat fd = Some p -> p <> 0 ->
  fobjs (openf (kn s)) !! p = Some f -> fo_ref_count f = 1 -> kfree p (mach (kn s)) = Ret (tt, mach (kn s)) ->
  sys_close fd s = Ret (Done 0, set_kn (put_fd t fd 0 (with_fo p (with_ref_count 0 f) (kn s))) s).
Proof.
  intros Ht Hfd Hp Hp0 Hf Hrc Hk. unfold sys_close. destruct (Z.leb_spec (Z.of_nat NUM_FDS) fd); [lia|].
  destruct (Z.eqb_spec fd 0), (Z.eqb_spec fd 1), (Z.eqb_spec fd 2); try lia. cbn [orb].
  rewrite (bind_ret _ _ _ _ _ (on_kn_read _ s _ (fd_get_ok _ _ _ _ Ht Hp))). destruct (Z.eqb_spec p 0); [done|].
  rewrite (bind_ret _ _ _ _ _ (on_kn_read _ s _ (fo_ok _ _ _ Hf))). cbv zeta. rewrite Hrc. change (u16 (1 - 1)) with 0.
  rewrite (bind_ret _ _ _ _ _ (on_kn_ret _ s _ _ (set_fo_ok _ _ _))). cbn [Z.eqb].
  set (s1 := set_kn _ s). rewrite (bind_ret _ _ _ tt (set_kn (put_fd t fd 0 (kn s1)) s1)); [done|].
  apply on_kn_ret. rewrite (bind_ret _ _ _ _ _ (fd_set_ok (kn s1) t fd 0 ltac:(by destruct Ht) ltac:(lia))).
  rewrite (on_mach_ret _ _ tt (mach (kn s))); [by destruct s as [[]]|done].
Qed.

Lemma opened_table roots l s t path file fd p i s' : table s t -> 3 <= fd < Z.of_nat NUM_FDS -> opened roots l s t path file fd p i s' ->
  table s' (with_fds (<[Z.to_nat fd := p]> (fds t)) t).
Proof.
  intros [Ht Hl] Hfd [E1 _ _ _ _ _ _ (E2 & _) _]. split; [rewrite E1, E2; apply lookup_insert_eq|]. simpl. by rewrite length_insert.
Qed.

(** C28: [open] of a file of the archive returns the least free descriptor from 3 on and makes it refer to
    a new object for this file at offset 0, on a heap page of its own; [close] of it then returns 0 and
    gives back exactly the threads, and so the descriptor tables, of before. *)
Theorem open_close_restores roots s l t es path name x fd :
  let k := kn s in let b := mem (con (term k)) in
  table k t -> ready roots (mach k) l -> MIN_PAGES + 8 <= Z.of_nat (length l) -> tarfs_ready (openf k) ->
  archive_ok b es -> cstr b path name -> find_entry (is_entry name 0) tarfs_start es = Some x -> least_free t fd ->
  exists p i s1 s2, handle_syscall SYSCALL_OPEN path 0 0 0 0 s = Ret (Done fd, s1) /\
    opened roots l k t path (x + HEADER) fd p i (kn s1) /\
    handle_syscall SYSCALL_CLOSE fd 0 0 0 0 s1 = Ret (Done 0, s2) /\ threads (kn s2) = threads k.
Proof.
  intros k b Ht Hr Hlen Hv [Ha Hw Hs] Hn Hx Hfree. pose proof (get_file_binary_ok b _ _ es path name Ha Hw Hs Hn) as Hf.
  rewrite Hx in Hf. assert (0 < x) by (by eapply find_entry_pos).
  destruct (sys_open_ok roots k l t path (x + HEADER) fd) as (p & i & k1 & Hrun & Hop); [done..|unfold HEADER; lia|done|].
  destruct Hfree as (Hfd & Hz & Hmin). pose proof Ht as [Hth Htl].
  pose proof (opened_table _ _ _ _ _ _ _ _ _ _ Ht Hfd Hop) as Ht1. pose proof Hop as [E1 E2 _ _ _ [Hp0 _] Hk (E3 & _) _].
  exists p, i, (set_kn k1 s). eexists. split_and!; [|done| |].
  - dispatched. cbn [Z.eqb Pos.eqb SYSCALL_OPEN SYSCALL_WRITE SYSCALL_FORK SYSCALL_READ].
    rewrite (bind_ret _ _ _ _ _ (on_kn_ret _ s _ _ Hrun)). unfold NUM_FDS in Hfd. rewrite u64_small by lia. done.
  - dispatched. cbn [Z.eqb Pos.eqb SYSCALL_OPEN SYSCALL_WRITE SYSCALL_FORK SYSCALL_READ SYSCALL_CLOSE].
    apply (sys_close_ok (set_kn k1 s) _ _ p (FileObject path i 1 (x + HEADER) 0) Ht1); [done| |done| |done|done].
    + simpl. apply list_lookup_insert_eq. unfold NUM_FDS in *. lia.
    + simpl. rewrite E2. apply lookup_insert_eq.
  - simpl. rewrite E1, E3, insert_insert_eq. rewrite list_insert_insert_eq, list_insert_id by done.
    rewrite insert_id; [done|]. rewrite Hth. f_equal. by destruct t.
Qed.

(** [open] that cannot succeed changes nothing: it returns -1 when the archive has no file of that name, and -2
    when all descriptors from 3 on are in use. *)
Theorem open_errors s t es path name :
  let k := kn s in let b := mem (con (term k)) in
  table k t -> archive_ok b es -> cstr b path name ->
  (find_entry (is_entry name 0) tarfs_start es = None ->
     handle_syscall SYSCALL_OPEN path 0 0 0 0 s = Ret (Done (u64 (-1)), s)) /\
  (is_Some (find_entry (is_entry name 0) tarfs_start es) ->
     (forall fd, 3 <= fd < Z.of_nat NUM_FDS -> fds t !! Z.to_nat fd <> Some 0) ->
     handle_syscall SYSCALL_OPEN path 0 0 0 0 s = Ret (Done (u64 (-2)), s)).
Proof.
  intros k b [Hth Htl] [Ha Hw Hs] Hn. pose proof (get_file_binary_ok b _ _ es path name Ha Hw Hs Hn) as Hf.
  dispatched. cbn [Z.eqb Pos.eqb SYSCALL_OPEN SYSCALL_WRITE SYSCALL_FORK SYSCALL_READ]. split.
  - intros Hx. rewrite Hx in Hf. rewrite (bind_ret _ _ _ (-1) s); [done|]. apply on_kn_read. unfold sys_open.
    by rewrite (bind_ret _ _ _ _ _ (on_bytes_read _ (kn s) _ Hf)).
  - intros [x Hx] Hall. rewrite Hx in Hf. assert (0 < x) by (by eapply find_entry_pos).
    rewrite (bind_ret _ _ _ (-2) s); [done|]. apply on_kn_read. unfold sys_open.
    rewrite (bind_ret _ _ _ _ _ (on_bytes_read _ (kn s) _ Hf)). destruct (Z.eqb_spec (x + HEADER) 0); [unfold HEADER in *; lia|].
    rewrite (bind_ret _ _ _ _ _ (current_ok _ _ Hth)).
    rewrite (bind_ret _ _ _ _ _ (free_fd_none (NUM_FDS - 3) (fds t) 3 (kn s) ltac:(lia) ltac:(rewrite Htl; done) ltac:(apply Hall))).
    done.
Qed.

(** ** [read] *)

(** Descriptor [fd] of the current process is open on a file of the archive, with [text] still to
    be read; the buffer from [buf] on has [n] bytes and is apart from the text. *)
Record reading (s : kern) (fd p : Z) (f : file_object_t) (text : list Z) (buf n : Z) : Prop := {
  re_table : exists t, table s t /\ fds t !! Z.to_nat fd = Some p;
  re_fd : 3 <= fd < Z.of_nat NUM_FDS;
  re_nonnull : p <> 0 /\ file_sys_impl f <> 0;
  re_object : fobjs (openf s) !! p = Some f;
  re_impl : impls (openf s) !! file_sys_impl f = Some tarfs_table;
  re_text : text_at (mem (con (term s))) (content_start f + offset f) text;
  re_stop : stops_at (mem (con (term s))) (content_start f + offset f + Z.of_nat (length text));
  re_range : 0 <= offset f /\ offset f + Z.of_nat (length text) < 2 ^ 31;
  re_room : room (mem (con (term s))) buf n;
  re_apart : disjoint_regions buf n (content_start f + offset f) (Z.of_nat (length text) + 1)
}.

Lemma read_done_any s p f n : fobjs (openf s) !! p = Some f -> 0 <= n < 2 ^ 64 -> 0 <= offset f < 2 ^ 32 ->
  read_done p n s = Ret (Done n, with_fo p (with_offset (u32 (offset f + n)) f) s).
Proof.
  intros Hf Hn H0. unfold read_done. rewrite (u64_small n) by lia. destruct (Z.ltb_spec 0 n).
  - rewrite (bind_ret _ _ _ tt (with_fo p (with_offset (u32 (offset f + n)) f) s)); [done|].
    rewrite (on_vfs_ret _ s tt (mach s) (set_fobjs (<[p := with_offset (u32 (offset f + n)) f]> (fobjs (openf s))) (openf s))); [by destruct s|].
    unfold upd_fo, fo, vgets, gets, VM. rewrite (bind_ret _ _ _ f (mach s, openf s)); [reflexivity|].
    rewrite (bind_ret _ _ _ _ _ eq_refl). cbn [snd]. by rewrite Hf.
  - assert (n = 0) as -> by lia. rewrite (bind_ret _ _ _ tt s) by done. do 2 f_equal.
    rewrite Z.add_0_r, u32_small by lia. unfold with_fo. rewrite insert_id; [by destruct s as [? ? ? ? ? ? ? [] ?]|]. rewrite Hf. by destruct f.
Qed.

Lemma read_done_ok s p f n : fobjs (openf s) !! p = Some f -> 0 <= n -> 0 <= offset f -> offset f + n < 2 ^ 31 ->
  read_done p n s = Ret (Done n, with_fo p (with_offset (offset f + n) f) s).
Proof. intros Hf Hn H0 Hhi. rewrite (read_done_any s p f n Hf) by lia. by rewrite u32_small by lia. Qed.

(** One [read]: the next [n] bytes, or what is left. *)
Lemma sys_read_ok s fd p f text buf n m :
  reading (kn s) fd p f text buf m -> 0 <= n <= m -> n < 2 ^ 31 ->
  let piece := take (Z.to_nat n) text in
  handle_syscall SYSCALL_READ fd buf n 0 0 s = Ret (Done (Z.of_nat (length piece)),
    set_kn (with_fo p (with_offset (offset f + Z.of_nat (length piece)) f)
      (with_mem (write_bytes buf piece (mem (con (term (kn s))))) (kn s))) s).
Proof.
  intros [(t & Ht & Hp) Hfd [Hp0 Hi0] Hf Hi Htx Hst [H0 Hhi] Hro Hap] Hn Hn31 piece.
  assert (length piece <= length text)%nat as Hpl by (unfold piece; rewrite length_take; lia).
  assert (Z.of_nat (length piece) <= n) as Hpn by (unfold piece; rewrite length_take; lia).
  dispatched. cbn [Z.eqb Pos.eqb SYSCALL_WRITE SYSCALL_FORK SYSCALL_READ]. unfold sys_read.
  destruct (Z.leb_spec (Z.of_nat NUM_FDS) fd); [lia|]. destruct (Z.eqb_spec fd 1), (Z.eqb_spec fd 2); try lia. cbn [orb].
  rewrite (bind_ret _ _ _ _ _ (on_kn_read _ s _ (fd_get_ok _ _ _ _ Ht Hp))). destruct (Z.eqb_spec p 0); [done|].
  rewrite (bind_ret _ _ _ _ _ (on_kn_read _ s _ (fo_ok _ _ _ Hf))). destruct (Z.eqb_spec (file_sys_impl f) 0); [done|].
  rewrite (bind_ret _ _ _ _ _ (on_kn_read _ s _ (impl_ok _ _ _ Hi))). cbn [read_impl tarfs_table].
  rewrite (i32_small n), (i32_small (offset f)) by lia.
  assert (tarfs_read buf n (content_start f) (offset f) (mem (con (term (kn s)))) =
    Ret (Z.of_nat (length piece), write_bytes buf piece (mem (con (term (kn s)))))) as Hrun.
  { apply tarfs_read_ok.
    - intros k c Hk. apply Htx. unfold piece in Hk. by apply lookup_take_Some in Hk as [? _].
    - unfold piece. rewrite length_take. destruct (decide (n <= Z.of_nat (length text))); [left; lia|right].
      replace (Z.to_nat n `min` length text)%nat with (length text) by lia. split; [lia|done].
    - eapply room_sub; [exact Hro|lia|lia].
    - unfold disjoint_regions in *. lia. }
  rewrite (bind_ret _ _ _ _ _ (on_kn_ret _ s _ _ (on_bytes_ret _ (kn s) _ _ Hrun))).
  set (s1 := set_kn _ s). apply (on_kn_ret _ s1). apply read_done_ok; [done|lia|lia|lia].
Qed.

Lemma write_outside m p l a : ~ (p <= a < p + Z.of_nat (length l)) -> write_bytes p l m !! a = m !! a.
Proof. intros H. by rewrite write_bytes_lookup, decide_False. Qed.

Lemma reading_next s fd p f text buf n k :
  reading s fd p f text buf n -> (k <= length text)%nat -> Z.of_nat k <= n ->
  reading (with_fo p (with_offset (offset f + Z.of_nat k) f) (with_mem (write_bytes buf (take k text) (mem (con (term s)))) s))
    fd p (with_offset (offset f + Z.of_nat k) f) (drop k text) buf n.
Proof.
  intros [Ht Hfd Hnn Hf Hi Htx Hst [H0 Hhi] Hro Hap] Hk Hkn.
  assert (length (take k text) = k) as Hl by (rewrite length_take; lia). unfold disjoint_regions in *.
  split; simpl; try done.
  - destruct Ht as (t & [Ht1 Ht2] & Hp). exists t. by split; [split|].
  - apply lookup_insert_eq.
  - intros j c Hj. rewrite lookup_drop in Hj. destruct (Htx _ _ Hj) as [Hc Hm]. split; [done|].
    pose proof (lookup_lt_Some _ _ _ Hj). rewrite write_outside by lia. rewrite <- Hm. f_equal. lia.
  - destruct Hst as (c & Hc & Hor). exists c. split; [|done]. rewrite length_drop, write_outside by lia.
    rewrite <- Hc. f_equal. lia.
  - rewrite length_drop. lia.
  - by apply room_write.
  - rewrite length_drop. unfold disjoint_regions. lia.
Qed.

(** A client that reads with the sizes [ns], one call after the other, and collects what it gets. *)
Fixpoint read_all (fd buf : Z) (ns : list Z) : M sysk (list Z) :=
  match ns with
  | [] => mret []
  | n :: ns' =>
      r ← handle_syscall SYSCALL_READ fd buf n 0 0;
      match r with
      | Done len =>
          l ← on_kn (on_bytes (load_bytes (Z.to_nat len) buf));
          rest ← read_all fd buf ns'; mret (l ++ rest)
      | _ => mfault
      end
  end.

Definition total (ns : list Z) : nat := Z.to_nat (foldr Z.add 0 ns).

Lemma load_bytes_ok l q b : (forall i c, l !! i = Some c -> b !! (q + Z.of_nat i) = Some c) -> load_bytes (length l) q b = Ret (l, b).
Proof.
  revert q; induction l as [|c l IH]; intros q Hb; [done|]. cbn [length load_bytes].
  pose proof (Hb 0%nat c eq_refl) as H0. rewrite Z.add_0_r in H0.
  rewrite (bind_ret _ _ _ c b) by (unfold ld8; by rewrite H0).
  rewrite (bind_ret _ _ _ l b); [done|]. apply IH. intros i x Hx. rewrite <- (Hb (S i) x Hx). f_equal. lia.
Qed.

Lemma load_written l p m : load_bytes (length l) p (write_bytes p l m) = Ret (l, write_bytes p l m).
Proof.
  apply load_bytes_ok. intros i c Hi. rewrite write_bytes_lookup. pose proof (lookup_lt_Some _ _ _ Hi). rewrite decide_True by lia.
  by replace (Z.to_nat (p + Z.of_nat i - p)) with i by lia.
Qed.

(** C4: a sequence of [read]s of any sizes delivers the text of the file in order: what was still to be read when it started,
    cut after the sum of the sizes; the descriptor then stands behind it, ready for the rest. *)
Theorem reads_deliver_text s fd p f text buf m ns :
  reading (kn s) fd p f text buf m -> Forall (fun n => 0 <= n <= m /\ n < 2 ^ 31) ns ->
  exists s' f', read_all fd buf ns s = Ret (take (total ns) text, s') /\
    reading (kn s') fd p f' (drop (total ns) text) buf m /\
    content_start f' = content_start f /\ offset f' = offset f + Z.of_nat (length (take (total ns) text)).
Proof.
  revert s f text. induction ns as [|n ns IH]; intros s f text Hre Hns.
  { exists s, f. split_and!; [done|done|done|]. change (total []) with 0%nat. simpl. lia. }
  apply Forall_cons_1 in Hns as [[Hn Hn31] Hns].
  assert (0 <= foldr Z.add 0 ns) as Hs0 by (clear -Hns; induction Hns; simpl; lia).
  pose proof (sys_read_ok _ _ _ _ _ _ n _ Hre Hn Hn31) as Hrun. cbv zeta in Hrun. set (k := length (take (Z.to_nat n) text)) in *.
  assert (take k text = take (Z.to_nat n) text) as Ek.
  { unfold k. rewrite length_take. destruct (decide (Z.to_nat n <= length text)%nat); [f_equal; lia|rewrite !take_ge by lia; done]. }
  assert (k <= length text)%nat as Hkt by (unfold k; rewrite length_take; lia).
  assert (Z.of_nat k <= n) as Hkn by (unfold k; rewrite length_take; lia).
  pose proof (reading_next _ _ _ _ _ _ _ k Hre Hkt ltac:(lia)) as Hre1. rewrite Ek in Hre1. set (k1 := with_fo _ _ _) in Hre1.
  change (with_fo _ _ _) with k1 in Hrun. destruct (IH (set_kn k1 s) _ _ Hre1 Hns) as (s' & f' & Hrun' & Hre' & E1 & E2).
  assert (take (total (n :: ns)) text = take k text ++ take (total ns) (drop k text) /\
    drop (total (n :: ns)) text = drop (total ns) (drop k text)) as [Et Ed].
  { unfold total at 1 3. cbn [foldr]. rewrite Z2Nat.inj_add by lia. fold (total ns).
    destruct (decide (Z.to_nat n <= length text)%nat) as [Hc|Hc].
    - assert (k = Z.to_nat n) as -> by (unfold k; rewrite length_take; lia). by rewrite take_take_drop, drop_drop.
    - assert (k = length text) as -> by (unfold k; rewrite length_take; lia).
      rewrite firstn_all, (drop_ge text (length text)) by lia. rewrite take_nil, drop_nil, app_nil_r.
      rewrite take_ge, drop_ge by lia. done. }
  exists s', f'. rewrite Et, Ed. split_and!; [|done|done|].
  - cbn [read_all]. rewrite (bind_ret _ _ _ _ _ Hrun), Nat2Z.id. fold k.
    rewrite (bind_ret _ _ _ (take k text) (set_kn k1 s)).
    + by rewrite (bind_ret _ _ _ _ _ Hrun').
    + apply on_kn_read. apply (on_bytes_read _ k1). rewrite Ek. unfold k. apply load_written.
  - rewrite E2, length_app, Ek. fold k. simpl. lia.
Qed.
End files.

(** ** Witnesses *)

Definition file_symbols : ProcSymbols := archive_symbols 2560.

(** One process; the archive of [Tarfs], with the file ["a"], whose text is "hello". *)
Definition demo_tables (f : list Z) (v : vfs) : sysk :=
  Sysk (Kern demo_machine (<[100 := with_fds f (demo_thread 1 0 0x1000 100 RUNNING)]> ∅) ∅ ∅ 100 (replicate 1000 0)
    (Tty (Console demo_archive 0 0) [] 0) v 0) ∅ 0 0 [].
Definition demo_closed : sysk := demo_tables (replicate NUM_FDS 0) demo_vfs.

Lemma demo_files_archive : @archive_ok file_symbols demo_archive [demo_file; demo_dir].
Proof. split; [apply demo_archive_ok|apply demo_walkable|done]. Qed.

Lemma open_close_restores_witness :
  exists s1 s2, @handle_syscall null_loader file_symbols demo_vfs_symbols quiet_literals quiet_messages SYSCALL_OPEN 100 0 0 0 0
      demo_closed = Ret (Done 3, s1) /\
    @handle_syscall null_loader file_symbols demo_vfs_symbols quiet_literals quiet_messages SYSCALL_CLOSE 3 0 0 0 0 s1 = Ret (Done 0, s2) /\
    threads (kn s2) = threads (kn demo_closed).
Proof.
  destruct (@open_close_restores null_loader file_symbols demo_vfs_symbols quiet_literals quiet_messages [4096] demo_closed (seqZ 2 38)
    (with_fds (replicate NUM_FDS 0) (demo_thread 1 0 0x1000 100 RUNNING)) [demo_file; demo_dir] 100 [97] 512 3)
    as (p & i & s1 & s2 & H1 & _ & H2 & H3);
    [by split|apply demo_ready|by vm_compute|by intros H; destruct H|apply demo_files_archive|by apply cstrb_sound; vm_compute|reflexivity
    |split_and!; [done|done|done|lia]|].
  exists s1, s2. split_and!; assumption.
Defined.

Lemma open_errors_witness :
  @handle_syscall null_loader file_symbols demo_vfs_symbols quiet_literals quiet_messages SYSCALL_OPEN 110 0 0 0 0 demo_closed =
    Ret (Done (2 ^ 64 - 1), demo_closed) /\
  @handle_syscall null_loader file_symbols demo_vfs_symbols quiet_literals quiet_messages SYSCALL_OPEN 100 0 0 0 0
    (demo_tables (replicate NUM_FDS 7) demo_vfs) = Ret (Done (2 ^ 64 - 2), demo_tables (replicate NUM_FDS 7) demo_vfs).
Proof.
  split.
  - apply (@open_errors null_loader file_symbols demo_vfs_symbols quiet_literals quiet_messages demo_closed
      (with_fds (replicate NUM_FDS 0) (demo_thread 1 0 0x1000 100 RUNNING)) [demo_file; demo_dir] 110 [100; 47]);
      [by split|apply demo_files_archive|by apply cstrb_sound; vm_compute|reflexivity].
  - apply (@open_errors null_loader file_symbols demo_vfs_symbols quiet_literals quiet_messages (demo_tables (replicate NUM_FDS 7) demo_vfs)
      (with_fds (replicate NUM_FDS 7) (demo_thread 1 0 0x1000 100 RUNNING)) [demo_file; demo_dir] 100 [97]);
      [by split|apply demo_files_archive|by apply cstrb_sound; vm_compute|by eexists|].
    intros fd Hfd. cbn [fds with_fds]. rewrite lookup_replicate_2; [done|]. unfold NUM_FDS in *. lia.
Defined.

(** Descriptor 3 is open on the file, of which "h" has been read. *)
Definition demo_object : file_object_t := FileObject 100 600 1 1024 1.
Definition demo_open : sysk :=
  demo_tables (<[3%nat := 700]> (replicate NUM_FDS 0)) (VfsState {[700 := demo_object]} {[600 := tarfs_table]} 0 0 0 600).

Lemma demo_reading : reading (kn demo_open) 3 700 demo_object [101; 108; 108; 111] 1100 32.
Proof.
  split; try done.
  - eexists. split; [by split|done].
  - intros [|[|[|[|i]]]] c Hi; cbn in Hi; [..|by destruct i]; injection Hi as <-; (split; [lia|by vm_compute]).
  - exists 0. split; [by vm_compute|by left].
  - intros i Hi. assert (forallb (fun j => bool_decide (is_Some (demo_archive !! (1100 + j)))) (seqZ 0 32) = true) as H by (vm_compute; reflexivity).
    rewrite forallb_forall in H. eapply bool_decide_eq_true, H, list_elem_of_In, elem_of_seqZ. lia.
  - right. simpl. lia.
Qed.

Lemma reads_deliver_text_witness :
  exists s', @read_all null_loader file_symbols demo_vfs_symbols quiet_literals quiet_messages 3 1100 [3; 0; 20] demo_open =
    Ret ([101; 108; 108; 111], s').
Proof.
  destruct (@reads_deliver_text null_loader file_symbols demo_vfs_symbols quiet_literals quiet_messages demo_open 3 700 demo_object
    [101; 108; 108; 111] 1100 32 [3; 0; 20] demo_reading) as (s' & f' & Hrun & _);
    [repeat (constructor; [lia|]); constructor|].
  exists s'. exact Hrun.
Defined.
