(* ===== verification/CreateSpec.v ===== *)
(** * Process creation ([create_process] and [init_idle_process] of [sys/process.c])

    A program of the archive becomes a process of its own, with an address space that holds its image, queued behind the
    current process; and the idle process, the first one.  Both return for every kernel with enough memory. *)

From S2P Require Import Prelude PhysMem Paging PageTable PagingSpec Cow MapRange VaMem Image CStr Console Terminal Tarfs Vfs.
From S2P Require Import Process Elf ProcessSpec UserMem ElfSpec ExecSpec ForkSpec FilesSpec.

(** ** The directory of the program *)

Lemma i8_slash c : 0 <= c < 256 -> (i8 c =? 47) = (c =? 47).
Proof.
  intros Hc. destruct (Z.eqb_spec c 47) as [->|Hne]; [done|]. apply Z.eqb_neq. intros H. apply Hne. apply i8_inj; [lia|lia|]. by rewrite H.
Qed.

(** The search from behind stops at the last slash. *)
Lemma back_slash_ok b fn dir base : cstr b fn (dir ++ 47 :: base) -> 47 ∉ base -> forall k fuel, (k <= S (length base))%nat -> (k < fuel)%nat ->
  back_slash fuel (fn + Z.of_nat (length dir + k)) b = Ret (fn + Z.of_nat (length dir), b).
Proof.
  intros Hs Hb. pose proof (cstr_chars _ _ _ Hs) as Hch.
  assert (forall i c, (dir ++ 47 :: base ++ [0]) !! i = Some c -> b !! (fn + Z.of_nat i) = Some c /\ 0 <= c < 256) as Hat.
  { intros i c Hi. split; [apply (cstr_lookup _ _ _ i c Hs); by rewrite <- app_assoc|].
    replace (dir ++ 47 :: base ++ [0]) with ((dir ++ 47 :: base) ++ [0]) in Hi by (by rewrite <- app_assoc).
    apply lookup_app_Some in Hi as [Hi|[_ Hi]]; [rewrite Forall_lookup in Hch; specialize (Hch _ _ Hi); lia|].
    apply list_elem_of_lookup_2, list_elem_of_singleton in Hi as ->. lia. }
  induction k as [|k IH]; intros [|fuel] Hk Hf; try lia; cbn [back_slash].
  - destruct (Hat (length dir) 47) as [H0 _]; [by rewrite list_lookup_middle|]. rewrite Nat.add_0_r.
    by rewrite (bind_ret _ _ _ _ _ (ldc_ok b _ 47 H0)).
  - destruct (lookup_lt_is_Some_2 (base ++ [0]) k) as [c Hc]; [rewrite length_app; simpl; lia|].
    destruct (Hat (length dir + S k)%nat c) as [H0 Hr]; [rewrite lookup_app_r by lia; replace (length dir + S k - length dir)%nat with (S k) by lia; exact Hc|].
    rewrite (bind_ret _ _ _ _ _ (ldc_ok b _ c H0)), i8_slash by done.
    destruct (Z.eqb_spec c 47) as [->|_].
    + exfalso. apply list_elem_of_lookup_2, elem_of_app in Hc as [Hc|Hc%list_elem_of_singleton]; done.
    + replace (fn + Z.of_nat (length dir + S k) - 1) with (fn + Z.of_nat (length dir + k)) by lia. apply IH; lia.
Qed.

(** The directory of the new process at [p], with its slash, and behind it what was in memory. *)
Definition dir_text (dir : list Z) : list Z := dir ++ [47; 0].
Definition dir_cwd (left : Z -> Z) (p : Z) (dir : list Z) : list Z := dir_text dir ++ left_cwd left p (length (dir_text dir)).

Lemma new_cwd_ok b fn dir base : cstr b fn (dir ++ 47 :: base) -> (length dir + 2 <= CWD_SIZE)%nat ->
  new_cwd fn (fn + Z.of_nat (length dir)) b = Ret (dir_text dir, b).
Proof.
  intros Hs Hl. unfold new_cwd. replace (Z.to_nat (fn + Z.of_nat (length dir) - fn)) with (length dir) by lia.
  rewrite (bind_ret _ _ _ dir b).
  - rewrite length_app. cbn [length]. by rewrite decide_True by lia.
  - apply load_bytes_ok. intros i c Hi. apply (cstr_lookup _ _ _ i c Hs). rewrite <- app_assoc. apply lookup_app_Some. by left.
Qed.

(** ** The new process *)

Section create.
Context {PS : ProcSymbols} {VS : VfsSymbols}.

(** The file [dir/base] is a program of the archive. *)
Record create_input (s : kern) (b0 : bytes) (fn : Z) (dir base : list Z) (loc entry : Z) (hs : list (option segment)) : Prop := {
  ci_mem : b0 ⊆ mem (con (term s));
  ci_fn : fn <> 0;
  ci_name : cstr b0 fn (dir ++ 47 :: base);
  ci_base : 47 ∉ base;
  ci_dir : (length dir + 2 <= CWD_SIZE)%nat;
  ci_short : Z.of_nat (length (dir ++ 47 :: base)) < BUF_SIZE;
  ci_found : exists es x, archive_ok b0 es /\ find_entry (is_entry (dir ++ 47 :: base) 0) tarfs_start es = Some x /\ loc = x + HEADER;
  ci_elf : elf_at b0 loc entry hs;
  ci_layout : layout_ok (segments hs);
  ci_pname : spare b0 (mem (con (term s))) p_name_create
}.

Lemma create_program s b0 b fn dir base loc entry hs :
  create_input s b0 fn dir base loc entry hs -> b0 ⊆ b -> program_at b fn loc entry hs.
Proof.
  intros Hi Hs. destruct (ci_found _ _ _ _ _ _ _ _ Hi) as (es & x & Ha & Hx & ->).
  destruct (archive_ok_mono _ _ _ Hs Ha) as [H1 H2 H3]. split.
  - pose proof (get_file_binary_ok b _ _ es fn _ H1 H2 H3 (cstr_mono _ _ _ _ Hs (ci_name _ _ _ _ _ _ _ _ Hi))) as H. by rewrite Hx in H.
  - eapply find_entry_pos in Hx; [unfold HEADER; lia|exact H1].
  - eapply elf_at_mono; [exact Hs|]. by apply Hi.
Qed.

(** The identifier [n] is the least one that was not in use, or -1 when there was none. *)
Definition pid_taken (ps : list Z) (n : Z) (ps' : list Z) : Prop :=
  (1 <= n < MAX_P /\ ps !! Z.to_nat n = Some 0 /\ (forall k, 1 <= k < n -> ps !! Z.to_nat k <> Some 0) /\ ps' = <[Z.to_nat n := 1]> ps) \/
  ((forall k, 1 <= k < MAX_P -> ps !! Z.to_nat k <> Some 0) /\ n = -1 /\ ps' = ps).

Lemma getPID_taken s : Z.of_nat (length (processes s)) = MAX_P ->
  exists n ps', getPID s = Ret (n, set_processes ps' s) /\ pid_taken (processes s) n ps'.
Proof.
  intros H. destruct (getPID_least_unused s H) as [(p & Hp & Hz & Hk & R)|[Hk R]].
  - exists p. eexists. split; [exact R|]. by left.
  - exists (-1), (processes s). split; [rewrite R; by destruct s|]. by right.
Qed.

(** The process [np] with the thread [t] runs the program. *)
Record created (s s' : kern) (c : Z) (tc : kthread) (np : Z) (t : kthread) (dir : list Z) (entry : Z) (gs : list segment) : Prop := {
  cr_new : np <> c /\ threads s !! np = None;
  cr_threads : threads s' = <[np := t]> (<[c := with_next np tc]> (threads s));
  cr_current : current_process s' = c;
  cr_state : state t = QUEUED;
  cr_next : next t = c;
  cr_pid : pid_taken (processes s) (pid t) (processes s');
  cr_cwd : exists s0, cwd t = dir_cwd (left_over s0) np dir;
  cr_fds : exists s0, fds t = std_table (left_over s0) np (stdin_fo (openf s)) (stdout_fo (openf s));
  cr_entry : rip t = entry /\ rsp_user t = STACK_START + 4096 - 16;
  cr_space : cr3 (mach s') = cr3 (mach s);
  cr_image : image_loaded (set_cr3 (cr3_ t) (mach s')) gs
}.

Definition create_pages (gs : list segment) : Z := 4 * pages_for SIZEOF_KTHREAD + 1 + 4 + pages_needed gs + 16.

(** The three assignments at the end, as an update of the threads. *)
Lemma link_new_ok s np c T tc tn : threads s = <[np := tn]> T -> T !! c = Some tc -> np <> c ->
  (upd_th np (with_state QUEUED) ≫= fun _ => upd_th c (with_next np) ≫= fun _ => upd_th np (with_next c) ≫= fun _ => mret np) s =
  Ret (np, set_threads (<[np := with_next c (with_state QUEUED tn)]> (<[c := with_next np tc]> T)) s).
Proof.
  intros E Hc Hne. assert (threads s !! np = Some tn) as Hn by (rewrite E; apply lookup_insert_eq).
  rewrite (bind_ret _ _ _ _ _ (upd_th_ok _ _ _ _ Hn)). set (s1 := set_threads _ s).
  assert (threads s1 !! c = Some tc) as Hc1 by (simpl; by rewrite E, !lookup_insert_ne).
  rewrite (bind_ret _ _ _ _ _ (upd_th_ok _ _ _ _ Hc1)). set (s2 := set_threads _ s1).
  assert (threads s2 !! np = Some (with_state QUEUED tn)) as Hn2 by (simpl; rewrite lookup_insert_ne by done; apply lookup_insert_eq).
  rewrite (bind_ret _ _ _ _ _ (upd_th_ok _ _ _ _ Hn2)). set (U := <[np := _]> (threads s2)).
  change (set_threads U s2) with (set_threads U s). replace U with (<[np := with_next c (with_state QUEUED tn)]> (<[c := with_next np tc]> T)); [done|].
  unfold U. simpl. rewrite E. apply map_eq. intros x. rewrite !lookup_insert. repeat case_decide; congruence.
Qed.

Lemma on_mach_cr3 x s : on_mach (set_new_cr3 x) s = Ret (tt, set_mach (set_cr3 x (mach s)) s).
Proof. done. Qed.

Lemma create_process_ok roots s l c tc b0 fn dir base loc entry hs :
  current_process s = c -> threads s !! c = Some tc -> ready roots (mach s) l ->
  (forall q, q ∈ l -> threads s !! kva q = None) -> Z.of_nat (length (processes s)) = MAX_P -> std_open (openf s) ->
  create_input s b0 fn dir base loc entry hs -> MIN_PAGES + create_pages (segments hs) <= Z.of_nat (length l) ->
  exists s' np t l', create_process (LD := elf_loader) fn s = Ret (np, s') /\ created s s' c tc np t dir entry (segments hs) /\
    ready (cr3_ t :: roots) (mach s') l' /\ suffix l' l.
Proof.
  intros Hc Htc Hr Hfresh Hps Hstd Hi Hl. pose proof Hi as [Hm Hfn Hname Hbase Hdir Hshort _ Helf Hly Hpn].
  pose proof (pages_needed_pos _ (ly_segments _ Hly)) as Hpp.
  destruct (exec_pages_ok roots (mach s) l (pages_needed (segments hs) + 16) Hr) as (p & q & mmp & m1 & m2 & m3 & l3 & R1 & Hp & R2 & R3 & Hr3 & C3 & L3 & Hs3 & C2);
    [lia|unfold create_pages in Hl; lia|].
  destruct (copy_name_ok b0 _ p_name_create fn _ Hm Hpn Hname Hfn Hshort) as (b1 & B1 & W1 & _).
  pose proof (spare_keeps _ _ _ _ Hm Hpn W1) as Hm1. pose proof (cstr_mono _ _ _ _ Hm Hname) as Hn. pose proof (cstr_mono _ _ _ _ Hm1 Hname) as Hn1.
  set (b := mem (con (term s))) in *. pose proof (cstr_size _ _ _ Hn) as Hsz.
  unfold create_process. rewrite (bind_ret _ _ _ _ _ (on_mach_ret _ s _ _ R1)). set (s1 := set_mach m1 s).
  destruct (getPID_taken s1 Hps) as (n & ps & R4 & Hpid). rewrite (bind_ret _ _ _ _ _ R4). set (s2 := set_processes ps s1).
  assert (str_fuel b = Ret (S (size b), b)) as Rf by reflexivity.
  rewrite (bind_ret _ _ _ _ _ (on_bytes_read _ s2 _ Rf)).
  rewrite (bind_ret _ _ _ _ _ (on_bytes_read _ s2 _ (str_end_ok (S (size b)) b fn _ Hn ltac:(lia)))).
  rewrite length_app in Hsz |- *. cbn [length] in Hsz |- *.
  rewrite (bind_ret _ _ _ _ _ (on_bytes_read _ s2 _ (back_slash_ok b fn dir base Hn Hbase (S (length base)) (S (size b)) ltac:(lia) ltac:(lia)))).
  rewrite (bind_ret _ _ _ _ _ (on_bytes_ret _ s2 _ _ B1)). set (s3 := with_mem b1 s2).
  rewrite (bind_ret _ _ _ _ _ (on_bytes_read _ s3 _ (new_cwd_ok b1 fn dir base Hn1 Hdir))).
  rewrite (bind_ret _ _ _ _ _ (on_mach_ret _ s3 _ _ R2)). set (s4 := set_mach m2 s3).
  rewrite (bind_ret _ _ _ (cr3 m2) s4) by reflexivity. rewrite (bind_ret _ _ _ _ _ (on_mach_cr3 _ s4)).
  set (s5 := set_mach (set_cr3 (q * 4096) m2) s4). rewrite (bind_ret _ _ _ _ _ (on_mach_ret _ s5 _ _ R3)). set (s6 := set_mach m3 s5).
  destruct (std_fds_ok (mach s6) (openf s6) Hstd) as (v' & R7). rewrite (bind_ret _ _ _ _ _ (on_vfs_ok _ s6 _ v' R7)). cbn [fst snd].
  unfold new_th at 1, modify at 1. rewrite (bind_ret _ _ _ _ _ eq_refl). set (np := kva p) in *. set (tn := KThread _ _ _ _ _ _ _ _ _ _ _ _).
  set (s7 := set_threads _ _). assert (threads s7 !! np = Some tn) as Hn7 by apply lookup_insert_eq.
  destruct (load_file_spec (q * 4096 :: roots) s7 l3 np tn fn loc entry hs Hn7 Hr3 (create_program s b0 b1 fn dir base loc entry hs Hi Hm1) Hly ltac:(lia))
    as (s8 & l0 & l8 & R8 & Him & _ & K8 & E8).
  pose proof (ready_kept _ _ _ _ _ _ Hr3 K8) as Hr8.
  change (load_file (Loader := elf_loader) np fn s7 = Ret (0, s8)) in R8. rewrite (bind_ret _ _ _ _ _ R8).
  rewrite (bind_ret _ _ _ _ _ (on_mach_cr3 _ s8)). set (s9 := set_mach (set_cr3 (cr3 m2) (mach s8)) s8).
  set (t8 := with_rsp_user (STACK_START + 4096 - 16) (with_rip entry tn)) in *.
  assert (threads s9 = <[np := t8]> (threads s)) as T9 by (change (threads s9) with (threads s8); rewrite E8; simpl; by rewrite insert_insert_eq).
  assert (current_process s9 = c) as C9 by (change (current_process s9) with (current_process s8); by rewrite E8).
  unfold gets at 1. rewrite (bind_ret _ _ _ _ _ eq_refl), C9.
  assert (np <> c) as Hne by (intros Heq; specialize (Hfresh p Hp); unfold np in Heq; congruence).
  rewrite (link_new_ok s9 np c (threads s) tc t8 T9 Htc Hne). eexists _, np, _, l8. split; [reflexivity|]. split_and!.
  - split; try done; [by split; [|apply Hfresh]|..].
    + change (pid_taken (processes s) n (processes s8)). by rewrite E8.
    + by eexists.
    + by eexists.
    + assert (cr3 (mach s8) = q * 4096) as C8 by (rewrite (sr_cr3 _ _ (kp_regs _ _ _ _ _ _ K8)); exact C3).
      change (image_loaded (set_cr3 (q * 4096) (mach s8)) (segments hs)).
      replace (set_cr3 (q * 4096) (mach s8)) with (mach s8) by (rewrite <- C8; by destruct (mach s8)).
      eapply image_held_loaded; [apply Hr8|apply Hr8|exact Him].
  - destruct Hr8 as [I8 _ K8' Z8]. split; [|right; change (cr3 m2 ∈ roots); rewrite C2; apply Hr|done|done]. destruct I8. by split.
  - etransitivity; [apply K8|done].
Qed.

(** C38: [create_process] starts a program: when the file is a program of the archive and there is enough memory, it returns a new
    process, which has the least free identifier, the directory of the file and the standard descriptors (behind them is what memory held), waits at the entry point of the
    program, and has an address space of its own that holds the segments of the file, an empty heap and an empty
    stack; the current address space stays.  The ring is then the current process and the new one, whatever processes were in
    it before: these are never scheduled again. *)
Theorem create_process_starts roots s l c r tc b0 fn dir base loc entry hs :
  ring s (c :: r) -> threads s !! c = Some tc -> ready roots (mach s) l ->
  (forall q, q ∈ l -> threads s !! kva q = None) -> Z.of_nat (length (processes s)) = MAX_P -> std_open (openf s) ->
  create_input s b0 fn dir base loc entry hs -> MIN_PAGES + create_pages (segments hs) <= Z.of_nat (length l) ->
  exists s' np t, create_process (LD := elf_loader) fn s = Ret (np, s') /\ created s s' c tc np t dir entry (segments hs) /\
    ring s' [c; np].
Proof.
  intros [Hhd _ _] Htc Hr Hf Hps Hstd Hi Hl. injection Hhd as Hc.
  destruct (create_process_ok roots s l c tc b0 fn dir base loc entry hs (eq_sym Hc) Htc Hr Hf Hps Hstd Hi Hl) as (s' & np & t & l' & R & Hcr & _).
  exists s', np, t. split_and!; [done..|]. destruct Hcr as [[Hne _] HT HC _ HN _ _ _ _ _ _].
  split; [by rewrite HC| |].
  - rewrite HC. simpl. rewrite HT. split; [|split; [|done]].
    + eexists. split; [rewrite lookup_insert_ne by done; apply lookup_insert_eq|done].
    + exists t. split; [apply lookup_insert_eq|done].
  - apply list.NoDup_cons. split; [by intros ?%list_elem_of_singleton|apply NoDup_singleton].
Qed.
(** ** The idle process *)

(** The first file object of the terminal is allocated. *)
Lemma create_terminal_fo_ok roots m v l name : ready roots m l -> MIN_PAGES + 4 <= Z.of_nat (length l) ->
  exists p v' m' l', create_terminal_fo name (m, v) = Ret (p, (m', v')) /\ p <> 0 /\ is_Some (fobjs v' !! p) /\
    (forall q, is_Some (fobjs v !! q) -> is_Some (fobjs v' !! q)) /\ stdin_fo v' = stdin_fo v /\ stdout_fo v' = stdout_fo v /\
    ready roots m' l' /\ suffix l' l /\ Z.of_nat (length l) <= Z.of_nat (length l') + 4 /\ cr3 m' = cr3 m.
Proof.
  intros Hr Hl. destruct (ready_kmalloc roots m l SIZEOF_FO Hr) as (p & m1 & l1 & R1 & K1 & _ & _ & Hp & L1 & Hr1); [done|done|].
  pose proof (kva_nonzero p Hp) as Hnz. set (v1 := if terminal_fs v =? 0 then set_terminal_fs terminal_fs_impl v else v).
  exists (kva p), (set_fobjs (<[kva p := FileObject name (terminal_fs v1) 0 0 0]> (fobjs v1)) v1), m1, l1. split_and!; try done.
  - unfold create_terminal_fo. rewrite (bind_ret _ _ _ (kva p) (m1, v)) by (exact (zoom_ret fst (fun m s => (m, snd s)) _ (m, v) _ _ R1)).
    rewrite (bind_ret _ _ _ (terminal_fs v) (m1, v)) by reflexivity.
    rewrite (bind_ret _ _ _ tt (m1, v1)) by (unfold v1; by destruct (terminal_fs v =? 0)).
    rewrite (bind_ret _ _ _ (terminal_fs v1) (m1, v1)) by reflexivity. reflexivity.
  - simpl. rewrite lookup_insert_eq. by eexists.
  - intros q Hq. simpl. rewrite lookup_insert. case_decide; [by eexists|]. unfold v1. by destruct (terminal_fs v =? 0).
  - unfold v1. by destruct (terminal_fs v =? 0).
  - unfold v1. by destruct (terminal_fs v =? 0).
  - apply K1.
  - apply K1.
Qed.

Lemma std_fds_first roots m v l : ready roots m l -> stdin_fo v = 0 -> stdout_fo v = 0 -> MIN_PAGES + 8 <= Z.of_nat (length l) ->
  exists v' m' l', std_fds (m, v) = Ret ((stdin_fo v', stdout_fo v'), (m', v')) /\ std_open v' /\
    ready roots m' l' /\ suffix l' l /\ Z.of_nat (length l) <= Z.of_nat (length l') + 8 /\ cr3 m' = cr3 m.
Proof.
  intros Hr Hi Ho Hl.
  destruct (create_terminal_fo_ok roots m v l str_stdin Hr) as (p & v1 & m1 & l1 & R1 & Hp & [fp Hfp] & _ & _ & Ho1 & Hr1 & S1 & L1 & C1); [lia|].
  set (v2 := set_stdin p v1). assert (fobjs v2 !! p = Some fp) as Hfp2 by exact Hfp.
  set (v3 := set_fobjs (<[p := with_ref_count (u16 (fo_ref_count fp + 1)) fp]> (fobjs v2)) v2).
  destruct (create_terminal_fo_ok roots m1 v3 l1 str_stdout Hr1) as (q & v4 & m4 & l4 & R4 & Hq & [fq Hfq] & Hkeep & Hi4 & _ & Hr4 & S4 & L4 & C4); [lia|].
  set (v5 := set_stdout q v4). assert (fobjs v5 !! q = Some fq) as Hfq5 by exact Hfq.
  exists (set_fobjs (<[q := with_ref_count (u16 (fo_ref_count fq + 1)) fq]> (fobjs v5)) v5), m4, l4.
  assert (stdin_fo v5 = p) as Ep by exact Hi4. split_and!; try done; try lia; [| |by etransitivity].
  - unfold std_fds. rewrite (bind_ret _ _ _ p (m1, v2)).
    2: { unfold get_stdin_fo. rewrite (bind_ret _ _ _ (stdin_fo v) (m, v)) by reflexivity. rewrite Hi. cbn [Z.eqb].
         rewrite (bind_ret _ _ _ tt (m1, v2)) by (rewrite (bind_ret _ _ _ _ _ R1); reflexivity). reflexivity. }
    rewrite (bind_ret _ _ _ _ _ (inc_ref_ok _ m1 v2 fp Hfp2)). fold v3. rewrite (bind_ret _ _ _ q (m4, v5)).
    2: { unfold get_stdout_fo. rewrite (bind_ret _ _ _ (stdout_fo v3) (m1, v3)) by reflexivity.
         change (stdout_fo v3) with (stdout_fo v1). rewrite Ho1, Ho. cbn [Z.eqb].
         rewrite (bind_ret _ _ _ tt (m4, v5)) by (rewrite (bind_ret _ _ _ _ _ R4); reflexivity). reflexivity. }
    rewrite (bind_ret _ _ _ _ _ (inc_ref_ok _ m4 v5 fq Hfq5)). unfold mret, M_ret. by rewrite <- Ep.
  - split; split; try done; simpl.
    + change (stdin_fo v4) with (stdin_fo v5). by rewrite Ep.
    + change (stdin_fo v4) with (stdin_fo v5). rewrite Ep, lookup_insert. case_decide; [by eexists|]. apply Hkeep. simpl. rewrite lookup_insert_eq. by eexists.
    + rewrite lookup_insert_eq. by eexists.
Qed.

(** The state after the idle process is created. *)
Record idle_made (s s' : kern) (idle : Z) (t : kthread) : Prop := {
  id_threads : threads s' = <[idle := t]> (threads s);
  id_current : current_process s' = idle;
  id_next : next t = idle;
  id_state : state t = RUNNING;
  id_entry : rip t = fn_init_scheduler;
  id_space : cr3_ t = cr3 (mach s) /\ cr3 (mach s') = cr3 (mach s);
  id_pid : pid_taken (processes s) (pid t) (processes s');
  id_term : term s' = term s;
  id_open : std_open (openf s')
}.

Lemma init_idle_process_ok roots s l : ready roots (mach s) l -> Z.of_nat (length (processes s)) = MAX_P ->
  stdin_fo (openf s) = 0 -> stdout_fo (openf s) = 0 -> MIN_PAGES + 4 * pages_for SIZEOF_KTHREAD + 8 <= Z.of_nat (length l) ->
  exists p s' t l', init_idle_process s = Ret (kva p, s') /\ idle_made s s' (kva p) t /\ ready roots (mach s') l' /\ suffix l' l /\
    (p ∈ l) /\ (p ∉ l') /\ Z.of_nat (length l) <= Z.of_nat (length l') + 4 * pages_for SIZEOF_KTHREAD + 8.
Proof.
  intros Hr Hps Hi Ho Hl.
  destruct (ready_kmalloc_many roots (mach s) l SIZEOF_KTHREAD Hr) as (p & m1 & l1 & R1 & Hr1 & Hp & S1 & L1 & Hp1 & G1); [done|lia|].
  set (s1 := set_mach m1 s). destruct (getPID_taken s1 Hps) as (n & ps & R2 & Hn). set (s2 := set_processes ps s1).
  set (s3 := set_current (kva p) s2).
  destruct (std_fds_first roots m1 (openf s) l1 Hr1 Hi Ho) as (v4 & m4 & l4 & R4 & Hop & Hr4 & S4 & L4 & C4); [lia|].
  set (s4 := set_openf v4 (set_mach m4 s3)).
  assert (on_vfs std_fds s3 = Ret ((stdin_fo v4, stdout_fo v4), s4)) as R4'.
  { unfold on_vfs. rewrite (zoom_ret _ _ std_fds s3 _ _ R4). done. }
  exists p. eexists _, _, l4. split.
  - unfold init_idle_process. rewrite (bind_ret _ _ _ _ _ (on_mach_ret _ s _ _ R1)), (bind_ret _ _ _ _ _ R2).
    rewrite (bind_ret _ _ _ (cr3 m1) s2) by reflexivity. rewrite (bind_ret _ _ _ tt s3) by reflexivity.
    rewrite (bind_ret _ _ _ _ _ R4'). cbn [fst snd]. unfold new_th, modify. rewrite (bind_ret _ _ _ _ _ eq_refl). reflexivity.
  - split_and!; try done; try lia.
    + split; try done. simpl. split; [apply G1|]. rewrite C4. apply G1.
    + by etransitivity.
    + intros H. apply Hp1. by eapply suffix_elem.
Qed.
End create.

(** ** Witness *)

Lemma sub_check (b0 b : bytes) : forallb (fun x => bool_decide (b !! x.1 = Some x.2)) (map_to_list b0) = true -> b0 ⊆ b.
Proof.
  intros H. rewrite forallb_forall in H. apply map_subseteq_spec. intros x c Hx.
  specialize (H (x, c) (proj1 (list_elem_of_In _ _) (proj2 (elem_of_map_to_list _ _ _) Hx))). by apply bool_decide_eq_true in H.
Qed.

Lemma spare_check b0 b a :
  forallb (fun i => bool_decide (is_Some (b !! (a + i))) && bool_decide (b0 !! (a + i) = None)) (seqZ 0 BUF_SIZE) = true -> spare b0 b a.
Proof.
  intros H. rewrite forallb_forall in H. split; intros i Hi;
    (assert (i ∈ seqZ 0 BUF_SIZE) as Hin%list_elem_of_In by (apply elem_of_seqZ; lia); apply H, andb_true_iff in Hin as [H1 H2]);
    [by apply bool_decide_eq_true in H1|by apply bool_decide_eq_true in H2].
Qed.

Definition create_symbols : ProcSymbols := {|
  msg_no_process := 0; msg_bad_state := 0; msg_reap_only := 0; msg_exit_only := 0;
  msg_kill_le_0 := 0; msg_kill_range := 0; msg_kill_idle := 0; msg_kill_none := 0;
  msg_kill_only := 0; msg_segv := 0; str_sbush := 0; str_idle := 0; str_pid := 0;
  str_ppid := 0; str_name := 0; str_status := 0; str_running := 0; str_queued := 0;
  str_zombie := 0; str_nl := 0; fn_init_scheduler := 0xA000; tarfs_start := 512; tarfs_end := 2048;
  p_name_create := 2400; p_name_copy := 0; p_name_exec := 0; filename_copy := 0; num_array := 0; left_over := fun _ _ => 170 |}.

(** The program of the loader's witness as the file ["d/p"]; its name is at 100. *)
Definition create_memory : bytes :=
  write_bytes 512 (header_bytes (Entry [100; 47; 112] 178 0) ++ demo_elf ++ replicate 334 0 ++ replicate 512 0) (write_bytes 100 [100; 47; 112; 0] ∅).

Lemma create_memory_program : @archive_ok create_symbols create_memory [Entry [100; 47; 112] 178 0] /\
  elf_at create_memory 1024 0x400011 [None; Some demo_segment] /\ cstr create_memory 100 [100; 47; 112].
Proof.
  split_and!; [|split|by apply cstrb_sound; vm_compute]; try (apply ld_le_eval; vm_compute; reflexivity).
  - split; [|constructor; [left; done|constructor]|done]. split; [done|]. split.
    + split; [by apply cstrb_sound; vm_compute|done|by apply cstrb_sound; vm_compute|by vm_compute|by apply cstrb_sound; vm_compute|simpl; lia].
    + right. vm_compute. reflexivity.
  - exists 64. split; [apply ld_le_eval; vm_compute; reflexivity|]. split; [|split; [|done]].
    + exists 4. split; [apply ld_le_eval; vm_compute; reflexivity|done].
    + split_and!; try (apply ld_le_eval; vm_compute; reflexivity). exists 176, 2.
      split_and!; try (apply ld_le_eval; vm_compute; reflexivity); [done|]. apply load_bytes_eval. vm_compute. reflexivity.
Qed.

Lemma create_input_demo s : create_memory ⊆ mem (con (term s)) -> spare create_memory (mem (con (term s))) 2400 ->
  create_input (PS := create_symbols) s create_memory 100 [100] [112] 1024 0x400011 [None; Some demo_segment].
Proof.
  intros Hs Hp. destruct create_memory_program as (Ha & He & Hn). split.
  - exact Hs.
  - discriminate.
  - exact Hn.
  - by intros ?%list_elem_of_singleton.
  - unfold CWD_SIZE. cbn [length]. lia.
  - reflexivity.
  - exists [Entry [100; 47; 112] 178 0], 512. split_and!; [exact Ha|reflexivity|reflexivity].
  - exact He.
  - exact demo_layout.
  - exact Hp.
Qed.

Definition demo_creator : kern :=
  Kern exec_machine (threads demo_kern) ∅ ∅ 100 ([0; 1; 1; 1] ++ replicate 996 0)
    (Tty (Console (write_bytes 2400 (replicate 128 0) create_memory) 0 0) [] 0) fork_vfs 0.

Lemma create_process_starts_witness : exists s' np t,
  create_process (LD := @elf_loader create_symbols) (PS := create_symbols) 100 demo_creator = Ret (np, s') /\
  threads s' !! np = Some t /\ rip t = 0x400011 /\ ring s' [100; np].
Proof.
  destruct (create_process_starts (PS := create_symbols) [4096] demo_creator (seqZ 2 198) 100 [200; 300] (demo_thread 1 0 0x1000 200 RUNNING)
    create_memory 100 [100] [112] 1024 0x400011 [None; Some demo_segment]) as (s' & np & t & R & Hcr & Hring).
  - split; apply demo_ring.
  - reflexivity.
  - exact exec_ready.
  - intros q Hq%elem_of_seqZ. unfold kva. rewrite u64_small by (unfold KERNEL_BASE; lia). unfold KERNEL_BASE.
    change (threads demo_creator) with (threads demo_kern). unfold demo_kern. simpl. rewrite !lookup_insert_ne by lia. reflexivity.
  - reflexivity.
  - split; (split; [discriminate|by eexists]).
  - apply create_input_demo; [apply sub_check|apply spare_check]; by vm_compute.
  - by vm_compute.
  - exists s', np, t. split_and!; [exact R|rewrite (cr_threads _ _ _ _ _ _ _ _ _ Hcr); apply lookup_insert_eq|apply Hcr|exact Hring].
Defined.
