(* ===== verification/ExitSpec.v ===== *)
(** * The end of a process ([exit_current_process], [kill_process], [wait_all] and [reap_process] of [sys/process.c])

    A process that exits becomes a zombie, its children get the idle process as their parent, and the next process of the ring runs.
    The scheduler of a later process unlinks it and frees its identifier.  The memory is released with [kfree], which does nothing
    for pages that are in use. *)

From S2P Require Import Prelude PhysMem Paging PageTable PagingSpec CStr Console Terminal Vfs Process ProcessSpec UserMem ElfSpec ForkExec.
From S2P Require Import Timer Syscalls SyscallsSpec ForkSpec FilesSpec.

(** ** Releasing memory *)

(** An address whose release has no effect: it is not mapped, or its page is counted. *)
Definition in_use (m : machine) (ptr : Z) : Prop :=
  walk_page_table ptr m = Ret (0, m) \/
  exists p, walk_page_table ptr m = Ret (p * 4096, m) /\ 0 <= p < MAX_PAGES /\ 1 <= refs (pm m) p.

Lemma kfree_in_use m ptr : in_use m ptr -> kfree ptr m = Ret (tt, m).
Proof. intros [H|(p & H & Hp & Hr)]; [by apply kfree_unmapped|by eapply kfree_referenced]. Qed.

(** A loop whose body changes nothing. *)
Lemma for_same {S} n i (body : Z -> M S unit) s : (forall k, i <= k < i + Z.of_nat n -> body k s = Ret (tt, s)) ->
  for_loop n i body s = Ret (tt, s).
Proof.
  intros H. destruct (for_loop_ind (fun _ t => t = s) body n i s eq_refl) as (s' & R & ->); [|exact R].
  intros k t Hk ->. exists s. split; [by apply H|done].
Qed.

(** The table that a present entry of the table at [tbl] leads to. *)
Definition entry (m : machine) (tbl i : Z) : Z := word m (u64 (entry_ptr tbl i - kernel_virtual_base m)).
Definition sub_table (m : machine) (tbl t : Z) : Prop :=
  exists i, 0 <= i < 512 /\ present (entry m tbl i) = true /\ t = u64 (kernel_virtual_base m + Z.land (entry m tbl i) MASK).

Definition tables_in_use (m : machine) (root : Z) : Prop :=
  let pml4 := u64 (root + kernel_virtual_base m) in
  in_use m pml4 /\ forall t1, sub_table m pml4 t1 -> in_use m t1 /\
  forall t2, sub_table m t1 t2 -> in_use m t2 /\ forall t3, sub_table m t2 t3 -> in_use m t3.

Lemma clean_entry_same m tbl i body : 0 <= i < 512 -> (forall t, sub_table m tbl t -> body t m = Ret (tt, m) /\ in_use m t) ->
  clean_entry tbl i body m = Ret (tt, m).
Proof.
  intros Hi H. unfold clean_entry, load64, gets. rewrite (bind_ret _ _ _ _ _ eq_refl). fold (entry m tbl i).
  destruct (present (entry m tbl i)) eqn:E; [|done]. rewrite (bind_ret _ _ _ _ _ eq_refl).
  destruct (H (u64 (kernel_virtual_base m + Z.land (entry m tbl i) MASK))) as [H1 H2]; [by exists i|].
  rewrite (bind_ret _ _ _ _ _ H1). by apply kfree_in_use.
Qed.

Lemma clean_page_tables_same m root : tables_in_use m root -> clean_page_tables root m = Ret (tt, m).
Proof.
  intros [H0 H]. unfold clean_page_tables, gets. rewrite (bind_ret _ _ _ _ _ eq_refl). cbv zeta.
  rewrite (bind_ret _ _ _ tt m); [by apply kfree_in_use|]. apply for_same. intros i Hi. apply clean_entry_same; [lia|].
  intros t1 [U1 H1]%H. split; [|done]. apply for_same. intros j Hj. apply clean_entry_same; [lia|].
  intros t2 [U2 H2]%H1. split; [|done]. apply for_same. intros k Hk. apply clean_entry_same; [lia|].
  intros t3 U3%H2. by split.
Qed.

Lemma on_mach_same {A} (c : M machine A) s a : c (mach s) = Ret (a, mach s) -> on_mach c s = Ret (a, s).
Proof. intros H. rewrite (on_mach_ret _ _ _ _ H). by rewrite set_mach_id. Qed.

(** The pages from [a] up to [b]. *)
Definition range_in_use (m : machine) (a b : Z) : Prop :=
  forall i, 0 <= i < (b - a + PAGE_SIZE - 1) / PAGE_SIZE -> in_use m (a + i * PAGE_SIZE).

Lemma kfree_range_same s a b : range_in_use (mach s) a b -> kfree_range a b s = Ret (tt, s).
Proof. intros H. apply for_same. intros i Hi. apply on_mach_same, kfree_in_use, H. lia. Qed.

(** What the process at [t] has: its memory descriptor, its stack and its areas, all of it on pages that are in use. *)
Record process_memory (s : kern) (t : kthread) (mmp : mm_struct) (st : vma_struct) (areas : list (Z * vma_struct)) : Prop := {
  mo_mm : mms s !! process_mm t = Some mmp;
  mo_stack : vmas s !! vma_stack mmp = Some st;
  mo_areas : area_list (vmas s) (vma_map mmp) areas;
  mo_nodup : NoDup areas.*1;
  mo_pages : forall a v, (a, v) ∈ areas -> in_use (mach s) a /\ range_in_use (mach s) (vma_start v) (vma_end v);
  mo_stack_pages : range_in_use (mach s) (vma_end st) (vma_start st);
  mo_records : in_use (mach s) (vma_stack mmp) /\ in_use (mach s) (process_mm t)
}.

Lemma free_vmas_same s p areas fuel : area_list (vmas s) p areas -> (length areas < fuel)%nat ->
  (forall a v, (a, v) ∈ areas -> in_use (mach s) a /\ range_in_use (mach s) (vma_start v) (vma_end v)) ->
  free_vmas fuel p s = Ret (tt, s).
Proof.
  revert p fuel; induction areas as [|[a v] areas IH]; intros p [|f] Hl Hf Hu; cbn [length] in Hf; try lia; cbn [free_vmas].
  - cbn in Hl. subst p. reflexivity.
  - destruct Hl as (-> & Ha & nx & Hv & Hl). destruct (Z.eqb_spec a 0); [done|]. destruct (Hu a v) as [Ua Uv]; [by left|].
    rewrite (bind_ret _ _ _ _ _ (vma_ok _ _ _ Hv)). rewrite (bind_ret _ _ _ _ _ (kfree_range_same s _ _ Uv)).
    rewrite (bind_ret _ _ _ tt s) by (by apply on_mach_same, kfree_in_use).
    apply IH; [exact Hl|lia|]. intros b w Hb. apply Hu. by right.
Qed.

Lemma shallow_cleanup_same s c t mmp st areas : threads s !! c = Some t -> process_memory s t mmp st areas ->
  shallow_cleanup c s = Ret (tt, s).
Proof.
  intros Ht [Hm Hs Hl Hn Hp Hst [Hr1 Hr2]]. unfold shallow_cleanup, gets. rewrite (bind_ret _ _ _ _ _ (th_ok _ _ _ Ht)).
  rewrite (bind_ret _ _ _ _ _ (mm_ok _ _ _ Hm)), (bind_ret _ _ _ _ _ (vma_ok _ _ _ Hs)), (bind_ret _ _ _ _ _ eq_refl).
  rewrite (bind_ret _ _ _ tt s); [|apply (free_vmas_same s _ areas); [done|pose proof (area_list_bound _ _ _ Hl Hn); lia|done]].
  rewrite (bind_ret _ _ _ _ _ (kfree_range_same s _ _ Hst)).
  rewrite (bind_ret _ _ _ tt s) by (by apply on_mach_same, kfree_in_use). by apply on_mach_same, kfree_in_use.
Qed.

(** ** The children *)

(** A child of the process [pid_] becomes a child of the idle process. *)
Definition adopted (pid_ : Z) (t : kthread) : kthread := if ppid t =? pid_ then with_ppid 1 t else t.

Lemma orphan_loop_ok l s c pid_ fuel : links (threads s) l c -> c ∉ l -> NoDup l -> (length l < fuel)%nat ->
  exists T, orphan_loop fuel c pid_ (match l with [] => c | q :: _ => q end) s = Ret (tt, set_threads T s) /\
    (forall q t, threads s !! q = Some t -> T !! q = Some (if decide (q ∈ l) then adopted pid_ t else t)).
Proof.
  revert s fuel; induction l as [|p l IH]; intros s [|f] Hl Hc Hn Hf; cbn [length] in Hf; try lia; cbn [orphan_loop].
  - exists (threads s). rewrite Z.eqb_refl. split; [by destruct s|]. intros q t Ht. rewrite decide_False; [done|apply not_elem_of_nil].
  - apply not_elem_of_cons in Hc as [Hcp Hc]. apply list.NoDup_cons in Hn as [Hp Hn]. destruct Hl as [(t & Ht & Hnx) Hl].
    destruct (Z.eqb_spec p c); [congruence|]. rewrite (bind_ret _ _ _ _ _ (th_ok _ _ _ Ht)).
    set (s1 := set_threads (<[p := adopted pid_ t]> (threads s)) s).
    rewrite (bind_ret _ _ _ tt s1).
    2: { unfold s1, adopted. destruct (ppid t =? pid_); [reflexivity|]. rewrite insert_id by done. by destruct s. }
    destruct (IH s1 f) as (T & R & HT); [|done|done|lia|].
    { apply (links_ext (threads s)); [done|]. intros q u Hq Hu. exists u. split; [|done]. cbn. rewrite lookup_insert_ne; [done|]. by intros ->. }
    exists T. split.
    + rewrite Hnx. exact R.
    + intros q u Hu. cbn [threads s1 set_threads] in HT. destruct (decide (q = p)) as [->|Hqp].
      * rewrite Ht in Hu. injection Hu as <-. rewrite (HT p (adopted pid_ t)) by apply lookup_insert_eq.
        rewrite decide_False by done. by rewrite decide_True by (by left).
      * rewrite (HT q u) by (by rewrite lookup_insert_ne). destruct (decide (q ∈ l)), (decide (q ∈ p :: l)); set_solver.
Qed.

(** ** Exit *)

Section exit.
Context {LD : Loader} {PS : ProcSymbols} {VS : VfsSymbols}.

Lemma kill_process_ok s c r t mmp st areas : ring s (c :: r) -> r <> [] -> threads s !! c = Some t -> process_memory s t mmp st areas ->
  exists T, kill_process c s = Ret (tt, set_threads T s) /\ T !! c = Some (with_state ZOMBIE t) /\
    (forall q u, q <> c -> threads s !! q = Some u -> T !! q = Some (if decide (q ∈ r) then adopted (pid t) u else u)).
Proof.
  intros Hr Hne Ht Hm. pose proof (ring_size _ _ Hr) as Hsz. destruct Hr as [Hc [(t' & Ht' & Hn) Hl] Hnd]. injection Hc as Hc.
  rewrite Ht in Ht'. injection Ht' as <-. apply list.NoDup_cons in Hnd as [Hcr Hnd]. rewrite <- Hc in Hl, Hn.
  unfold kill_process, ring_fuel, gets. rewrite (bind_ret _ _ _ _ _ (th_ok _ _ _ Ht)).
  destruct (Z.eqb_spec (next t) c) as [E|_]; [exfalso; destruct r; [done|]; apply Hcr; rewrite <- E, Hn; by left|].
  rewrite (bind_ret _ _ _ _ _ eq_refl).
  destruct (orphan_loop_ok r s c (pid t) (S (size (threads s))) Hl Hcr Hnd) as (T & R & HT); [cbn [length] in Hsz; lia|].
  rewrite <- Hn in R. rewrite (bind_ret _ _ _ _ _ R), (bind_ret _ _ _ _ _ eq_refl). cbn [current_process set_threads]. rewrite <- Hc.
  assert (threads (set_threads T s) !! c = Some t) as HTc by (cbn; rewrite (HT c t Ht), decide_False; done).
  rewrite (bind_ret _ _ _ _ _ (upd_th_ok _ _ _ (with_state ZOMBIE) HTc)). exists (<[c := with_state ZOMBIE t]> T). split_and!.
  - apply (shallow_cleanup_same (set_threads (<[c := with_state ZOMBIE t]> T) s) c (with_state ZOMBIE t) mmp st areas); [apply lookup_insert_eq|].
    destruct Hm as [H1 H2 H3 H4 H5 H6 H7]. by split.
  - apply lookup_insert_eq.
  - intros q u Hq Hu. rewrite lookup_insert_ne by done. by apply HT.
Qed.

Lemma wait_all_loop_ok s l prev fuel : links (threads s) l (current_process s) -> current_process s ∉ l ->
  (forall q t, q ∈ l -> threads s !! q = Some t -> state t <> ZOMBIE) -> (length l < fuel)%nat ->
  wait_all_loop fuel (match l with [] => current_process s | p :: _ => p end) prev s = Ret (tt, s).
Proof.
  revert prev fuel; induction l as [|p l IH]; intros prev [|fuel] Hl Hc Hz Hf; cbn [length] in Hf; try lia; cbn [wait_all_loop];
    unfold gets; rewrite (bind_ret _ _ _ _ _ eq_refl); [by rewrite Z.eqb_refl|].
  apply not_elem_of_cons in Hc as [Hne Hc]. destruct (Z.eqb_spec p (current_process s)); [congruence|].
  destruct Hl as [(t & Ht & Hn) Hl]. rewrite (bind_ret _ _ _ _ _ (th_ok _ _ _ Ht)).
  rewrite bool_decide_eq_false_2 by (eapply Hz; [by left|done]).
  replace (next t) with (match l with [] => current_process s | q :: _ => q end) by (by destruct l).
  apply IH; [done|done| |lia]. intros q u Hq. apply Hz. by right.
Qed.

Lemma wait_all_ok s c r : ring s (c :: r) -> (forall q t, q ∈ r -> threads s !! q = Some t -> state t <> ZOMBIE) -> wait_all s = Ret (tt, s).
Proof.
  intros Hr Hz. pose proof (ring_size _ _ Hr) as Hsz. destruct Hr as [Hhd [(tc & Htc & Hn) Hl] Hnd]. injection Hhd as ->.
  apply list.NoDup_cons in Hnd as [Hc _]. unfold wait_all, ring_fuel, gets. rewrite (bind_ret _ _ _ _ _ eq_refl), (bind_ret _ _ _ _ _ (th_ok _ _ _ Htc)), (bind_ret _ _ _ _ _ eq_refl).
  replace (next tc) with (match r with [] => current_process s | q :: _ => q end) by (by destruct r).
  apply wait_all_loop_ok; [done|done|done|]. cbn [length] in Hsz. lia.
Qed.

(** ** Reaping *)

Definition zombie (T : gmap Z kthread) (p : Z) : Prop := state <$> T !! p = Some ZOMBIE.
#[export] Instance zombie_dec T p : Decision (zombie T p).
Proof. unfold zombie. apply _. Defined.

(** A zombie that can be released: its identifier is in the table, its tables and its record are on pages in use. *)
Record reapable (m : machine) (t : kthread) (z : Z) : Prop := {
  rp_pid : 0 <= pid t < MAX_P;
  rp_tables : tables_in_use m (cr3_ t);
  rp_record : in_use m z
}.

(** The walk to the process before [z]. *)
Lemma find_prev_ok done z l s last prev fuel : links (threads s) (done ++ z :: l) last -> z ∉ done -> (length done < fuel)%nat ->
  find_prev fuel z prev (match done with [] => z | q :: _ => q end) s = Ret (before prev done, s).
Proof.
  revert prev fuel; induction done as [|p done IH]; intros prev [|f] Hl Hz Hf; cbn [length] in Hf; try lia; cbn [find_prev].
  - by rewrite Z.eqb_refl.
  - apply not_elem_of_cons in Hz as [Hzp Hz]. destruct Hl as [(t & Ht & Hn) Hl]. destruct (Z.eqb_spec p z); [congruence|].
    rewrite (bind_ret _ _ _ _ _ (th_ok _ _ _ Ht)).
    replace (next t) with (match done with [] => z | q :: _ => q end) by (by destruct done).
    rewrite (IH p f Hl Hz ltac:(lia)). unfold before. destruct done as [|q d]; [done|].
    change (list.last (p :: q :: d)) with (list.last (q :: d)). destruct (list.last (q :: d)) eqn:E; [done|by apply last_None in E].
Qed.

(** Unlinking [z] from behind [p]. *)
Lemma links_unlink T l1 p z l2 last tp tz : links T (l1 ++ p :: z :: l2) last -> NoDup (l1 ++ p :: z :: l2) ->
  T !! p = Some tp -> T !! z = Some tz -> links (<[p := with_next (next tz) tp]> T) (l1 ++ p :: l2) last.
Proof.
  intros Hl Hn Hp Hz. apply links_app in Hl as [H1 [_ [(tz' & Hz' & Hnz) H2]]]. rewrite Hz in Hz'. injection Hz' as <-.
  apply list.NoDup_app in Hn as (_ & Hd & [Hpn Hn2]%list.NoDup_cons). apply links_app. split; [|split].
  - apply (links_ext T); [exact H1|]. intros q u Hq Hu. exists u. split; [|done]. rewrite lookup_insert_ne; [done|].
    intros <-. apply (Hd p Hq). by left.
  - exists (with_next (next tz) tp). split; [apply lookup_insert_eq|exact Hnz].
  - apply (links_ext T); [exact H2|]. intros q u Hq Hu. exists u. split; [|done]. rewrite lookup_insert_ne; [done|].
    intros <-. apply Hpn. by right.
Qed.

Lemma split_before c done : exists pre, forall l : list Z, c :: done ++ l = pre ++ before c done :: l.
Proof.
  destruct done as [|q done' _] using rev_ind; [by exists []|]. exists (c :: done'). intros l. unfold before. rewrite last_snoc. cbn.
  by rewrite <- app_assoc.
Qed.

(** The state without the zombie [z]. *)
Definition reaped_one (s : kern) (p : Z) (tp tz : kthread) : kern :=
  set_processes (<[Z.to_nat (pid tz) := 0]> (processes s)) (set_threads (<[p := with_next (next tz) tp]> (threads s)) s).

Lemma reap_process_ok s c done z l tz : ring s (c :: done ++ z :: l) -> threads s !! z = Some tz -> reapable (mach s) tz z ->
  exists tp, threads s !! before c done = Some tp /\ before c done <> z /\ reap_process z s = Ret (tt, reaped_one s (before c done) tp tz) /\
    ring (reaped_one s (before c done) tp tz) (c :: done ++ l).
Proof.
  intros Hr Hz [Hpid Htab Hrec]. pose proof (ring_size _ _ Hr) as Hsz. destruct Hr as [Hc Hl Hnd]. injection Hc as Hc.
  destruct (split_before c done) as (pre & E). rewrite <- Hc in Hl. pose proof Hl as Hl'. pose proof Hnd as Hnd'. rewrite E in Hl', Hnd'.
  destruct (links_elem _ _ _ (before c done) Hl') as (tp & Htp); [set_solver|].
  assert (before c done <> z) as Hbz. { intros Eq. rewrite Eq in Hnd'. apply list.NoDup_app in Hnd' as (_ & _ & [Hz' _]%list.NoDup_cons). apply Hz'. by left. }
  assert (z <> c) as Hzc. { intros ->. apply list.NoDup_cons in Hnd as [Hx _]. apply Hx. set_solver. }
  assert (z ∉ done) as Hzd. { intros Hin. apply list.NoDup_cons in Hnd as [_ Hnd]. apply list.NoDup_app in Hnd as (_ & Hd & _). apply (Hd z Hin). by left. }
  exists tp. split_and!; [done|done| |].
  - destruct Hl as [(tc & Htc & Hnc) Hl]. unfold reap_process, ring_fuel, gets. rewrite (bind_ret _ _ _ _ _ eq_refl), <- Hc.
    destruct (Z.eqb_spec z c); [done|]. rewrite (bind_ret _ _ _ _ _ (th_ok _ _ _ Htc)), (bind_ret _ _ _ _ _ eq_refl).
    replace (next tc) with (match done with [] => z | q :: _ => q end) by (by destruct done).
    rewrite (bind_ret _ _ _ _ _ (find_prev_ok done z l s c c (S (size (threads s))) Hl Hzd ltac:(cbn [length] in Hsz; rewrite length_app in Hsz; lia))).
    rewrite (bind_ret _ _ _ _ _ (th_ok _ _ _ Hz)), (bind_ret _ _ _ _ _ (upd_th_ok _ _ _ _ Htp)).
    set (s1 := set_threads _ s). rewrite (bind_ret _ _ _ tt s1) by (by apply on_mach_same, clean_page_tables_same).
    rewrite (bind_ret _ _ _ _ _ eq_refl). destruct (Z.leb_spec 0 (pid tz)); [|lia]. destruct (Z.ltb_spec (pid tz) MAX_P); [|lia].
    rewrite (bind_ret _ _ _ _ _ eq_refl). by apply on_mach_same, kfree_in_use.
  - split; cbn [head reaped_one current_process set_processes set_threads threads].
    + by rewrite Hc.
    + rewrite <- Hc, E. by apply links_unlink with z.
    + rewrite E in *. apply list.NoDup_app in Hnd as (H1 & H2 & [H3 [H4 H5]%list.NoDup_cons]%list.NoDup_cons). apply list.NoDup_app. split_and!; [done| |].
      * intros q Hq. specialize (H2 q Hq). set_solver.
      * apply list.NoDup_cons. split; [set_solver|done].
Qed.

(** The table of identifiers without those of the zombies of [l]. *)
Fixpoint free_pids (T : gmap Z kthread) (l : list Z) (ps : list Z) : list Z :=
  match l with
  | [] => ps
  | z :: l' => free_pids T l' (match T !! z with
      | Some t => if bool_decide (state t = ZOMBIE) then <[Z.to_nat (pid t) := 0]> ps else ps
      | None => ps
      end)
  end.

(** Threads that differ in their links only. *)
Definition relinked (T T' : gmap Z kthread) : Prop := forall p t, T !! p = Some t -> exists nx, T' !! p = Some (with_next nx t).

#[local] Instance relinked_preorder : PreOrder relinked.
Proof.
  split; [intros T p t Ht; exists (next t); rewrite Ht; by destruct t|]. intros T1 T2 T3 H1 H2 p t Ht.
  destruct (H1 p t Ht) as (n1 & H1'). destruct (H2 p _ H1') as (n2 & H2'). exists n2. rewrite H2'. by destruct t.
Qed.

Lemma relinked_insert T p t nx : T !! p = Some t -> relinked T (<[p := with_next nx t]> T).
Proof.
  intros Hp q u Hu. destruct (decide (q = p)) as [->|Hne].
  - rewrite lookup_insert_eq. exists nx. congruence.
  - rewrite lookup_insert_ne by done. exists (next u). rewrite Hu. by destruct u.
Qed.

Lemma relinked_zombie T T' p : relinked T T' -> is_Some (T !! p) -> zombie T' p <-> zombie T p.
Proof. intros H [t Ht]. destruct (H p t Ht) as (nx & Ht'). unfold zombie. by rewrite Ht, Ht'. Qed.

Lemma relinked_pids T T' l ps : relinked T T' -> (forall p, p ∈ l -> is_Some (T !! p)) -> free_pids T' l ps = free_pids T l ps.
Proof.
  intros H. revert ps; induction l as [|z l IH]; intros ps Hs; [done|]. cbn [free_pids]. destruct (Hs z) as [t Ht]; [by left|].
  destruct (H z t Ht) as (nx & Ht'). rewrite Ht, Ht'. apply IH. intros p Hp. apply Hs. by right.
Qed.

(** What [wait_all] does with the processes [l]. *)
Record reaped (s s' : kern) (l : list Z) : Prop := {
  ra_threads : relinked (threads s) (threads s');
  ra_rest : s' = set_processes (free_pids (threads s) l (processes s)) (set_threads (threads s') s)
}.

(** Those that stay in the ring. *)
Definition survivors (T : gmap Z kthread) (l : list Z) : list Z := filter (fun p => ~ zombie T p) l.

Lemma relinked_survivors T T' l : relinked T T' -> (forall p, p ∈ l -> is_Some (T !! p)) -> survivors T' l = survivors T l.
Proof.
  intros H. unfold survivors. induction l as [|p l IH]; intros Hs; [done|]. rewrite !filter_cons, IH by (intros q Hq; apply Hs; by right).
  pose proof (relinked_zombie _ _ p H (Hs p ltac:(by left))). repeat case_decide; tauto.
Qed.

Lemma wait_all_loop_reaps l s c done fuel : ring s (c :: done ++ l) ->
  (forall z t, z ∈ l -> threads s !! z = Some t -> state t = ZOMBIE -> reapable (mach s) t z) -> (length l < fuel)%nat ->
  exists s', wait_all_loop fuel (match l with [] => c | q :: _ => q end) (before c done) s = Ret (tt, s') /\
    ring s' (c :: done ++ survivors (threads s) l) /\ reaped s s' l.
Proof.
  revert s done fuel; induction l as [|p l IH]; intros s done [|f] Hr Hz Hf; cbn [length] in Hf; try lia; cbn [wait_all_loop];
    unfold gets; rewrite (bind_ret _ _ _ _ _ eq_refl); pose proof Hr as [Hc Hl Hnd]; injection Hc as Hc.
  - rewrite <- Hc, Z.eqb_refl. exists s. split_and!; [done|done|]. split; [reflexivity|]. by destruct s.
  - assert (forall q, q ∈ p :: l -> is_Some (threads s !! q)) as Hin.
    { intros q Hq. destruct (links_elem _ _ _ q Hl) as [u Hu]; [set_solver|by rewrite Hu]. }
    destruct (Hin p) as [t Ht]; [by left|]. assert (p <> c) as Hpc.
    { intros ->. apply list.NoDup_cons in Hnd as [Hx _]. apply Hx. set_solver. }
    destruct (Z.eqb_spec p (current_process s)) as [E|_]; [congruence|]. rewrite (bind_ret _ _ _ _ _ (th_ok _ _ _ Ht)).
    assert (next t = match l with [] => c | q :: _ => q end) as Hn.
    { rewrite <- Hc in Hl. change (c :: done ++ p :: l) with ((c :: done) ++ p :: l) in Hl. apply links_app in Hl as [_ [(t' & Ht' & Hn) _]].
      rewrite Ht in Ht'. by injection Ht' as <-. }
    destruct (decide (state t = ZOMBIE)) as [E|E].
    + rewrite bool_decide_true by done. destruct (reap_process_ok s c done p l t Hr Ht (Hz p t ltac:(by left) Ht E)) as (tp & Htp & Hb & R & Hr1).
      set (s1 := reaped_one s (before c done) tp t) in *. assert (relinked (threads s) (threads s1)) as Hrel by (by apply relinked_insert).
      rewrite (bind_ret _ _ _ _ _ R). assert (threads s1 !! before c done = Some (with_next (next t) tp)) as Hb1 by apply lookup_insert_eq.
      rewrite (bind_ret _ _ _ _ _ (th_ok _ _ _ Hb1)). cbn [next with_next]. rewrite Hn.
      destruct (IH s1 done f Hr1) as (s2 & R2 & Hr2 & [H1 H2]); [|lia|].
      { intros z u Hzl Hu Hs. destruct (Hin z) as [v Hv]; [by right|]. destruct (Hrel z v Hv) as (nx & Hv'). rewrite Hu in Hv'. injection Hv' as ->.
        destruct (Hz z v ltac:(by right) Hv Hs) as [A1 A2 A3]. by split. }
      exists s2. split; [exact R2|]. rewrite (relinked_survivors _ _ l Hrel) in Hr2 by (intros q Hq; apply Hin; by right). split.
      * unfold survivors. rewrite filter_cons_False; [exact Hr2|]. intros Hx. apply Hx. unfold zombie. rewrite Ht. cbn. by rewrite E.
      * split; [by etransitivity|]. rewrite H2. cbn [free_pids]. rewrite Ht, bool_decide_true by done.
        rewrite (relinked_pids _ _ l _ Hrel) by (intros q Hq; apply Hin; by right). reflexivity.
    + rewrite bool_decide_false by done. rewrite Hn.
      assert (before c (done ++ [p]) = p) as Hbp by (unfold before; by rewrite last_snoc).
      destruct (IH s (done ++ [p]) f) as (s2 & R2 & Hr2 & [H1 H2]); [by rewrite <- app_assoc|intros; apply Hz; [by right|done..]|lia|].
      rewrite Hbp in R2. exists s2. split; [exact R2|]. split.
      * unfold survivors. rewrite filter_cons_True; [by rewrite <- app_assoc in Hr2|]. unfold zombie. rewrite Ht. cbn. congruence.
      * split; [done|]. cbn [free_pids]. by rewrite Ht, bool_decide_false by done.
Qed.

Lemma wait_all_reaps s c r : ring s (c :: r) ->
  (forall z t, z ∈ r -> threads s !! z = Some t -> state t = ZOMBIE -> reapable (mach s) t z) ->
  exists s', wait_all s = Ret (tt, s') /\ ring s' (c :: survivors (threads s) r) /\ reaped s s' r.
Proof.
  intros Hr Hz. pose proof (ring_size _ _ Hr) as Hsz. cbn [length] in Hsz. pose proof Hr as [Hc [(tc & Htc & Hn) _] _]. injection Hc as Hc.
  destruct (wait_all_loop_reaps r s c [] (S (size (threads s))) Hr Hz ltac:(lia)) as (s' & R & H). exists s'. split; [|exact H].
  unfold wait_all, ring_fuel, gets. rewrite (bind_ret _ _ _ _ _ eq_refl), <- Hc, (bind_ret _ _ _ _ _ (th_ok _ _ _ Htc)), (bind_ret _ _ _ _ _ eq_refl).
  rewrite <- Hc in Hn. rewrite Hn. exact R.
Qed.

(** ** The whole end of a process *)

Lemma adopted_same pid_ t : state (adopted pid_ t) = state t /\ next (adopted pid_ t) = next t /\ cr3_ (adopted pid_ t) = cr3_ t /\
  pid (adopted pid_ t) = pid t /\ ppid (adopted pid_ t) = (if ppid t =? pid_ then 1 else ppid t).
Proof. unfold adopted. by destruct (_ =? _). Qed.

(** After [kill_process]: the ring and its zombies are those of before, but for [c]. *)
Lemma killed_ring s c r t T : ring s (c :: r) -> threads s !! c = Some t -> T !! c = Some (with_state ZOMBIE t) ->
  (forall q u, q <> c -> threads s !! q = Some u -> T !! q = Some (if decide (q ∈ r) then adopted (pid t) u else u)) ->
  ring (set_threads T s) (c :: r) /\ survivors T r = survivors (threads s) r /\ (forall ps, free_pids T r ps = free_pids (threads s) r ps).
Proof.
  intros Hr Ht HTc HT. pose proof Hr as [Hc Hl Hnd]. apply list.NoDup_cons in Hnd as [Hcr Hnd].
  assert (forall p, p ∈ r -> exists u, threads s !! p = Some u /\ T !! p = Some (adopted (pid t) u)) as Hin.
  { intros p Hp. destruct (links_elem _ _ _ p Hl) as [u Hu]; [by right|]. exists u. split; [done|].
    rewrite (HT p u) by (congruence || (intros ->; done)). by rewrite decide_True. }
  split; [split; [exact Hc| |by apply list.NoDup_cons]|].
  - apply (links_ext (threads s)); [exact Hl|]. intros p u [->|Hp]%elem_of_cons Hu.
    + exists (with_state ZOMBIE t). split; [done|]. rewrite Ht in Hu. by injection Hu as <-.
    + destruct (Hin p Hp) as (v & Hv & HTv). rewrite Hu in Hv. injection Hv as <-. exists (adopted (pid t) u). split; [done|apply adopted_same].
  - clear Hr Hc Hl Hnd Hcr HT. induction r as [|p r IH]; [done|]. destruct IH as [I1 I2]; [intros q Hq; apply Hin; by right|].
    destruct (Hin p) as (u & Hu & HTu); [by left|]. destruct (adopted_same (pid t) u) as (E1 & _ & _ & E2 & _). split.
    + assert (zombie T p <-> zombie (threads s) p) as Hzz by (unfold zombie; rewrite Hu, HTu; cbn; by rewrite E1).
      unfold survivors in *. rewrite !filter_cons, I1. repeat case_decide; tauto.
    + intros ps. cbn [free_pids]. rewrite Hu, HTu, E1, E2. apply I2.
Qed.

(** What [exit] leaves: [c] is a zombie at the end of the ring, [q] runs in its address space, the children of [c] are the idle process's. *)
Record exited (s s' : kern) (c q : Z) (t : kthread) (r l2 : list Z) : Prop := {
  ex_ring : ring s' (q :: l2 ++ [c]);
  ex_zombie : exists u, threads s' !! c = Some u /\ state u = ZOMBIE /\ pid u = pid t /\ cr3_ u = cr3_ t;
  ex_runs : in_state s' RUNNING q /\ tss_rsp0 s' = kstack_top q;
  ex_space : exists tq, threads s !! q = Some tq /\ mach s' = set_cr3 (cr3_ tq) (mach s);
  ex_others : forall p u, p ∈ q :: l2 -> threads s !! p = Some u -> exists u', threads s' !! p = Some u' /\ pid u' = pid u /\
    ppid u' = (if ppid u =? pid t then 1 else ppid u) /\ (p <> q -> state u' = state u);
  ex_table : processes s' = free_pids (threads s) r (processes s)
}.

Lemma exit_ok s c r q l2 t mmp st areas : ring s (c :: r) -> threads s !! c = Some t -> process_memory s t mmp st areas ->
  survivors (threads s) r = q :: l2 -> in_state s QUEUED q ->
  (forall z u, z ∈ r -> threads s !! z = Some u -> state u = ZOMBIE -> reapable (mach s) u z) ->
  exists s', exit_current_process s = Ret (tt, s') /\ exited s s' c q t r l2.
Proof.
  intros Hr Ht Hm Hsv (tq & Htq & Hsq) Hz. pose proof Hr as [Hc _ Hnd]. injection Hc as Hc. apply list.NoDup_cons in Hnd as [Hcr _].
  assert (forall p, p ∈ q :: l2 -> p ∈ r /\ p <> c) as Hin.
  { intros p Hp. rewrite <- Hsv in Hp. apply list_elem_of_filter in Hp as [_ Hp]. split; [done|]. by intros ->. }
  destruct (kill_process_ok s c r t mmp st areas Hr ltac:(intros ->; done) Ht Hm) as (T & R1 & HTc & HT).
  destruct (killed_ring s c r t T Hr Ht HTc HT) as (Hr1 & Hsv1 & Hfp1). set (s1 := set_threads T s) in *.
  destruct (wait_all_reaps s1 c r Hr1) as (s2 & R2 & Hr2 & [Hrel Hrest]).
  { intros z v Hzr Hv Hs. assert (z <> c) as Hzc by (intros ->; done). pose proof Hr as [_ Hl _].
    destruct (links_elem _ _ _ z Hl) as [u Hu]; [by right|]. cbn in Hv. rewrite (HT z u Hzc Hu), decide_True in Hv by done. injection Hv as <-.
    destruct (adopted_same (pid t) u) as (E1 & _ & E3 & E4 & _). destruct (Hz z u Hzr Hu ltac:(congruence)) as [A1 A2 A3].
    split; [by rewrite E4|by rewrite E3|done]. }
  cbn [threads s1 set_threads] in Hr2, Hrel. rewrite Hsv1, Hsv in Hr2.
  assert (forall p u, p ∈ r -> p <> c -> threads s !! p = Some u -> exists nx, threads s2 !! p = Some (with_next nx (adopted (pid t) u))) as H2.
  { intros p u Hp Hpc Hu. apply Hrel. by rewrite (HT p u Hpc Hu), decide_True. }
  destruct (Hrel c _ HTc) as (nc & Hc2). destruct (Hin q ltac:(by left)) as [Hqr Hqc]. destruct (H2 q tq Hqr Hqc Htq) as (nq & Hq2).
  destruct (adopted_same (pid t) tq) as (Eq1 & _ & Eq3 & Eq4 & Eq5).
  destruct (switch_process_ok s2 c [] q l2 Hr2) as (s3 & R3 & Hr3 & Hps & HT3 & _ & _ & Htss & Hm3).
  { intros (u & Hu & Hs). rewrite Hc2 in Hu. injection Hu as <-. done. }
  { constructor. }
  { exists (with_next nq (adopted (pid t) tq)). split; [done|]. cbn. by rewrite Eq1. }
  exists s3. split.
  - unfold exit_current_process, scheduler, gets. rewrite (bind_ret _ _ _ _ _ eq_refl), <- Hc, (bind_ret _ _ _ _ _ R1). fold s1.
    by rewrite (bind_ret _ _ _ _ _ R2).
  - split.
    + exact Hr3.
    + eexists. split; [exact (HT3 c _ Hc2)|]. unfold switched. rewrite decide_False, decide_True by congruence. by rewrite bool_decide_false.
    + split; [|exact Htss]. eexists. split; [exact (HT3 q _ Hq2)|]. unfold switched. by rewrite decide_True.
    + exists tq. split; [done|]. rewrite (Hm3 _ Hq2). cbn [cr3_ with_next]. rewrite Eq3, Hrest. reflexivity.
    + intros p u Hp Hu. destruct (Hin p Hp) as [Hpr Hpc]. destruct (H2 p u Hpr Hpc Hu) as (np & Hp2). destruct (adopted_same (pid t) u) as (E1 & _ & _ & E4 & E5).
      eexists. split; [exact (HT3 p _ Hp2)|]. unfold switched. destruct (decide (p = q)) as [->|Hpq].
      * cbn. split_and!; [done|done|by intros].
      * rewrite decide_False by done. cbn. by split_and!.
    + rewrite Hps, Hrest. cbn. apply Hfp1.
Qed.
Lemma free_pids_zero T l ps i : ps !! i = Some 0 -> free_pids T l ps !! i = Some 0.
Proof.
  revert ps; induction l as [|z l IH]; intros ps Hi; [done|]. cbn [free_pids]. apply IH. destruct (T !! z) as [t|]; [|done].
  case_bool_decide; [|done]. destruct (decide (Z.to_nat (pid t) = i)) as [->|Hne].
  - apply list_lookup_insert_eq. by eapply lookup_lt_Some.
  - by rewrite list_lookup_insert_ne.
Qed.

Lemma free_pids_freed T l ps z t : z ∈ l -> T !! z = Some t -> state t = ZOMBIE -> (Z.to_nat (pid t) < length ps)%nat ->
  free_pids T l ps !! Z.to_nat (pid t) = Some 0.
Proof.
  intros Hz Ht Hs. revert ps; induction l as [|y l IH]; intros ps Hp; [by apply not_elem_of_nil in Hz|]. cbn [free_pids].
  apply elem_of_cons in Hz as [<-|Hz].
  - rewrite Ht, bool_decide_true by done. apply free_pids_zero. by apply list_lookup_insert_eq.
  - apply IH; [done|]. destruct (T !! y); [case_bool_decide; [by rewrite length_insert|done]|done].
Qed.

Lemma free_pids_length T l ps : length (free_pids T l ps) = length ps.
Proof.
  revert ps; induction l as [|z l IH]; intros ps; [done|]. cbn [free_pids]. rewrite IH.
  destruct (T !! z); [case_bool_decide; [by rewrite length_insert|done]|done].
Qed.

(** The next scheduler removes the process. *)
Lemma exited_reaped s s' c q t r l2 : exited s s' c q t r l2 -> survivors (threads s) r = q :: l2 -> ring s (c :: r) ->
  (Z.to_nat (pid t) < length (processes s))%nat -> reapable (mach s') t c ->
  exists s2, wait_all s' = Ret (tt, s2) /\ ring s2 (q :: l2) /\ processes s2 !! Z.to_nat (pid t) = Some 0 /\ mach s2 = mach s'.
Proof.
  intros [Hr (u & Hu & Hs & Hpid & Hcr3) _ _ Ho Hps] Hsv [_ Hl _] Hlen [A1 A2 A3]. pose proof Hr as [_ _ Hnd].
  apply list.NoDup_cons in Hnd as [Hq _].
  assert (forall p, p ∈ l2 -> ~ zombie (threads s') p) as Hal.
  { intros p Hp. assert (p ∈ survivors (threads s) r) as Hp' by (rewrite Hsv; by right). apply list_elem_of_filter in Hp' as [Hnz Hpr].
    destruct (links_elem _ _ _ p Hl) as [v Hv]; [by right|]. destruct (Ho p v ltac:(by right) Hv) as (v' & Hv' & _ & _ & Hst).
    assert (p <> q) as Hpq by (intros ->; apply Hq; set_solver). unfold zombie in *. rewrite Hv in Hnz. rewrite Hv'. cbn in *. by rewrite (Hst Hpq). }
  assert (survivors (threads s') (l2 ++ [c]) = l2) as Hsv'.
  { unfold survivors. rewrite list.filter_app, filter_cons_False, filter_nil, app_nil_r.
    - clear -Hal. induction l2 as [|p l IH]; [done|]. rewrite filter_cons_True by (apply Hal; by left). f_equal. apply IH. intros x Hx. apply Hal. by right.
    - intros Hx. apply Hx. unfold zombie. rewrite Hu. cbn. by rewrite Hs. }
  destruct (wait_all_reaps s' q (l2 ++ [c]) Hr) as (s2 & R & Hr2 & [Hrel Hrest]).
  { intros z v Hz Hv Hzs. apply elem_of_app in Hz as [Hz|Hz%list_elem_of_singleton].
    - exfalso. apply (Hal z Hz). unfold zombie. rewrite Hv. cbn. by rewrite Hzs.
    - subst z. rewrite Hu in Hv. injection Hv as <-. split; [by rewrite Hpid|by rewrite Hcr3|done]. }
  exists s2. rewrite Hsv' in Hr2. split_and!; [exact R|exact Hr2| |by rewrite Hrest].
  rewrite Hrest. cbn [processes set_processes]. rewrite <- Hpid. apply (free_pids_freed _ _ _ c); [set_solver|done|done|].
  rewrite Hps, free_pids_length. by rewrite Hpid.
Qed.

(** C10: The end of a process: the system call [exit] makes the current process [c] a zombie at the end of the ring, makes the idle process
    the parent of its children, removes the zombies that were in the ring, and runs the next process [q], which is queued, in its own address
    space; the memory stays as it is, since no page in use is released.  The scheduler that runs next removes [c] from the ring and frees its
    identifier. *)
Theorem exit_ends_process {L : Literals} {SS : SysSymbols} s code c r q l2 t mmp st areas :
  ring (kn s) (c :: r) -> threads (kn s) !! c = Some t -> process_memory (kn s) t mmp st areas ->
  survivors (threads (kn s)) r = q :: l2 -> in_state (kn s) QUEUED q ->
  (forall z u, z ∈ r -> threads (kn s) !! z = Some u -> state u = ZOMBIE -> reapable (mach (kn s)) u z) ->
  (Z.to_nat (pid t) < length (processes (kn s)))%nat ->
  exists k, handle_syscall SYSCALL_EXIT code 0 0 0 0 s = Ret (Done 0, set_kn k s) /\ exited (kn s) k c q t r l2 /\
    (reapable (mach k) t c ->
     exists k2, wait_all k = Ret (tt, k2) /\ ring k2 (q :: l2) /\ processes k2 !! Z.to_nat (pid t) = Some 0 /\ mach k2 = mach k).
Proof.
  intros Hr Ht Hm Hsv Hq Hz Hlen. destruct (exit_ok (kn s) c r q l2 t mmp st areas Hr Ht Hm Hsv Hq Hz) as (k & R & He). exists k. split_and!.
  - change (handle_syscall SYSCALL_EXIT code 0 0 0 0 s) with ((on_kn exit_current_process ≫= fun _ => mret (Done 0)) s).
    by rewrite (bind_ret _ _ _ _ _ (on_kn_ret _ s _ _ R)).
  - exact He.
  - intros Hp. by eapply exited_reaped.
Qed.
End exit.

(** ** Witness *)

(** Three processes: 100 exits, 200 is its child and queued, 300 is queued. *)
Definition demo_exit_kern : kern :=
  set_mms ({[900 := MM 910 910 920 0]}) (set_vmas (<[910 := Vma 0x400000 0x401000 0 0 0]> {[920 := Vma 0x7000 0x6000 0 0 0]})
    (set_threads (<[100 := KThread 0 1 0x1000 900 0 0 0 0 200 (replicate NUM_FDS 0) (replicate CWD_SIZE 0) RUNNING]> (threads demo_kern)) demo_kern)).

(** No page is mapped. *)
Lemma empty_in_use m ptr : aligned (cr3 m) -> (forall a, word m a = 0) -> in_use m ptr.
Proof.
  intros Ha H. left. rewrite walk_ok by done. assert (pte (ram (pm m)) (cr3 m) ptr = 0) as ->; [|reflexivity].
  unfold pte. destruct (slot _ _ _ _) as [x|]; [exact (H x)|reflexivity].
Qed.

Lemma empty_reapable m t z : aligned (cr3 m) -> (forall a, word m a = 0) -> 0 <= pid t < MAX_P -> reapable m t z.
Proof.
  intros Ha H Hp. split; [exact Hp| |by apply empty_in_use]. split; [by apply empty_in_use|].
  intros t1 (i & _ & Hi & _). unfold entry in Hi. rewrite H in Hi. discriminate Hi.
Qed.

Lemma demo_word a : word (mach demo_exit_kern) a = 0.
Proof. apply demo_ram. Qed.

Lemma demo_exit_space c3 a : word (set_cr3 c3 (mach demo_exit_kern)) a = 0.
Proof. apply demo_ram. Qed.

Lemma demo_aligned : aligned 4096 /\ aligned 0x2000.
Proof. split; (split; [vm_compute; split; discriminate|reflexivity]). Qed.

Lemma demo_exit_ring : ring demo_exit_kern [100; 200; 300].
Proof.
  destruct demo_ring as [H1 H2 H3]. split; [exact H1| |exact H3]. split; [by eexists|]. split; [by eexists|]. split; [by eexists|done].
Qed.

Lemma demo_exit_memory : process_memory demo_exit_kern (KThread 0 1 0x1000 900 0 0 0 0 200 (replicate NUM_FDS 0) (replicate CWD_SIZE 0) RUNNING)
  (MM 910 910 920 0) (Vma 0x7000 0x6000 0 0 0) [(910, Vma 0x400000 0x401000 0 0 0)].
Proof.
  assert (forall p, in_use (mach demo_exit_kern) p) as H by (intros p; apply empty_in_use; [exact (proj1 demo_aligned)|exact demo_word]).
  split; [reflexivity|reflexivity| |apply NoDup_singleton|..].
  - split_and!; [reflexivity|discriminate|]. exists 0. split; reflexivity.
  - intros a v _. split; [apply H|]. intros i _. apply H.
  - intros i _. apply H.
  - split; apply H.
Qed.

Lemma exit_ends_process_witness : exists k k2,
  @handle_syscall null_loader demo_symbols demo_vfs_symbols quiet_literals quiet_messages SYSCALL_EXIT 0 0 0 0 0 (Sysk demo_exit_kern ∅ 0 0 []) = Ret (Done 0, Sysk k ∅ 0 0 []) /\
  current_process k = 200 /\ wait_all k = Ret (tt, k2) /\ ring k2 [200; 300] /\ processes k2 !! 1%nat = Some 0.
Proof.
  destruct (@exit_ends_process null_loader demo_symbols demo_vfs_symbols quiet_literals quiet_messages (Sysk demo_exit_kern ∅ 0 0 []) 0 100 [200; 300] 200 [300]
    (KThread 0 1 0x1000 900 0 0 0 0 200 (replicate NUM_FDS 0) (replicate CWD_SIZE 0) RUNNING) (MM 910 910 920 0) (Vma 0x7000 0x6000 0 0 0)
    [(910, Vma 0x400000 0x401000 0 0 0)]) as (k & R & He & Hw).
  - exact demo_exit_ring.
  - reflexivity.
  - exact demo_exit_memory.
  - vm_compute. reflexivity.
  - eexists. split; reflexivity.
  - intros z u Hz Hu Hs. exfalso. apply elem_of_cons in Hz as [->|Hz%list_elem_of_singleton]; [|subst z]; vm_compute in Hu; injection Hu as <-; discriminate Hs.
  - apply Nat.ltb_lt. vm_compute. reflexivity.
  - destruct Hw as (k2 & Rw & Hr2 & Hp & _).
    { destruct (ex_space _ _ _ _ _ _ _ He) as (tq & Hq & ->). vm_compute in Hq. injection Hq as <-. apply empty_reapable; [exact (proj2 demo_aligned)|intros a; apply demo_exit_space|]. cbn. unfold MAX_P. lia. }
    exists k, k2. split_and!; [exact R| |exact Rw|exact Hr2|exact Hp].
    destruct (ex_ring _ _ _ _ _ _ _ He) as [Hc _ _]. by injection Hc.
Defined.
