(* ===== verification/LibC.v ===== *)
(** * The C library ([libc/])

    User code over an interface to the kernel: the memory of the process, and the trap [INT 0x80].
    The trap returns what the process finds in [rax] when it runs again; a call from which
    control does not come back ([exit], a successful [execvpe]) has no outcome that returns.
    Buffers on the stack and literals are at addresses given by the linker and the compiler.
    [printf] repeats the code of [kprintf], with [write] at the bottom instead of video memory;
    the digit loops are the ones of [CStr] and [Console]. *)

From S2P Require Import Prelude CStr Console Syscalls.

(** ** The interface *)

Class Kernel (S : Type) := {
  umem : S -> bytes;
  set_umem : bytes -> S -> S;
  int80 : Z -> Z -> Z -> Z -> Z -> Z -> M S Z;  (* rax, rbx, rcx, rdx, rsi, rdi *)
  unset : Z                                     (* a register the wrapper does not load *)
}.

(** Static objects of the library and its local arrays. *)
Class LibSymbols := {
  w_putchar : Z;       (* char w[1] of putchar *)
  buf_printLong : Z;   (* char buf[66] of printLong *)
  buf_printHex : Z;    (* char buf[19] of printHex *)
  dir_open : Z;        (* DIR dir_open *)
  read_dirent : Z      (* struct dirent read_dirent *)
}.

Definition on_user {S} {K : Kernel S} {A} (c : M bytes A) : M S A := zoom umem set_umem c.

(** [pow] and [o_to_d] of the library are the text of the kernel's. *)
Definition libc_pow : Z -> Z -> Z := pow.
Definition libc_o_to_d : Z -> outcome Z := o_to_d.

(** A little-endian number stored in [n] bytes. *)
Fixpoint st_le (n : nat) (p v : Z) : M bytes unit :=
  match n with O => mret tt | S n' => st8 p v ≫= fun _ => st_le n' (p + 1) (Z.shiftr v 8) end.

Section libc.
Context {S : Type} {K : Kernel S} {LS : LibSymbols}.

(** ** [syscall_wrapper.c] *)

Definition syscall6 (code arg2 arg3 arg4 arg5 arg6 : Z) : M S Z := int80 code arg2 arg3 arg4 arg5 arg6.
Definition syscall5 (code arg2 arg3 arg4 arg5 : Z) : M S Z := int80 code arg2 arg3 arg4 arg5 unset.
Definition syscall4 (code arg2 arg3 arg4 : Z) : M S Z := int80 code arg2 arg3 arg4 unset unset.
Definition syscall3 (code arg2 arg3 : Z) : M S Z := int80 code arg2 arg3 unset unset unset.
Definition syscall2 (code arg2 : Z) : M S Z := int80 code arg2 unset unset unset unset.
Definition syscall1 (code : Z) : M S Z := int80 code unset unset unset unset unset.

(** ** One function per call.  [int] arguments are sign-extended, [int] results truncated. *)

Definition libc_chdir (path : Z) : M S Z := r ← syscall2 SYSCALL_CHDIR path; mret (i32 r).
Definition libc_close (fd : Z) : M S Z := r ← syscall2 SYSCALL_CLOSE (u64 fd); mret (i32 r).
Definition libc_execvpe (file argv envp : Z) : M S Z := r ← syscall4 SYSCALL_EXECVPE file argv envp; mret (i32 r).
Definition libc_exit (status : Z) : M S unit := syscall2 SYSCALL_EXIT (u64 status) ≫= fun _ => mret tt.
Definition libc_fork : M S Z := r ← syscall1 SYSCALL_FORK; mret (u32 r).
Definition libc_free (ptr : Z) : M S unit := syscall2 SYSCALL_FREE ptr ≫= fun _ => mret tt.
Definition libc_getcwd (buf size_ : Z) : M S Z := syscall3 SYSCALL_GETCWD buf size_ ≫= fun _ => mret buf.
Definition libc_getpid : M S Z := r ← syscall1 SYSCALL_PID; mret (u32 r).
Definition libc_getppid : M S Z := r ← syscall1 SYSCALL_PPID; mret (u32 r).
Definition libc_kill (pid_ sig : Z) : M S Z := r ← syscall2 SYSCALL_KILL (u64 pid_); mret (i32 r).
Definition libc_malloc (size_ : Z) : M S Z := syscall2 SYSCALL_MALLOC size_.
Definition libc_open (pathname flags : Z) : M S Z := r ← syscall3 SYSCALL_OPEN pathname (u64 flags); mret (i32 r).
Definition libc_get_process_state (buf : Z) : M S unit := syscall2 SYSCALL_PS buf ≫= fun _ => mret tt.
Definition libc_sleep (seconds : Z) : M S Z := r ← syscall2 SYSCALL_SLEEP (u32 seconds); mret (u32 r).
Definition libc_wait : M S Z := r ← syscall1 SYSCALL_WAIT; mret (u32 r).
Definition libc_waitpid (pid_ : Z) : M S Z := r ← syscall2 SYSCALL_WAITPID (u64 pid_); mret (i32 r).
Definition libc_write (fd buf count : Z) : M S Z := r ← syscall4 SYSCALL_WRITE (u64 fd) buf count; mret (i64 r).
Definition libc_yield : M S Z := r ← syscall1 SYSCALL_YIELD; mret (i32 r).

Definition libc_read (fd buf count : Z) : M S Z :=
  (if fd =? 0 then libc_yield ≫= fun _ => mret tt else mret tt) ≫= fun _ =>
  ret_val ← syscall4 SYSCALL_READ (u64 fd) buf count; mret (i64 ret_val).

(** ** Directories *)

Definition libc_opendir (name : Z) : M S Z :=
  on_user (st_le 8 dir_open 0) ≫= fun _ =>
  r ← syscall2 SYSCALL_OPENDIR name;
  on_user (st_le 8 dir_open r) ≫= fun _ =>
  stream ← on_user (ld_le 8 dir_open);
  mret (if stream =? 0 then 0 else dir_open).

Definition libc_readdir (dirp : Z) : M S Z :=
  on_user (for_loop 256 0 (fun i => st8 (read_dirent + i) 0)) ≫= fun _ =>
  stream_addr ← on_user (ld_le 8 dirp);
  r ← syscall3 SYSCALL_READDIR stream_addr read_dirent;
  mret (if r =? u64 (-1) then 0 else read_dirent).

Definition libc_closedir (dirp : Z) : M S Z :=
  stream_addr ← on_user (ld_le 8 dirp);
  r ← syscall2 SYSCALL_CLOSEDIR stream_addr; mret (i32 r).

(** ** Output *)

Definition libc_putchar (c : Z) : M S Z :=
  on_user (st8 w_putchar c) ≫= fun _ => r ← libc_write 1 w_putchar 1; mret (i32 r).

Definition libc_puts (s : Z) : M S Z :=
  len ← on_user (libc_strlen s); r ← libc_write 1 s len; mret (i32 r).

Definition libc_gets (s : Z) : M S Z := libc_read 0 s 256 ≫= fun _ => mret s.

Definition libc_printChar (c : Z) : M S unit := libc_putchar c ≫= fun _ => mret tt.
Definition libc_printString (c : Z) : M S unit := libc_puts c ≫= fun _ => mret tt.

Definition libc_printLong (x : Z) : M S unit :=
  p ← on_user (
    st8 (buf_printLong + 65) 0 ≫= fun _ =>
    i ← put_digits 20 buf_printLong 64 (mod_ x);
    if x <? 0 then st8 (buf_printLong + i) 45 ≫= fun _ => mret (buf_printLong + i)
    else mret (buf_printLong + (i + 1)));
  libc_printString p.

Definition libc_printHex (x include_prefix : Z) : M S unit :=
  p ← on_user (
    st8 (buf_printHex + 18) 0 ≫= fun _ =>
    a ← put_hex 16 (buf_printHex + 17) (mod_ x);
    if include_prefix =? 0 then mret (a + 1) else
    st8 a 120 ≫= fun _ => st8 (a - 1) 48 ≫= fun _ => mret (a - 1));
  libc_printString p.

Definition libc_printSpecial (ft : format_type) (va : list Z) : M S (list Z) :=
  match va with
  | [] => mfault
  | v :: va' =>
      (match ft with
       | STRING => libc_printString v
       | INT => libc_printLong (u64 (i32 v))
       | HEX => libc_printHex v 0
       | VOID => libc_printHex v 1
       | CHAR => libc_printChar (i8 v)
       end) ≫= fun _ => mret va'
  end.

Fixpoint libc_printf_loop (fuel : nat) (c : Z) (va : list Z) : M S unit :=
  match fuel with
  | O => mfuel
  | Datatypes.S f =>
      ch ← on_user (ldc c);
      if ch =? 0 then mret tt else
      if ch =? 37 then
        ch' ← on_user (ldc (c + 1));
        match format_of ch' with
        | Some ft => va' ← libc_printSpecial ft va; libc_printf_loop f (c + 2) va'
        | None => libc_printf_loop f (c + 1) va
        end
      else libc_printChar ch ≫= fun _ => libc_printf_loop f (c + 1) va
  end.

Definition libc_printf (fmt : Z) (va : list Z) : M S Z :=
  fuel ← on_user str_fuel; libc_printf_loop fuel fmt va ≫= fun _ => mret 0.

End libc.

#[global] Arguments on_user : simpl never.
