(* ===== verification/Programs.v ===== *)
(** * User programs ([bin/cat], [bin/echo], [bin/kill], [bin/sleep], [bin/ps], [bin/ls],
      [bin/init], [crt/crt1.c])

    The [main] functions over the library and the interface to the kernel.  [argv] is the
    address of an array of pointers in the memory of the process; a program's literals and
    large local arrays are at given addresses, arrays whose address is never taken are
    lists.  Loops without a bound have the fuel of a string walk: every iteration of [cat] that
    continues consumes 1024 bytes of a file in memory. *)

From S2P Require Import Prelude CStr Console Syscalls LibC ShellParse.

Class ProgSymbols := {
  msg_not_found : Z;       (* "File not found\n" *)
  msg_read_failed : Z;     (* "Failed to read from file\n" *)
  msg_cat_args : Z;        (* "Incorrect number of command line arguments. Please try again.\n" *)
  msg_kill_args : Z;       (* "Kill -9 must have at least 1 argument\n" *)
  msg_kill_number : Z;     (* "Arguments for kill -9 are not correct positive numbers\n" *)
  msg_sleep_args : Z;      (* "Sleep must have at least 1 argument\n" *)
  msg_sleep_number : Z;    (* "Arguments for sleep are not correct positive numbers\n" *)
  msg_ps_begin : Z;        (* "\n------------ Process State [prints 20 processes] -----------\n" *)
  msg_ps_end : Z;          (* "\n-------------------- End Process State ---------------------\n" *)
  msg_ls_args : Z;         (* "Incorrect number of arguments\n" *)
  msg_no_dir : Z;          (* "No directory found with name: " *)
  msg_no_command : Z;      (* "Command not found\n" *)
  str_newline : Z;         (* "\n" *)
  str_blank : Z;           (* " " *)
  str_blanks : Z;          (* "    " *)
  str_etc_rc : Z;          (* "/etc/rc" *)
  buf_cat : Z;             (* char buf[1024] of cat *)
  buf_ps : Z;              (* char buf[20 * 128] of ps *)
  dir_to_open : Z;         (* char dir_to_open[1024] of ls *)
  script_file : Z;         (* char script_file[1024] of shell_execfile *)
  arguments_launch : Z     (* char *arguments[8] of launch_process *)
}.

Section programs.
Context {S : Type} {K : Kernel S} {LS : LibSymbols} {PG : ProgSymbols}.

(** [argv[i]]. *)
Definition arg (argv i : Z) : M S Z := on_user (ld_le 8 (argv + 8 * i)).

(** [write(1, s, strlen(s))]. *)
Definition write_str (s : Z) : M S unit :=
  n ← on_user (libc_strlen s); libc_write 1 s n ≫= fun _ => mret tt.

(** [write(1, s, n)], the result not used. *)
Definition write_n (s n : Z) : M S unit := libc_write 1 s n ≫= fun _ => mret tt.

(** ** [cat] *)

Definition CAT_BUF : Z := 1024.

Fixpoint cat_loop (fuel : nat) (fd : Z) : M S unit :=
  match fuel with
  | O => mfuel
  | Datatypes.S f =>
      len_read ← libc_read fd buf_cat CAT_BUF;
      if len_read =? -1 then write_str msg_read_failed else
      write_n buf_cat (u64 len_read) ≫= fun _ =>
      if len_read <? CAT_BUF then mret tt else cat_loop f fd
  end.

Definition cat_main (argc argv : Z) : M S Z :=
  if argc =? 2 then
    p ← arg argv 1;
    fd ← libc_open p 0;
    if fd <? 0 then write_str msg_not_found ≫= fun _ => mret 0 else
    fuel ← on_user str_fuel;
    cat_loop fuel fd ≫= fun _ =>
    write_n str_newline 1 ≫= fun _ =>
    libc_close fd ≫= fun _ => mret 0
  else write_str msg_cat_args ≫= fun _ => mret 0.

(** ** [echo] *)

Definition echo_main (argc argv : Z) : M S Z :=
  if argc <? 2 then mret 0 else
  for_loop (Z.to_nat (argc - 1)) 1 (fun i =>
    s ← arg argv i; write_str s ≫= fun _ => write_n str_blank 1) ≫= fun _ =>
  write_n str_newline 1 ≫= fun _ => mret 0.

(** ** [kill] and [sleep] *)

(** [for (i = first; i < argc; i++)]: the numbers, or [None] when one is not a number. *)
Fixpoint parse_numbers (n : nat) (argv i : Z) : M S (option (list Z)) :=
  match n with
  | O => mret (Some [])
  | Datatypes.S n' =>
      s ← arg argv i;
      val ← on_user (libc_atoi s);
      if u32 val =? u32 (-1) then mret None else
      r ← parse_numbers n' argv (i + 1); mret (cons (i32 val) <$> r)
  end.

Fixpoint for_each (l : list Z) (f : Z -> M S unit) : M S unit :=
  match l with [] => mret tt | x :: l' => f x ≫= fun _ => for_each l' f end.

Definition kill_main (argc argv : Z) : M S Z :=
  if argc <? 3 then write_str msg_kill_args ≫= fun _ => mret 0 else
  vals ← parse_numbers (Z.to_nat (argc - 2)) argv 2;
  match vals with
  | None => write_str msg_kill_number ≫= fun _ => mret 0
  | Some l => for_each l (fun v => libc_kill v 0 ≫= fun _ => mret tt) ≫= fun _ => mret 0
  end.

Definition sleep_main (argc argv : Z) : M S Z :=
  if argc <? 2 then write_str msg_sleep_args ≫= fun _ => mret (-1) else
  vals ← parse_numbers (Z.to_nat (argc - 1)) argv 1;
  match vals with
  | None => write_str msg_sleep_number ≫= fun _ => mret (-1)
  | Some l => for_each l (fun v => libc_sleep v ≫= fun _ => mret tt) ≫= fun _ => mret 0
  end.

(** ** [ps] *)

Definition ps_main (argc argv : Z) : M S Z :=
  write_str msg_ps_begin ≫= fun _ =>
  libc_get_process_state buf_ps ≫= fun _ =>
  write_str buf_ps ≫= fun _ =>
  write_str msg_ps_end ≫= fun _ =>
  libc_get_process_state buf_ps ≫= fun _ => mret 0.

(** ** [ls] *)

Definition PATH_LEN : Z := 1024.

(** The name is printed before the test for the end; [strlen] accepts the null pointer. *)
Fixpoint ls_loop (fuel : nat) (dir : Z) : M S unit :=
  match fuel with
  | O => mfuel
  | Datatypes.S f =>
      dirent ← libc_readdir dir;
      write_str dirent ≫= fun _ =>
      write_n str_blanks 1 ≫= fun _ =>
      if dirent =? 0 then mret tt else ls_loop f dir
  end.

Definition ls_main (argc argv : Z) : M S Z :=
  if 2 <? argc then write_str msg_ls_args ≫= fun _ => mret (-1) else
  (if argc =? 1 then libc_getcwd dir_to_open PATH_LEN ≫= fun _ => mret tt
   else s ← arg argv 1; on_user (libc_strcpy dir_to_open s) ≫= fun _ => mret tt) ≫= fun _ =>
  dir ← libc_opendir dir_to_open;
  if dir =? 0 then
    write_str msg_no_dir ≫= fun _ => write_str dir_to_open ≫= fun _ =>
    write_n str_newline 1 ≫= fun _ => mret (-1)
  else
    write_n str_blanks 1 ≫= fun _ =>
    fuel ← on_user str_fuel;
    ls_loop fuel dir ≫= fun _ =>
    write_n str_newline 1 ≫= fun _ =>
    libc_closedir dir ≫= fun _ => mret 0.

(** ** [init] *)

(** [init] has its own copy of the shell's functions that cut a line, word for word. *)
Definition init_remove_white_spaces : Z -> M bytes Z := remove_white_spaces.
Definition init_parse_split : nat -> Z -> Z -> M bytes (list Z) := parse_split.

(** [while (1) yield()], watched for [n] iterations. *)
Fixpoint yield_forever (n : nat) : M S Z :=
  match n with O => mfuel | Datatypes.S n' => libc_yield ≫= fun _ => yield_forever n' end.

Definition launch_process (n : nat) (process_name envp : Z) : M S Z :=
  on_user (st_le 8 arguments_launch process_name ≫= fun _ => st_le 8 (arguments_launch + 8) 0) ≫= fun _ =>
  c_pid ← libc_fork;
  if c_pid =? 0 then
    libc_execvpe process_name arguments_launch envp ≫= fun _ =>
    write_str msg_no_command ≫= fun _ =>
    libc_exit 0 ≫= fun _ => mret 0
  else yield_forever n.

(** The loop over the lines of a script: comments and empty lines are skipped. *)
Fixpoint each_line (lines : list Z) (f : Z -> M S unit) : M S unit :=
  match lines with
  | [] => mret tt
  | p :: lines' =>
      c0 ← on_user (ldc p);
      (if c0 =? 35 then mret tt else
       c1 ← on_user (ldc (p + 1));
       if c1 =? 33 then mret tt else
       n ← on_user (libc_strlen p); if n =? 0 then mret tt else f p) ≫= fun _ =>
      each_line lines' f
  end.

(** [shell_execfile], the same code in [init] and [sbush] up to the number of lines, [lines],
    what cuts the lines, and what is done with a line. *)
Definition shell_execfile (split : nat -> Z -> Z -> M bytes (list Z)) (lines : nat) (filename : Z) (f : Z -> M S unit) : M S Z :=
  c ← on_user (ldc filename);
  let filename := if c =? 47 then filename + 1 else filename in
  fp ← libc_open filename 0;
  if fp <? 0 then write_str msg_not_found ≫= fun _ => mret 0 else
  libc_read fp script_file 256 ≫= fun _ =>
  line_read ← on_user (split lines script_file 10);
  each_line line_read f ≫= fun _ =>
  libc_close fp ≫= fun _ => mret 0.

Definition init_main (n : nat) (argc argv envp : Z) : M S Z :=
  shell_execfile init_parse_split 256 str_etc_rc (fun p => launch_process n p envp ≫= fun _ => mret tt) ≫= fun _ => mret 0.

(** ** [crt1.c] *)

Definition _start (main : Z -> Z -> Z -> M S Z) (argc argv : Z) : M S unit :=
  exit_code ← main argc argv 0; libc_exit exit_code.

End programs.
