(* ===== verification/Shell.v ===== *)
(** * The shell ([bin/sbush/sbush.c])

    The shell over the library: its globals [is_background] and [PS1_set] are fields next to the
    state of the system, the arrays [path] and [PS1] and the local buffers are in the memory
    of the process.  The arguments of a job are a list that ends with the null pointer; the array
    [arguments] that [execvpe] gets is written when the line has been split.  The two endless
    loops are watched for a number of iterations. *)

From S2P Require Import Prelude CStr Console Syscalls LibC ShellParse Programs.

Record shell (S : Type) := Shell {
  os : S;
  is_background : Z;
  PS1_set : Z
}.
Arguments Shell {S}.
Arguments os {S}.
Arguments is_background {S}.
Arguments PS1_set {S}.

Definition set_os {S} (x : S) (s : shell S) : shell S := Shell x (is_background s) (PS1_set s).
Definition set_background {S} (x : Z) (s : shell S) : shell S := Shell (os s) x (PS1_set s).
Definition set_PS1_set {S} (x : Z) (s : shell S) : shell S := Shell (os s) (is_background s) x.

(** The shell is a process like the others. *)
#[export] Instance shell_kernel {S} {K : Kernel S} : Kernel (shell S) := {
  umem := fun s => umem (os s);
  set_umem := fun b s => set_os (set_umem b (os s)) s;
  int80 := fun a b c d e f => zoom os set_os (int80 a b c d e f);
  unset := unset (S := S)
}.

Class ShellSymbols := {
  path_ : Z;               (* char path[256] *)
  PS1_ : Z;                (* char PS1[256] *)
  bin_ : Z;                (* char bin[256] of exec_binary *)
  cdir_exec : Z;           (* char cdir[256] of exec_binary *)
  pid_s : Z;               (* char pid_s[20] of exec_binary *)
  cdir_cd : Z;             (* char cdir[256] of cd *)
  job_arguments : Z;       (* shell_job.arguments *)
  input_ : Z;              (* char input[256] of shell_init *)
  current_dir : Z;         (* char current_dir[256] of shell_init *)
  str_cat : Z;             (* "cat" *)
  str_ls : Z;              (* "ls" *)
  str_cd : Z;              (* "cd" *)
  str_export : Z;          (* "export" *)
  str_exit : Z;            (* "exit" *)
  str_dollar_path : Z;     (* "$PATH" *)
  str_dollar_ps1 : Z;      (* "$PS1" *)
  str_PATH : Z;            (* "PATH:" *)
  str_prompt : Z;          (* ": sbush> " *)
  str_job : Z;             (* "[1] " *)
  msg_export : Z;          (* "export: Error setting environment variable\n" *)
  msg_cd_none : Z;         (* "cd: No such file or directory\n" *)
  msg_cd_args : Z;         (* "cd: Incorrect number of arguments\n" *)
  msg_welcome : Z          (* "Welcome to SBUNIX (SNOW OS)!\n..." *)
}.

Definition BUF : Z := 256.
Definition MAX_JOB_ARGS : nat := 8.

(** ** Work on strings *)

Section strings.
Context {SS : ShellSymbols}.

(** [while (src[i]) { dst[i - d] = src[i]; i++; }]; returns [i]. *)
Fixpoint copy_shift (fuel : nat) (src dst d i : Z) : M bytes Z :=
  match fuel with
  | O => mfuel
  | S f => c ← ldc (src + i);
           if c =? 0 then mret i else
           c' ← ldc (src + i); st8 (dst + (i - d)) c' ≫= fun _ => copy_shift f src dst d (i + 1)
  end.

(** [while (a[k]) a[k] = 0], at the address of [a[k]]. *)
Definition cut_at (a : Z) : M bytes unit := c ← ldc a; if c =? 0 then mret tt else st8 a 0.

Definition put_env (new_path : Z) : M bytes Z :=
  fuel ← str_fuel;
  i ← copy_shift fuel new_path path_ 5 5;
  cut_at (path_ + (i - 5)) ≫= fun _ => mret 0.

(** [for (i = 0; path[i] != '/' && path[i] != 0; i++) bin[i] = path[i]]; returns [i]. *)
Fixpoint copy_dir (fuel : nat) (i : Z) : M bytes Z :=
  match fuel with
  | O => mfuel
  | S f => c ← ldc (path_ + i);
           if (c =? 47) || (c =? 0) then mret i else
           c' ← ldc (path_ + i); st8 (bin_ + i) c' ≫= fun _ => copy_dir f (i + 1)
  end.

(** The name of the program: the first directory of [path], a slash, the command. *)
Definition program_name (command : Z) : M bytes unit :=
  fuel ← str_fuel;
  i ← copy_dir fuel 0;
  st8 (bin_ + i) 47 ≫= fun _ =>
  st8 (bin_ + (i + 1)) 0 ≫= fun _ =>
  libc_strcat bin_ command ≫= fun _ => mret tt.

(** [for (i = 1; i < len; i++) a[i - 1] = a[i]; a[i - 1] = 0] with [char len = strlen(a)]. *)
Definition drop_slash (a : Z) : M bytes unit :=
  len ← libc_strlen a;
  let n := Z.to_nat (i8 len - 1) in
  for_loop n 1 (fun i => c ← ldc (a + i); st8 (a + (i - 1)) c) ≫= fun _ =>
  st8 (a + Z.of_nat n) 0.

(** [for (i = 0; i < strlen(cdir); i++) a[i] = cdir[i]; a[i] = 0]. *)
Fixpoint copy_over (fuel : nat) (cdir a i : Z) : M bytes unit :=
  match fuel with
  | O => mfuel
  | S f => n ← libc_strlen cdir;
           if i <? n then c ← ldc (cdir + i); st8 (a + i) c ≫= fun _ => copy_over f cdir a (i + 1)
           else st8 (a + i) 0
  end.

(** The array of pointers at [p]. *)
Fixpoint st_ptrs (p : Z) (l : list Z) : M bytes unit :=
  match l with [] => mret tt | x :: l' => st_le 8 p x ≫= fun _ => st_ptrs (p + 8) l' end.

End strings.

Section shell.
Context {S : Type} {K : Kernel S} {LS : LibSymbols} {PG : ProgSymbols} {SS : ShellSymbols}.
Abbreviation SM := (M (shell S)).

(** [strcmp(a, b) == 0]. *)
Definition same (a b : Z) : SM bool := r ← on_user (libc_strcmp a b); mret (r =? 0).

Definition argument (arguments : list Z) (i : nat) : SM Z := deref (arguments !! i).

(** ** [exec_binary] *)

(** The argument of [cat] and [ls] becomes a path from the root. *)
Definition absolute_argument (a : Z) : SM unit :=
  c ← on_user (ldc a);
  if c =? 47 then on_user (drop_slash a) else
  libc_getcwd cdir_exec BUF ≫= fun _ =>
  on_user (libc_strcat cdir_exec a) ≫= fun _ =>
  fuel ← on_user str_fuel;
  on_user (copy_over fuel cdir_exec a 0).

Definition spawn (envp : Z) : SM Z :=
  c_pid ← libc_fork;
  if c_pid =? 0 then
    libc_execvpe bin_ job_arguments envp ≫= fun _ =>
    write_str msg_no_command ≫= fun _ =>
    libc_exit 0 ≫= fun _ => mret 0
  else
    b ← gets is_background;
    (if b =? 0 then libc_waitpid (i32 c_pid) ≫= fun _ => mret tt else
       write_str str_job ≫= fun _ =>
       on_user (libc_itoa_cl pid_s c_pid) ≫= fun _ =>
       write_str pid_s ≫= fun _ =>
       write_n str_newline 1) ≫= fun _ => mret 0.

Definition exec_binary (arguments : list Z) (envp : Z) : SM Z :=
  a0 ← argument arguments 0;
  on_user (program_name a0) ≫= fun _ =>
  is_cat ← same a0 str_cat;
  is_path ← (if is_cat : bool then mret true else same a0 str_ls);
  (if is_path : bool then
     a1 ← argument arguments 1; if a1 =? 0 then mret tt else absolute_argument a1
   else mret tt) ≫= fun _ =>
  spawn envp.

(** ** Built-in commands *)

(** [for (i = 2; i < num_args; i++) { strcat(PS1, " "); strcat(PS1, arguments[i]); }] *)
Fixpoint append_args (l : list Z) : M bytes unit :=
  match l with
  | [] => mret tt
  | a :: l' => libc_strcat PS1_ str_blank ≫= fun _ => libc_strcat PS1_ a ≫= fun _ => append_args l'
  end.

Definition set_PS1 (a1 : Z) (others : list Z) : M bytes unit :=
  tokens ← parse_split MAX_JOB_ARGS a1 61;
  t1 ← deref ((tokens ++ [0]) !! 1%nat);
  fuel ← str_fuel;
  k ← copy_shift fuel t1 PS1_ 0 0;
  cut_at (PS1_ + k) ≫= fun _ =>
  append_args others ≫= fun _ =>
  libc_strcat PS1_ str_blank ≫= fun _ => mret tt.

Definition set_env_variables (arguments : list Z) (num_args envp : Z) : SM Z :=
  a1 ← argument arguments 1;
  c0 ← on_user (ldc a1);
  c1 ← (if c0 =? 80 then on_user (ldc (a1 + 1)) else mret 0);
  c2 ← (if (c0 =? 80) && (c1 =? 83) then on_user (ldc (a1 + 2)) else mret 0);
  (if (c0 =? 80) && (c1 =? 83) && (c2 =? 49) then
     on_user (set_PS1 a1 (drop 2 (take (Z.to_nat num_args) arguments))) ≫= fun _ => modify (set_PS1_set 1)
   else
     status ← on_user (put_env a1);
     if status =? 0 then mret tt else write_str msg_export) ≫= fun _ => mret 0.

(** A slash is appended in place. *)
Definition cd (arguments : list Z) (num_args envp : Z) : SM Z :=
  a1 ← argument arguments 1;
  len ← on_user (libc_strlen a1);
  c ← on_user (ldc (a1 + (i32 len - 1)));
  (if c =? 47 then mret tt else
     on_user (st8 (a1 + i32 len) 47 ≫= fun _ => st8 (a1 + (i32 len + 1)) 0)) ≫= fun _ =>
  if num_args =? 2 then
    c0 ← on_user (ldc a1);
    status ← (if c0 =? 47 then libc_chdir (a1 + 1) else
      libc_getcwd cdir_cd BUF ≫= fun _ =>
      on_user (libc_strcat cdir_cd a1) ≫= fun _ => libc_chdir cdir_cd);
    (if status =? 0 then mret tt else write_str msg_cd_none) ≫= fun _ => mret 0
  else write_str msg_cd_args ≫= fun _ => mret 0.

(** ** Command lines *)

Definition show_variable (a : Z) : SM Z := write_str a ≫= fun _ => write_n str_newline 1 ≫= fun _ => mret 0.

Definition shell_parse (input len_input envp : Z) : SM Z :=
  is_p ← same input str_dollar_path;
  if is_p : bool then show_variable path_ else
  is_ps1 ← same input str_dollar_ps1;
  if is_ps1 : bool then show_variable PS1_ else
  c ← on_user (ldc (input + (len_input - 1)));
  (if c =? 38 then
     modify (set_background 1) ≫= fun _ => on_user (st8 (input + (len_input - 1)) 0)
   else mret tt) ≫= fun _ =>
  input' ← on_user (remove_white_spaces input);
  cmds ← on_user (parse_split MAX_JOB_ARGS input' 32);
  let arguments := cmds ++ [0] in
  let num_args := Z.of_nat (length cmds) in
  on_user (st_ptrs job_arguments arguments) ≫= fun _ =>
  jobname ← argument arguments 0;
  is_cd ← same jobname str_cd;
  if is_cd : bool then cd arguments num_args envp ≫= fun _ => mret 0 else
  is_export ← same jobname str_export;
  if is_export : bool then set_env_variables arguments num_args envp ≫= fun _ => mret 0 else
  exec_binary arguments envp ≫= fun _ => mret 0.

Definition run_script (filename envp : Z) : SM unit :=
  shell_execfile parse_split 64 filename (fun p =>
    n ← on_user (libc_strlen p); shell_parse p (i32 n) envp ≫= fun _ => mret tt) ≫= fun _ => mret tt.

(** [input[0] == a && input[1] == b && ...]. *)
Fixpoint begins (p : Z) (l : list Z) : SM bool :=
  match l with
  | [] => mret true
  | c :: l' => d ← on_user (ldc p); if d =? c then begins (p + 1) l' else mret false
  end.

Definition prompt : SM unit :=
  p ← gets PS1_set;
  if p =? 0 then write_str current_dir ≫= fun _ => write_str str_prompt else write_str PS1_.

(** What is done with a line; [len_input] is its length. *)
Definition dispatch (len_input envp : Z) : SM unit :=
  if len_input =? 0 then mret tt else
  is_exit ← same input_ str_exit;
  if is_exit : bool then mret tt else
  is_run ← begins input_ [46; 47];
  if is_run : bool then run_script (input_ + 2) envp else
  is_sbush ← begins input_ [115; 98; 117; 115; 104; 32];
  if is_sbush : bool then run_script (input_ + 6) envp else
  shell_parse input_ len_input envp ≫= fun _ => mret tt.

(** One iteration of the loop of [shell_init]. *)
Definition shell_iter (envp : Z) : SM unit :=
  on_user (libc_memset input_ 0 BUF) ≫= fun _ =>
  on_user (libc_memset current_dir 0 BUF) ≫= fun _ =>
  modify (set_background 0) ≫= fun _ =>
  libc_getcwd current_dir BUF ≫= fun _ =>
  prompt ≫= fun _ =>
  libc_read 0 input_ BUF ≫= fun _ =>
  c ← on_user (ldc input_);
  if c =? 0 then mret tt else
  len ← on_user (libc_strlen input_);
  last ← on_user (ldc (input_ + (i32 len - 1)));
  len_input ← (if last =? 10 then
                 on_user (st8 (input_ + (i32 len - 1)) 0) ≫= fun _ => mret (i32 len - 1)
               else mret (i32 len));
  dispatch len_input envp.

Fixpoint shell_init (n : nat) (envp : Z) : SM unit :=
  match n with O => mfuel | Datatypes.S n' => shell_iter envp ≫= fun _ => shell_init n' envp end.

(** [for (i = 5; i < strlen(envp[0]); i++) path[i - 5] = envp[0][i];] and the slash behind it;
    [strlen] is called before every iteration. *)
Fixpoint path_loop (fuel : nat) (e i : Z) : M bytes Z :=
  match fuel with
  | O => mfuel
  | Datatypes.S f =>
      n ← libc_strlen e;
      if i <? n then c ← ldc (e + i); st8 (path_ + (i - 5)) c ≫= fun _ => path_loop f e (i + 1) else mret i
  end.

Definition path_from_env (e : Z) : M bytes unit :=
  fuel ← str_fuel;
  i ← path_loop fuel e 5;
  c ← ldc (e + (i - 1));
  j ← (if c =? 47 then mret i else st8 (e + i) 47 ≫= fun _ => mret (i + 1));
  st8 (e + j) 0.

Definition sbush_main (n : nat) (argc argv envp : Z) : SM Z :=
  write_str msg_welcome ≫= fun _ =>
  (if envp =? 0 then mret tt else
     e0 ← arg envp 0;
     if e0 =? 0 then mret tt else
     r ← on_user (libc_strcmp e0 str_PATH);
     if 0 <? r then on_user (path_from_env e0) else mret tt) ≫= fun _ =>
  (if argc =? 2 then s ← arg argv 1; run_script s envp
   else if 0 <? argc then shell_init n envp else mret tt) ≫= fun _ =>
  mfuel.

End shell.
