(* ===== verification/LibCSpec.v ===== *)
(** * What the library promises over a kernel with a terminal

    [Stdout] is the interface between the library and the kernel: what a process may rely on when it
    writes to descriptor 1 and when it stores into its own memory.  Over every kernel that keeps it,
    [printf] shows the text that the format stands for, the same text as [kprintf]. *)

From S2P Require Import Prelude CStr Console Syscalls LibC.

(** An address of the video memory: the screen and the status line. *)
Definition on_screen (a : Z) : Prop := VIDEO_BASE_ADDRESS <= a < VIDEO_BASE_ADDRESS + (SCREEN + 160).

(** [b] has the addresses of [m]; it differs from it only where [P] holds, and has bytes there. *)
Record updated (P : Z -> Prop) (m b : bytes) : Prop := {
  up_out : forall a, ~ P a -> b !! a = m !! a;
  up_dom : forall a, is_Some (m !! a) -> is_Some (b !! a);
  up_bytes : byte_range m -> byte_range b
}.

Lemma updated_refl P m : updated P m m.
Proof. by split. Qed.

Lemma updated_trans P m1 m2 m3 : updated P m1 m2 -> updated P m2 m3 -> updated P m1 m3.
Proof. intros [O1 D1 B1] [O2 D2 B2]. split; [|auto|auto]. intros a Ha. by rewrite O2, O1. Qed.

Lemma updated_mono (P Q : Z -> Prop) m b : (forall a, P a -> Q a) -> updated P m b -> updated Q m b.
Proof. intros H [O D B]. split; [|done|done]. intros a Ha. apply O. auto. Qed.

Lemma updated_write (P : Z -> Prop) p l m :
  (forall a, p <= a < p + Z.of_nat (length l) -> P a) -> Forall (fun c => 0 <= c < 256) l ->
  updated P m (write_bytes p l m).
Proof.
  intros HP Hl. split.
  - intros a Ha. rewrite write_bytes_lookup, decide_False; [done|]. intros H. by apply Ha, HP.
  - intros a Ha. rewrite write_bytes_lookup. case_decide; [|done]. apply lookup_lt_is_Some_2. lia.
  - by apply byte_range_write.
Qed.

Lemma updated_sub P m0 m b : updated P m b -> m0 ⊆ m -> (forall a, is_Some (m0 !! a) -> ~ P a) -> m0 ⊆ b.
Proof.
  intros [O _ _] Hs HP. apply map_subseteq_spec. intros a v Ha. rewrite O; [by eapply lookup_weaken|]. apply HP. by exists v.
Qed.

(** The bytes [l] are in memory from [p] on, outside the screen. *)
Definition text_in (m : bytes) (p : Z) (l : list Z) : Prop :=
  forall i c, l !! i = Some c -> m !! (p + Z.of_nat i) = Some c /\ ~ on_screen (p + Z.of_nat i).

Lemma cstr_text m p l : cstr m p l -> off_screen p (Z.of_nat (length l) + 1) -> text_in m p l.
Proof.
  intros Hl Hoff i c Hi. split.
  - eapply cstr_lookup; [done|]. by apply lookup_app_l_Some.
  - pose proof (lookup_lt_Some _ _ _ Hi). unfold off_screen, disjoint_regions, on_screen, SCREEN in *. lia.
Qed.

(** ** The interface *)

Class Stdout (S : Type) {K : Kernel S} := {
  sink : S -> Prop;                       (* descriptor 1 is the terminal *)
  private : Z -> Prop;                    (* memory that only the process uses *)
  shown : S -> list Z -> S -> Prop;       (* the text that appeared in between *)
  private_off a : private a -> ~ on_screen a;
  umem_set b s : umem (set_umem b s) = b;
  set_umem_id s : set_umem (umem s) s = s;
  shown_nil s : sink s -> shown s [] s;
  shown_app s t s' u s'' : shown s t s' -> shown s' u s'' -> shown s (t ++ u) s'';
  store_ok s b : sink s -> updated private (umem s) b -> sink (set_umem b s) /\ shown s [] (set_umem b s);
  write_ok s buf l :
    sink s -> text_in (umem s) buf l -> Z.of_nat (length l) < 2 ^ 31 ->
    exists s', int80 SYSCALL_WRITE 1 buf (Z.of_nat (length l)) unset unset s = Ret (Z.of_nat (length l), s') /\
      sink s' /\ shown s (i8 <$> l) s' /\ updated on_screen (umem s) (umem s')
}.

(** ** Output of the library *)

Lemma write_bytes_insert p l a v m : a < p \/ p + Z.of_nat (length l) <= a ->
  write_bytes p l (<[a := v]> m) = <[a := v]> (write_bytes p l m).
Proof.
  revert p m; induction l as [|b l IH]; intros p m Ha; cbn [write_bytes length] in *; [done|].
  rewrite insert_insert_ne by lia. apply IH. lia.
Qed.

Section output.
Context {S : Type} {K : Kernel S} {ST : Stdout S} {LS : LibSymbols}.

(** The arrays of the library that output uses. *)
Definition scratch (a : Z) : Prop :=
  a = w_putchar \/ buf_printLong <= a < buf_printLong + 66 \/ buf_printHex <= a < buf_printHex + 19.

Record lib_ready (s : S) : Prop := {
  lr_sink : sink s;
  lr_private : forall a, scratch a -> private a;
  lr_mapped : forall a, scratch a -> is_Some (umem s !! a);
  lr_null : ~ scratch 0
}.

(** [t] has been shown; apart from the screen only addresses of [P] have changed. *)
Record prints (P : Z -> Prop) (s : S) (t : list Z) (s' : S) : Prop := {
  pr_shown : shown s t s';
  pr_sink : sink s';
  pr_mem : updated (fun a => on_screen a \/ P a) (umem s) (umem s')
}.

Lemma prints_app P s t s' u s'' : prints P s t s' -> prints P s' u s'' -> prints P s (t ++ u) s''.
Proof. intros [A1 _ C1] [A2 B2 C2]. split; [by eapply shown_app|done|by eapply updated_trans]. Qed.

Lemma prints_mono (P Q : Z -> Prop) s t s' : (forall a, P a -> Q a) -> prints P s t s' -> prints Q s t s'.
Proof. intros H [A B C]. split; [done|done|]. eapply updated_mono; [|exact C]. intros a [?|?]; auto. Qed.

Lemma prints_ready P s t s' : lib_ready s -> prints P s t s' -> lib_ready s'.
Proof. intros [_ A B C] [_ D [_ E _]]. split; auto. Qed.

Lemma on_user_ret {A} (c : M bytes A) s a b : c (umem s) = Ret (a, b) -> on_user c s = Ret (a, set_umem b s).
Proof. apply zoom_ret. Qed.

Lemma on_user_read {A} (c : M bytes A) s a : c (umem s) = Ret (a, umem s) -> on_user c s = Ret (a, s).
Proof. intros H. by rewrite (on_user_ret _ _ _ _ H), set_umem_id. Qed.

(** A store into the arrays of the library. *)
Lemma store_prints s b : lib_ready s -> updated scratch (umem s) b -> prints scratch s [] (set_umem b s).
Proof.
  intros [A B _ _] H. destruct (store_ok s b A) as [C D]; [by eapply updated_mono|].
  split; [done|done|]. rewrite umem_set. eapply updated_mono; [|exact H]. by right.
Qed.

Lemma libc_write_ok s buf l :
  sink s -> text_in (umem s) buf l -> Z.of_nat (length l) < 2 ^ 31 ->
  exists s', libc_write 1 buf (Z.of_nat (length l)) s = Ret (Z.of_nat (length l), s') /\ prints (fun _ => False) s (i8 <$> l) s'.
Proof.
  intros Hs Hl Hn. destruct (write_ok s buf l Hs Hl Hn) as (s' & Hrun & A & B & C).
  exists s'. split.
  - unfold libc_write, syscall4. change (u64 1) with 1. rewrite (bind_ret _ _ _ _ _ Hrun). rewrite i64_small by lia. done.
  - split; [done|done|]. eapply updated_mono; [|exact C]. by left.
Qed.

Lemma i8_u8 c : i8 (u8 c) = i8 c.
Proof. unfold i8, signed, u8. by rewrite Zplus_mod_idemp_l. Qed.

Lemma putchar_prints s c : lib_ready s -> exists s', libc_printChar c s = Ret (tt, s') /\ prints scratch s [i8 c] s'.
Proof.
  intros Hr. pose proof Hr as [_ Hp Hm _].
  assert (scratch w_putchar) as Hw by (by left).
  assert (updated scratch (umem s) (<[w_putchar := u8 c]> (umem s))) as Hu.
  { split; [|intros a Ha; rewrite lookup_insert; by case_decide; [eexists|]|apply byte_range_insert].
    intros a Ha. apply lookup_insert_ne. by intros <-. }
  pose proof (store_prints s _ Hr Hu) as P1. set (s1 := set_umem _ s) in P1.
  destruct (libc_write_ok s1 w_putchar [u8 c]) as (s2 & Hrun & P2); [apply P1| |done|].
  { intros [|i] x Hi; [|by destruct i]. injection Hi as <-. rewrite Z.add_0_r. split; [|by apply private_off, Hp].
    unfold s1. rewrite umem_set. apply lookup_insert_eq. }
  exists s2. split.
  - unfold libc_printChar, libc_putchar. rewrite (bind_ret _ _ _ 1 s2); [done|].
    rewrite (bind_ret _ _ _ _ _ (on_user_ret _ _ _ _ (st8_ok _ _ _ (Hm _ Hw)))). fold s1.
    change (Z.of_nat (length [u8 c])) with 1 in Hrun. rewrite (bind_ret _ _ _ _ _ Hrun). done.
  - change [i8 c] with ([] ++ [i8 c]). eapply prints_app; [exact P1|]. rewrite <- i8_u8.
    eapply prints_mono; [|exact P2]. done.
Qed.

Lemma puts_prints s p l : lib_ready s -> p <> 0 -> cstr (umem s) p l -> text_in (umem s) p l -> Z.of_nat (length l) < 2 ^ 31 ->
  exists s', libc_printString p s = Ret (tt, s') /\ prints (fun _ => False) s (i8 <$> l) s'.
Proof.
  intros Hr Hp Hl Ht Hn. destruct (libc_write_ok s p l) as (s' & Hrun & P); [apply Hr|done|done|].
  exists s'. split; [|done]. unfold libc_printString, libc_puts. rewrite (bind_ret _ _ _ (Z.of_nat (length l)) s'); [done|].
  rewrite (bind_ret _ _ _ _ _ (on_user_read _ _ _ (strlen_ok _ _ _ Hp Hl))), (bind_ret _ _ _ _ _ Hrun).
  rewrite i32_small by lia. done.
Qed.

(** Text put into an array of the library and printed from there. *)
Lemma local_prints s p l :
  lib_ready s -> p <> 0 -> (forall a, p <= a <= p + Z.of_nat (length l) -> scratch a) ->
  Forall (fun c => 0 < c < 128) l -> Z.of_nat (length l) < 2 ^ 31 ->
  exists s', libc_printString p (set_umem (write_bytes p (l ++ [0]) (umem s)) s) = Ret (tt, s') /\ prints scratch s l s'.
Proof.
  intros Hr Hp Hsc Hl Hn. assert (updated scratch (umem s) (write_bytes p (l ++ [0]) (umem s))) as Hu.
  { apply updated_write; [intros a Ha; apply Hsc; rewrite length_app in Ha; simpl in Ha; lia|].
    apply Forall_app. split; [eapply Forall_impl; [|exact Hl]; simpl; lia|by constructor]. }
  pose proof (store_prints s _ Hr Hu) as P1. set (s1 := set_umem _ s) in *.
  assert (cstr (umem s1) p l) as Hc.
  { unfold s1. rewrite umem_set. apply write_bytes_cstr. eapply Forall_impl; [|exact Hl]. simpl. lia. }
  destruct (puts_prints s1 p l) as (s2 & Hrun & P2); [by eapply prints_ready|done|done| |done|].
  - intros i c Hi. split; [eapply cstr_lookup; [done|by apply lookup_app_l_Some]|].
    apply private_off, (lr_private _ Hr), Hsc. pose proof (lookup_lt_Some _ _ _ Hi). lia.
  - exists s2. split; [done|]. rewrite fmap_i8_ascii in P2 by (eapply Forall_impl; [|exact Hl]; simpl; lia).
    change l with ([] ++ l). eapply prints_app; [exact P1|]. eapply prints_mono; [|exact P2]. done.
Qed.

Lemma scratch_room s p n : lib_ready s -> (forall i, 0 <= i < n -> scratch (p + i)) -> room (umem s) p n.
Proof. intros [_ _ H _] Hs i Hi. by apply H, Hs. Qed.

Lemma printLong_prints s x : lib_ready s -> 0 <= x < 2 ^ 64 ->
  exists s', libc_printLong x s = Ret (tt, s') /\ prints scratch s (dec 20 x) s'.
Proof.
  intros Hr Hx. pose proof (dec_length_le 20 x 20 ltac:(simpl; lia) ltac:(lia)) as Hlen.
  set (k := Z.of_nat (length (dec 20 x))) in *. set (p := buf_printLong + (65 - k)).
  assert (room (umem s) buf_printLong 66) as Hroom by (apply scratch_room; [done|]; intros i Hi; right; left; lia).
  destruct (local_prints s p (dec 20 x)) as (s' & Hrun & P); [done| | | |lia|].
  - intros E. apply (lr_null _ Hr). right. left. lia.
  - intros a Ha. right. left. lia.
  - eapply Forall_impl; [|apply dec_digits]. unfold is_digit. lia.
  - exists s'. split; [|done]. unfold libc_printLong. rewrite (bind_ret _ _ _ p (set_umem (write_bytes p (dec 20 x ++ [0]) (umem s)) s)); [done|].
    apply on_user_ret. rewrite (bind_ret _ _ _ _ _ (st8_ok _ _ _ (Hroom 65 ltac:(lia)))), mod_u64 by done.
    rewrite (bind_ret _ _ _ _ _ (put_digits_ok 20 _ buf_printLong 64 x ltac:(lia) ltac:(simpl; lia) ltac:(
      eapply room_sub; [apply room_insert, Hroom|lia|lia]))). fold k.
    destruct (Z.ltb_spec x 0); [lia|]. unfold mret, M_ret. rewrite write_bytes_snoc. fold k. change (u8 0) with 0.
    replace (buf_printLong + 64 + 1 - k) with p by lia. replace (p + k) with (buf_printLong + 65) by lia.
    replace (64 - k + 1) with (65 - k) by lia. done.
Qed.

Lemma printHex_prints s x pre : lib_ready s -> 0 <= x < 2 ^ 64 ->
  exists s', libc_printHex x pre s = Ret (tt, s') /\ prints scratch s ((if pre =? 0 then [] else [48; 120]) ++ hex 16 x) s'.
Proof.
  intros Hr Hx. destruct (hex_facts 16 x) as [Hlen Hd]. set (h := hex 16 x) in *. set (k := Z.of_nat (length h)).
  set (l := (if pre =? 0 then [] else [48; 120]) ++ h). set (q := buf_printHex + (18 - k)).
  set (p := q - Z.of_nat (length (if pre =? 0 then [] else [48; 120] : list Z))).
  assert (buf_printHex <= p /\ p + Z.of_nat (length l) = buf_printHex + 18) as [Hp Hpl].
  { unfold p, l. rewrite length_app. destruct (pre =? 0); simpl; lia. }
  assert (room (umem s) buf_printHex 19) as Hroom by (apply scratch_room; [done|]; intros i Hi; right; right; lia).
  destruct (local_prints s p l) as (s' & Hrun & P); [done| | | |lia|].
  - intros E. apply (lr_null _ Hr). right. right. lia.
  - intros a Ha. right. right. lia.
  - apply Forall_app. split; [destruct (pre =? 0); repeat (constructor; [lia|]); constructor|].
    eapply Forall_impl; [|exact Hd]. simpl. lia.
  - exists s'. split; [|done]. unfold libc_printHex. rewrite (bind_ret _ _ _ p (set_umem (write_bytes p (l ++ [0]) (umem s)) s)); [done|].
    apply on_user_ret. rewrite (bind_ret _ _ _ _ _ (st8_ok _ _ _ (Hroom 18 ltac:(lia)))), mod_u64 by done.
    rewrite (bind_ret _ _ _ _ _ (put_hex_ok 16 _ (buf_printHex + 17) x ltac:(lia) ltac:(simpl; lia) ltac:(
      eapply room_sub; [apply room_insert, Hroom|fold h; lia|fold h; lia]))). fold h k.
    change (u8 0) with 0. replace (buf_printHex + 17 + 1 - k) with q by lia.
    replace (buf_printHex + 18) with (q + k) by lia. unfold k at 1. rewrite <- write_bytes_snoc.
    unfold p, l in *. clear p l Hrun P. destruct (pre =? 0).
    + unfold mret, M_ret. cbn [length app] in *. by replace (buf_printHex + 17 - k + 1) with (q - Z.of_nat 0) by lia;
        replace (q - Z.of_nat 0) with q by lia.
    + cbn [length app] in *. replace (buf_printHex + 17 - k) with (q - 1) by lia.
      set (b := write_bytes q (h ++ [0]) (umem s)).
      assert (room b buf_printHex 19) as Hb by apply room_write, Hroom.
      rewrite (bind_ret _ _ _ tt (<[q - 1 := 120]> b)).
      2:{ apply st8_ok. replace (q - 1) with (buf_printHex + (q - 1 - buf_printHex)) by lia. apply Hb. lia. }
      rewrite (bind_ret _ _ _ tt (<[q - 1 - 1 := 48]> (<[q - 1 := 120]> b))).
      2:{ apply st8_ok. replace (q - 1 - 1) with (buf_printHex + (q - 1 - 1 - buf_printHex)) by lia.
          apply (room_insert b buf_printHex 19 (q - 1) 120 Hb). lia. }
      unfold mret, M_ret. cbn [write_bytes]. replace (q - Z.of_nat 2) with (q - 1 - 1) by lia.
      replace (q - 1 - 1 + 1) with (q - 1) by lia. replace (q - 1 + 1) with q by lia.
      rewrite !write_bytes_insert by lia. fold b. by rewrite insert_insert_ne by lia.
Qed.

(** ** [printf] *)

(** Strings that printing does not change: of [m0], and neither on the screen nor in the arrays of the
    library.  The null pointer is not a string. *)
Record stable_part (m0 : bytes) (s : S) : Prop := {
  sp_sub : m0 ⊆ umem s;
  sp_off : forall a, is_Some (m0 !! a) -> ~ on_screen a /\ ~ scratch a;
  sp_null : m0 !! 0 = None
}.

Lemma stable_prints m0 s t s' : stable_part m0 s -> prints scratch s t s' -> stable_part m0 s'.
Proof.
  intros [A B C] [_ _ D]. split; [|done|done]. eapply updated_sub; [exact D|done|].
  intros a Ha. destruct (B a Ha). tauto.
Qed.

Lemma stable_text m0 s p l : stable_part m0 s -> cstr m0 p l -> p <> 0 /\ cstr (umem s) p l /\ text_in (umem s) p l.
Proof.
  intros [A B C] Hl. split_and!.
  - intros ->. destruct (cstr_mapped m0 0 l 0 Hl ltac:(lia)) as [v Hv]. rewrite Z.add_0_r in Hv. congruence.
  - by eapply cstr_mono.
  - intros i c Hi. assert (m0 !! (p + Z.of_nat i) = Some c) as H by (eapply cstr_lookup; [done|by apply lookup_app_l_Some]).
    split; [by eapply lookup_weaken|]. apply B. by exists c.
Qed.

(** No string is longer than the memory. *)
Definition small (m : bytes) : Prop := Z.of_nat (size m) < 2 ^ 31.

Lemma printSpecial_prints m0 s ft v va t :
  lib_ready s -> stable_part m0 s -> small m0 -> arg_text m0 ft v t ->
  exists s', libc_printSpecial ft (v :: va) s = Ret (va, s') /\ prints scratch s t s'.
Proof.
  intros Hr Hst Hsm Ht. assert (exists s', match ft with
    | STRING => libc_printString v | INT => libc_printLong (u64 (i32 v)) | HEX => libc_printHex v 0
    | VOID => libc_printHex v 1 | CHAR => libc_printChar (i8 v) end s = Ret (tt, s') /\ prints scratch s t s') as (s' & Hrun & P).
  { destruct ft; cbn [arg_text] in Ht.
    - destruct Ht as (l & Hl & _ & ->). destruct (stable_text _ _ _ _ Hst Hl) as (A & B & C).
      pose proof (cstr_size _ _ _ Hl). unfold small in Hsm.
      destruct (puts_prints s v l Hr A B C ltac:(lia)) as (s' & Hrun & P). exists s'. split; [done|]. by eapply prints_mono; [|exact P].
    - rewrite Ht. apply printLong_prints; [done|]. auto with snow.
    - destruct Ht as [Hv ->]. by apply (printHex_prints s v 0).
    - destruct Ht as [Hv ->]. by apply (printHex_prints s v 1).
    - rewrite Ht. destruct (putchar_prints s (i8 v) Hr) as (s' & Hrun & P). exists s'. split; [done|].
      by rewrite i8_small in P by (unfold i8, signed; pose proof (Z.mod_pos_bound (v + 2 ^ (8 - 1)) (2 ^ 8)); lia). }
  exists s'. split; [|done]. unfold libc_printSpecial. by rewrite (bind_ret _ _ _ _ _ Hrun).
Qed.

Lemma stable_ldc m0 s p c : stable_part m0 s -> m0 !! p = Some c -> on_user (ldc p) s = Ret (i8 c, s).
Proof. intros [A _ _] H. apply on_user_read, ldc_ok. by eapply lookup_weaken. Qed.

Lemma printf_loop_prints m0 fs va t :
  renders m0 fs va t -> forall fuel p s,
  lib_ready s -> stable_part m0 s -> small m0 -> cstr m0 p fs -> (length fs < fuel)%nat ->
  exists s', libc_printf_loop fuel p va s = Ret (tt, s') /\ prints scratch s t s'.
Proof.
  assert (forall s, lib_ready s -> prints scratch s [] s) as Hnil.
  { intros s Hr. split; [by apply shown_nil, Hr|apply Hr|apply updated_refl]. }
  induction 1 as [va|c fs va t Hc Hr IH|c ft fs v va t1 t2 Hft Ht1 Hr IH|va|c fs va t Hft Hr IH];
    intros [|f] p s Hrd Hst Hsm Hs Hf; simpl in Hf; try lia; cbn [libc_printf_loop].
  - exists s. split; [|by apply Hnil]. by rewrite (bind_ret _ _ _ _ _ (stable_ldc _ _ _ _ Hst Hs)).
  - destruct Hs as (Hcr & Hcl & Hs). rewrite (bind_ret _ _ _ _ _ (stable_ldc _ _ _ _ Hst Hcl)).
    rewrite i8_byte, i8_percent by lia. destruct (Z.eqb_spec c 0), (Z.eqb_spec c 37); try lia.
    destruct (putchar_prints s (i8 c) Hrd) as (s1 & Hr1 & P1). rewrite (bind_ret _ _ _ _ _ Hr1).
    destruct (IH f (p + 1) s1) as (s2 & Hr2 & P2); [by eapply prints_ready|by eapply stable_prints|done|done|lia|].
    exists s2. split; [done|]. rewrite <- i8_u8, u8_i8 in P1 by lia. by apply (prints_app _ _ [i8 c] s1).
  - destruct Hs as (_ & Hcl & Hcr & Hcl' & Hs).
    rewrite (bind_ret _ _ _ _ _ (stable_ldc _ _ _ _ Hst Hcl)). simpl (_ =? _). cbv iota.
    rewrite (bind_ret _ _ _ _ _ (stable_ldc _ _ _ _ Hst Hcl')), Hft.
    destruct (printSpecial_prints m0 s ft v va t1 Hrd Hst Hsm Ht1) as (s1 & Hr1 & P1). rewrite (bind_ret _ _ _ _ _ Hr1).
    replace (p + 2) with (p + 1 + 1) by lia.
    destruct (IH f (p + 1 + 1) s1) as (s2 & Hr2 & P2); [by eapply prints_ready|by eapply stable_prints|done|done|lia|].
    exists s2. split; [done|]. by eapply prints_app.
  - destruct Hs as (_ & Hcl & Hs). exists s. split; [|by apply Hnil].
    rewrite (bind_ret _ _ _ _ _ (stable_ldc _ _ _ _ Hst Hcl)). simpl (_ =? _). cbv iota.
    rewrite (bind_ret _ _ _ _ _ (stable_ldc _ _ _ _ Hst Hs)). simpl. destruct f; [lia|]. cbn [libc_printf_loop].
    by rewrite (bind_ret _ _ _ _ _ (stable_ldc _ _ _ _ Hst Hs)).
  - destruct Hs as (_ & Hcl & Hs). pose proof Hs as (_ & Hcl' & _).
    rewrite (bind_ret _ _ _ _ _ (stable_ldc _ _ _ _ Hst Hcl)). simpl (_ =? _). cbv iota.
    rewrite (bind_ret _ _ _ _ _ (stable_ldc _ _ _ _ Hst Hcl')), Hft. apply IH; [done..|simpl; lia].
Qed.

Lemma printf_prints m0 s fmt fs va t :
  lib_ready s -> stable_part m0 s -> small m0 -> cstr m0 fmt fs -> renders m0 fs va t ->
  exists s', libc_printf fmt va s = Ret (0, s') /\ prints scratch s t s'.
Proof.
  intros Hrd Hst Hsm Hs Hr. pose proof (cstr_size _ _ _ Hs) as Hsz. destruct Hst as [A B C].
  pose proof (map_subseteq_size _ _ A).
  destruct (printf_loop_prints m0 fs va t Hr (Datatypes.S (size (umem s))) fmt s Hrd) as (s' & Hrun & P); [done..|lia|].
  exists s'. split; [|done]. unfold libc_printf, str_fuel.
  rewrite (bind_ret _ _ _ _ _ (on_user_read (gets (fun m => Datatypes.S (size m))) s _ eq_refl)).
  by rewrite (bind_ret _ _ _ _ _ Hrun).
Qed.

End output.
