(* ===== verification/Session.v ===== *)
(** * A process over the kernel

    The state is the one of the system calls together with the events that will happen while a call waits
    (keys, seconds, its own turns); a trap runs the dispatcher, and then these events until the call
    returns.  One process is followed: a call after which another process is the current one does not
    return here.  With the terminal behind descriptor 1 this is an instance of [Kernel] and [Stdout]: what a
    process writes appears on the screen as the console's [print_chars] shows it. *)

From S2P Require Import Prelude PhysMem Paging VaMem CStr Console Terminal Tarfs Timer Vfs Process Syscalls ElfSpec FilesSpec LibC LibCSpec.

(** ** The state *)

Record session := Session {
  sk : sysk;
  script : list sys_event
}.

Definition console_of (s : session) : console := con (term (kn (sk s))).
Definition set_console (c : console) (s : session) : session :=
  Session (set_kn (set_term (set_con c (term (kn (sk s)))) (kn (sk s))) (sk s)) (script s).

Section session.
Context {LD : Loader} {PS : ProcSymbols} {VS : VfsSymbols} {L : Literals} {SS : SysSymbols}.

(** The events until the call returns. *)
Fixpoint resume (es : list sys_event) (r : sys_result) : M sysk (Z * list sys_event) :=
  match r with
  | Done v => mret (v, es)
  | Entered => mfuel
  | _ => match es with [] => mfuel | e :: es' => r' ← sys_step r e; resume es' r' end
  end.

Definition trap (code arg2 arg3 arg4 arg5 arg6 : Z) : M session Z := fun s =>
  match handle_syscall code arg2 arg3 arg4 arg5 arg6 (sk s) with
  | Ret (r, k) =>
      if current_process (kn k) =? current_process (kn (sk s)) then
        match resume (script s) r k with
        | Ret (v, es, k') => Ret (v, Session k' es)
        | Fault => Fault
        | OutOfFuel => OutOfFuel
        end
      else OutOfFuel
  | Fault => Fault
  | OutOfFuel => OutOfFuel
  end.

#[export] Instance session_kernel : Kernel session := {
  umem := fun s => mem (console_of s);
  set_umem := fun b s => set_console (set_mem b (console_of s)) s;
  int80 := trap;
  unset := 0
}.

End session.

(** ** What the screen shows *)

Record same_display (c d : console) : Prop := {
  sd_row : currentRow c = currentRow d;
  sd_col : currentColumn c = currentColumn d;
  sd_cells : forall a, VIDEO_BASE_ADDRESS <= a < VIDEO_BASE_ADDRESS + SCREEN -> mem c !! a = mem d !! a
}.

#[export] Instance same_display_equiv : Equivalence same_display.
Proof.
  split.
  - by split.
  - intros c d [A B C]. split; [done|done|]. intros a Ha. by rewrite C.
  - intros c d e [A B C] [A' B' C']. split; [congruence|congruence|]. intros a Ha. by rewrite C, C'.
Qed.

Lemma next_row_display c d c' d' : con_inv c -> con_inv d -> same_display c d ->
  next_row c = Ret (tt, c') -> next_row d = Ret (tt, d') -> same_display c' d'.
Proof.
  intros Hc Hd [A B C] Hrc Hrd.
  destruct (next_row_ok c Hc) as (c1 & R1 & _ & Col1 & Up1 & Last1). rewrite R1 in Hrc. injection Hrc as <-.
  destruct (next_row_ok d Hd) as (d1 & R2 & _ & Col2 & Up2 & Last2). rewrite R2 in Hrd. injection Hrd as <-.
  pose proof (ci_row _ Hc) as Hrow. destruct (decide (currentRow c = VIDEO_MEM_ROWS - 1)) as [E|E].
  - destruct (Last1 E) as [Z1 Cl1]. destruct (Last2 ltac:(congruence)) as [Z2 Cl2].
    split; [congruence|congruence|]. intros a Ha. rewrite Cl1, Cl2. change SCREEN with 3840 in Ha.
    by rewrite !decide_True by lia.
  - rewrite Up1, Up2 by lia. split; [simpl; lia|done|done].
Qed.

Lemma printChar_display x c d c' d' : con_inv c -> con_inv d -> same_display c d ->
  printChar x c = Ret (tt, c') -> printChar x d = Ret (tt, d') -> same_display c' d'.
Proof.
  intros Hc Hd Hs. unfold printChar. destruct (x =? 10); [by apply next_row_display|].
  destruct (cursor_address c Hc) as [Ac Ic]. destruct (cursor_address d Hd) as [Ad Id_].
  pose proof Hs as [A B C]. assert (pos d = pos c) as Ep by (unfold pos; congruence). rewrite Ep in Ad, Id_.
  destruct (screen_write c _ x (currentRow c) (currentColumn c) Hc Ic) as [W1 S1]; [apply Hc..|].
  destruct (screen_write d _ x (currentRow d) (currentColumn d) Hd Id_) as [W2 S2]; [apply Hd..|].
  unfold gets. rewrite !(bind_ret _ _ _ _ _ eq_refl), Ac, Ad.
  rewrite (bind_ret _ _ _ _ _ (zoom_ret mem set_mem _ c _ _ W1)), (bind_ret _ _ _ _ _ (zoom_ret mem set_mem _ d _ _ W2)).
  rewrite <- B. set (c1 := set_mem _ c). set (d1 := set_mem _ d).
  assert (same_display c1 d1) as H1.
  { split; [done|done|]. intros a Ha. simpl. rewrite !lookup_insert. case_decide; [done|auto]. }
  destruct (currentColumn c =? VIDEO_MEM_COLUMNS - 1); [by apply next_row_display; [apply S1|apply S2|]|].
  intros [= <-] [= <-]. split; [apply H1|done|apply H1].
Qed.

(** Printing the same text on the same screen gives the same screen. *)
Lemma print_chars_display l c d : con_inv c -> con_inv d -> same_display c d ->
  exists c' d', print_chars l c = Ret (tt, c') /\ print_chars l d = Ret (tt, d') /\ same_display c' d'.
Proof.
  revert c d; induction l as [|x l IH]; intros c d Hc Hd Hs; [by exists c, d|]. cbn [print_chars].
  destruct (printChar_ok c x Hc) as (c1 & R1 & [I1 _ _] & _). destruct (printChar_ok d x Hd) as (d1 & R2 & [I2 _ _] & _).
  rewrite (bind_ret _ _ _ _ _ R1), (bind_ret _ _ _ _ _ R2). apply IH; [done|done|]. exact (printChar_display x c d c1 d1 Hc Hd Hs R1 R2).
Qed.

(** ** Writing to the terminal *)

Section stdout.
Context {LD : Loader} {PS : ProcSymbols} {VS : VfsSymbols} {L : Literals} {SS : SysSymbols}.

Lemma kprintf_char_shows c x : con_inv c -> lits_ok (mem c) -> kprintf lit_char [x] c = print_chars [i8 x] c.
Proof.
  intros Hc [H1 H2 _ _]. apply (kprintf_renders c lit_char [37; 99] [x] ([i8 x] ++ [])); [done..|].
  by apply (renders_spec _ 99 CHAR); [| |constructor].
Qed.

Lemma i8_i8 x : i8 (i8 x) = i8 x.
Proof. apply i8_small. unfold i8, signed. pose proof (Z.mod_pos_bound (x + 2 ^ (8 - 1)) (2 ^ 8)). lia. Qed.

(** After [k] characters. *)
Record written (t0 : tty) (l : list Z) (k : Z) (t : tty) : Prop := {
  wr_con : exists c, print_chars (i8 <$> take (Z.to_nat k) l) (con t0) = Ret (tt, c) /\ t = set_con c t0;
  wr_step : con_step (con t0) (con t);
  wr_lits : lits_ok (mem (con t))
}.

Lemma terminal_write_shows t0 buf l : con_inv (con t0) -> lits_ok (mem (con t0)) -> text_in (mem (con t0)) buf l ->
  exists c, terminal_write buf (Z.of_nat (length l)) t0 = Ret (Z.of_nat (length l), set_con c t0) /\
    print_chars (i8 <$> l) (con t0) = Ret (tt, c) /\ con_step (con t0) c.
Proof.
  intros Hc Hl Ht. unfold terminal_write. destruct (Z.leb_spec (Z.of_nat (length l)) 0) as [H0|H0].
  { destruct l; [|simpl in H0; lia]. exists (con t0). split_and!; [by destruct t0|done|by apply con_step_refl]. }
  destruct (for_loop_ind (written t0 l) (fun i =>
    c ← on_con (on_mem (ldc (buf + i))); on_con (kprintf lit_char [c])) (Z.to_nat (Z.of_nat (length l))) 0 t0) as (t & Hrun & Hw).
  - split; [exists (con t0); by destruct t0|by apply con_step_refl|done].
  - intros k t Hk [(c & Hp & ->) Hs Hli]. rewrite Nat2Z.id in Hk. simpl in Hs, Hli.
    destruct (lookup_lt_is_Some_2 l (Z.to_nat k)) as [x Hx]; [lia|]. destruct (Ht _ _ Hx) as [Hm Hoff].
    rewrite Z2Nat.id in Hm, Hoff by lia.
    destruct (print_chars_ok [i8 x] c) as (c' & Hp' & Hs'); [apply Hs|]. exists (set_con c' t0). split.
    + rewrite (bind_ret _ _ _ (i8 x) (set_con c t0)).
      * apply (zoom_ret con set_con _ (set_con c t0) tt c'). simpl. rewrite kprintf_char_shows by (apply Hs || done). by rewrite i8_i8.
      * apply (zoom_ret con set_con _ (set_con c t0) (i8 x) c). simpl. apply on_mem_ldc. rewrite (cs_only _ _ Hs); [done|].
        unfold on_screen, SCREEN in *. lia.
    + split; [|by eapply con_step_trans|eapply lits_screen; [done|apply Hs']].
      exists c'. split; [|done]. replace (Z.to_nat (k + 1)) with (Datatypes.S (Z.to_nat k)) by lia.
      rewrite (take_S_r _ _ x) by done. rewrite fmap_app, (print_chars_app _ _ _ _ Hp). done.
  - destruct Hw as [(c & Hp & ->) Hs _]. exists c. rewrite (bind_ret _ _ _ _ _ Hrun). split_and!; [done| |done].
    by rewrite Nat2Z.id, Z.add_0_l, Nat2Z.id, firstn_all in Hp.
Qed.

(** ** The instance *)

(** Descriptor 1 of the current process is the terminal. *)
Definition stdout_open (k : kern) : Prop :=
  exists t p f i, table k t /\ fds t !! 1%nat = Some p /\ p <> 0 /\ fobjs (openf k) !! p = Some f /\
    file_sys_impl f <> 0 /\ impls (openf k) !! file_sys_impl f = Some i /\ write_impl i = Some terminal_write_fp.

Definition session_sink (s : session) : Prop :=
  con_inv (console_of s) /\ lits_ok (mem (console_of s)) /\ stdout_open (kn (sk s)).

(** Outside the video memory and the kernel's literals. *)
Definition session_private (a : Z) : Prop :=
  off_screen a 1 /\ disjoint_regions a 1 lit_char 3 /\ disjoint_regions a 1 lit_newline 2.

(** The screen after the text has been printed on it. *)
Definition session_shown (s : session) (t : list Z) (s' : session) : Prop :=
  con_inv (console_of s) /\ con_inv (console_of s') /\
  exists c, print_chars t (console_of s) = Ret (tt, c) /\ same_display c (console_of s').

Lemma sys_write_ok s buf l : session_sink s -> text_in (mem (console_of s)) buf l -> Z.of_nat (length l) < 2 ^ 31 ->
  exists c, trap SYSCALL_WRITE 1 buf (Z.of_nat (length l)) 0 0 s = Ret (Z.of_nat (length l), set_console c s) /\
    print_chars (i8 <$> l) (console_of s) = Ret (tt, c) /\ con_step (console_of s) c.
Proof.
  intros (Hc & Hl & (t & p & f & i & Ht & Hp & Hp0 & Hf & Hi0 & Hi & Hw)) Htx Hn.
  destruct (terminal_write_shows (term (kn (sk s))) buf l Hc Hl Htx) as (c & Hrun & Hpr & Hst).
  exists c. split_and!; [|done|done]. unfold trap.
  assert (handle_syscall SYSCALL_WRITE 1 buf (Z.of_nat (length l)) 0 0 (sk s) =
    Ret (Done (Z.of_nat (length l)), set_kn (set_term (set_con c (term (kn (sk s)))) (kn (sk s))) (sk s))) as ->.
  { change (handle_syscall _ _ _ _ _ _) with (sys_write 1 buf (Z.of_nat (length l))). unfold sys_write.
    change (Z.of_nat NUM_FDS <=? 1) with false. cbn [Z.eqb].
    rewrite (bind_ret _ _ _ _ _ (on_kn_read _ (sk s) _ (fd_get_ok _ _ 1 _ Ht Hp))). destruct (Z.eqb_spec p 0); [done|].
    rewrite (bind_ret _ _ _ _ _ (on_kn_read _ (sk s) _ (fo_ok _ _ _ Hf))). destruct (Z.eqb_spec (file_sys_impl f) 0); [done|].
    rewrite (bind_ret _ _ _ _ _ (on_kn_read _ (sk s) _ (impl_ok _ _ _ Hi))), Hw. rewrite i32_small by lia.
    rewrite (bind_ret _ _ _ (Z.of_nat (length l)) (set_kn (set_term (set_con c (term (kn (sk s)))) (kn (sk s))) (sk s))).
    - rewrite u64_small by lia. done.
    - apply on_kn_ret. exact (zoom_ret term set_term _ (kn (sk s)) _ _ Hrun). }
  cbn [kn set_kn current_process set_term]. rewrite Z.eqb_refl. unfold set_console. by destruct (script s).
Qed.

Lemma updated_con c b : con_inv c -> updated session_private (mem c) b -> con_inv (set_mem b c).
Proof.
  intros [H1 H2 H3 H4] [_ D B]. split; simpl; [done|done| |auto]. intros i Hi. by apply D, H3.
Qed.

Lemma updated_lits m b : lits_ok m -> updated session_private m b -> lits_ok b.
Proof.
  intros [H1 H2 H3 H4] [O _ _].
  split; [|done| |done]; (eapply cstr_agree; [eassumption|]); intros i Hi; cbn [length] in Hi; apply O;
    unfold session_private, disjoint_regions; lia.
Qed.

Lemma screen_updated c c' : con_inv c -> con_step c c' -> updated on_screen (mem c) (mem c').
Proof.
  intros Hc [Hi Ho Hd]. split; [|exact Hd|intros _; apply Hi]. intros a Ha. apply Ho.
  unfold on_screen in Ha. change SCREEN with 3840 in *. lia.
Qed.

Lemma stdout_open_term k t : stdout_open k -> stdout_open (set_term t k).
Proof. intros (th_ & p & f & i & [A B] & H). exists th_, p, f, i. by split; [split|]. Qed.

#[export] Instance session_stdout : Stdout session.
Proof.
  refine {| sink := session_sink; private := session_private; shown := session_shown |}.
  - intros a (H & _). unfold off_screen, disjoint_regions, on_screen, SCREEN in *. lia.
  - done.
  - intros [[[? ? ? ? ? ? [[] ? ?] ? ?] ? ? ? ?] ?]. done.
  - intros s (H & _). split_and!; [done|done|]. by exists (console_of s).
  - intros s t s' u s'' (A & B & c & Hc & Ec) (_ & D & d & Hd & Ed). split_and!; [done|done|].
    destruct (print_chars_ok t (console_of s) A) as (c0 & Hc0 & Sc). rewrite Hc in Hc0. injection Hc0 as <-.
    destruct (print_chars_display u c (console_of s')) as (c' & d' & R1 & R2 & E); [apply Sc|done|done|].
    exists c'. split; [by rewrite (print_chars_app _ _ _ _ Hc)|]. rewrite Hd in R2. injection R2 as <-. by etransitivity.
  - intros s b (Hc & Hl & Ho) Hu. pose proof (updated_con _ _ Hc Hu) as Hc'. split.
    + split; [done|]. split; [by eapply updated_lits|by apply stdout_open_term].
    + split_and!; [done|done|]. exists (console_of s). split; [done|]. split; [done|done|]. intros a Ha.
      symmetry. apply (up_out _ _ _ Hu). intros (H & _). unfold off_screen, disjoint_regions, SCREEN in *. lia.
  - intros s buf l Hs Hl Hn. destruct (sys_write_ok s buf l Hs Hl Hn) as (c & Hrun & Hp & Hst). pose proof Hs as (Hc & Hli & Ho).
    exists (set_console c s). split_and!; [exact Hrun| | |by apply screen_updated].
    + split; [apply Hst|]. split; [eapply lits_screen; [exact Hli|apply Hst]|by apply stdout_open_term].
    + split_and!; [done|apply Hst|]. by exists c.
Defined.

(** ** [printf] and [kprintf] *)

Lemma arg_text_mono m0 m ft v t : m0 ⊆ m -> arg_text m0 ft v t -> arg_text m ft v t.
Proof.
  intros Hs. destruct ft; cbn [arg_text]; [|auto..]. intros (l & Hl & H). exists l. split; [by eapply cstr_mono|done].
Qed.

Lemma renders_mono m0 m fs va t : m0 ⊆ m -> renders m0 fs va t -> renders m fs va t.
Proof. intros Hs. induction 1; econstructor; eauto using arg_text_mono. Qed.

Lemma stable_off {LS : LibSymbols} m0 (s : session) p l : stable_part m0 s -> cstr m0 p l -> off_screen p (Z.of_nat (length l) + 1).
Proof.
  intros [_ B _] Hl. assert (forall i, 0 <= i <= Z.of_nat (length l) -> ~ on_screen (p + i)) as H.
  { intros i Hi. by apply B, (cstr_mapped m0 p l). }
  unfold off_screen, disjoint_regions, on_screen in *. change SCREEN with 3840 in *.
  destruct (decide (p < VIDEO_BASE_ADDRESS)); [|specialize (H 0); lia]. specialize (H (VIDEO_BASE_ADDRESS - p)). lia.
Qed.

(** C6: The library's [printf] is equivalent to the kernel's [kprintf]: with the same format and
    arguments (in memory that printing does not change), both terminate, and they leave the same screen and
    the same cursor, although the one goes through a system call for every piece of the text. *)
Theorem printf_equals_kprintf {LS : LibSymbols} m0 (s : session) fmt fs va t :
  lib_ready s -> stable_part m0 s -> small m0 -> cstr m0 fmt fs -> renders m0 fs va t ->
  exists s' c, libc_printf fmt va s = Ret (0, s') /\ kprintf fmt va (console_of s) = Ret (tt, c) /\
    same_display c (console_of s').
Proof.
  intros Hr Hst Hsm Hf Ht. destruct (printf_prints m0 s fmt fs va t Hr Hst Hsm Hf Ht) as (s' & Hrun & P).
  destruct P as [(Hc & _ & c & Hp & Hd) _ _]. pose proof Hst as [A B C]. exists s', c. split_and!; [done| |done].
  rewrite <- Hp. apply (kprintf_renders _ _ fs); [done|by eapply cstr_mono| |by eapply renders_mono].
  by eapply stable_off.
Qed.

End stdout.
