(* ===== verification/ProgramsSpec.v ===== *)
(** * What the user programs do

    [echo] over every kernel with a terminal; [cat] over the modelled kernel, from the archive to the
    screen. *)

From S2P Require Import Prelude PhysMem Paging PageTable PagingSpec Cow VaMem Image CStr Console Terminal Tarfs Timer Vfs.
From S2P Require Import Process Syscalls ProcessSpec UserMem SyscallsSpec ElfSpec FilesSpec LibC LibCSpec ShellParse Programs Session.

(** ** Arguments *)

(** The pointers [ps] are [argv[i]], [argv[i + 1]], ..., each to one of the strings [ls]. *)
Fixpoint args_at (m : bytes) (argv i : Z) (ls : list (list Z)) : Prop :=
  match ls with
  | [] => True
  | l :: ls' => (exists p, ld_le 8 (argv + 8 * i) m = Ret (p, m) /\ cstr m p l) /\ args_at m argv (i + 1) ls'
  end.

Section printing.
Context {S : Type} {K : Kernel S} {ST : Stdout S} {LS : LibSymbols} {PG : ProgSymbols}.

(** Only the screen changes. *)
Abbreviation shows := (prints (fun _ => False)).

Lemma shows_stable m0 s t s' : stable_part m0 s -> shows s t s' -> stable_part m0 s'.
Proof. intros H P. eapply stable_prints; [exact H|]. by eapply prints_mono; [|exact P]. Qed.

Lemma write_n_shows m0 s p l n : sink s -> stable_part m0 s -> small m0 -> cstr m0 p l -> n = Z.of_nat (length l) ->
  exists s', write_n p n s = Ret (tt, s') /\ shows s (i8 <$> l) s'.
Proof.
  intros Hs Hst Hsm Hl ->. destruct (stable_text _ _ _ _ Hst Hl) as (_ & _ & Ht). pose proof (cstr_size _ _ _ Hl). unfold small in Hsm.
  destruct (libc_write_ok s p l Hs Ht ltac:(lia)) as (s' & Hrun & P). exists s'. split; [|done].
  unfold write_n. by rewrite (bind_ret _ _ _ _ _ Hrun).
Qed.

Lemma write_str_shows m0 s p l : sink s -> stable_part m0 s -> small m0 -> cstr m0 p l ->
  exists s', write_str p s = Ret (tt, s') /\ shows s (i8 <$> l) s'.
Proof.
  intros Hs Hst Hsm Hl. destruct (stable_text _ _ _ _ Hst Hl) as (Hp & Hc & _).
  destruct (write_n_shows m0 s p l _ Hs Hst Hsm Hl eq_refl) as (s' & Hrun & P). exists s'. split; [|done].
  unfold write_str. by rewrite (bind_ret _ _ _ _ _ (on_user_read _ _ _ (strlen_ok _ _ _ Hp Hc))).
Qed.

Lemma arg_ok m0 s argv i p : stable_part m0 s -> ld_le 8 (argv + 8 * i) m0 = Ret (p, m0) -> arg argv i s = Ret (p, s).
Proof. intros [Hs _ _] H. apply on_user_read. by eapply ld_le_mono. Qed.

(** ** [echo] *)

Definition echo_text (ls : list (list Z)) : list Z := concat (map (fun l => l ++ [32]) ls) ++ [10].

Lemma echo_loop m0 argv ls : small m0 -> cstr m0 str_blank [32] -> forall i s,
  sink s -> stable_part m0 s -> args_at m0 argv i ls ->
  exists s', for_loop (length ls) i (fun i => s ← arg argv i; write_str s ≫= fun _ => write_n str_blank 1) s = Ret (tt, s') /\
    shows s (i8 <$> concat (map (fun l => l ++ [32]) ls)) s'.
Proof.
  intros Hsm Hb. induction ls as [|l ls IH]; intros i s Hs Hst; cbn [args_at length for_loop map concat].
  - intros _. exists s. split; [done|]. split; [by apply shown_nil|done|apply updated_refl].
  - intros ((p & Hp & Hl) & Ha).
    destruct (write_str_shows m0 s p l Hs Hst Hsm Hl) as (s1 & R1 & P1). pose proof (shows_stable _ _ _ _ Hst P1) as Hst1.
    destruct (write_n_shows m0 s1 str_blank [32] 1 (pr_sink _ _ _ _ P1) Hst1 Hsm Hb eq_refl) as (s2 & R2 & P2).
    pose proof (shows_stable _ _ _ _ Hst1 P2) as Hst2.
    destruct (IH (i + 1) s2 (pr_sink _ _ _ _ P2) Hst2 Ha) as (s3 & R3 & P3). exists s3. split.
    + rewrite (bind_ret _ _ _ tt s2); [done|]. rewrite (bind_ret _ _ _ _ _ (arg_ok _ _ _ _ _ Hst Hp)).
      by rewrite (bind_ret _ _ _ _ _ R1).
    + rewrite !fmap_app. eapply prints_app; [by eapply prints_app|done].
Qed.

Lemma echo_shows m0 argv ls s :
  sink s -> stable_part m0 s -> small m0 -> cstr m0 str_blank [32] -> cstr m0 str_newline [10] ->
  ls <> [] -> args_at m0 argv 1 ls ->
  exists s', echo_main (1 + Z.of_nat (length ls)) argv s = Ret (0, s') /\ shows s (i8 <$> echo_text ls) s'.
Proof.
  intros Hs Hst Hsm Hb Hnl Hne Ha. destruct (echo_loop m0 argv ls Hsm Hb 1 s Hs Hst Ha) as (s1 & R1 & P1).
  destruct (write_n_shows m0 s1 str_newline [10] 1 (pr_sink _ _ _ _ P1) (shows_stable _ _ _ _ Hst P1) Hsm Hnl eq_refl) as (s2 & R2 & P2).
  exists s2. split.
  - unfold echo_main. assert (0 < length ls)%nat by (destruct ls; simpl; [done|lia]).
    destruct (Z.ltb_spec (1 + Z.of_nat (length ls)) 2); [lia|].
    replace (Z.to_nat (1 + Z.of_nat (length ls) - 1)) with (length ls) by lia.
    by rewrite (bind_ret _ _ _ _ _ R1), (bind_ret _ _ _ _ _ R2).
  - unfold echo_text. rewrite fmap_app. by eapply prints_app.
Qed.

End printing.

Section session_programs.
Context {LD : Loader} {PS : ProcSymbols} {VS : VfsSymbols} {L : Literals} {SS : SysSymbols}.
Context {LS : LibSymbols} {PG : ProgSymbols}.

(** C30: [echo] shows its arguments, each followed by a blank, and a newline: the screen afterwards is the one
    on which this text has been printed; nothing outside the video memory changes. *)
Theorem echo_prints_arguments m0 argv ls (s : session) :
  session_sink s -> stable_part m0 s -> small m0 -> cstr m0 str_blank [32] -> cstr m0 str_newline [10] ->
  ls <> [] -> args_at m0 argv 1 ls ->
  exists s' c, echo_main (1 + Z.of_nat (length ls)) argv s = Ret (0, s') /\
    print_chars (i8 <$> echo_text ls) (console_of s) = Ret (tt, c) /\ same_display c (console_of s') /\
    (forall a, ~ on_screen a -> mem (console_of s') !! a = mem (console_of s) !! a).
Proof.
  intros Hs Hst Hsm Hb Hnl Hne Ha. destruct (echo_shows (ST := session_stdout) m0 argv ls s Hs Hst Hsm Hb Hnl Hne Ha) as (s' & Hrun & P).
  destruct P as [(_ & _ & c & Hc & Hd) _ [O _ _]]. exists s', c. split_and!; [done|done|done|]. intros a Hn. apply O. tauto.
Qed.

(** ** [cat] *)

Lemma trap_done s code a b c d e v k :
  handle_syscall code a b c d e (sk s) = Ret (Done v, k) -> current_process (kn k) = current_process (kn (sk s)) ->
  trap code a b c d e s = Ret (v, Session k (script s)).
Proof. intros H E. unfold trap. rewrite H, E, Z.eqb_refl. by destruct (script s). Qed.

Lemma libc_open_ok s path fd k : sys_open path (kn (sk s)) = Ret (fd, k) -> 0 <= fd < Z.of_nat NUM_FDS ->
  current_process k = current_process (kn (sk s)) -> libc_open path 0 s = Ret (fd, Session (set_kn k (sk s)) (script s)).
Proof.
  intros H Hfd Hc. unfold NUM_FDS in Hfd. unfold libc_open, syscall3.
  rewrite (bind_ret _ _ _ fd (Session (set_kn k (sk s)) (script s))); [by rewrite i32_small by lia|].
  apply trap_done; [|done]. dispatched. cbn [Z.eqb Pos.eqb SYSCALL_OPEN SYSCALL_WRITE SYSCALL_FORK SYSCALL_READ].
  rewrite (bind_ret _ _ _ _ _ (on_kn_ret _ (sk s) _ _ H)), u64_small by lia. done.
Qed.

Lemma libc_close_ok s t fd p f :
  table (kn (sk s)) t -> 3 <= fd < Z.of_nat NUM_FDS -> fds t !! Z.to_nat fd = Some p -> p <> 0 ->
  fobjs (openf (kn (sk s))) !! p = Some f -> fo_ref_count f = 1 -> kfree p (mach (kn (sk s))) = Ret (tt, mach (kn (sk s))) ->
  libc_close fd s = Ret (0, Session (set_kn (put_fd t fd 0 (with_fo p (with_ref_count 0 f) (kn (sk s)))) (sk s)) (script s)).
Proof.
  intros Ht Hfd Hp Hp0 Hf Hrc Hk. unfold libc_close, syscall2. rewrite (u64_small fd) by (unfold NUM_FDS in *; lia).
  rewrite (bind_ret _ _ _ 0 (Session (set_kn (put_fd t fd 0 (with_fo p (with_ref_count 0 f) (kn (sk s)))) (sk s)) (script s))); [done|].
  apply trap_done; [|done]. dispatched. cbn [Z.eqb Pos.eqb SYSCALL_CLOSE SYSCALL_OPEN SYSCALL_WRITE SYSCALL_FORK SYSCALL_READ].
  by apply sys_close_ok.
Qed.

(** The session while a file is read: since [k1] only the console and the offset of the object [f] at [p] change. *)
Definition io_state (s : session) (k1 : kern) (p : Z) (f : file_object_t) (off : Z) (c : console) : session :=
  Session (set_kn (with_fo p (with_offset off f) (set_term (set_con c (term k1)) k1)) (sk s)) (script s).

(** The console: [m0] is in memory, and the buffer of [cat]. *)
Record cat_con (m0 : bytes) (c : console) : Prop := {
  cc_inv : con_inv c;
  cc_lits : lits_ok (mem c);
  cc_sub : m0 ⊆ mem c;
  cc_room : room (mem c) buf_cat CAT_BUF
}.

(** Descriptor [fd] is the file, with [text] in [m0], and descriptor 1 is the terminal. *)
Record cat_kern (m0 : bytes) (k1 : kern) (fd p : Z) (f : file_object_t) (text : list Z) : Prop := {
  ck_table : exists t, table k1 t /\ fds t !! Z.to_nat fd = Some p;
  ck_fd : 3 <= fd < Z.of_nat NUM_FDS;
  ck_nonnull : p <> 0 /\ file_sys_impl f <> 0;
  ck_impl : impls (openf k1) !! file_sys_impl f = Some tarfs_table;
  ck_out : stdout_open k1 /\ forall t, table k1 t -> fds t !! 1%nat <> Some p;
  ck_text : text_at m0 (content_start f) text;
  ck_stop : stops_at m0 (content_start f + Z.of_nat (length text));
  ck_small : Z.of_nat (length text) < 2 ^ 31;
  ck_apart : forall a, buf_cat <= a < buf_cat + CAT_BUF -> session_private a /\ m0 !! a = None
}.

Section cat.
Context (m0 : bytes) (s : session) (k1 : kern) (fd p : Z) (f : file_object_t) (text : list Z).
Context (Hk : cat_kern m0 k1 fd p f text) (Hm0 : forall a, is_Some (m0 !! a) -> ~ on_screen a).
Abbreviation st := (io_state s k1 p f).

Lemma text_mapped i : 0 <= i <= Z.of_nat (length text) -> is_Some (m0 !! (content_start f + i)).
Proof.
  intros Hi. destruct Hk as [_ _ _ _ _ Ht (x & Hx & _) _ _]. destruct (decide (i = Z.of_nat (length text))) as [->|]; [by exists x|].
  destruct (lookup_lt_is_Some_2 text (Z.to_nat i)) as [y Hy]; [lia|]. exists y.
  rewrite <- (proj2 (Ht _ _ Hy)). f_equal. lia.
Qed.

Lemma cat_reading off c : 0 <= off <= Z.of_nat (length text) -> cat_con m0 c ->
  FilesSpec.reading (kn (sk (st off c))) fd p (with_offset off f) (drop (Z.to_nat off) text) buf_cat CAT_BUF.
Proof.
  intros Ho [Hi Hl Hs Hr]. pose proof Hk as [(t & [Ht1 Ht2] & Hp) Hfd Hnn Him _ Htx (x & Hx & Hor) Hsm Hap].
  assert (length (drop (Z.to_nat off) text) = (length text - Z.to_nat off)%nat) as Hlen by apply length_drop.
  split; simpl; try done.
  - exists t. by split; [split|].
  - apply lookup_insert_eq.
  - intros i y Hy. rewrite lookup_drop in Hy. destruct (Htx _ _ Hy) as [A B]. split; [done|].
    eapply lookup_weaken; [|exact Hs]. rewrite <- B. f_equal. lia.
  - exists x. split; [|done]. eapply lookup_weaken; [|exact Hs]. rewrite <- Hx. f_equal. lia.
  - rewrite Hlen. lia.
  - unfold disjoint_regions. rewrite Hlen. destruct (decide (buf_cat + CAT_BUF <= content_start f + off)); [by left|].
    right. destruct (decide (content_start f + off + (Z.of_nat (length text - Z.to_nat off) + 1) <= buf_cat)); [done|exfalso].
    set (a := buf_cat `max` (content_start f + off)). destruct (Hap a) as [_ Hn]; [unfold CAT_BUF in *; lia|].
    destruct (text_mapped (a - content_start f)) as [y Hy]; [lia|].
    replace (content_start f + (a - content_start f)) with a in Hy by lia. congruence.
Qed.

Lemma cat_sink off c : cat_con m0 c -> session_sink (st off c).
Proof.
  intros [Hi Hl _ _]. split; [done|]. split; [done|].
  destruct (ck_out _ _ _ _ _ _ Hk) as [(t & q & g & i & [A B] & Hq & Hq0 & Hg & Hrest) Hne].
  exists t, q, g, i. split_and!; [by split|done|done| |apply Hrest..].
  simpl. rewrite lookup_insert_ne; [done|]. intros ->. by apply (Hne t).
Qed.

(** One [read]: the next piece is in the buffer. *)
Lemma cat_read off c : 0 <= off <= Z.of_nat (length text) -> cat_con m0 c ->
  let piece := take 1024 (drop (Z.to_nat off) text) in
  let c1 := set_mem (write_bytes buf_cat piece (mem c)) c in
  libc_read fd buf_cat CAT_BUF (st off c) = Ret (Z.of_nat (length piece), st (off + Z.of_nat (length piece)) c1) /\ cat_con m0 c1 /\
  session_shown (st off c) [] (st (off + Z.of_nat (length piece)) c1) /\ text_in (mem c1) buf_cat piece.
Proof.
  intros Ho Hc piece c1. pose proof (cat_reading off c Ho Hc) as Hre. pose proof Hk as [_ Hfd _ _ _ Htx _ _ Hap].
  assert (length piece <= 1024)%nat as Hlen by (unfold piece; rewrite length_take; lia).
  assert (Forall (fun x => 0 <= x < 256) piece) as Hb.
  { apply Forall_take, Forall_drop, Forall_lookup. intros i x Hx. destruct (Htx _ _ Hx). lia. }
  assert (updated (fun a => buf_cat <= a < buf_cat + CAT_BUF) (mem c) (mem c1)) as Hu0.
  { apply updated_write; [|done]. intros a Ha. unfold CAT_BUF. lia. }
  assert (updated session_private (mem c) (mem c1)) as Hu by (eapply updated_mono; [|exact Hu0]; intros a Ha; by apply Hap).
  pose proof Hc as [Hi Hl Hs Hr]. pose proof (updated_con c (mem c1) Hi Hu) as Hi1. split_and!.
  - unfold libc_read. destruct (Z.eqb_spec fd 0); [lia|]. rewrite (bind_ret _ _ _ _ _ eq_refl).
    unfold syscall4. rewrite (u64_small fd) by (unfold NUM_FDS in *; lia).
    rewrite (bind_ret _ _ _ (Z.of_nat (length piece)) (st (off + Z.of_nat (length piece)) c1)); [by rewrite i64_small by lia|].
    apply (trap_done (st off c)); [|done]. pose proof (sys_read_ok (sk (st off c)) fd p _ _ _ CAT_BUF _ Hre ltac:(by unfold CAT_BUF) ltac:(done)) as Hrun.
    cbv zeta in Hrun. change (Z.to_nat CAT_BUF) with 1024%nat in Hrun. fold piece in Hrun. unfold unset. cbn [session_kernel].
    rewrite Hrun. do 2 f_equal. unfold set_kn, with_fo. simpl. by rewrite insert_insert_eq.
  - split; [done|by eapply updated_lits| |].
    + eapply updated_sub; [exact Hu0|done|]. intros a [v Hv] Ha. destruct (Hap a Ha). congruence.
    + by apply room_write.
  - split_and!; [done|done|]. exists c. split; [done|]. split; [done|done|]. intros a Ha. symmetry. apply (up_out _ _ _ Hu).
    intros (H & _). unfold off_screen, disjoint_regions, SCREEN in *. lia.
  - intros i x Hx. pose proof (lookup_lt_Some _ _ _ Hx). split.
    + simpl. rewrite write_bytes_lookup, decide_True by lia. by replace (Z.to_nat (buf_cat + Z.of_nat i - buf_cat)) with i by lia.
    + destruct (Hap (buf_cat + Z.of_nat i)) as [(Hoff & _) _]; [unfold CAT_BUF; lia|].
      unfold off_screen, disjoint_regions, on_screen, SCREEN in *. lia.
Qed.

(** [write] of what is in memory. *)
Lemma cat_write off c buf l : cat_con m0 c -> text_in (mem c) buf l -> Z.of_nat (length l) < 2 ^ 31 ->
  exists c', write_n buf (Z.of_nat (length l)) (st off c) = Ret (tt, st off c') /\ cat_con m0 c' /\
    session_shown (st off c) (i8 <$> l) (st off c').
Proof.
  intros Hc Ht Hn. destruct (sys_write_ok (st off c) buf l (cat_sink off c Hc) Ht Hn) as (c' & Hrun & Hp & Hst).
  pose proof Hc as [Hi Hl Hs Hr]. exists c'. split_and!.
  - unfold write_n, libc_write, syscall4. rewrite (bind_ret _ _ _ (Z.of_nat (length l)) (st off c')); [done|].
    change (u64 1) with 1. rewrite (bind_ret _ _ _ _ _ Hrun). by rewrite i64_small by lia.
  - destruct Hst as [Hi' Ho' Hd']. split; [done|by eapply lits_screen| |by intros i Hi2; apply Hd', Hr].
    apply map_subseteq_spec. intros a v Hv. rewrite Ho'; [by eapply lookup_weaken|]. intros Ha.
    apply (Hm0 a); [by exists v|]. unfold on_screen. change SCREEN with 3840 in *. lia.
  - split_and!; [done|apply Hst|]. by exists c'.
Qed.

Lemma cat_loop_ok fuel off c : 0 <= off <= Z.of_nat (length text) -> (length text - Z.to_nat off < fuel)%nat -> cat_con m0 c ->
  exists c', cat_loop fuel fd (st off c) = Ret (tt, st (Z.of_nat (length text)) c') /\ cat_con m0 c' /\
    session_shown (st off c) (i8 <$> drop (Z.to_nat off) text) (st (Z.of_nat (length text)) c').
Proof.
  revert off c. induction fuel as [|n IH]; intros off c Ho Hf Hc; [lia|]. cbn [cat_loop].
  destruct (cat_read off c Ho Hc) as (R1 & C1 & S1 & T1). set (rest := drop (Z.to_nat off) text) in *.
  assert (length rest = (length text - Z.to_nat off)%nat) as Hlr by apply length_drop.
  set (piece := take 1024 rest) in *. set (k := Z.of_nat (length piece)) in *.
  assert (k = Z.min 1024 (Z.of_nat (length rest))) as Ek by (unfold k, piece; rewrite length_take; lia).
  rewrite (bind_ret _ _ _ _ _ R1). destruct (Z.eqb_spec k (-1)); [lia|]. rewrite (u64_small k) by lia.
  destruct (cat_write (off + k) _ buf_cat piece C1 T1 ltac:(fold k; lia)) as (c2 & R2 & C2 & S2). fold k in R2.
  rewrite (bind_ret _ _ _ _ _ R2). pose proof (shown_app (Stdout := session_stdout) _ _ _ _ _ S1 S2) as S12. cbn [app] in S12.
  destruct (Z.ltb_spec k CAT_BUF) as [Hlt|Hge]; unfold CAT_BUF in *.
  - assert (off + k = Z.of_nat (length text)) as Ef by lia. rewrite Ef in S12 |- *. exists c2. split_and!; [done|done|].
    assert (piece = rest) as Epr by (unfold piece; by rewrite take_ge by lia). by rewrite Epr in S12.
  - destruct (IH (off + k) c2) as (c3 & R3 & C3 & S3); [lia|lia|done|]. exists c3. split_and!; [done|done|].
    pose proof (shown_app (Stdout := session_stdout) _ _ _ _ _ S12 S3) as S13. rewrite <- fmap_app in S13.
    replace (drop (Z.to_nat (off + k)) text) with (drop 1024 rest) in S13; [unfold piece in S13; by rewrite take_drop in S13|].
    unfold rest. rewrite drop_drop. f_equal. lia.
Qed.

End cat.

(** [cat name] can run: the file is in the archive, and its text [text] with the argument and the literal
    in the part [m0] of the memory that neither the screen nor the buffer of [cat] overlaps; descriptors and pages
    are free, and no object is recorded on a free page. *)
Record cat_input (roots l : list Z) (m0 : bytes) (s : session) (t : kthread) (es : list entry) (argv path : Z) (name : list Z)
    (x fd : Z) (text : list Z) : Prop := {
  ca_table : table (kn (sk s)) t;
  ca_ready : ready roots (mach (kn (sk s))) l;
  ca_pages : MIN_PAGES + 8 <= Z.of_nat (length l);
  ca_fresh : forall q, q ∈ l -> fobjs (openf (kn (sk s))) !! kva q = None /\ impls (openf (kn (sk s))) !! kva q = None;
  ca_tarfs : tarfs_ready (openf (kn (sk s)));
  ca_out : stdout_open (kn (sk s));
  ca_con : cat_con m0 (console_of s);
  ca_off : forall a, is_Some (m0 !! a) -> ~ on_screen a;
  ca_buf : forall a, buf_cat <= a < buf_cat + CAT_BUF -> session_private a /\ m0 !! a = None;
  ca_arg : ld_le 8 (argv + 8 * 1) m0 = Ret (path, m0) /\ cstr m0 path name;
  ca_newline : cstr m0 str_newline [10];
  ca_archive : archive_ok (mem (console_of s)) es;
  ca_file : find_entry (is_entry name 0) tarfs_start es = Some x;
  ca_text : text_at m0 (x + HEADER) text /\ stops_at m0 (x + HEADER + Z.of_nat (length text)) /\ Z.of_nat (length text) < 2 ^ 31;
  ca_fd : least_free t fd
}.

Lemma io_state_start s k1 p f : fobjs (openf k1) !! p = Some f -> offset f = 0 ->
  io_state s k1 p f 0 (con (term k1)) = Session (set_kn k1 (sk s)) (script s).
Proof.
  intros Hf Ho. unfold io_state. f_equal. f_equal. unfold with_fo. simpl. rewrite insert_id.
  - by destruct k1 as [? ? ? ? ? ? [] [] ?].
  - rewrite Hf. f_equal. destruct f. simpl in *. by subst.
Qed.

(** After the [open]: the conditions of the loop. *)
Lemma cat_opened roots l m0 s t es argv path name x fd text p i k1 :
  cat_input roots l m0 s t es argv path name x fd text -> opened roots l (kn (sk s)) t path (x + HEADER) fd p i k1 ->
  cat_kern m0 k1 fd p (FileObject path i 1 (x + HEADER) 0) text.
Proof.
  intros [Ht Hr Hlen Hfr Htr Hout Hcon Hoff Hbuf Harg Hnl Har Hx (Htx & Hst & Hsm) (Hfd & Hfree & Hmin)] Hop.
  pose proof (opened_table _ _ _ _ _ _ _ _ _ _ Ht Hfd Hop) as Ht1.
  destruct Hop as [E1 E2 Hi Him (q & Hq & Ep) [Hp0 Hi0] Hkf (E3 & _) _]. destruct (Hfr q Hq) as [Hfq _]. rewrite <- Ep in Hfq.
  destruct Hout as (t0 & po & fo_ & io & Ht0 & Hpo & Hpo0 & Hfo & Hio0 & Hio & Hw).
  assert (t0 = t) as -> by (destruct Ht as [A _], Ht0 as [B _]; congruence).
  assert (po <> p) as Hne by (intros ->; congruence).
  assert (<[Z.to_nat fd:=p]> (fds t) !! 1%nat = Some po) as H1 by (rewrite list_lookup_insert_ne by lia; done).
  split; simpl; try done.
  - eexists. split; [exact Ht1|]. simpl. apply list_lookup_insert_eq. destruct Ht as [_ Hl]. unfold NUM_FDS in *. lia.
  - split.
    + exists (with_fds (<[Z.to_nat fd:=p]> (fds t)) t), po, fo_, io. split_and!; [done|done|done| |done| |done].
      * by rewrite E2, lookup_insert_ne by done.
      * apply Him; [done|]. intros q' Hq' E'. destruct (Hfr q' Hq'). congruence.
    + intros t2 [A _]. destruct Ht1 as [B _]. rewrite A in B. injection B as ->. simpl. rewrite H1. congruence.
Qed.

(** C5: [cat] shows the file it is given, from the archive through descriptor, buffer and system calls to
    the screen. The text of the file is what [tarfs_read] delivers: the bytes of its data up to the first one that
    is 0 or 0xFF, whatever size the header says. The screen afterwards is the one on which that text followed by
    a newline has been printed, [cat] returns 0, and the records of the processes, their descriptors with them, are as
    before: the descriptor is closed again. *)
Theorem cat_prints_file roots l m0 s t es argv path name x fd text :
  cat_input roots l m0 s t es argv path name x fd text ->
  exists s' c, cat_main 2 argv s = Ret (0, s') /\
    print_chars (i8 <$> text ++ [10]) (console_of s) = Ret (tt, c) /\ same_display c (console_of s') /\
    threads (kn (sk s')) = threads (kn (sk s)).
Proof.
  intros Hin. pose proof Hin as [Ht Hr Hlen Hfr Htr Hout Hcon Hoff Hbuf [Harg Hname] Hnl [Ha Hw Hs] Hx (Htx & Hst & Hsm) Hfree].
  pose proof Hcon as [Hci Hcl Hsub Hroom]. assert (0 < x) as Hpos by (by eapply find_entry_pos).
  pose proof (get_file_binary_ok _ _ _ es path name Ha Hw Hs (cstr_mono _ _ _ _ Hsub Hname)) as Hf. rewrite Hx in Hf.
  destruct (sys_open_ok roots (kn (sk s)) l t path (x + HEADER) fd Ht Hr Hlen Htr Hf ltac:(unfold HEADER; lia) Hfree)
    as (p & i & k1 & Hopen & Hop).
  pose proof (cat_opened _ _ _ _ _ _ _ _ _ _ _ _ _ _ _ Hin Hop) as Hk. set (f := FileObject path i 1 (x + HEADER) 0) in *.
  pose proof Hop as [E1 E2 _ _ _ [Hp0 _] Hkf (E3 & _ & E4 & _) _]. destruct Hfree as (Hfd & Hfz & _).
  set (st := io_state s k1 p f).
  assert (st 0 (console_of s) = Session (set_kn k1 (sk s)) (script s)) as Est.
  { unfold st, console_of. rewrite <- E4. apply io_state_start; [|done]. by rewrite E2, lookup_insert_eq. }
  destruct (cat_loop_ok m0 s k1 fd p f text Hk Hoff (Datatypes.S (size (mem (console_of s)))) 0 (console_of s))
    as (c1 & R1 & C1 & S1); [lia| |done|].
  { pose proof (mapped_size m0 (x + HEADER) (length text) (fun j Hj => text_mapped m0 k1 fd p f text Hk j ltac:(lia))).
    pose proof (map_subseteq_size _ _ Hsub). lia. }
  assert (text_in (mem c1) str_newline [10]) as Tn.
  { intros j y Hy. assert (m0 !! (str_newline + Z.of_nat j) = Some y) as Hj by (eapply cstr_lookup; [done|by apply lookup_app_l_Some]).
    split; [eapply lookup_weaken; [exact Hj|apply C1]|]. apply Hoff. by exists y. }
  destruct (cat_write m0 s k1 fd p f text Hk Hoff (Z.of_nat (length text)) c1 str_newline [10] C1 Tn ltac:(done)) as (c2 & R2 & C2 & S2).
  fold st in R1, R2, S1, S2. pose proof (shown_app (Stdout := session_stdout) _ _ _ _ _ S1 S2) as (_ & _ & d & Hd & Ed).
  set (t1 := with_fds (<[Z.to_nat fd:=p]> (fds t)) t).
  assert (table (kn (sk (st (Z.of_nat (length text)) c2))) t1) as Ht2.
  { destruct (opened_table _ _ _ _ _ _ _ _ _ _ Ht Hfd Hop) as [A B]. by split. }
  eexists. exists d. split_and!; [|by rewrite fmap_app| |].
  - unfold cat_main. cbn [Z.eqb Pos.eqb].
    rewrite (bind_ret _ _ _ path s) by (apply (on_user_read (ST := session_stdout)); eapply ld_le_mono; [exact Hsub|exact Harg]).
    rewrite (bind_ret _ _ _ _ _ (libc_open_ok s path fd k1 Hopen ltac:(lia) E3)), <- Est.
    destruct (Z.ltb_spec fd 0); [lia|].
    rewrite (bind_ret _ _ _ _ _ (on_user_read (ST := session_stdout) str_fuel _ _ eq_refl)).
    rewrite (bind_ret _ _ _ _ _ R1), (bind_ret _ _ _ _ _ R2).
    rewrite (bind_ret _ _ _ _ _ (libc_close_ok _ t1 fd p (with_offset (Z.of_nat (length text)) f) Ht2 Hfd
      ltac:(apply list_lookup_insert_eq; destruct Ht as [_ Htl]; unfold NUM_FDS in *; lia) Hp0 ltac:(apply lookup_insert_eq) eq_refl Hkf)).
    reflexivity.
  - exact Ed.
  - simpl. rewrite E1, E3, insert_insert_eq, list_insert_insert_eq, list_insert_id by done.
    destruct Ht as [Hth _]. rewrite insert_id; [done|]. rewrite Hth. by destruct t.
Qed.

(** A message of a process changes the console and nothing else of the session. *)
Lemma console_write_str m0 (s : session) p l : session_sink s -> stable_part m0 s -> small m0 -> cstr m0 p l ->
  exists c, write_str p s = Ret (tt, set_console c s) /\ prints (fun _ => False) s (i8 <$> l) (set_console c s).
Proof.
  intros Hs Hst Hsm Hl. destruct (write_str_shows (ST := session_stdout) m0 s p l Hs Hst Hsm Hl) as (s' & R & P).
  destruct (stable_text _ _ _ _ Hst Hl) as (Hp & Hc & Ht). pose proof (cstr_size _ _ _ Hl). unfold small in Hsm.
  destruct (sys_write_ok s p l Hs Ht ltac:(lia)) as (c & Hrun & _ & _). exists c.
  assert (write_str p s = Ret (tt, set_console c s)) as E.
  { unfold write_str, libc_strlen, write_n, libc_write, syscall4. change (u64 1) with 1.
    rewrite (bind_ret _ _ _ _ _ (on_user_read (ST := session_stdout) _ _ _ (strlen_ok _ _ _ Hp Hc))).
    rewrite (bind_ret _ _ _ (i64 (Z.of_nat (length l))) (set_console c s)); [done|]. by rewrite (bind_ret _ _ _ _ _ Hrun). }
  split; [done|]. rewrite E in R. by injection R as ->.
Qed.

(** C34: [cat] without exactly one argument, or with a name that no file of the archive has, shows the message
    for it and returns 0. The session afterwards is the one before with another console: processes, descriptors,
    file objects, page tables and events are the same, so nothing was opened; of the console's memory only video memory
    changes. *)
Theorem cat_reports_errors m0 (s : session) argv not_found bad_args :
  session_sink s -> stable_part m0 s -> small m0 -> cstr m0 msg_not_found not_found -> cstr m0 msg_cat_args bad_args ->
  (forall argc, argc <> 2 -> exists c, cat_main argc argv s = Ret (0, set_console c s) /\
     prints (fun _ => False) s (i8 <$> bad_args) (set_console c s)) /\
  (forall es path name, ld_le 8 (argv + 8 * 1) m0 = Ret (path, m0) -> cstr m0 path name ->
     archive_ok (mem (console_of s)) es -> find_entry (is_entry name 0) tarfs_start es = None ->
     exists c, cat_main 2 argv s = Ret (0, set_console c s) /\ prints (fun _ => False) s (i8 <$> not_found) (set_console c s)).
Proof.
  intros Hs Hst Hsm Hnf Hba. split.
  - intros argc Hne. destruct (console_write_str m0 s msg_cat_args bad_args Hs Hst Hsm Hba) as (c & R & P).
    exists c. split; [|done]. unfold cat_main. destruct (Z.eqb_spec argc 2); [done|]. by rewrite (bind_ret _ _ _ _ _ R).
  - intros es path name Hp Hn [Ha Hw Hr] Hx.
    destruct (console_write_str m0 s msg_not_found not_found Hs Hst Hsm Hnf) as (c & R & P).
    exists c. split; [|done]. unfold cat_main. cbn [Z.eqb Pos.eqb].
    rewrite (bind_ret _ _ _ _ _ (arg_ok (ST := session_stdout) m0 s argv 1 path Hst Hp)).
    pose proof (get_file_binary_ok _ _ _ es path name Ha Hw Hr (cstr_mono _ _ _ _ (sp_sub _ _ Hst) Hn)) as Hf. rewrite Hx in Hf.
    rewrite (bind_ret _ _ _ (-1) s); [cbn [Z.ltb Z.compare]; by rewrite (bind_ret _ _ _ _ _ R)|].
    unfold libc_open, syscall3. rewrite (bind_ret _ _ _ (u64 (-1)) s); [done|].
    replace s with (Session (sk s) (script s)) at 2 by (by destruct s). apply trap_done; [|done].
    dispatched. cbn [Z.eqb Pos.eqb SYSCALL_OPEN SYSCALL_WRITE SYSCALL_FORK SYSCALL_READ].
    rewrite (bind_ret _ _ _ (-1) (sk s)); [done|]. apply on_kn_read. unfold sys_open.
    by rewrite (bind_ret _ _ _ _ _ (on_bytes_read _ (kn (sk s)) _ Hf)).
Qed.

End session_programs.

(** ** Witnesses *)

Definition user_literals : Literals := {| lit_char := 3000; lit_newline := 3010 |}.
Definition user_lib : LibSymbols :=
  {| w_putchar := 5100; buf_printLong := 5200; buf_printHex := 5300; dir_open := 5330; read_dirent := 5340 |}.
Definition user_symbols : ProgSymbols := {|
  msg_not_found := 3200; msg_read_failed := 0; msg_cat_args := 3220; msg_kill_args := 0; msg_kill_number := 0;
  msg_sleep_args := 0; msg_sleep_number := 0; msg_ps_begin := 0; msg_ps_end := 0; msg_ls_args := 0; msg_no_dir := 0;
  msg_no_command := 0; str_newline := 3010; str_blank := 3020; str_blanks := 0; str_etc_rc := 0; buf_cat := 4000;
  buf_ps := 0; dir_to_open := 0; script_file := 0; arguments_launch := 0 |}.

(** The archive of [Tarfs] with the literals, the format ["%d %s %x\n"], the string ["ab"], two messages and the array of
    arguments ["a"] and ["ab"] (and one that names no file); then the buffers. *)
Definition user_base : bytes :=
  write_bytes 3000 [37; 99; 0] (write_bytes 3010 [10; 0] (write_bytes 3020 [32; 0]
  (write_bytes 3100 [37; 100; 32; 37; 115; 32; 37; 120; 10; 0] (write_bytes 3150 [97; 98; 0]
  (write_bytes 3200 [78; 111; 10; 0] (write_bytes 3220 [65; 114; 103; 10; 0]
  (write_bytes 3300 [0; 0; 0; 0; 0; 0; 0; 0; 100; 0; 0; 0; 0; 0; 0; 0; 0x4e; 0x0c; 0; 0; 0; 0; 0; 0] demo_archive))))))).
Definition user_lower : bytes := write_bytes 4000 (replicate 1400 0) user_base.

Definition user_session : session :=
  Session (Sysk (Kern demo_machine (<[100 := with_fds ([0; 700; 700] ++ replicate 13 0) (demo_thread 1 0 0x1000 100 RUNNING)]> ∅)
    ∅ ∅ 100 (replicate 1000 0) (Tty (screen_over user_lower 0) [] 0)
    (VfsState {[700 := FileObject 1000 500 1 0 0]} {[500 := terminal_table]} 0 700 500 0) 0) ∅ 0 0 []) [].

Lemma user_base_range : map_Forall (fun a b => 0 < a < 4000 /\ 0 <= b < 256) user_base.
Proof. refine (bool_decide_eq_true_1 (map_Forall _ _) _). vm_compute. reflexivity. Qed.

Lemma user_base_at a : is_Some (user_base !! a) -> 0 < a < 4000.
Proof. intros [v Hv]. apply (user_base_range a v Hv). Qed.

Lemma user_lower_sub : user_base ⊆ mem (console_of user_session).
Proof.
  apply map_subseteq_spec. intros a v Hv. pose proof (user_base_at a ltac:(by exists v)).
  change (mem (console_of user_session)) with (mem (screen_over user_lower 0)).
  rewrite screen_over_lookup by (unfold VIDEO_BASE_ADDRESS; lia). unfold user_lower.
  by rewrite write_bytes_lookup, decide_False by lia.
Qed.

Lemma user_buffers i : 4000 <= i < 5400 -> is_Some (mem (console_of user_session) !! i).
Proof.
  intros Hi. change (mem (console_of user_session)) with (mem (screen_over user_lower 0)).
  rewrite screen_over_lookup by (unfold VIDEO_BASE_ADDRESS; lia). unfold user_lower.
  rewrite write_bytes_lookup, decide_True by (rewrite length_replicate; lia). apply lookup_lt_is_Some_2. rewrite length_replicate. lia.
Qed.

Lemma user_private a : 4000 <= a < 5400 -> @session_private user_literals a.
Proof. intros Ha. unfold session_private, off_screen, disjoint_regions, VIDEO_BASE_ADDRESS. simpl. lia. Qed.

Lemma user_con : con_inv (console_of user_session) /\ @lits_ok user_literals (mem (console_of user_session)).
Proof.
  split.
  - apply screen_over_inv; [lia|]. unfold user_lower. apply byte_range_write; [apply Forall_replicate; lia|].
    intros a b Hb. apply (user_base_range a b Hb).
  - split; [|by left| |by left]; (eapply cstr_mono; [apply user_lower_sub|]; by apply cstrb_sound; vm_compute).
Qed.

Lemma user_stdout : stdout_open (kn (sk user_session)).
Proof. do 4 eexists. split_and!; [by split|done|done|done|done|done|done]. Qed.

#[local] Existing Instances null_loader file_symbols demo_vfs_symbols user_literals quiet_messages user_lib user_symbols.

Lemma user_stable : stable_part user_base user_session.
Proof.
  split; [apply user_lower_sub| |].
  - intros a Ha%user_base_at. unfold on_screen, VIDEO_BASE_ADDRESS, scratch. simpl. lia.
  - destruct (user_base !! 0) eqn:E; [|done]. pose proof (user_base_at 0 ltac:(by eexists)). lia.
Qed.

Lemma user_sink : session_sink user_session.
Proof. split; [apply user_con|split; [apply user_con|apply user_stdout]]. Qed.

Lemma user_scratch a : scratch a -> 5000 <= a < 5400.
Proof. unfold scratch. cbn [w_putchar buf_printLong buf_printHex user_lib]. lia. Qed.

Lemma user_ready : lib_ready user_session.
Proof.
  split; [exact user_sink| | |].
  - intros a Ha%user_scratch. apply user_private. lia.
  - intros a Ha%user_scratch. apply user_buffers. lia.
  - intros H%user_scratch. lia.
Qed.

Lemma user_small : small user_base.
Proof. by vm_compute. Qed.

Lemma printf_equals_kprintf_witness :
  exists s' c, libc_printf 3100 [42; 3150; 255] user_session = Ret (0, s') /\
    kprintf 3100 [42; 3150; 255] (console_of user_session) = Ret (tt, c) /\ same_display c (console_of s').
Proof.
  destruct (printf_equals_kprintf user_base user_session 3100 [37; 100; 32; 37; 115; 32; 37; 120; 10] [42; 3150; 255]
    ([52; 50] ++ 32 :: [97; 98] ++ 32 :: [70; 70] ++ [10])) as (s' & c & H1 & H2 & H3).
  - exact user_ready.
  - apply user_stable.
  - apply user_small.
  - by apply cstrb_sound; vm_compute.
  - apply (renders_spec _ 100 INT); [done|by vm_compute|]. apply (renders_char _ 32); [lia|].
    apply (renders_spec _ 115 STRING); [done| |].
    { exists [97; 98]. split_and!; [by apply cstrb_sound; vm_compute|by left|done]. }
    apply (renders_char _ 32); [lia|]. apply (renders_spec _ 120 HEX); [done|split; [lia|by vm_compute]|].
    apply (renders_char _ 10); [lia|constructor].
  - exists s', c. split; [exact H1|split; [exact H2|exact H3]].
Defined.

Lemma echo_prints_arguments_witness :
  exists s' c, echo_main 3 3300 user_session = Ret (0, s') /\
    print_chars [97; 32; 97; 98; 32; 10] (console_of user_session) = Ret (tt, c) /\ same_display c (console_of s').
Proof.
  destruct (echo_prints_arguments user_base 3300 [[97]; [97; 98]] user_session) as (s' & c & H1 & H2 & H3 & _).
  - exact user_sink.
  - apply user_stable.
  - apply user_small.
  - by apply cstrb_sound; vm_compute.
  - by apply cstrb_sound; vm_compute.
  - done.
  - split; [exists 100|split; [exists 3150|done]]; (split; [|by apply cstrb_sound; vm_compute]).
    + apply ld_le_eval. vm_compute. reflexivity.
    + apply ld_le_eval. vm_compute. reflexivity.
  - exists s', c. split_and!; assumption.
Defined.

Lemma user_archive : archive_ok (mem (console_of user_session)) [demo_file; demo_dir].
Proof.
  split; [|apply demo_walkable|done]. eapply archive_mono; [apply user_lower_sub|].
  split; [done|]. split; [split; [by apply cstrb_sound; vm_compute|done|by apply cstrb_sound; vm_compute|by vm_compute|
    by apply cstrb_sound; vm_compute|simpl; lia]|].
  split; [by vm_compute|]. split; [split; [by apply cstrb_sound; vm_compute|done|by apply cstrb_sound; vm_compute|by vm_compute|
    by apply cstrb_sound; vm_compute|simpl; lia]|].
  right. vm_compute. reflexivity.
Qed.

Lemma user_pages q : q ∈ seqZ 2 38 ->
  fobjs (openf (kn (sk user_session))) !! kva q = None /\ impls (openf (kn (sk user_session))) !! kva q = None.
Proof.
  intros Hq%list_elem_of_In. change (fobjs _) with ({[700 := FileObject 1000 500 1 0 0]} : gmap Z file_object_t).
  change (impls _) with ({[500 := terminal_table]} : gmap Z file_sys_impl_t).
  assert (forallb (fun q => negb (kva q =? 700) && negb (kva q =? 500)) (seqZ 2 38) = true) as H by (vm_compute; reflexivity).
  rewrite forallb_forall in H. specialize (H q Hq). split; apply lookup_singleton_ne; intros E; rewrite <- E in H; simpl in H; lia.
Qed.

Lemma user_cat : cat_input [4096] (seqZ 2 38) user_base user_session
  (with_fds ([0; 700; 700] ++ replicate 13 0) (demo_thread 1 0 0x1000 100 RUNNING)) [demo_file; demo_dir] 3300 100 [97] 512 3
  [104; 101; 108; 108; 111].
Proof.
  split.
  - by split.
  - apply demo_ready.
  - by vm_compute.
  - exact user_pages.
  - intros H. by destruct H.
  - exact user_stdout.
  - split; [apply user_con|apply user_con|exact user_lower_sub|]. intros i Hi. apply user_buffers. unfold CAT_BUF in Hi. cbn [buf_cat user_symbols]. lia.
  - intros a Ha. apply (sp_off _ _ user_stable a Ha).
  - intros a Ha. cbn [buf_cat user_symbols] in Ha. unfold CAT_BUF in Ha. split; [apply user_private; lia|].
    destruct (user_base !! a) eqn:E; [|done]. pose proof (user_base_at a ltac:(by eexists)). lia.
  - split; [apply ld_le_eval; vm_compute; reflexivity|by apply cstrb_sound; vm_compute].
  - by apply cstrb_sound; vm_compute.
  - exact user_archive.
  - reflexivity.
  - split_and!; [|exists 0; split; [by vm_compute|by left]|done].
    intros [|[|[|[|[|i]]]]] c Hi; cbn in Hi; [..|by destruct i]; injection Hi as <-; (split; [lia|by vm_compute]).
  - split_and!; [done|done|done|lia].
Qed.

Lemma cat_prints_file_witness :
  exists s' c, cat_main 2 3300 user_session = Ret (0, s') /\
    print_chars [104; 101; 108; 108; 111; 10] (console_of user_session) = Ret (tt, c) /\ same_display c (console_of s').
Proof.
  destruct (cat_prints_file _ _ _ _ _ _ _ _ _ _ _ _ user_cat) as (s' & c & H1 & H2 & H3 & _).
  exists s', c. split; [exact H1|split; [exact H2|exact H3]].
Defined.

Lemma cat_reports_errors_witness :
  (exists c, cat_main 3 3300 user_session = Ret (0, set_console c user_session) /\
     prints (fun _ => False) user_session [65; 114; 103; 10] (set_console c user_session)) /\
  (exists c, cat_main 2 3308 user_session = Ret (0, set_console c user_session) /\
     prints (fun _ => False) user_session [78; 111; 10] (set_console c user_session)).
Proof.
  destruct (cat_reports_errors user_base user_session 3300 [78; 111; 10] [65; 114; 103; 10]
    user_sink user_stable user_small) as [H1 _]; [by apply cstrb_sound; vm_compute..|].
  destruct (cat_reports_errors user_base user_session 3308 [78; 111; 10] [65; 114; 103; 10]
    user_sink user_stable user_small) as [_ H2]; [by apply cstrb_sound; vm_compute..|].
  split; [apply (H1 3); lia|]. apply (H2 [demo_file; demo_dir] 3150 [97; 98]).
  - apply ld_le_eval. vm_compute. reflexivity.
  - by apply cstrb_sound; vm_compute.
  - exact user_archive.
  - reflexivity.
Defined.
