(* ===== verification/ShellSpec.v ===== *)
(** * What the shell does

    A shell over a kernel with a terminal has a terminal.  [program_name] builds the name of the file to
    execute from [path] and the command, and a line [cd /d] changes the directory of the process, from the
    split of the line to the kernel's record of the process. *)

From S2P Require Import Prelude PhysMem Paging VaMem CStr Console Terminal Tarfs Timer Vfs Process Syscalls ProcessSpec UserMem.
From S2P Require Import SyscallsSpec ElfSpec FilesSpec LibC LibCSpec ShellParse Programs Shell Session ProgramsSpec.

#[export] Instance shell_stdout {S} {K : Kernel S} {ST : Stdout S} : Stdout (shell S).
Proof.
  refine {| sink := fun s => sink (os s); private := private;
            shown := fun s t s' => shown (os s) t (os s') |}.
  - exact private_off.
  - intros b s. exact (umem_set b (os s)).
  - intros s. destruct s as [o b p]. unfold set_umem, umem. simpl. unfold set_os. simpl. by rewrite (set_umem_id o).
  - intros s. exact (shown_nil (os s)).
  - intros s t s' u s''. exact (shown_app (os s) t (os s') u (os s'')).
  - intros s b. exact (store_ok (os s) b).
  - intros s buf l Hs Hl Hn. destruct (write_ok (os s) buf l Hs Hl Hn) as (o & Hrun & A & B & C).
    exists (set_os o s). split_and!; [|done..]. exact (zoom_ret os set_os _ s _ _ Hrun).
Defined.

(** ** The program of a command *)

(** [path] up to its first slash. *)
Fixpoint first_dir (l : list Z) : list Z :=
  match l with [] => [] | c :: l' => if c =? 47 then [] else c :: first_dir l' end.

Lemma first_dir_prefix l : exists r, l = first_dir l ++ r /\ (r = [] \/ head r = Some 47).
Proof.
  induction l as [|c l (r & IH & Hr)]; simpl; [exists []; auto|].
  destruct (Z.eqb_spec c 47) as [->|]; [exists (47 :: l); auto|]. exists r. split; [by rewrite IH at 1|done].
Qed.

Section names.
Context {SS : ShellSymbols}.

Lemma copy_dir_ok fuel m i r l :
  0 <= i -> cstr m (path_ + i) (l ++ r) -> Forall (fun c => c <> 47) l -> (r = [] \/ head r = Some 47) -> (length l < fuel)%nat ->
  room m bin_ (i + Z.of_nat (length l)) -> disjoint_regions bin_ (i + Z.of_nat (length l)) path_ (i + Z.of_nat (length (l ++ r)) + 1) ->
  copy_dir fuel i m = Ret (i + Z.of_nat (length l), write_bytes (bin_ + i) l m).
Proof.
  intros Hi0 Hs Hl Hr. revert fuel m i Hi0 Hs; induction Hl as [|c l Hc Hl IH]; intros [|f] m i Hi Hs Hf Hro Hdis; simpl in Hf; try lia;
    cbn [copy_dir app] in *.
  - destruct Hr as [->|Hr].
    + rewrite (bind_ret _ _ _ _ _ (ldc_ok _ _ _ Hs)). simpl. rewrite Z.add_0_r. done.
    + destruct r as [|x r]; [done|]. injection Hr as ->. destruct Hs as (_ & Hs & _).
      rewrite (bind_ret _ _ _ _ _ (ldc_ok _ _ _ Hs)). simpl. rewrite Z.add_0_r. done.
  - destruct Hs as (Hcr & Hcl & Hs). rewrite (bind_ret _ _ _ _ _ (ldc_ok _ _ _ Hcl)), i8_ascii, i8_byte by lia.
    destruct (Z.eqb_spec c 47), (Z.eqb_spec c 0); try lia. cbn [orb length] in *.
    rewrite (bind_ret _ _ _ _ _ (ldc_ok _ _ _ Hcl)), (bind_ret _ _ _ _ _ (st8_ok _ _ _ (Hro i ltac:(lia)))), u8_i8 by lia.
    unfold disjoint_regions in Hdis. rewrite IH; [|lia| |lia| |].
    + f_equal. f_equal; [lia|]. cbn [write_bytes]. by rewrite Z.add_assoc.
    + rewrite Z.add_assoc. eapply cstr_agree; [exact Hs|]. intros j Hj. apply lookup_insert_ne. lia.
    + apply room_insert. eapply room_sub; [exact Hro|lia|lia].
    + unfold disjoint_regions. lia.
Qed.

(** The file that a command runs: with [path] in memory and room for the name, [program_name] leaves the first
    directory of [path], a slash and the command in [bin]; only [bin] changes. *)
Theorem program_name_resolves m pth command name :
  let dir := first_dir pth in
  let n := Z.of_nat (length dir) + Z.of_nat (length name) + 2 in
  cstr m path_ pth -> cstr m command name -> room m bin_ n ->
  disjoint_regions bin_ n path_ (Z.of_nat (length pth) + 1) -> disjoint_regions bin_ n command (Z.of_nat (length name) + 1) ->
  exists m', program_name command m = Ret (tt, m') /\ cstr m' bin_ (dir ++ 47 :: name) /\ changed_within bin_ n m m'.
Proof.
  intros dir n Hp Hn Hro Hd1 Hd2. destruct (first_dir_prefix pth) as (r & E & Hr). fold dir in E.
  assert (Forall (fun c => c <> 47) dir) as Hdir.
  { unfold dir. clear. induction pth as [|c l IH]; simpl; [constructor|]. destruct (Z.eqb_spec c 47); by constructor. }
  pose proof (cstr_chars _ _ _ Hp) as Hch. rewrite E in Hp, Hd1, Hch. apply Forall_app in Hch as [Hch _].
  assert (length (dir ++ r) = length dir + length r)%nat as Hlen by apply length_app.
  pose proof (cstr_size _ _ _ Hp) as Hsz. unfold disjoint_regions in *.
  set (d := Z.of_nat (length dir)) in *. set (m1 := write_bytes bin_ dir m).
  assert (room m1 bin_ n) as Hro1 by (by apply room_write).
  assert (write_bytes bin_ (dir ++ [47; 0]) m = <[bin_ + (d + 1) := 0]> (<[bin_ + d := 47]> m1)) as E2.
  { replace (dir ++ [47; 0]) with ((dir ++ [47]) ++ [0]) by (by rewrite <- app_assoc).
    rewrite !write_bytes_snoc, length_app. cbn [length]. rewrite !write_bytes_insert by lia. fold m1 d.
    replace (bin_ + Z.of_nat (length dir + 1)) with (bin_ + (d + 1)) by (unfold d; lia).
    by rewrite insert_insert_ne by lia. }
  set (m2 := <[bin_ + (d + 1) := 0]> (<[bin_ + d := 47]> m1)) in *.
  assert (changed_within bin_ n m m2) as Hc2.
  { intros a Ha. rewrite <- E2, write_bytes_lookup, length_app, decide_False; [done|]. cbn [length]. lia. }
  assert (cstr m2 bin_ (dir ++ [47])) as H2.
  { rewrite <- E2. replace (dir ++ [47; 0]) with ((dir ++ [47]) ++ [0]) by (by rewrite <- app_assoc). apply write_bytes_cstr.
    apply Forall_app. split; [done|]. repeat (constructor; [lia|]). constructor. }
  assert (cstr m2 command name) as Hn2 by (eapply cstr_agree; [exact Hn|]; intros i Hi; apply Hc2; lia).
  assert (length (dir ++ [47]) = S (length dir)) as Hl47 by (rewrite length_app; simpl; lia).
  destruct (strcat_ok m2 bin_ command (dir ++ [47]) name H2 Hn2) as (m' & Hcat & Hm' & Hc').
  { rewrite Hl47. apply room_insert, room_insert. eapply room_sub; [exact Hro1|lia|lia]. }
  { rewrite Hl47. unfold disjoint_regions. lia. }
  exists m'. split_and!.
  - unfold program_name, str_fuel, gets. rewrite (bind_ret _ _ _ _ _ eq_refl).
    rewrite (bind_ret _ _ _ _ _ (copy_dir_ok (S (size m)) m 0 r dir ltac:(lia) ltac:(by rewrite Z.add_0_r) Hdir Hr ltac:(lia)
      ltac:(eapply room_sub; [exact Hro|lia|lia]) ltac:(unfold disjoint_regions; lia))).
    rewrite !Z.add_0_l, Z.add_0_r. fold d m1.
    rewrite (bind_ret _ _ _ _ _ (st8_ok _ _ _ (Hro1 d ltac:(lia)))). change (u8 47) with 47.
    rewrite (bind_ret _ _ _ _ _ (st8_ok _ _ _ (room_insert _ _ _ _ _ Hro1 (d + 1) ltac:(lia)))). change (u8 0) with 0. fold m2.
    unfold libc_strcat. rewrite (bind_ret _ _ _ _ _ Hcat). reflexivity.
  - by rewrite <- app_assoc in Hm'.
  - intros a Ha. rewrite Hc' by (rewrite ?Nat2Z.inj_add, Hl47; lia). by apply Hc2.
Qed.

End names.

(** ** The line [cd /d] *)

Lemma st_le_updated n p v m : room m p (Z.of_nat n) ->
  exists m', st_le n p v m = Ret (tt, m') /\ updated (fun a => p <= a < p + Z.of_nat n) m m'.
Proof.
  revert p v m; induction n as [|n IH]; intros p v m Hr; cbn [st_le]; [exists m; split; [done|apply updated_refl]|].
  assert (is_Some (m !! p)) as Hp by (rewrite <- (Z.add_0_r p); apply Hr; lia).
  rewrite (bind_ret _ _ _ _ _ (st8_ok _ _ _ Hp)).
  destruct (IH (p + 1) (Z.shiftr v 8) (<[p := u8 v]> m)) as (m' & Hrun & Hu).
  { apply room_insert. eapply room_sub; [exact Hr|lia|lia]. }
  exists m'. split; [done|]. eapply updated_trans; [|eapply updated_mono; [|exact Hu]; simpl; lia].
  split; [|intros a Ha; rewrite lookup_insert; by case_decide; [eexists|]|apply byte_range_insert].
  intros a Ha. apply lookup_insert_ne. lia.
Qed.

Lemma st_ptrs_updated l p m : room m p (8 * Z.of_nat (length l)) ->
  exists m', st_ptrs p l m = Ret (tt, m') /\ updated (fun a => p <= a < p + 8 * Z.of_nat (length l)) m m'.
Proof.
  revert p m; induction l as [|x l IH]; intros p m Hr; cbn [st_ptrs length] in *; [exists m; split; [done|apply updated_refl]|].
  destruct (st_le_updated 8 p x m) as (m1 & R1 & U1); [eapply room_sub; [exact Hr|lia|lia]|].
  rewrite (bind_ret _ _ _ _ _ R1). destruct (IH (p + 8) m1) as (m2 & R2 & U2).
  { intros i Hi. apply (up_dom _ _ _ U1). replace (p + 8 + i) with (p + (8 + i)) by lia. apply Hr. lia. }
  exists m2. split; [done|].
  eapply updated_trans; [eapply updated_mono; [|exact U1]|eapply updated_mono; [|exact U2]]; simpl; lia.
Qed.

Lemma trim_id s : head s <> Some 32 -> list.last s <> Some 32 -> trim s = s.
Proof.
  intros Hh Hl. unfold trim. assert (ltrim s = s) as ->.
  { destruct s as [|c s]; [done|]. simpl. by destruct (Z.eqb_spec c 32) as [->|]. }
  destruct (rtrim_spec s) as (k & E & H). destruct k as [|k]; [by rewrite app_nil_r in E|].
  exfalso. apply Hl. rewrite E, replicate_S_end, app_assoc. apply list.last_snoc.
Qed.

Lemma split_go_none d acc s : Forall (fun c => c <> d) s -> split_go d acc s = [acc ++ s].
Proof.
  intros H. revert acc; induction H as [|c s Hc H IH]; intros acc; simpl; [by rewrite app_nil_r|].
  destruct (Z.eqb_spec c d); [done|]. by rewrite IH, <- app_assoc.
Qed.

Lemma split_cd d : Forall (fun c => c <> 32) d -> split_on 32 ([99; 100; 32; 47] ++ d) = [[99; 100]; 47 :: d].
Proof. intros H. unfold split_on. simpl. by rewrite split_go_none. Qed.

(** String code stores bytes at mapped addresses only. *)
Definition grown (m0 m : bytes) : Prop :=
  (byte_range m0 -> byte_range m) /\ forall a, is_Some (m0 !! a) -> is_Some (m !! a).
Definition tame {A} (c : M bytes A) : Prop := forall m0, triple (grown m0) c (fun _ => grown m0).

Lemma tame_run {A} (c : M bytes A) m a m' : tame c -> c m = Ret (a, m') -> grown m m'.
Proof. intros H Hr. apply (H m m a m'); [by split|done]. Qed.

Lemma tame_bind {A B} (c : M bytes A) (f : A -> M bytes B) : tame c -> (forall a, tame (f a)) -> tame (c ≫= f).
Proof. intros Hc Hf m0. eapply triple_bind; [apply Hc|intros a; apply Hf]. Qed.

Lemma tame_ret {A} (a : A) : tame (mret a).
Proof. intros m0. by apply triple_ret. Qed.

Lemma tame_ldc p : tame (ldc p).
Proof. intros m0 m a m' Hm. unfold ldc, ld8, mbind, M_bind, mret, M_ret. destruct (m !! p); [|done]. by intros [= _ <-]. Qed.

Lemma tame_st8 p v : tame (st8 p v).
Proof.
  intros m0 m a m' [Hb Hd]. unfold st8. destruct (m !! p); [|done]. intros [= _ <-]. split.
  - intros H. by apply byte_range_insert, Hb.
  - intros x Hx. rewrite lookup_insert. case_decide; [by eexists|auto].
Qed.

Lemma tame_fault {A} : tame (mfault (A := A)).
Proof. intros m0. apply triple_fault. Qed.

Lemma tame_fuel {A} : tame (mfuel (A := A)).
Proof. intros m0. apply triple_fuel. Qed.

Lemma tame_str_fuel : tame str_fuel.
Proof. by intros m0 m a m' Hm [= _ <-]. Qed.

Create HintDb tame.
#[local] Hint Resolve tame_bind tame_ret tame_ldc tame_st8 tame_fault tame_fuel tame_str_fuel : tame.

Ltac tame_go :=
  repeat match goal with
  | |- tame (mbind _ _) => apply tame_bind; [|intros ?]
  | |- tame (if ?c then _ else _) => destruct c
  | |- tame (let '(_, _) := ?x in _) => destruct x
  end; auto with tame.

Lemma tame_strlen p : tame (strlen p).
Proof.
  assert (forall fuel s len, tame (strlen_loop fuel s len)) as H by (induction fuel; intros; cbn [strlen_loop]; tame_go).
  unfold strlen. tame_go.
Qed.
#[local] Hint Resolve tame_strlen : tame.

Lemma tame_trim p : tame (remove_white_spaces p).
Proof.
  assert (forall fuel s, tame (skip_blanks fuel s)) as H1 by (induction fuel; intros; cbn [skip_blanks]; tame_go).
  assert (forall fuel a, tame (erase_blanks fuel a)) as H2 by (induction fuel; intros; cbn [erase_blanks]; tame_go).
  unfold remove_white_spaces, libc_strlen. tame_go.
Qed.
#[local] Hint Resolve tame_trim : tame.

Lemma tame_split cap input d : tame (parse_split cap input d).
Proof.
  assert (forall cmds p, tame (push_command cap cmds p)) as H1 by (intros; unfold push_command; tame_go).
  assert (forall fuel i last cmds, tame (split_loop fuel cap input d i last cmds)) as H2
    by (induction fuel; intros; cbn [split_loop]; tame_go).
  unfold parse_split. tame_go.
Qed.

Section cd_line.
Context {LD : Loader} {PS : ProcSymbols} {VS : VfsSymbols} {L : Literals} {SY : SysSymbols}.
Context {LS : LibSymbols} {PG : ProgSymbols} {SS : ShellSymbols}.

(** The bytes of the line with the two that [cd] appends, and the first three arguments. *)
Definition touched (input : Z) (d : list Z) (a : Z) : Prop :=
  input <= a < input + Z.of_nat (length d) + 6 \/ job_arguments <= a < job_arguments + 24.

(** The directory that [cd /d] asks for: [d] with a slash at its end, which is added when [/d] has none. *)
Definition slashed (d : list Z) : list Z := if decide (list.last (47 :: d) = Some 47) then d else d ++ [47].

(** The line [cd /d] at [input] in the memory [b], and the literals in its part [m0]. *)
Record cd_input (m0 b : bytes) (input : Z) (d : list Z) : Prop := {
  ci_sub : m0 ⊆ b;
  ci_apart : forall a, touched input d a -> m0 !! a = None;
  ci_room : forall a, touched input d a -> is_Some (b !! a);
  ci_disjoint : disjoint_regions input (Z.of_nat (length d) + 6) job_arguments 24;
  ci_bytes : byte_range b;
  ci_line : cstr b input ([99; 100; 32; 47] ++ d);
  ci_before : exists c, b !! (input - 1) = Some c /\ i8 c <> 32;
  ci_range : 0 < input /\ Z.of_nat (length d) < 2 ^ 30;
  ci_word : Forall (fun c => c <> 32) d;
  ci_last : list.last d <> Some 38;
  ci_path : cstr m0 str_dollar_path [36; 80; 65; 84; 72];
  ci_ps1 : cstr m0 str_dollar_ps1 [36; 80; 83; 49];
  ci_cd : cstr m0 str_cd [99; 100]
}.

(** What the steps keep. *)
Record cd_kept (m0 b : bytes) (input : Z) (d : list Z) (m : bytes) : Prop := {
  ck_sub : m0 ⊆ m;
  ck_upd : updated (touched input d) b m
}.

Section steps.
Context (m0 b : bytes) (input : Z) (d : list Z) (H : cd_input m0 b input d).

Lemma cd_kept_step m m' : cd_kept m0 b input d m -> updated (touched input d) m m' -> cd_kept m0 b input d m'.
Proof.
  intros [A B] U. split; [|by eapply updated_trans]. eapply updated_sub; [exact U|done|].
  intros a [v Hv] Ha. rewrite (ci_apart _ _ _ _ H a Ha) in Hv. done.
Qed.

Lemma cd_kept_start : cd_kept m0 b input d b.
Proof. split; [apply H|apply updated_refl]. Qed.

(** Blanks erased and delimiters replaced are bytes of the line. *)
Lemma changed_updated m m' n : grown m m' ->
  changed_within input n m m' -> n <= Z.of_nat (length d) + 6 -> updated (touched input d) m m'.
Proof. intros [Hb Hd] Hc Hn. split; [|done|done]. intros a Ha. apply Hc. unfold touched in Ha. lia. Qed.

Abbreviation line := ([99; 100; 32; 47] ++ d).

Lemma line_last : exists x, list.last (47 :: d) = Some x /\ list.last line = Some x /\ line !! (length d + 3)%nat = Some x /\
  x <> 32 /\ x <> 38 /\ 0 < x < 256.
Proof.
  pose proof (ci_word _ _ _ _ H) as Hw. pose proof (cstr_chars _ _ _ (ci_line _ _ _ _ H)) as Hc. apply Forall_app in Hc.
  pose proof (ci_last _ _ _ _ H) as Hl. destruct (list.last d) as [x|] eqn:E; [apply list.last_Some in E as [d' E]|apply list.last_None in E].
  2:{ exists 47. rewrite E. split_and!; [done|done|done|lia..]. }
  - rewrite E in *. apply Forall_app in Hw as [_ Hw%Forall_inv]. destruct Hc as [_ Hc]. apply Forall_app in Hc as [_ Hc%Forall_inv].
    exists x. split_and!; [by rewrite app_comm_cons, list.last_snoc|by rewrite app_assoc, list.last_snoc| |done|congruence|lia..].
    rewrite app_assoc. apply list_lookup_middle. rewrite !length_app. simpl. lia.
Qed.

(** The line split into the two words. *)
Lemma line_words m : cd_kept m0 b input d m -> cstr m input line -> (exists c, m !! (input - 1) = Some c /\ i8 c <> 32) ->
  exists m1 m2 p0 p1, remove_white_spaces input m = Ret (input, m1) /\ parse_split 8 input 32 m1 = Ret ([p0; p1], m2) /\
    cd_kept m0 b input d m2 /\ cstr m2 p0 [99; 100] /\ cstr m2 p1 (47 :: d) /\
    input <= p0 < input + Z.of_nat (length d) + 3 /\ input <= p1 /\ p1 < input + 4.
Proof.
  intros Hk Hs (c & Hc & Hne). destruct (ci_range _ _ _ _ H) as [Hin Hlen].
  assert (length line = length d + 4)%nat as Hll by (simpl; lia). destruct line_last as (x & Ex & El & _ & Hx & _).
  assert (list.last line <> Some 32) as Hlast by congruence.
  assert (trim line = line) as Et by (by apply trim_id).
  destruct (remove_white_spaces_ok m input line c) as (q & m1 & R1 & C1 & Q1 & Q2 & W1); [done|done|lia|done|done|].
  rewrite Et in C1, Q2. assert (q = input) as -> by lia.
  pose proof (cd_kept_step m m1 Hk (changed_updated m m1 _ (tame_run _ _ _ _ (tame_trim input) R1) W1 ltac:(lia))) as Hk1.
  destruct (parse_split_ok 8 m1 input line 32 c) as (cmds & m2 & R2 & F2 & W2);
    [lia|done|done|lia|rewrite W1 by lia; done|done|rewrite split_cd by apply H; simpl; lia|].
  pose proof (cd_kept_step m1 m2 Hk1 (changed_updated m1 m2 _ (tame_run _ _ _ _ (tame_split 8 input 32) R2) W2 ltac:(lia))) as Hk2.
  rewrite split_cd in F2 by apply H. cbn [fmap list_fmap] in F2. rewrite (trim_id [99; 100]), (trim_id (47 :: d)) in F2; [|done| |done|done].
  2:{ congruence. }
  inversion F2 as [|p0 ? ? ? (A0 & B0 & D0) F3]; subst. inversion F3 as [|p1 ? ? ? (A1 & B1 & D1) F4]; subst. inversion F4; subst.
  cbn [length] in D0, D1. rewrite Hll in D0, D1. exists m1, m2, p0, p1. split_and!; try done; lia.
Qed.

(** The slash that [cd] appends to its argument. *)
Lemma add_slash m p1 : cd_kept m0 b input d m -> cstr m p1 (47 :: d) -> input <= p1 < input + 4 ->
  exists m', (st8 (p1 + (Z.of_nat (length d) + 1)) 47 ≫= fun _ => st8 (p1 + (Z.of_nat (length d) + 1 + 1)) 0) m = Ret (tt, m') /\
    cd_kept m0 b input d m' /\ cstr m' p1 (47 :: d ++ [47]).
Proof.
  intros Hk Hs Hp. set (e := p1 + (Z.of_nat (length d) + 1)). replace (p1 + (Z.of_nat (length d) + 1 + 1)) with (e + 1) by (unfold e; lia).
  assert (forall a, touched input d a -> is_Some (m !! a)) as Hm by (intros a Ha; by apply (up_dom _ _ _ (ck_upd _ _ _ _ _ Hk)), H).
  assert (touched input d e /\ touched input d (e + 1)) as [T1 T2] by (unfold touched, e; lia).
  assert (updated (touched input d) m (write_bytes e [47; 0] m)) as U.
  { apply updated_write; [|by repeat (constructor; [lia|])]. intros a Ha. simpl in Ha. unfold touched, e in *. lia. }
  exists (write_bytes e [47; 0] m). split_and!.
  - rewrite (bind_ret _ _ _ _ _ (st8_ok _ _ _ (Hm _ T1))). apply st8_ok. rewrite lookup_insert. case_decide; [by eexists|auto].
  - by eapply cd_kept_step.
  - pose proof (cstr_chars _ _ _ Hs) as Hc. change (47 :: d ++ [47]) with ((47 :: d) ++ [47]).
    replace (write_bytes e [47; 0] m) with (write_bytes (p1 + Z.of_nat (length (47 :: d))) [47; 0] m) by (f_equal; unfold e; simpl; lia).
    apply cstr_of_lookup; [apply Forall_app; split; [done|by repeat (constructor; [lia|])]|].
    intros i x Hi. rewrite <- app_assoc in Hi. rewrite write_bytes_lookup.
    pose proof (lookup_lt_Some _ _ _ Hi) as Hlt. rewrite length_app in Hlt. cbn [length app] in Hlt. case_decide as Hr.
    + rewrite lookup_app_r in Hi by lia. rewrite <- Hi. f_equal. lia.
    + rewrite lookup_app_l in Hi by (cbn [length] in *; lia). by eapply cstr_at.
Qed.

(** From the line to the call of [chdir]. *)
Lemma cd_arguments m : cd_kept m0 b input d m -> cstr m input line -> (exists c, m !! (input - 1) = Some c /\ i8 c <> 32) ->
  exists m1 m2 m3 p0 p1, remove_white_spaces input m = Ret (input, m1) /\ parse_split 8 input 32 m1 = Ret ([p0; p1], m2) /\
    st_ptrs job_arguments [p0; p1; 0] m2 = Ret (tt, m3) /\
    cd_kept m0 b input d m3 /\ cstr m3 p0 [99; 100] /\ cstr m3 p1 (47 :: d) /\ input <= p1 < input + 4.
Proof.
  intros Hk Hs Hc. destruct (line_words m Hk Hs Hc) as (m1 & m2 & p0 & p1 & R1 & R2 & K2 & C0 & C1 & B0 & B1 & B2).
  destruct (st_ptrs_updated [p0; p1; 0] job_arguments m2) as (m3 & R3 & U3).
  { intros i Hi. simpl in Hi. apply (up_dom _ _ _ (ck_upd _ _ _ _ _ K2)), H. unfold touched. lia. }
  exists m1, m2, m3, p0, p1. pose proof (ci_disjoint _ _ _ _ H) as Hdis. unfold disjoint_regions in Hdis. cbn [length] in U3.
  split_and!; try done.
  - eapply cd_kept_step; [exact K2|]. eapply updated_mono; [|exact U3]. simpl. unfold touched. lia.
  - eapply cstr_agree; [exact C0|]. intros i Hi. simpl in Hi. apply (up_out _ _ _ U3). lia.
  - eapply cstr_agree; [exact C1|]. intros i Hi. simpl in Hi. apply (up_out _ _ _ U3). lia.
Qed.

End steps.

(** ** On the state of the shell *)

(** The shell [w] with the memory [m]. *)
Definition with_bytes (m : bytes) (w : shell session) : shell session := set_umem m w.

Lemma with_bytes_id w : with_bytes (mem (console_of (os w))) w = w.
Proof. by destruct w as [[[[? ? ? ? ? ? [[] ? ?] ? ?] ? ? ? ?] ?] ? ?]. Qed.

Lemma at_bytes {A} (c : M bytes A) m w a m' : c m = Ret (a, m') -> on_user c (with_bytes m w) = Ret (a, with_bytes m' w).
Proof. intros H. exact (zoom_ret umem set_umem c (with_bytes m w) a m' H). Qed.

Lemma same_ok m w p q a b : cstr m p a -> cstr m q b -> same p q (with_bytes m w) = Ret (bool_decide (a = b), with_bytes m w).
Proof.
  intros Ha Hb. destruct (kstrcmp_ok m p q a b Ha Hb) as (r & Hr & E). unfold same, libc_strcmp.
  rewrite (bind_ret _ _ _ _ _ (at_bytes _ _ w _ _ Hr)). destruct (Z.eqb_spec r 0) as [E0|E0].
  - rewrite bool_decide_true; [done|]. by apply E.
  - rewrite bool_decide_false; [done|]. intros E1. by apply E0, E.
Qed.

(** [chdir]: the directory is recorded when the archive has it, otherwise nothing changes. *)
Lemma chdir_ok (s : session) path name es t :
  threads (kn (sk s)) !! current_process (kn (sk s)) = Some t -> archive_ok (mem (console_of s)) es ->
  cstr (mem (console_of s)) path name -> (length name < length (cwd t))%nat ->
  trap SYSCALL_CHDIR path 0 0 0 0 s =
  if existsb (is_entry name 5) es then
    Ret (0, Session (set_kn (set_threads (<[current_process (kn (sk s)) := with_cwd (name ++ 0 :: drop (Datatypes.S (length name)) (cwd t)) t]>
      (threads (kn (sk s)))) (kn (sk s))) (sk s)) (script s))
  else Ret (u64 (-1), s).
Proof.
  intros Ht [Ha Hw Hr] Hn Hl. pose proof (dir_exists_decides _ _ _ es path name Ha Hw Hr Hn) as Hd.
  assert (forall v k, ch_dir path (kn (sk s)) = Ret (v, k) -> current_process k = current_process (kn (sk s)) ->
    trap SYSCALL_CHDIR path 0 0 0 0 s = Ret (u64 v, Session (set_kn k (sk s)) (script s))) as Htrap.
  { intros v k Hrun Hc. apply trap_done; [|done]. change (handle_syscall _ _ _ _ _ _) with (r ← on_kn (ch_dir path); mret (Done (u64 r))).
    by rewrite (bind_ret _ _ _ _ _ (on_kn_ret _ (sk s) _ _ Hrun)). }
  unfold ch_dir in Htrap. destruct (existsb (is_entry name 5) es).
  - apply (Htrap 0); [|done]. rewrite (bind_ret _ _ _ _ _ (on_bytes_read _ (kn (sk s)) _ Hd)). cbn [Z.eqb]. unfold gets.
    rewrite (bind_ret _ _ _ _ _ eq_refl), (bind_ret _ _ _ _ _ (th_ok _ _ _ Ht)).
    rewrite (bind_ret _ _ _ _ _ (on_bytes_read str_fuel (kn (sk s)) _ eq_refl)).
    pose proof (cstr_size _ _ _ Hn) as Hsz.
    rewrite (bind_ret _ _ _ _ _ (on_bytes_read _ (kn (sk s)) _ (str_end_ok (S (size (mem (console_of s)))) _ _ _ Hn ltac:(lia)))).
    replace (Z.to_nat (path + Z.of_nat (length name) - path)) with (length name) by lia.
    rewrite (bind_ret _ _ _ _ _ (on_bytes_read _ (kn (sk s)) _ (load_bytes_ok name path _ (fun i c Hi => cstr_at _ _ _ _ _ Hn Hi)))).
    by rewrite decide_True.
  - rewrite (Htrap (-1) (kn (sk s))); [by destruct s as [[] ?]| |done].
    by rewrite (bind_ret _ _ _ _ _ (on_bytes_read _ (kn (sk s)) _ Hd)).
Qed.

(** What is left of [cd] once the directory is known. *)
Definition change_to (p : Z) : M (shell session) Z :=
  status ← libc_chdir p; (if status =? 0 then mret tt else write_str msg_cd_none) ≫= fun _ => mret 0.

Lemma cd_word m0 b input d m w p0 p1 envp : cd_input m0 b input d -> cd_kept m0 b input d m -> cstr m p1 (47 :: d) -> input <= p1 < input + 4 ->
  exists m', cd [p0; p1; 0] 2 envp (with_bytes m w) = change_to (p1 + 1) (with_bytes m' w) /\
    cd_kept m0 b input d m' /\ cstr m' (p1 + 1) (slashed d).
Proof.
  intros H Hk Hs Hp. destruct (ci_range _ _ _ _ H) as [Hin Hlen]. destruct (line_last m0 b input d H) as (x & Ex & _ & _ & _ & _ & Hxr).
  assert (m !! (p1 + Z.of_nat (length d)) = Some x) as Hl.
  { apply (cstr_at _ _ _ _ _ Hs). rewrite list.last_lookup in Ex. exact Ex. }
  assert (exists m', (if x =? 47 then mret tt else st8 (p1 + (Z.of_nat (length d) + 1)) 47 ≫= fun _ => st8 (p1 + (Z.of_nat (length d) + 1 + 1)) 0) m
      = Ret (tt, m') /\ cd_kept m0 b input d m' /\ cstr m' p1 (47 :: slashed d)) as (m' & R & K & C).
  { unfold slashed. rewrite Ex. destruct (Z.eqb_spec x 47) as [->|Hx].
    - exists m. rewrite decide_True by done. done.
    - rewrite decide_False by congruence. by apply add_slash. }
  exists m'. split_and!; [|done|apply C]. unfold cd, argument. cbn [lookup list_lookup deref]. rewrite (bind_ret _ _ _ _ _ eq_refl).
  unfold libc_strlen. rewrite (bind_ret _ _ _ _ _ (at_bytes _ _ w _ _ (strlen_ok m p1 _ ltac:(lia) Hs))).
  assert (i32 (Z.of_nat (length (47 :: d))) = Z.of_nat (length d) + 1) as -> by (rewrite i32_small; simpl; lia).
  replace (p1 + (Z.of_nat (length d) + 1 - 1)) with (p1 + Z.of_nat (length d)) by lia.
  rewrite (bind_ret _ _ _ _ _ (at_bytes _ _ w _ _ (ldc_ok _ _ _ Hl))), i8_ascii by lia.
  rewrite (bind_ret _ _ _ tt (with_bytes m' w)); [|destruct (x =? 47); by apply (at_bytes _ _ w _ _ R)]. cbn [Z.eqb Pos.eqb].
  rewrite (bind_ret _ _ _ _ _ (at_bytes _ _ w _ _ (ldc_ok _ _ _ (proj1 (proj2 C))))). reflexivity.
Qed.

Lemma cd_line_runs m0 w input d envp :
  cd_input m0 (mem (console_of (os w))) input d ->
  exists m' p, shell_parse input (Z.of_nat (length d) + 4) envp w = (change_to p ≫= fun _ => mret 0) (with_bytes m' w) /\
    cd_kept m0 (mem (console_of (os w))) input d m' /\ cstr m' p (slashed d).
Proof.
  intros H. set (b := mem (console_of (os w))) in *. pose proof (cd_kept_start m0 b input d H) as K0.
  pose proof (fun p l => cstr_mono m0 b p l (ci_sub _ _ _ _ H)) as Hmono.
  destruct (line_last m0 b input d H) as (x & _ & _ & Hx & _ & Hx38 & Hxr).
  destruct (cd_arguments m0 b input d H b K0 (ci_line _ _ _ _ H) (ci_before _ _ _ _ H))
    as (m1 & m2 & m3 & p0 & p1 & R1 & R2 & R3 & K3 & C0 & C1 & B1).
  destruct (cd_word m0 b input d m3 w p0 p1 envp H K3 C1 B1) as (m4 & R4 & K4 & C4).
  exists m4, (p1 + 1). split_and!; [|done|done].
  rewrite <- (with_bytes_id w) at 1. fold b. unfold shell_parse.
  rewrite (bind_ret _ _ _ _ _ (same_ok b w _ _ _ _ (ci_line _ _ _ _ H) (Hmono _ _ (ci_path _ _ _ _ H)))). rewrite bool_decide_false by done.
  rewrite (bind_ret _ _ _ _ _ (same_ok b w _ _ _ _ (ci_line _ _ _ _ H) (Hmono _ _ (ci_ps1 _ _ _ _ H)))). rewrite bool_decide_false by done.
  replace (input + (Z.of_nat (length d) + 4 - 1)) with (input + Z.of_nat (length d + 3)) by lia.
  rewrite (bind_ret _ _ _ _ _ (at_bytes _ _ w _ _ (ldc_ok _ _ _ (cstr_at _ _ _ _ _ (ci_line _ _ _ _ H) Hx)))), i8_ascii by lia.
  destruct (Z.eqb_spec x 38); [done|]. rewrite (bind_ret _ _ _ _ _ eq_refl).
  rewrite (bind_ret _ _ _ _ _ (at_bytes _ _ w _ _ R1)). unfold MAX_JOB_ARGS.
  rewrite (bind_ret _ _ _ _ _ (at_bytes _ _ w _ _ R2)). cbn [app length]. cbv zeta.
  rewrite (bind_ret _ _ _ _ _ (at_bytes _ _ w _ _ R3)). unfold argument. cbn [lookup list_lookup deref]. rewrite (bind_ret _ _ _ _ _ eq_refl).
  rewrite (bind_ret _ _ _ _ _ (same_ok m3 w _ _ _ _ C0 (cstr_mono _ _ _ _ (ck_sub _ _ _ _ _ K3) (ci_cd _ _ _ _ H)))).
  rewrite bool_decide_true by done. change (Z.of_nat 2) with 2. unfold mbind, M_bind. by rewrite R4.
Qed.

Lemma shell_write_str m0 w p l : session_sink (os w) -> stable_part m0 w -> small m0 -> cstr m0 p l ->
  exists c, write_str p w = Ret (tt, set_os (set_console c (os w)) w) /\ session_shown (os w) (i8 <$> l) (set_console c (os w)).
Proof.
  intros Hs Hst Hsm Hl. destruct (stable_text _ _ _ _ Hst Hl) as (Hp & Hc & Ht). pose proof (cstr_size _ _ _ Hl). unfold small in Hsm.
  destruct (sys_write_ok (os w) p l Hs Ht ltac:(lia)) as (c & Hrun & Hpr & Hstep). exists c. split.
  - unfold write_str, libc_strlen, libc_write, syscall4. change (u64 1) with 1.
    rewrite (bind_ret _ _ _ _ _ (on_user_read _ w _ (strlen_ok _ _ _ Hp Hc))).
    rewrite (bind_ret _ _ _ (i64 (Z.of_nat (length l))) (set_os (set_console c (os w)) w)); [done|].
    by rewrite (bind_ret _ _ _ _ _ (zoom_ret os set_os _ w _ _ Hrun)).
  - destruct Hs as (Hi & _). split_and!; [done|apply Hstep|]. by exists c.
Qed.

Lemma shell_chdir p w v s' : trap SYSCALL_CHDIR p 0 0 0 0 (os w) = Ret (v, s') -> libc_chdir p w = Ret (i32 v, set_os s' w).
Proof.
  intros Hrun. unfold libc_chdir, syscall2. rewrite (bind_ret _ _ _ v (set_os s' w)); [done|].
  exact (zoom_ret os set_os _ w _ _ Hrun).
Qed.

(** C9: The line [cd /d], with or without a slash at its end, changes the directory of the process. The directory
    asked for, [slashed d], is [d] itself when [/d] ends with a slash, and [d] with one slash more when not. When the archive
    has that directory, the record of the process says so afterwards, and the memory is as before outside the line and
    its arguments; when it has not, the records of the processes are as before and the shell shows the message for it. *)
Theorem cd_line_changes_directory m0 w input d envp t es msg :
  let s := os w in let k := kn (sk s) in
  cd_input m0 (mem (console_of s)) input d -> archive_ok m0 es ->
  threads k !! current_process k = Some t -> length (cwd t) = CWD_SIZE -> (length (slashed d) < CWD_SIZE)%nat ->
  (existsb (is_entry (slashed d) 5) es = true ->
     exists w', shell_parse input (Z.of_nat (length d) + 4) envp w = Ret (0, w') /\
       threads (kn (sk (os w'))) = <[current_process k := with_cwd (slashed d ++ 0 :: drop (Datatypes.S (length (slashed d))) (cwd t)) t]> (threads k) /\
       updated (touched input d) (mem (console_of s)) (mem (console_of (os w')))) /\
  (existsb (is_entry (slashed d) 5) es = false -> session_sink s -> (forall a, touched input d a -> session_private a) ->
     stable_part m0 s -> small m0 -> cstr m0 msg_cd_none msg ->
     exists w', shell_parse input (Z.of_nat (length d) + 4) envp w = Ret (0, w') /\
       threads (kn (sk (os w'))) = threads k /\ session_shown s (i8 <$> msg) (os w')).
Proof.
  intros s k H Har Ht Hcwd Hd. destruct (cd_line_runs m0 w input d envp H) as (m' & p & Hrun & [Ks Ku] & Hp).
  set (w1 := with_bytes m' w) in *.
  assert (archive_ok m' es) as Har' by (destruct Har; split; [by eapply archive_mono|done|done]).
  pose proof (chdir_ok (os w1) p (slashed d) es t Ht Har' Hp ltac:(lia)) as Hch. split.
  - intros He. rewrite He in Hch. match type of Hch with _ = Ret (_, ?x) => set (s2 := x) in Hch end. exists (set_os s2 w1). split_and!.
    + rewrite Hrun. unfold change_to. rewrite (bind_ret _ _ _ 0 (set_os s2 w1)); [reflexivity|].
      by rewrite (bind_ret _ _ _ _ _ (shell_chdir p w1 _ _ Hch)).
    + reflexivity.
    + exact Ku.
  - intros He Hsk Hpr Hst Hsm Hmsg. rewrite He in Hch.
    assert (updated (private (S := shell session)) (umem w) m') as Hu by (eapply updated_mono; [|exact Ku]; exact Hpr).
    destruct (store_ok (Stdout := shell_stdout (ST := session_stdout)) w m' Hsk Hu) as [Sk1 Sh1]. change (set_umem m' w) with w1 in Sk1, Sh1.
    assert (stable_part m0 w1) as Hst1 by (destruct Hst as [_ B C]; by split).
    destruct (shell_write_str m0 w1 msg_cd_none msg Sk1 Hst1 Hsm Hmsg) as (c & R2 & P2).
    exists (set_os (set_console c (os w1)) w1). split_and!.
    + rewrite Hrun. unfold change_to. rewrite (bind_ret _ _ _ 0 (set_os (set_console c (os w1)) w1)); [done|].
      rewrite (bind_ret _ _ _ _ _ (shell_chdir p w1 _ _ Hch)). change (i32 (u64 (-1)) =? 0) with false. cbv iota.
      rewrite (bind_ret _ _ _ tt (set_os (set_console c (os w1)) w1)); [done|]. exact R2.
    + done.
    + exact (shown_app (Stdout := session_stdout) s [] (os w1) _ _ Sh1 P2).
Qed.

End cd_line.

(** ** Witnesses *)

Definition shell_symbols : ShellSymbols := {|
  path_ := 3480; PS1_ := 0; bin_ := 5000; cdir_exec := 0; pid_s := 0; cdir_cd := 0; job_arguments := 4600; input_ := 0;
  current_dir := 0; str_cat := 0; str_ls := 0; str_cd := 3420; str_export := 0; str_exit := 0; str_dollar_path := 3400;
  str_dollar_ps1 := 3410; str_PATH := 0; str_prompt := 0; str_job := 0; msg_export := 0; msg_cd_none := 3450;
  msg_cd_args := 0; msg_welcome := 0 |}.

(** The memory of [ProgramsSpec] with literals, a message and [path]; in the buffers the lines ["cd /d"], ["cd /e"] and
    ["cd /d/"]. *)
Definition shell_base : bytes :=
  write_bytes 3400 [36; 80; 65; 84; 72; 0] (write_bytes 3410 [36; 80; 83; 49; 0] (write_bytes 3420 [99; 100; 0]
  (write_bytes 3450 [78; 111; 10; 0] (write_bytes 3480 [98; 105; 110; 47; 0] (write_bytes 3490 [108; 115; 0] user_base))))).
Definition shell_lower : bytes :=
  write_bytes 4500 [99; 100; 32; 47; 100; 0] (write_bytes 4700 [99; 100; 32; 47; 101; 0]
  (write_bytes 4800 [99; 100; 32; 47; 100; 47; 0] (write_bytes 4000 (replicate 1400 0) shell_base))).

Definition demo_shell : shell session := Shell (set_console (screen_over shell_lower 0) user_session) 0 0.

#[local] Existing Instances null_loader file_symbols demo_vfs_symbols user_literals quiet_messages user_lib user_symbols shell_symbols.

Lemma shell_base_range : map_Forall (fun a b => 0 < a < 4000 /\ 0 <= b < 256) shell_base.
Proof. refine (bool_decide_eq_true_1 (map_Forall _ _) _). vm_compute. reflexivity. Qed.

Lemma shell_base_at a : is_Some (shell_base !! a) -> 0 < a < 4000.
Proof. intros [v Hv]. apply (shell_base_range a v Hv). Qed.

Lemma shell_mem a : 0 <= a < VIDEO_BASE_ADDRESS -> mem (console_of (os demo_shell)) !! a = shell_lower !! a.
Proof. apply screen_over_lookup. Qed.

Lemma shell_lower_sub : shell_base ⊆ mem (console_of (os demo_shell)).
Proof.
  apply map_subseteq_spec. intros a v Hv. pose proof (shell_base_at a ltac:(by exists v)).
  rewrite shell_mem by (unfold VIDEO_BASE_ADDRESS; lia). unfold shell_lower.
  rewrite !write_bytes_lookup, length_replicate. cbn [length]. by rewrite !decide_False by lia.
Qed.

Lemma shell_buffers a : 4000 <= a < 5400 -> is_Some (mem (console_of (os demo_shell)) !! a).
Proof.
  intros Ha. rewrite shell_mem by (unfold VIDEO_BASE_ADDRESS; lia). unfold shell_lower.
  rewrite !write_bytes_lookup, length_replicate. cbn [length].
  repeat case_decide; try lia; (apply lookup_lt_is_Some_2; rewrite ?length_replicate; cbn [length]; lia).
Qed.

Lemma shell_bytes : byte_range (mem (console_of (os demo_shell))).
Proof.
  apply byte_range_write; [apply Forall_replicate; lia|]. unfold shell_lower.
  do 3 (apply byte_range_write; [by repeat (constructor; [lia|])|]).
  apply byte_range_write; [apply Forall_replicate; lia|]. intros a b Hb. apply (shell_base_range a b Hb).
Qed.

Lemma demo_touched i d a : 4000 < i < 4590 \/ 4640 < i < 5300 -> (length d < 10)%nat -> touched i d a -> 4000 <= a < 5400.
Proof. unfold touched. cbn [job_arguments shell_symbols]. lia. Qed.

(** The line at [i] for the directory [d]. *)
Lemma demo_cd_line i d : 4500 <= i < 4590 \/ 4640 < i < 5300 -> (length d < 3)%nat -> Forall (fun c => c <> 32) d -> list.last d <> Some 38 ->
  cstrb shell_lower i ([99; 100; 32; 47] ++ d) = true -> shell_lower !! (i - 1) = Some 0 ->
  cd_input shell_base (mem (console_of (os demo_shell))) i d.
Proof.
  intros Hi Hl H1 H2 Hs Hb. assert (forall a, touched i d a -> 4000 <= a < 5400) as Ht.
  { intros a. apply demo_touched; lia. }
  split.
  - apply shell_lower_sub.
  - intros a Ha%Ht. destruct (shell_base !! a) eqn:E; [|done]. pose proof (shell_base_at a ltac:(by eexists)). lia.
  - intros a Ha%Ht. by apply shell_buffers.
  - unfold disjoint_regions. cbn [job_arguments shell_symbols length]. lia.
  - apply shell_bytes.
  - apply screen_over_cstr; [by apply cstrb_sound|lia|unfold VIDEO_BASE_ADDRESS; simpl; lia].
  - exists 0. split; [|done]. rewrite shell_mem by (unfold VIDEO_BASE_ADDRESS; lia). done.
  - simpl. lia.
  - exact H1.
  - exact H2.
  - by apply cstrb_sound; vm_compute.
  - by apply cstrb_sound; vm_compute.
  - by apply cstrb_sound; vm_compute.
Qed.

Lemma shell_archive : archive_ok shell_base [demo_file; demo_dir].
Proof.
  split; [|apply demo_walkable|done].
  split; [done|]. split; [split; [by apply cstrb_sound; vm_compute|done|by apply cstrb_sound; vm_compute|by vm_compute|
    by apply cstrb_sound; vm_compute|simpl; lia]|].
  split; [by vm_compute|]. split; [split; [by apply cstrb_sound; vm_compute|done|by apply cstrb_sound; vm_compute|by vm_compute|
    by apply cstrb_sound; vm_compute|simpl; lia]|].
  right. vm_compute. reflexivity.
Qed.

Lemma shell_sink : session_sink (os demo_shell).
Proof.
  split; [split; [done|done| |exact shell_bytes]|split; [|apply stdout_open_term, user_stdout]].
  - intros i Hi. change (SCREEN + 160) with 4000 in Hi. cbn [mem console_of os demo_shell set_console].
    change (mem _) with (write_bytes VIDEO_BASE_ADDRESS (replicate (Z.to_nat 4000) 32) shell_lower).
    rewrite write_bytes_lookup, length_replicate, decide_True by lia. apply lookup_lt_is_Some_2. rewrite length_replicate. lia.
  - split; [|by left| |by left]; (eapply cstr_mono; [apply shell_lower_sub|]; by apply cstrb_sound; vm_compute).
Qed.

Lemma shell_stable : stable_part shell_base (os demo_shell).
Proof.
  split; [apply shell_lower_sub| |].
  - intros a Ha%shell_base_at. unfold on_screen, VIDEO_BASE_ADDRESS, scratch. cbn [w_putchar buf_printLong buf_printHex user_lib]. lia.
  - destruct (shell_base !! 0) eqn:E; [|done]. pose proof (shell_base_at 0 ltac:(by eexists)). lia.
Qed.

(** The line ["cd /d/"] asks for the same directory as ["cd /d"]. *)
Example slashed_both : slashed [100] = slashed [100; 47].
Proof. reflexivity. Qed.

Lemma cd_line_changes_directory_witness :
  (exists w', shell_parse 4500 5 0 demo_shell = Ret (0, w') /\
     threads (kn (sk (os w'))) = <[100 := with_cwd ([100; 47; 0] ++ replicate 125 0)
       (with_fds ([0; 700; 700] ++ replicate 13 0) (demo_thread 1 0 0x1000 100 RUNNING))]> (threads (kn (sk (os demo_shell))))) /\
  (exists w', shell_parse 4800 6 0 demo_shell = Ret (0, w') /\
     threads (kn (sk (os w'))) = <[100 := with_cwd ([100; 47; 0] ++ replicate 125 0)
       (with_fds ([0; 700; 700] ++ replicate 13 0) (demo_thread 1 0 0x1000 100 RUNNING))]> (threads (kn (sk (os demo_shell))))) /\
  (exists w', shell_parse 4700 5 0 demo_shell = Ret (0, w') /\ session_shown (os demo_shell) [78; 111; 10] (os w')).
Proof.
  split_and!.
  - destruct (cd_line_changes_directory shell_base demo_shell 4500 [100] 0
      (with_fds ([0; 700; 700] ++ replicate 13 0) (demo_thread 1 0 0x1000 100 RUNNING)) [demo_file; demo_dir] [78; 111; 10]) as [H _].
    + apply demo_cd_line; [lia|simpl; lia|by repeat constructor|done|vm_compute; reflexivity|vm_compute; reflexivity].
    + exact shell_archive.
    + reflexivity.
    + reflexivity.
    + unfold CWD_SIZE. simpl. lia.
    + destruct (H eq_refl) as (w' & H1 & H2 & _). exists w'. split; [exact H1|exact H2].
  - destruct (cd_line_changes_directory shell_base demo_shell 4800 [100; 47] 0
      (with_fds ([0; 700; 700] ++ replicate 13 0) (demo_thread 1 0 0x1000 100 RUNNING)) [demo_file; demo_dir] [78; 111; 10]) as [H _].
    + apply demo_cd_line; [lia|simpl; lia|by repeat constructor|done|vm_compute; reflexivity|vm_compute; reflexivity].
    + exact shell_archive.
    + reflexivity.
    + reflexivity.
    + unfold CWD_SIZE. simpl. lia.
    + destruct (H eq_refl) as (w' & H1 & H2 & _). exists w'. split; [exact H1|exact H2].
  - destruct (cd_line_changes_directory shell_base demo_shell 4700 [101] 0
      (with_fds ([0; 700; 700] ++ replicate 13 0) (demo_thread 1 0 0x1000 100 RUNNING)) [demo_file; demo_dir] [78; 111; 10]) as [_ H].
    + apply demo_cd_line; [lia|simpl; lia|by repeat constructor|done|vm_compute; reflexivity|vm_compute; reflexivity].
    + exact shell_archive.
    + reflexivity.
    + reflexivity.
    + unfold CWD_SIZE. simpl. lia.
    + destruct (H eq_refl) as (w' & H1 & _ & H2).
      * exact shell_sink.
      * intros a Ha. apply user_private. revert Ha. apply demo_touched; [lia|simpl; lia].
      * exact shell_stable.
      * vm_compute. reflexivity.
      * by apply cstrb_sound; vm_compute.
      * exists w'. split; [exact H1|exact H2].
Defined.

Lemma program_name_resolves_witness :
  exists m', program_name 3490 shell_lower = Ret (tt, m') /\ cstr m' 5000 [98; 105; 110; 47; 108; 115].
Proof.
  destruct (program_name_resolves shell_lower [98; 105; 110; 47] 3490 [108; 115]) as (m' & H1 & H2 & _).
  - by apply cstrb_sound; vm_compute.
  - by apply cstrb_sound; vm_compute.
  - intros i Hi. simpl in Hi. rewrite <- shell_mem by (cbn [bin_ shell_symbols]; unfold VIDEO_BASE_ADDRESS; lia).
    apply shell_buffers. cbn [bin_ shell_symbols]. lia.
  - right. cbn [bin_ path_ shell_symbols]. simpl. lia.
  - right. cbn [bin_ shell_symbols]. simpl. lia.
  - exists m'. split; [exact H1|exact H2].
Defined.
