(* ===== verification/Boot.v ===== *)
(** * Start-up ([start] of [sys/main.c])

    The boot loader leaves a list of modules in memory: a tag, a length in words for the modules that are
    skipped, and for the tag 0x9001 the table of memory regions.  [start] takes the region that holds [physfree],
    builds the page allocator and the page tables on it and creates the first processes.  [boot] itself (descriptor
    tables, timer and a new stack, then this function) is a sequence of modelled initialisations and
    assembly. *)

From S2P Require Import Prelude PhysMem Paging PageTable VaMem CStr Console Terminal Vfs Process UserMem ElfSpec.

Definition SMAP_TAG : Z := 0x9001.
Definition SIZEOF_SMAP : Z := 20.

(** [while (modulep[0] != 0x9001) modulep += modulep[1] + 2]; [modulep] points to 32-bit words. *)
Fixpoint find_smap (fuel : nat) (modulep : Z) : M bytes Z :=
  match fuel with
  | O => mfuel
  | S f =>
      tag ← ld_le 4 modulep;
      if tag =? SMAP_TAG then mret modulep else
      n ← ld_le 4 (modulep + 4); find_smap f (modulep + 4 * u32 (n + 2))
  end.

(** The loop over the regions; the pair is [(base, length)]. *)
Fixpoint scan_smap (fuel : nat) (smap end_ physfree : Z) (acc : Z * Z) : M bytes (Z * Z) :=
  if smap <? end_ then
    match fuel with
    | O => mfuel
    | S f =>
        type ← ld_le 4 (smap + 16);
        length_ ← ld_le 8 (smap + 8);
        base ← ld_le 8 smap;
        let take := (type =? 1) && negb (length_ =? 0) && (base <=? physfree) && (physfree <? u64 (base + length_)) in
        scan_smap f (smap + SIZEOF_SMAP) end_ physfree (if take then (base, length_) else acc)
    end
  else mret acc.

Definition find_memory (modulep physfree : Z) : M bytes (Z * Z) :=
  fuel ← str_fuel;
  modulep ← find_smap fuel modulep;
  n ← ld_le 4 (modulep + 4);
  scan_smap fuel (modulep + 8) (modulep + n + 2 * 4) physfree (0, 0).

Section start.
Context {LD : Loader} {PS : ProcSymbols} {VS : VfsSymbols}.

(** The memory that [start] hands to the allocator. *)
Definition start_memory (modulep physfree : Z) : M kern unit :=
  r ← on_bytes (find_memory modulep physfree);
  on_mach (call_pm (init_physical_memory physfree r.1 r.2)).

(** Up to the switch to the stack of the idle process, which is returned; [str_init] is the literal
    "bin/init". *)
Definition start (str_init kernmem modulep physbase physfree : Z) : M kern Z :=
  start_memory modulep physfree ≫= fun _ =>
  on_mach (init_paging kernmem physbase physfree) ≫= fun _ =>
  init_processes ≫= fun _ =>
  idle ← init_idle_process;
  create_process str_init ≫= fun _ =>
  mret idle.

End start.

(** ** The memory map *)

Record region := Region { r_base : Z; r_length : Z; r_type : Z }.

(** Usable memory around [physfree]. *)
Definition holds_kernel (physfree : Z) (r : region) : bool :=
  (r_type r =? 1) && negb (r_length r =? 0) && (r_base r <=? physfree) && (physfree <? u64 (r_base r + r_length r)).

(** The last such region. *)
Definition pick (physfree : Z) (rs : list region) (acc : Z * Z) : Z * Z :=
  foldl (fun acc r => if holds_kernel physfree r then (r_base r, r_length r) else acc) acc rs.

Definition num_at (m : bytes) (n : nat) (p v : Z) : Prop := ld_le n p m = Ret (v, m).

Fixpoint regions_at (m : bytes) (p : Z) (rs : list region) : Prop :=
  match rs with
  | [] => True
  | r :: rs' => num_at m 8 p (r_base r) /\ num_at m 8 (p + 8) (r_length r) /\ num_at m 4 (p + 16) (r_type r) /\
                regions_at m (p + SIZEOF_SMAP) rs'
  end.

(** Modules with the lengths [ns] (in words), then the table at [q]. *)
Fixpoint modules_at (m : bytes) (p : Z) (ns : list Z) (q : Z) : Prop :=
  match ns with
  | [] => p = q /\ num_at m 4 p SMAP_TAG
  | n :: ns' => (exists tag, num_at m 4 p tag /\ tag <> SMAP_TAG) /\ num_at m 4 (p + 4) n /\ 0 <= n < 2 ^ 31 /\
                modules_at m (p + 4 * (n + 2)) ns' q
  end.

Record memory_map (m : bytes) (modulep : Z) (rs : list region) : Prop := {
  mm_modules : exists ns q, modules_at m modulep ns q /\ num_at m 4 (q + 4) (SIZEOF_SMAP * Z.of_nat (length rs)) /\
    regions_at m (q + 8) rs
}.

Lemma num_mapped m n p v : (0 < n)%nat -> num_at m n p v -> is_Some (m !! p).
Proof.
  destruct n as [|n]; [lia|]. intros _. unfold num_at. cbn [ld_le]. unfold mbind, M_bind, ld8. destruct (m !! p); [by eexists|done].
Qed.

(** Every module takes at least one address: the walk ends within the size of the memory. *)
Lemma modules_size m p ns q (k : gset Z) :
  modules_at m p ns q -> (forall a, a ∈ k -> a < p /\ is_Some (m !! a)) -> (size k + length ns < size m)%nat.
Proof.
  revert p k; induction ns as [|n ns IH]; intros p k; cbn [modules_at length].
  - intros [_ Hp] Hk. pose proof (num_mapped _ 4 _ _ ltac:(lia) Hp) as Hm.
    assert (k ∪ {[p]} ⊆ dom m) as Hs.
    { intros a [Ha|Ha%elem_of_singleton]%elem_of_union; apply elem_of_dom; [by apply Hk|by subst]. }
    apply subseteq_size in Hs. rewrite size_dom, size_union, size_singleton in Hs; [lia|].
    apply disjoint_singleton_r. intros Ha%Hk. lia.
  - intros ((tag & Hp & _) & _ & Hn & Hr) Hk. pose proof (num_mapped _ 4 _ _ ltac:(lia) Hp) as Hm.
    assert (size (k ∪ {[p]}) = S (size k)) as Hsz.
    { rewrite size_union, size_singleton; [lia|]. apply disjoint_singleton_r. intros Ha%Hk. lia. }
    specialize (IH _ (k ∪ {[p]}) Hr). rewrite Hsz in IH. cut (S (size k) + length ns < size m)%nat; [lia|]. apply IH.
    intros a [Ha|Ha%elem_of_singleton]%elem_of_union; [destruct (Hk a Ha); split; [lia|done]|]. subst. split; [lia|done].
Qed.

Lemma find_smap_ok fuel m p ns q : modules_at m p ns q -> (length ns < fuel)%nat -> find_smap fuel p m = Ret (q, m).
Proof.
  revert fuel p; induction ns as [|n ns IH]; intros [|f] p Hm Hf; cbn [modules_at length find_smap] in *; try lia.
  - destruct Hm as [-> Ht]. by rewrite (bind_ret _ _ _ _ _ Ht), Z.eqb_refl.
  - destruct Hm as ((tag & Ht & Hne) & Hn & Hr & Hm). rewrite (bind_ret _ _ _ _ _ Ht). destruct (Z.eqb_spec tag SMAP_TAG); [done|].
    rewrite (bind_ret _ _ _ _ _ Hn), u32_small by lia. apply IH; [done|lia].
Qed.

Lemma scan_smap_ok fuel m p rs physfree acc : regions_at m p rs -> (length rs <= fuel)%nat ->
  scan_smap fuel p (p + SIZEOF_SMAP * Z.of_nat (length rs)) physfree acc m = Ret (pick physfree rs acc, m).
Proof.
  revert fuel p acc; induction rs as [|r rs IH]; intros fuel p acc Hr Hf; cbn [regions_at length] in *.
  - destruct fuel; cbn [scan_smap]; (destruct (Z.ltb_spec p (p + SIZEOF_SMAP * Z.of_nat 0)); [unfold SIZEOF_SMAP in *; lia|done]).
  - destruct fuel as [|f]; [lia|]. destruct Hr as (Hb & Hl & Ht & Hr). cbn [scan_smap].
    destruct (Z.ltb_spec p (p + SIZEOF_SMAP * Z.of_nat (S (length rs)))); [|unfold SIZEOF_SMAP in *; lia].
    rewrite (bind_ret _ _ _ _ _ Ht), (bind_ret _ _ _ _ _ Hl), (bind_ret _ _ _ _ _ Hb).
    replace (p + SIZEOF_SMAP * Z.of_nat (S (length rs))) with (p + SIZEOF_SMAP + SIZEOF_SMAP * Z.of_nat (length rs)) by lia.
    rewrite IH by (done || lia). done.
Qed.

Lemma regions_size m p rs : regions_at m p rs -> (length rs <= size m)%nat.
Proof.
  intros Hr. assert (forall (k : gset Z), (forall a, a ∈ k -> a < p /\ is_Some (m !! a)) -> (size k + length rs <= size m)%nat) as H.
  2: { specialize (H ∅). rewrite size_empty in H. apply H. set_solver -. }
  revert p Hr; induction rs as [|r rs IH]; intros p Hr k Hk; cbn [regions_at length] in *.
  - rewrite Nat.add_0_r, <- (size_dom (D := gset Z)). apply subseteq_size. intros a Ha. apply elem_of_dom. by apply Hk.
  - destruct Hr as (Hb & _ & _ & Hr). pose proof (num_mapped _ 8 _ _ ltac:(lia) Hb) as Hm.
    assert (size (k ∪ {[p]}) = S (size k)) as Hsz.
    { rewrite size_union, size_singleton; [lia|]. apply disjoint_singleton_r. intros Ha%Hk. lia. }
    specialize (IH _ Hr (k ∪ {[p]})). rewrite Hsz in IH. cut (S (size k) + length rs <= size m)%nat; [lia|]. apply IH.
    unfold SIZEOF_SMAP. intros a [Ha|Ha%elem_of_singleton]%elem_of_union; [destruct (Hk a Ha); split; [lia|done]|]. subst. split; [lia|done].
Qed.

Lemma find_memory_ok m modulep physfree rs : memory_map m modulep rs ->
  find_memory modulep physfree m = Ret (pick physfree rs (0, 0), m).
Proof.
  intros [(ns & q & Hm & Hn & Hr)]. unfold find_memory, str_fuel, gets. rewrite (bind_ret _ _ _ _ _ eq_refl).
  pose proof (modules_size m modulep ns q ∅ Hm ltac:(set_solver -)) as Hs. rewrite size_empty in Hs.
  pose proof (regions_size _ _ _ Hr).
  rewrite (bind_ret _ _ _ _ _ (find_smap_ok (S (size m)) m modulep ns q Hm ltac:(lia))), (bind_ret _ _ _ _ _ Hn).
  replace (q + SIZEOF_SMAP * Z.of_nat (length rs) + 2 * 4) with (q + 8 + SIZEOF_SMAP * Z.of_nat (length rs)) by lia.
  apply scan_smap_ok; [done|lia].
Qed.

(** ** The allocator after start-up *)

Lemma pick_last physfree rs1 r rs2 acc : holds_kernel physfree r = true -> Forall (fun r' => holds_kernel physfree r' = false) rs2 ->
  pick physfree (rs1 ++ r :: rs2) acc = (r_base r, r_length r).
Proof.
  intros Hr H2. unfold pick. rewrite foldl_app. cbn [foldl]. rewrite Hr. generalize (r_base r, r_length r).
  induction H2 as [|r' rs2 Hr' H2 IH]; intros x; [done|]. cbn [foldl]. by rewrite Hr'.
Qed.

(** From the map of the boot loader to the free list: [start] finds the (last) usable region of the map that holds the end
    of the kernel, page [f], and afterwards the allocator manages exactly the pages from [f] to the end of this
    region; the rest of the kernel's state is as before.  The [memset] clears an eighth of these pages: when the rest
    of them was zero before, they all are afterwards. *)
Lemma start_memory_ok k r0 modulep rs1 r rs2 f :
  let physfree := f * PAGE_SIZE in
  let last := (r_base r + r_length r) / PAGE_SIZE in
  memory_map (mem (con (term k))) modulep (rs1 ++ r :: rs2) ->
  holds_kernel physfree r = true -> Forall (fun r' => holds_kernel physfree r' = false) rs2 ->
  pm (mach k) = physmem_boot r0 -> 0 <= f -> 0 <= r_base r + r_length r < 2 ^ 62 -> f < last <= MAX_PAGES ->
  exists p, start_memory modulep physfree k = Ret (tt, set_mach (set_pm p (mach k)) k) /\ alloc_inv p (seqZ f (last - f)) /\
    ((forall a, physfree + (last - f) * PAGE_SIZE / 8 <= a -> ram_word r0 a = 0) -> forall q, f <= q -> zero_frame (ram p) q).
Proof.
  intros physfree last Hm Hr H2 Hpm Hf Hs Hlast.
  destruct (init_physical_memory_ok f (r_base r) (r_length r) r0 Hf Hs Hlast) as (p & Hrun & Hi). exists p. split_and!; [|done|].
  - unfold start_memory. rewrite (bind_ret _ _ _ _ _ (on_bytes_read _ k _ (find_memory_ok _ _ physfree _ Hm))).
    rewrite pick_last by done. cbn [fst snd]. apply on_mach_ret. rewrite <- Hpm in Hrun. exact (zoom_ret pm set_pm _ (mach k) _ _ Hrun).
  - intros H0 q Hq i Hi'. destruct (init_clears_one_eighth f (r_base r) (r_length r) r0 ((q - f) * 512 + i) Hf Hs Hlast ltac:(lia)) as (p' & Hrun' & Hw).
    assert (p' = p) as -> by congruence. unfold PAGE_SIZE in Hw, physfree. replace (f * 4096 + 8 * ((q - f) * 512 + i)) with (q * 4096 + 8 * i) in Hw by lia.
    rewrite Hw. destruct (Z.ltb_spec (8 * ((q - f) * 512 + i)) ((last - f) * PAGE_SIZE / 8)) as [Hlt|Hge].
    + unfold last, PAGE_SIZE in Hlt. destruct (Z.ltb_spec (8 * ((q - f) * 512 + i)) (((r_base r + r_length r) / 4096 - f) * 4096 / 8)); [done|lia].
    + destruct (_ <? _); [done|]. apply H0. unfold physfree, PAGE_SIZE in *. lia.
Qed.
