(* ===== verification/System.v ===== *)
(** * The whole machine ([boot] of [sys/main.c], [sys/io.c], [sys/pic.c], interrupt handlers)

    The states of the components side by side: descriptor tables, interval timer, keyboard, processes.  The screen is one: timer, keyboard
    and processes work on the console of the terminal.  [boot] initialises the components in order and ends in
    [start]; the handlers of the keyboard and of the timer run on the same state. *)

From S2P Require Import Prelude BitField Descriptors PhysMem Paging CStr Console Timer Terminal Keyboard Vfs Process Boot.

(** [in_ports]: what the devices have for the processor to read; [irq_on]: the interrupt flag. *)
Record system := System {
  sy_gdt : gdt_state;
  sy_idt : idt_state;
  sy_time : Z;
  sy_sleep : Z;
  out_ports : list (Z * Z);
  in_ports : Z -> Z;
  sy_special : Z;
  irq_on : bool;
  loader_stack : Z;
  sy_kern : kern
}.

Definition set_kern (k : kern) (s : system) : system :=
  System (sy_gdt s) (sy_idt s) (sy_time s) (sy_sleep s) (out_ports s) (in_ports s) (sy_special s) (irq_on s) (loader_stack s) k.
Definition set_gdt (g : gdt_state) (s : system) : system :=
  System g (sy_idt s) (sy_time s) (sy_sleep s) (out_ports s) (in_ports s) (sy_special s) (irq_on s) (loader_stack s) (sy_kern s).
Definition set_idt (i : idt_state) (s : system) : system :=
  System (sy_gdt s) i (sy_time s) (sy_sleep s) (out_ports s) (in_ports s) (sy_special s) (irq_on s) (loader_stack s) (sy_kern s).
Definition set_irq_on (b : bool) (s : system) : system :=
  System (sy_gdt s) (sy_idt s) (sy_time s) (sy_sleep s) (out_ports s) (in_ports s) (sy_special s) b (loader_stack s) (sy_kern s).
Definition set_loader_stack (x : Z) (s : system) : system :=
  System (sy_gdt s) (sy_idt s) (sy_time s) (sy_sleep s) (out_ports s) (in_ports s) (sy_special s) (irq_on s) x (sy_kern s).
Definition set_in_ports (f : Z -> Z) (s : system) : system :=
  System (sy_gdt s) (sy_idt s) (sy_time s) (sy_sleep s) (out_ports s) f (sy_special s) (irq_on s) (loader_stack s) (sy_kern s).

(** The timer's part of the system, with the shared console. *)
Definition timer_of (s : system) : timer := Timer (sy_time s) (sy_sleep s) (out_ports s) (con (term (sy_kern s))).
Definition set_timer (t : timer) (s : system) : system :=
  System (sy_gdt s) (sy_idt s) (time_since_boot t) (sleep_val t) (ports t) (in_ports s) (sy_special s) (irq_on s) (loader_stack s)
    (set_term (set_con (tcon t) (term (sy_kern s))) (sy_kern s)).

(** The keyboard's part, with the shared terminal. *)
Definition kbd_of (s : system) : kbd := Kbd (term (sy_kern s)) (sy_special s).
Definition set_kbd (k : kbd) (s : system) : system :=
  System (sy_gdt s) (sy_idt s) (sy_time s) (sy_sleep s) (out_ports s) (in_ports s) (specialChars k) (irq_on s) (loader_stack s)
    (set_term (Keyboard.term k) (sy_kern s)).

Definition on_kern {A} (c : M kern A) : M system A := zoom sy_kern set_kern c.
Definition on_gdt {A} (c : M gdt_state A) : M system A := zoom sy_gdt set_gdt c.
Definition on_idt {A} (c : M idt_state A) : M system A := zoom sy_idt set_idt c.
Definition on_timer {A} (c : M timer A) : M system A := zoom timer_of set_timer c.
Definition on_kbd {A} (c : M kbd A) : M system A := zoom kbd_of set_kbd c.

(** ** Ports and interrupts *)

(** One [inb]. *)
Definition input_b (p : Z) : M system Z := gets (fun s => u8 (in_ports s (u16 p))).

(** One [inl] and one [outl]; no driver of the kernel uses them. *)
Definition input_l (p : Z) : M system Z := gets (fun s => u32 (in_ports s (u16 p))).
Definition output_l (p v : Z) : M system unit := modify (fun s =>
  System (sy_gdt s) (sy_idt s) (sy_time s) (sy_sleep s) (out_ports s ++ [(u16 p, u32 v)]) (in_ports s) (sy_special s) (irq_on s) (loader_stack s)
    (sy_kern s)).

Definition KB_CNTRL_ADDRESS : Z := 0x60.
Definition getScancode : M system Z := input_b KB_CNTRL_ADDRESS.

Definition keyboard_intr_handler {L : Literals} : M system unit :=
  sc ← getScancode; on_kbd (printAscii sc) ≫= fun _ => on_timer (output_b PIC_M_CR PIC_EOI).

Definition timer_intr_handler : M system unit := on_timer pit_intr_handler.

(** ** Boot *)

(** The bodies of these two functions are comments. *)
Definition init_pic : M system unit := mret tt.
Definition init_keyboard : M system unit := mret tt.

(** [cli], and [sti] in [_x86_load_idt]. *)
Definition set_interrupts (b : bool) : M system unit := modify (set_irq_on b).

(** [boot]: [rsp] is the stack of the boot loader, [tss] and [a] are the addresses of the task state segment and of the interrupt code. *)
Definition boot {LD : Loader} {PS : ProcSymbols} {VS : VfsSymbols} (rsp tss : Z) (a : stubs) (str_init kernmem physbase : Z) : M system Z :=
  set_interrupts false ≫= fun _ =>
  modify (set_loader_stack rsp) ≫= fun _ =>
  on_gdt (init_gdt tss) ≫= fun _ =>
  (on_idt (init_idt a) ≫= fun _ => set_interrupts true) ≫= fun _ =>
  on_timer init_pit ≫= fun _ =>
  init_pic ≫= fun _ =>
  on_kern (on_bytes (resetVideoMemory 32 7)) ≫= fun _ =>
  init_keyboard ≫= fun _ =>
  ls ← gets loader_stack;
  modulep ← on_kern (on_bytes (ld_le 4 (ls + 4 * 3)));
  physfree ← on_kern (on_bytes (ld_le 4 (ls + 4 * 4)));
  on_kern (start str_init kernmem (u64 (modulep + kernmem - physbase)) physbase physfree).

(** ** A key press *)

(** C24: The interrupt of the keyboard is safe: whatever the scan code at the port and the state of the modifiers, while the terminal buffer
    is not full the handler returns, keeps the invariant of keyboard, terminal and console, adds at most one character,
    writes no memory but its variables and the screen, tells the interrupt controller that it is done, and leaves memory management,
    processes, files and the clock as they were. *)
Theorem keyboard_interrupt_safe {L : Literals} s :
  kbd_inv (kbd_of s) -> index (term (sy_kern s)) < TERM_BUF_SIZE ->
  exists s', keyboard_intr_handler s = Ret (tt, s') /\ kbd_inv (kbd_of s') /\
    index (term (sy_kern s')) <= index (term (sy_kern s)) + 1 /\
    video_only (mem (con (term (sy_kern s)))) (mem (con (term (sy_kern s')))) /\
    out_ports s' = out_ports s ++ [(PIC_M_CR, PIC_EOI)] /\
    sy_kern s' = set_term (term (sy_kern s')) (sy_kern s) /\
    sy_time s' = sy_time s /\ sy_sleep s' = sy_sleep s.
Proof.
  intros Hinv Hi. set (sc := u8 (in_ports s 0x60)). assert (0 <= sc < 256) as Hsc by (apply Z.mod_pos_bound; done).
  destruct (printAscii_safe (kbd_of s) sc Hinv Hsc Hi) as (k & R & Hk & Hix & Hv). set (s1 := set_kbd k s).
  exists (set_timer (Timer (sy_time s1) (sy_sleep s1) (out_ports s1 ++ [(PIC_M_CR, PIC_EOI)]) (con (term (sy_kern s1)))) s1). split.
  - unfold keyboard_intr_handler. rewrite (bind_ret _ _ _ sc s) by reflexivity.
    by rewrite (bind_ret _ _ _ tt s1) by exact (zoom_ret kbd_of set_kbd _ s tt _ R).
  - destruct k as [[kc kb ki] ks]. by split_and!.
Qed.

Definition quiet_kern (t : tty) : kern := Kern (Machine (physmem_boot ∅) 0 0 0) ∅ ∅ ∅ 0 [] t (VfsState ∅ ∅ 0 0 0 0) 0.

(** A machine at whose keyboard a key was pressed. *)
Definition demo_system (sc : Z) : system :=
  System (GdtState gdt_init 0) (IdtState [] 0 0) 0 0 [] (fun _ => sc) 0 true 0 (quiet_kern (demo_tty 0)).

Lemma keyboard_interrupt_safe_witness : exists s',
  @keyboard_intr_handler demo_literals (demo_system 0x1E) = Ret (tt, s') /\ out_ports s' = [(0x20, 0x20)].
Proof.
  destruct (@keyboard_interrupt_safe demo_literals (demo_system 0x1E)) as (s' & R & _ & _ & _ & Hp & _).
  - apply (demo_kbd_inv 0). by split.
  - by vm_compute.
  - exists s'. split; [exact R|exact Hp].
Defined.
