(* ===== verification/BootSpec.v ===== *)
(** * From the boot loader to the first program

    [start] ([sys/main.c]) as a whole: the allocator on the memory of the machine, the page tables of the kernel, the idle process and
    the process of the first program; and the first step of the scheduler, which gives the processor to that program. *)

From S2P Require Import Prelude BitField Descriptors Timer Keyboard PhysMem Paging PageTable PagingSpec Cow MapRange VaMem Image KernelMap CStr Console Terminal Tarfs Vfs.
From S2P Require Import Process Elf ProcessSpec UserMem ElfSpec ExecSpec ForkSpec FilesSpec CreateSpec ExitSpec Boot System.

(** The address space of [init_paging] satisfies what the other components start from. *)
Lemma first_space_ready root b e m l : first_space root b e m l -> 0 ∉ l -> ready [root] m l.
Proof. intros [Hi Hc Hk _ _] H0. split; [done|rewrite Hc; by left|done|done]. Qed.

(** Identifiers that are given out in a table without a used one. *)
Lemma first_pid n ps : pid_taken (replicate (Z.to_nat MAX_P) 0) n ps -> n = 1 /\ ps = <[1%nat := 1]> (replicate (Z.to_nat MAX_P) 0).
Proof.
  assert (replicate (Z.to_nat MAX_P) 0 !! 1%nat = Some 0) as H1 by (apply lookup_replicate; split; [done|unfold MAX_P; lia]).
  intros [(Hn & _ & Hk & ->)|(Hk & _)].
  - assert (n = 1) as ->; [|done]. destruct (decide (n = 1)) as [|Hne]; [done|]. destruct (Hk 1); [lia|exact H1].
  - destruct (Hk 1); [unfold MAX_P; lia|exact H1].
Qed.

Lemma second_pid n ps : pid_taken (<[1%nat := 1]> (replicate (Z.to_nat MAX_P) 0)) n ps -> n = 2.
Proof.
  set (l := <[1%nat := 1]> _). assert (l !! 1%nat = Some 1) as H1 by (apply list_lookup_insert_eq; rewrite length_replicate; unfold MAX_P; lia).
  assert (l !! 2%nat = Some 0) as H2 by (unfold l; rewrite list_lookup_insert_ne by done; apply lookup_replicate; split; [done|unfold MAX_P; lia]).
  intros [(Hn & Hz & Hk & _)|(Hk & _)].
  - destruct (decide (n = 2)) as [|Hne]; [done|]. destruct (decide (n = 1)) as [->|Hne1].
    + change (Z.to_nat 1) with 1%nat in Hz. congruence.
    + destruct (Hk 2); [lia|exact H2].
  - destruct (Hk 2); [unfold MAX_P; lia|exact H2].
Qed.

Section boot.
Context {PS : ProcSymbols} {VS : VfsSymbols}.

Lemma create_input_term s s' b0 fn dir base loc entry hs : term s' = term s ->
  create_input s b0 fn dir base loc entry hs -> create_input s' b0 fn dir base loc entry hs.
Proof. intros E [H1 H2 H3 H4 H5 H6 H7 H8 H9 H10]. rewrite <- E in H1, H10. by split. Qed.

(** The memory of the machine: the map of the boot loader has a region [r] around the end of the kernel, page [f]; the kernel starts at
    page [b].  Page tables and the pages of programs are taken without clearing them, and the [memset] of the allocator clears the first
    eighth of the free pages: what lies behind that eighth has to be zero when the machine starts. *)
Record boot_memory (k : kern) (modulep : Z) (r : region) (b f : Z) : Prop := {
  bm_map : exists rs1 rs2, memory_map (mem (con (term k))) modulep (rs1 ++ r :: rs2) /\
    Forall (fun r' => holds_kernel (f * PAGE_SIZE) r' = false) rs2;
  bm_region : holds_kernel (f * PAGE_SIZE) r = true;
  bm_kernel : 0 <= b <= f /\ 0 < f;
  bm_size : 0 <= r_base r + r_length r < 2 ^ 62 /\ f < (r_base r + r_length r) / PAGE_SIZE <= MAX_PAGES;
  bm_zero : exists r0, pm (mach k) = physmem_boot r0 /\
    forall a, f * PAGE_SIZE + ((r_base r + r_length r) / PAGE_SIZE - f) * PAGE_SIZE / 8 <= a -> ram_word r0 a = 0
}.

Definition boot_pages (gs : list segment) (last : Z) : Z := 8 + last / 512 + 4 * pages_for SIZEOF_KTHREAD + 8 + create_pages gs.

(** The allocator and the page tables. *)
Lemma start_paging_ok k modulep r b f : boot_memory k modulep r b f ->
  MIN_PAGES + 8 + (r_base r + r_length r) / PAGE_SIZE / 512 <= (r_base r + r_length r) / PAGE_SIZE - f ->
  exists p m l, start_memory modulep (f * PAGE_SIZE) k = Ret (tt, set_mach (set_pm p (mach k)) k) /\
    init_paging (kva b) (b * PAGE_SIZE) (f * PAGE_SIZE) (set_pm p (mach k)) = Ret (tt, m) /\ ready [f * PAGE_SIZE] m l /\
    Forall (fun q => f < q < MAX_PAGES) l /\
    (r_base r + r_length r) / PAGE_SIZE - f <= Z.of_nat (length l) + 8 + (r_base r + r_length r) / PAGE_SIZE / 512.
Proof.
  intros [(rs1 & rs2 & Hmap & H2) Hr [Hb Hf] [Hs Hlast] (r0 & Hpm & H0)] Hroom. set (last := (r_base r + r_length r) / PAGE_SIZE) in *.
  destruct (start_memory_ok k r0 modulep rs1 r rs2 f Hmap Hr H2 Hpm ltac:(lia) Hs Hlast) as (p & R1 & Hal & Hz). fold last in Hal. specialize (Hz H0).
  set (l := seqZ (f + 1) (last - f - 1)). assert (seqZ f (last - f) = f :: l) as El.
  { unfold l. rewrite (seqZ_cons f) by lia. f_equal; lia. }
  assert (Z.of_nat (length l) = last - f - 1) as Ll by (unfold l; rewrite length_seqZ; lia).
  assert (f + Z.of_nat (length l) = last - 1) as Et by lia.
  assert (0 <= last / 512 - (last - 1) / 512) as Hd by div_lia. assert (0 <= (last - 1) / 512) by div_lia.
  rewrite El in Hal. destruct (init_paging_maps_memory (set_pm p (mach k)) f l b f Hal) as (m & l' & e & R2 & Hfs & Hsub & _ & Hlen).
  - intros q Hq. apply Hz. rewrite <- El in Hq. apply elem_of_seqZ in Hq. lia.
  - lia.
  - cbn [length]. lia.
  - rewrite Et. lia.
  - assert (Forall (fun q => f < q < MAX_PAGES) l') as Hall.
    { apply List.Forall_forall. intros q Hq%list_elem_of_In. apply (suffix_elem _ _ _ Hsub), elem_of_seqZ in Hq. lia. }
    exists p, m, l'. split_and!; try done; [|rewrite Et in Hlen; lia].
    eapply first_space_ready; [exact Hfs|]. intros Hin. rewrite List.Forall_forall in Hall. apply list_elem_of_In, Hall in Hin. lia.
Qed.
(** Two processes: the idle process, which runs, and the first program, which waits. *)
Record first_processes (k : kern) (idle : Z) (ti : kthread) (np : Z) (t : kthread) (entry : Z) (dir : list Z) (gs : list segment) : Prop := {
  fp_ring : ring k [idle; np];
  fp_idle : threads k !! idle = Some ti;
  fp_idle_runs : state ti = RUNNING /\ pid ti = 1 /\ rip ti = fn_init_scheduler /\ cr3_ ti = cr3 (mach k);
  fp_init : threads k !! np = Some t;
  fp_init_waits : state t = QUEUED /\ pid t = 2 /\ rip t = entry /\ exists s0, cwd t = dir_cwd (left_over s0) np dir;
  fp_only : forall q, q <> idle -> q <> np -> threads k !! q = None;
  fp_spaces : exists l, ready [cr3_ t; cr3_ ti] (mach k) l;
  fp_image : image_loaded (set_cr3 (cr3_ t) (mach k)) gs
}.

Lemma start_ok k modulep r b f b0 fn dir base loc entry hs : let last := (r_base r + r_length r) / PAGE_SIZE in
  boot_memory k modulep r b f -> threads k = ∅ -> stdin_fo (openf k) = 0 -> stdout_fo (openf k) = 0 ->
  create_input k b0 fn dir base loc entry hs -> MIN_PAGES + boot_pages (segments hs) last <= last - f ->
  exists k' idle ti np t, start (LD := elf_loader) fn (kva b) modulep (b * PAGE_SIZE) (f * PAGE_SIZE) k = Ret (idle, k') /\
    first_processes k' idle ti np t entry dir (segments hs).
Proof.
  intros last Hbm HT Hin Hout Hci Hroom. pose proof (pages_needed_pos _ (ly_segments _ (ci_layout _ _ _ _ _ _ _ _ Hci))) as Hpp.
  unfold boot_pages, create_pages in Hroom. change (pages_for SIZEOF_KTHREAD) with 9 in Hroom.
  destruct (start_paging_ok k modulep r b f Hbm) as (p & m & l & R1 & R2 & Hr & Hall & Hl); [fold last; lia|]. fold last in Hl.
  set (k1 := set_mach (set_pm p (mach k)) k) in *. set (k2 := set_mach m k1).
  set (k3 := set_processes (replicate (Z.to_nat MAX_P) 0) k2).
  destruct (init_idle_process_ok [f * PAGE_SIZE] k3 l Hr) as (pi & k4 & ti & l4 & R4 & Hid & Hr4 & S4 & Hpi & Hpi4 & L4);
    [cbn [processes k3 set_processes]; rewrite length_replicate; unfold MAX_P; lia|done|done|change (pages_for SIZEOF_KTHREAD) with 9; lia|].
  change (pages_for SIZEOF_KTHREAD) with 9 in L4. destruct Hid as [T4 C4 N4 S4' E4 [G4 G4'] P4 M4 O4].
  pose proof (bm_kernel _ _ _ _ _ Hbm) as [_ Hf0]. apply first_pid in P4 as [Ep Eps]. rewrite List.Forall_forall in Hall.
  assert (threads k4 !! kva pi = Some ti) as Hti by (rewrite T4; apply lookup_insert_eq).
  destruct (create_process_ok [f * PAGE_SIZE] k4 l4 (kva pi) ti b0 fn dir base loc entry hs C4 Hti Hr4) as (k5 & np & t & l5 & R5 & Hcr & Hr5 & S5).
  - intros q Hq. rewrite T4. simpl. rewrite HT, lookup_insert_ne; [done|]. intros Heq. apply kva_inj in Heq; [by subst| |].
    + apply list_elem_of_In, Hall in Hpi. lia.
    + apply (suffix_elem _ _ _ S4), list_elem_of_In, Hall in Hq. lia.
  - rewrite Eps, length_insert, length_replicate. unfold MAX_P. lia.
  - exact O4.
  - eapply create_input_term; [|exact Hci]. by rewrite M4.
  - unfold create_pages. change (pages_for SIZEOF_KTHREAD) with 9. lia.
  - destruct Hcr as [[Hne Hnew] T5 C5 St5 N5 P5 W5 F5 [E5 _] G5 I5]. rewrite Eps in P5. apply second_pid in P5.
    exists k5, (kva pi), (with_next np ti), np, t. split.
    + unfold start. rewrite (bind_ret _ _ _ _ _ R1). rewrite (bind_ret _ _ _ _ _ (on_mach_ret _ k1 _ _ R2)). fold k2.
      rewrite (bind_ret _ _ _ tt k3) by reflexivity. by rewrite (bind_ret _ _ _ _ _ R4), (bind_ret _ _ _ _ _ R5).
    + assert (threads k5 !! np = Some t) as Hnp by (rewrite T5; apply lookup_insert_eq).
      assert (threads k5 !! kva pi = Some (with_next np ti)) as Hidle by (rewrite T5, lookup_insert_ne by done; apply lookup_insert_eq).
      split; try done.
      * split; [by rewrite C5| |].
        -- rewrite C5. split; [by exists (with_next np ti)|]. split; [by exists t|done].
        -- apply list.NoDup_cons. split; [by intros ?%list_elem_of_singleton|apply NoDup_singleton].
      * simpl. split_and!; try done. rewrite G5, G4'. exact G4.
      * intros q Hq1 Hq2. rewrite T5, !lookup_insert_ne, T4, lookup_insert_ne by done. simpl. by rewrite HT.
      * exists l5. simpl. rewrite G4. pose proof (rd_root _ _ _ Hr) as Hm%list_elem_of_singleton. change (cr3 (mach k3)) with (cr3 m). by rewrite Hm.
Qed.
(** ** The scheduler's first step *)

(** The first program has the processor: its page tables are loaded and its image is in its memory. *)
Record program_runs (k : kern) (np idle : Z) (gs : list segment) : Prop := {
  pg_ring : ring k [np; idle];
  pg_running : in_state k RUNNING np;
  pg_stack : Process.tss_rsp0 k = kstack_top np;
  pg_image : image_loaded (mach k) gs
}.

Lemma first_schedule k idle ti np t entry dir gs : first_processes k idle ti np t entry dir gs ->
  exists k', init_scheduler (LD := elf_loader) 1 k = Ret (tt, k') /\ program_runs k' np idle gs.
Proof.
  intros [Hr Hi [Si _] Hn [Sn _] _ _ Him].
  assert (~ in_state k QUEUED idle) as Hq by (intros (x & Hx & Hs); rewrite Hx in Hi; injection Hi as ->; congruence).
  destruct (switch_process_ok (LD := elf_loader) k idle [] np [] Hr Hq) as (k' & R & Hr' & _ & HT & _ & _ & Hk & Hm);
    [constructor|by exists t|]. exists k'. split.
  - cbn [init_scheduler]. rewrite (bind_ret _ _ _ tt k'); [reflexivity|]. unfold scheduler. rewrite (bind_ret _ _ _ tt k); [exact R|]. apply (wait_all_ok k idle [np] Hr).
    intros q u ->%list_elem_of_singleton Hu. rewrite Hn in Hu. injection Hu as <-. congruence.
  - split; [exact Hr'| |exact Hk|by rewrite (Hm t Hn)]. exists (switched idle np (threads k) np t). split; [by apply HT|].
    rewrite switched_state. by rewrite decide_True.
Qed.
(** ** [boot] *)

(** What the boot loader leaves: [b1] is the memory once the screen is cleared, the two words above the stack [rsp] lead to the memory map and
    to the end of the kernel. *)
Record boot_input (s : system) (b1 : bytes) (rsp tss : Z) (a : stubs) (r : region) (b f : Z) : Prop := {
  bi_screen : resetVideoMemory 32 7 (mem (con (Process.term (sy_kern s)))) = Ret (tt, b1);
  bi_gdt : length (gdt (sy_gdt s)) = MAX_GDT /\ 0 <= tss < 2 ^ 64;
  bi_stubs : stubs_ok a;
  bi_loader : exists modphys, num_at b1 4 (rsp + 12) modphys /\ num_at b1 4 (rsp + 16) (f * PAGE_SIZE) /\
    boot_memory (with_mem b1 (sy_kern s)) (u64 (modphys + KERNEL_BASE)) r b f;
  bi_fresh : threads (sy_kern s) = ∅ /\ stdin_fo (openf (sy_kern s)) = 0 /\ stdout_fo (openf (sy_kern s)) = 0
}.

(** The tables and the devices after [boot]. *)
Record devices_ready (s s' : system) (tss : Z) (a : stubs) : Prop := {
  dr_gates : forall v, 0 <= v < 256 -> hw_interrupt (sy_idt s') v = (fun hd => HwGate hd.1 8 hd.2 14) <$> handler_of a v;
  dr_tss : exists x, sd_bits (gdt (sy_gdt s')) 6 = Some x /\ hw_system x = HwSegment tss (SIZEOF_TSS - 1) 9 0 true;
  dr_irq : irq_on s' = true;
  dr_ports : out_ports s' = out_ports s ++ [(0x43, 0x36); (0x40, 0x9B); (0x40, 0x2E)]
}.

Lemma timer_started g i tm sl po ip sp irq ls k :
  on_timer init_pit (System g i tm sl po ip sp irq ls k) = Ret (tt, System g i tm sl (po ++ [(0x43, 0x36); (0x40, 0x9B); (0x40, 0x2E)]) ip sp irq ls k).
Proof.
  set (s := System _ _ _ _ _ _ _ _ _ _). assert (init_pit (timer_of s) = Ret (tt, Timer tm sl (po ++ [(0x43, 0x36); (0x40, 0x9B); (0x40, 0x2E)]) (con (Process.term k)))) as R.
  { unfold init_pit, output_b, modify, mbind, M_bind. simpl. by rewrite <- !app_assoc. }
  unfold on_timer. rewrite (zoom_ret timer_of set_timer _ s _ _ R). destruct k as [? ? ? ? ? ? [] ? ?]. reflexivity.
Qed.

Lemma boot_ok s b1 rsp tss a r b f b0 fn dir base loc entry hs : let last := (r_base r + r_length r) / PAGE_SIZE in
  boot_input s b1 rsp tss a r b f -> create_input (with_mem b1 (sy_kern s)) b0 fn dir base loc entry hs ->
  MIN_PAGES + boot_pages (segments hs) last <= last - f ->
  exists s' idle ti np t, boot (LD := elf_loader) rsp tss a fn (kva b) (b * PAGE_SIZE) s = Ret (idle, s') /\ devices_ready s s' tss a /\
    first_processes (sy_kern s') idle ti np t entry dir (segments hs) /\
    exists k, init_scheduler (LD := elf_loader) 1 (sy_kern s') = Ret (tt, k) /\ program_runs k np idle (segments hs).
Proof.
  intros last [Hscr [Hg Ht] Hst (mo & H3 & H4 & Hbm) (HT & Hi & Ho)] Hci Hl.
  destruct (start_ok _ _ r b f b0 fn dir base loc entry hs Hbm HT Hi Ho Hci Hl) as (k & idle & ti & np & t & Rs & Hfp).
  destruct (init_gdt_tss (sy_gdt s) tss Hg Ht) as (g & x & Rg & Hx1 & Hx2 & _).
  destruct (init_idt_gates a (sy_idt s) Hst) as (i & Ri & _ & Hgates).
  set (po := out_ports s ++ [(0x43, 0x36); (0x40, 0x9B); (0x40, 0x2E)]).
  set (s1 := System g i (sy_time s) (sy_sleep s) (out_ports s) (in_ports s) (sy_special s) true rsp (sy_kern s)).
  set (s2 := System g i (sy_time s) (sy_sleep s) po (in_ports s) (sy_special s) true rsp (with_mem b1 (sy_kern s))).
  exists (set_kern k s2), idle, ti, np, t. split_and!; [|by split; [|exists x|..]|exact Hfp|exact (first_schedule _ _ _ _ _ _ _ _ Hfp)].
  unfold boot, set_interrupts. do 2 rewrite (bind_ret _ _ _ _ _ eq_refl). set (s0 := set_loader_stack rsp (set_irq_on false s)).
  rewrite (bind_ret _ _ _ tt (set_gdt g s0)) by exact (zoom_ret sy_gdt set_gdt _ s0 tt g Rg).
  rewrite (bind_ret _ _ _ tt s1) by (rewrite (bind_ret _ _ _ tt (set_idt i (set_gdt g s0))) by exact (zoom_ret sy_idt set_idt _ (set_gdt g s0) tt i Ri); reflexivity).
  unfold s1 at 1. rewrite (bind_ret _ _ _ _ _ (timer_started _ _ _ _ _ _ _ _ _ _)). rewrite (bind_ret _ _ _ _ _ eq_refl).
  set (s1' := System _ _ _ _ _ _ _ _ _ _). rewrite (bind_ret _ _ _ tt s2) by exact (zoom_ret sy_kern set_kern _ s1' tt _ (on_bytes_ret _ (sy_kern s1') _ _ Hscr)).
  do 2 rewrite (bind_ret _ _ _ _ _ eq_refl). cbn [loader_stack s2].
  change (rsp + 4 * 3) with (rsp + 12). change (rsp + 4 * 4) with (rsp + 16).
  rewrite (bind_ret _ _ _ mo s2) by exact (zoom_ret sy_kern set_kern _ s2 mo _ (on_bytes_read _ (sy_kern s2) _ H3)).
  rewrite (bind_ret _ _ _ (f * PAGE_SIZE) s2) by exact (zoom_ret sy_kern set_kern _ s2 _ _ (on_bytes_read _ (sy_kern s2) _ H4)).
  replace (mo + kva b - b * PAGE_SIZE) with (mo + KERNEL_BASE).
  - exact (zoom_ret sy_kern set_kern _ s2 idle k Rs).
  - destruct (bm_kernel _ _ _ _ _ Hbm), (bm_size _ _ _ _ _ Hbm). unfold kva, PAGE_SIZE, MAX_PAGES, KERNEL_BASE in *. rewrite u64_small by lia. lia.
Qed.

(** C11: The machine boots: from what the boot loader leaves, with memory that is zero behind the eighth of the free pages that
    [init_physical_memory] clears (the eighth itself may hold anything), [boot] clears the screen, installs the descriptor tables and the timer, and ends
    with two processes, the idle process and the first program, queued with its image in its own address space; the first iteration of
    the idle process gives it the processor. *)
Theorem machine_boots s b1 rsp tss a r b f b0 fn dir base loc entry hs : let last := (r_base r + r_length r) / PAGE_SIZE in
  boot_input s b1 rsp tss a r b f -> create_input (with_mem b1 (sy_kern s)) b0 fn dir base loc entry hs ->
  MIN_PAGES + boot_pages (segments hs) last <= last - f ->
  exists s' idle ti np t, boot (LD := elf_loader) rsp tss a fn (kva b) (b * PAGE_SIZE) s = Ret (idle, s') /\ devices_ready s s' tss a /\
    first_processes (sy_kern s') idle ti np t entry dir (segments hs) /\
    exists k, init_scheduler (LD := elf_loader) 1 (sy_kern s') = Ret (tt, k) /\ program_runs k np idle (segments hs).
Proof. apply boot_ok. Qed.
End boot.

(** ** Witness *)

(** A module of one word, then a map of two regions: a reserved one, and 800 KB of memory. *)
Definition demo_modules : list Z :=
  [1; 0; 0; 0; 1; 0; 0; 0; 7; 7; 7; 7] ++ [1; 0x90; 0; 0; 40; 0; 0; 0] ++
  replicate 8 0 ++ [0; 16; 0; 0; 0; 0; 0; 0] ++ [2; 0; 0; 0] ++ replicate 8 0 ++ [0; 128; 12; 0; 0; 0; 0; 0] ++ [1; 0; 0; 0].

(** The archive with the first program, the stack of the boot loader at 3000, the modules at KERNEL_BASE + 0x3000. *)
Definition demo_loaded : bytes :=
  write_bytes (KERNEL_BASE + 0x3000) demo_modules (write_bytes 3000 (replicate 12 0 ++ le_bytes 4 0x3000 ++ le_bytes 4 8192)
    (write_bytes 2400 (replicate 128 0) create_memory)).

(** Words at the end of the kernel hold something. *)
Definition demo_ram : gmap Z Z := <[8192 := 7]> (<[12288 := 0xdead]> ∅).

Definition demo_boot_system : system :=
  System (GdtState gdt_init 0) (IdtState [] 0 0) 0 0 [] (fun _ => 0) 0 true 0 (set_mach (Machine (physmem_boot demo_ram) 0 0 0) (set_openf demo_vfs (quiet_kern (Tty (screen_over demo_loaded 0) [] 0)))).

Definition demo_screen : bytes := match resetVideoMemory 32 7 (mem (screen_over demo_loaded 0)) with Ret (_, m) => m | _ => ∅ end.

Lemma demo_screen_cleared : resetVideoMemory 32 7 (mem (screen_over demo_loaded 0)) = Ret (tt, demo_screen).
Proof.
  unfold demo_screen. destruct (resetVideoMemory_ok (mem (screen_over demo_loaded 0)) 32 7) as (m & R & _); [|by rewrite R].
  intros i Hi. cbn [mem screen_over]. rewrite write_bytes_lookup, length_replicate, decide_True by (change SCREEN with 3840 in Hi; lia).
  apply lookup_lt_is_Some_2. rewrite length_replicate. change SCREEN with 3840 in Hi. lia.
Qed.

Lemma demo_map : memory_map demo_screen (KERNEL_BASE + 0x3000) ([Region 0 4096 2] ++ Region 0 819200 1 :: []).
Proof.
  split. exists [1], (KERNEL_BASE + 0x3000 + 12). split_and!.
  - split; [exists 1; split; [apply ld_le_eval; vm_compute; reflexivity|discriminate]|].
    split; [apply ld_le_eval; vm_compute; reflexivity|]. split; [lia|]. split; [reflexivity|]. apply ld_le_eval. vm_compute. reflexivity.
  - apply ld_le_eval. vm_compute. reflexivity.
  - cbn [app regions_at r_base r_length r_type]. split_and!; [..|exact I]; apply ld_le_eval; vm_compute; reflexivity.
Qed.

Lemma demo_boot_input : boot_input demo_boot_system demo_screen 3000 0xffffffff80400000 demo_stubs (Region 0 819200 1) 1 2.
Proof.
  split.
  - exact demo_screen_cleared.
  - split; [reflexivity|lia].
  - split; vm_compute; split; congruence.
  - exists 0x3000. split_and!; [apply ld_le_eval; vm_compute; reflexivity|apply ld_le_eval; vm_compute; reflexivity|]. split.
    + exists [Region 0 4096 2], []. split; [exact demo_map|constructor].
    + reflexivity.
    + lia.
    + split; [cbn [r_base r_length]; lia|]. vm_compute. split; [reflexivity|discriminate].
    + exists demo_ram. split; [reflexivity|]. cbn [r_base r_length]. intros a Ha. unfold ram_word, demo_ram.
      change (8192 + 101376 <= a) in Ha. by rewrite !lookup_insert_ne by lia.
  - split_and!; reflexivity.
Qed.

Lemma machine_boots_witness : exists s' idle ti np t k,
  boot (LD := @elf_loader create_symbols) (PS := create_symbols) (VS := demo_vfs_symbols) 3000 0xffffffff80400000 demo_stubs 100 (kva 1) (1 * PAGE_SIZE) demo_boot_system = Ret (idle, s') /\
  first_processes (PS := create_symbols) (sy_kern s') idle ti np t 0x400011 [100] [demo_segment] /\
  init_scheduler (LD := @elf_loader create_symbols) (PS := create_symbols) (VS := demo_vfs_symbols) 1 (sy_kern s') = Ret (tt, k) /\ ring k [np; idle] /\ ld8_va 0x400011 (mach k) = Ret (9, mach k).
Proof.
  destruct (machine_boots (PS := create_symbols) (VS := demo_vfs_symbols) demo_boot_system demo_screen 3000 0xffffffff80400000 demo_stubs (Region 0 819200 1) 1 2 create_memory 100 [100] [112]
    1024 0x400011 [None; Some demo_segment] demo_boot_input) as (s' & idle & ti & np & t & R & _ & Hf & k & Rk & Hk).
  - apply create_input_demo; [apply sub_check|apply spare_check]; vm_compute; reflexivity.
  - vm_compute. discriminate.
  - exists s', idle, ti, np, t, k. split_and!; [exact R|exact Hf|exact Rk|apply Hk|].
    apply (im_segments _ _ (pg_image _ _ _ _ Hk) demo_segment 1); [by left|reflexivity].
Defined.
