(* ===== verification/Reach.v ===== *)
(** * Runs of the machine

    The steps that a booted machine makes, in any order: system calls, iterations of calls that wait, page faults, stores of
    programs, the interrupts of keyboard and timer, the loop of the idle process.  Every state that such a run reaches is
    well formed. *)

From S2P Require Import Prelude BitField Descriptors Timer Keyboard PhysMem Paging Image VaMem CStr Console Terminal Tarfs Vfs Process KernInv.
From S2P Require Import Elf ProcessSpec Syscalls SyscallsSpec ElfSpec ExecSpec ForkSpec FilesSpec CreateSpec Boot System BootSpec.

(** ** State *)

(** The machine, the open directory streams, and for each process that is inside a call what it waits for. *)
Record node := Node {
  sys : system;
  streams : gmap Z dir_header;
  calls : gmap Z sys_result
}.

Definition set_sys (x : system) (n : node) : node := Node x (streams n) (calls n).
Definition set_calls (c : gmap Z sys_result) (n : node) : node := Node (sys n) (streams n) c.
Definition kern_of (n : node) : kern := sy_kern (sys n).

(** The part that system calls work on. *)
Definition sysk_of (n : node) : sysk :=
  Sysk (kern_of n) (streams n) (sy_time (sys n)) (sy_sleep (sys n)) (out_ports (sys n)).
Definition put_sysk (k : sysk) (n : node) : node :=
  let s := sys n in
  Node (System (sy_gdt s) (sy_idt s) (clock k) (sleeping k) (port_log k) (in_ports s) (sy_special s) (irq_on s) (loader_stack s) (kn k))
    (dirs k) (calls n).

Definition on_sysk {A} (c : M sysk A) : M node A := zoom sysk_of put_sysk c.
Definition on_sys {A} (c : M system A) : M node A := zoom sys set_sys c.
Definition on_node {A} (c : M kern A) : M node A := on_sys (on_kern c).

(** A call that returns, or whose process has entered a new program, is over. *)
Definition keep_call (p : Z) (r : sys_result) (m : gmap Z sys_result) : gmap Z sys_result :=
  match r with Done _ | Entered => delete p m | _ => <[p := r]> m end.

Section runs.
Context {LD : Loader} {PS : ProcSymbols} {VS : VfsSymbols} {L : Literals} {SS : SysSymbols}.

(** ** Steps *)

(** The current process makes a system call. *)
Definition enter_call (code a2 a3 a4 a5 a6 : Z) : M node sys_result :=
  p ← gets (fun n => current_process (kern_of n));
  r ← on_sysk (handle_syscall code a2 a3 a4 a5 a6);
  modify (fun n => set_calls (keep_call p r (calls n)) n) ≫= fun _ => mret r.

(** It makes an iteration of the call it is in. *)
Definition resume_call : M node sys_result :=
  p ← gets (fun n => current_process (kern_of n));
  o ← gets (fun n => calls n !! p); r ← deref o;
  r' ← on_sysk (sys_step r Run);
  modify (fun n => set_calls (keep_call p r' (calls n)) n) ≫= fun _ => mret r'.

(** The handler of the timer as a whole writes below the array of its clock text ([printTime_underflows] of [Console]), so that its step has
    no successor while the console is intact; what a second changes for the calls is a step of its own. *)
Inductive step (idle : Z) (n n' : node) : Prop :=
| step_call code a2 a3 a4 a5 a6 r : calls n !! current_process (kern_of n) = None ->
    enter_call code a2 a3 a4 a5 a6 n = Ret (r, n') -> step idle n n'
| step_resume r : resume_call n = Ret (r, n') -> step idle n n'
| step_fault addr : on_node (page_fault_handler addr) n = Ret (tt, n') -> step idle n n'
| step_store va b : on_node (on_mach (st8_va va b)) n = Ret (tt, n') -> step idle n n'
| step_store_text a b : on_node (on_bytes (st8 a b)) n = Ret (tt, n') -> step idle n n'
| step_device f : n' = set_sys (set_in_ports f (sys n)) n -> step idle n n'
| step_key : irq_on (sys n) = true -> on_sys keyboard_intr_handler n = Ret (tt, n') -> step idle n n'
| step_tick : irq_on (sys n) = true -> on_sys timer_intr_handler n = Ret (tt, n') -> step idle n n'
| step_second : irq_on (sys n) = true -> on_sys (System.on_timer on_second_tick) n = Ret (tt, n') -> step idle n n'
| step_idle : current_process (kern_of n) = idle -> on_node (init_scheduler 1) n = Ret (tt, n') -> step idle n n'.

(** ** What every step keeps *)

Record node_wf (idle : Z) (n : node) : Prop := {
  nw_kern : kern_wf (kern_of n);
  nw_idle : is_Some (threads (kern_of n) !! idle);
  nw_calls : forall p r, calls n !! p = Some r -> is_Some (threads (kern_of n) !! p) /\ pending_ok (kern_of n) r
}.

(** Records stay: files and threads that exist go on to exist. *)
Record kern_grows (k k' : kern) : Prop := {
  kg_wf : kern_wf k';
  kg_files : forall p, p <> 0 -> fo_valid (openf k) p -> fo_valid (openf k') p;
  kg_threads : forall p, is_Some (threads k !! p) -> is_Some (threads k' !! p)
}.

Lemma pending_grows k k' r : kern_grows k k' -> pending_ok k r -> pending_ok k' r.
Proof. intros [_ F T]. destruct r; simpl; [done|intros [? ?]; split; auto|done|intros [? ?]; split; by apply T|done]. Qed.

(** From the triples about known pointers. *)
Lemma known_grows k k' : kern_wf k -> (forall l ks, wf l ks k -> wf l ks k') -> kern_grows k k'.
Proof.
  intros W H. assert (forall l ks, Forall (ok_ptr (openf k)) l -> Forall (fun p => is_Some (threads k !! p)) ks -> wf l ks k') as H'.
  { intros l ks Hl Hk. by apply H. }
  split.
  - apply (H' [] []); constructor.
  - intros p H0 Hp. destruct (H' [p] []) as (_ & (F & _)%Forall_cons_1 & _); [constructor; [by right|constructor]|constructor|]. by destruct F.
  - intros p Hp. destruct (H' [] [p]) as (_ & _ & F); [constructor|constructor; [done|constructor]|]. by inversion F.
Qed.

Lemma stable_grows {A} (c : M kern A) k a k' : stable c -> kern_wf k -> c k = Ret (a, k') -> kern_grows k k'.
Proof. intros Hc W R. apply known_grows; [done|]. intros l ks H. exact (Hc l ks k a k' H R). Qed.

(** A step of the kernel that no call is recorded in. *)
Lemma node_grows idle n n' : node_wf idle n -> kern_grows (kern_of n) (kern_of n') -> calls n' = calls n -> node_wf idle n'.
Proof.
  intros [W I C] G Hc. pose proof G as [W' _ T]. split; [done|by apply T|]. intros p r. rewrite Hc. intros Hp.
  destruct (C p r Hp) as [H1 H2]. split; [by apply T|]. by eapply pending_grows.
Qed.

Lemma node_kern {A} idle (c : M kern A) n a n' : stable c -> node_wf idle n -> on_node c n = Ret (a, n') -> node_wf idle n'.
Proof.
  intros Hc W (x & (k & R & ->)%zoom_inv & ->)%zoom_inv. eapply node_grows; [done| |done].
  eapply stable_grows; [exact Hc|apply W|exact R].
Qed.

(** The handlers of keyboard and timer change the terminal at most. *)
Lemma term_grows k t : kern_wf k -> kern_grows k (set_term t k).
Proof. intros [W1 W2 W3 W4]. by split. Qed.

(** ** Calls *)

Lemma keep_call_wf idle p r n : node_wf idle n -> is_Some (threads (kern_of n) !! p) -> pending_ok (kern_of n) r ->
  node_wf idle (set_calls (keep_call p r (calls n)) n).
Proof.
  intros [W I C] Hp Hr. split; [done|done|]. intros q x. cbn [calls set_calls].
  destruct r; cbn [keep_call]; rewrite ?lookup_delete_Some, ?lookup_insert_Some; [intros [_ H]|intros [[<- <-]|[_ H]]..|intros [_ H]];
    first [exact (C _ _ H)|done].
Qed.

Lemma call_wf idle (c : M sysk sys_result) r n n' : node_wf idle n ->
  (forall l ks, wf l ks (kern_of n) -> forall s', c (sysk_of n) = Ret (r, s') -> spost l ks r s') -> on_sysk c n = Ret (r, n') ->
  node_wf idle (set_calls (keep_call (current_process (kern_of n)) r (calls n')) n').
Proof.
  intros W Hc (k & R & ->)%zoom_inv. assert (kern_grows (kern_of n) (kn k)) as G.
  { apply known_grows; [apply W|]. intros l ks H. by apply (Hc l ks H k R). }
  apply keep_call_wf; [by eapply node_grows| |].
  - apply (kg_threads _ _ G), (nw_kern _ _ W).
  - apply (Hc [] [] ltac:(split; [apply W|split; constructor]) k R).
Qed.

(** An iteration of a call whose records exist. *)
Lemma iterate_read l ks p buf len li s r' s' : swf l ks s -> pending_ok (kn s) (Reading p buf len (Waiting li)) ->
  sys_step (Reading p buf len (Waiting li)) Run s = Ret (r', s') -> spost l ks r' s'.
Proof.
  intros (W & Hl & Hk) [Hp P]. assert (swf (p :: l) ks s) as Hs by (split; [done|split; [constructor; [by right|done]|done]]). revert Hs.
  apply (spost_sub (p :: l) ks l ks _ id); [set_solver|set_solver|]. cbn [sys_step]. apply swf_kn; [auto with wf|]. intros a.
  destruct a; [|apply swf_read_done]. apply triple_ret. intros u Hu. split; [done|]. split; [done|].
  by destruct Hu as (_ & [[H|H] _]%Forall_cons_1 & _).
Qed.

Lemma iterate_wait l ks sel it prev s r' s' : swf l ks s -> pending_ok (kn s) (WaitChild sel it prev) ->
  sys_step (WaitChild sel it prev) Run s = Ret (r', s') -> spost l ks r' s'.
Proof.
  intros (W & Hl & Hk) [_ P]. assert (swf l (prev :: ks) s) as Hs by (split; [done|split; [done|by constructor]]). revert Hs.
  apply (spost_sub l (prev :: ks) l ks _ id); [set_solver|set_solver|]. cbn [sys_step]. apply spost_kn, wait_iter_known. by left.
Qed.

Lemma swf_iterate l ks r s r' s' : swf l ks s -> pending_ok (kn s) r -> sys_step r Run s = Ret (r', s') -> spost l ks r' s'.
Proof.
  destruct r as [v|p buf len [li|n]|[|v]|sel it prev|]; intros H P; try (intros [= <- <-]; by split).
  - by apply iterate_read.
  - cbn [sys_step]. intros (a & s1 & R & [= <- <-])%bind_inv. split; [by eapply swf_timer|]. by destruct a.
  - by apply iterate_wait.
Qed.

(** ** Every step *)

Lemma stable_init_scheduler n : stable (init_scheduler n).
Proof. induction n as [|n IH]; cbn [init_scheduler]; wf_tac. Qed.

Lemma node_term idle t g i tm sl po ip sp irq ls n : node_wf idle n ->
  node_wf idle (set_sys (System g i tm sl po ip sp irq ls (set_term t (kern_of n))) n).
Proof. intros W. eapply node_grows; [done|apply term_grows, W|done]. Qed.

Lemma key_wf idle n n' : node_wf idle n -> on_sys keyboard_intr_handler n = Ret (tt, n') -> node_wf idle n'.
Proof.
  intros W (s & R & ->)%zoom_inv. unfold keyboard_intr_handler in R.
  apply bind_inv in R as (sc & s1 & [= _ <-] & ([] & s2 & (k & _ & ->)%zoom_inv & (t & _ & ->)%zoom_inv)%bind_inv).
  exact (node_term idle (set_con (tcon t) (Keyboard.term k)) _ _ _ _ _ _ _ _ _ n W).
Qed.

Lemma timer_wf idle (c : M timer unit) n n' : node_wf idle n -> on_sys (System.on_timer c) n = Ret (tt, n') -> node_wf idle n'.
Proof. intros W (s & (t & _ & ->)%zoom_inv & ->)%zoom_inv. by apply node_term. Qed.

Lemma enter_wf idle n code a2 a3 a4 a5 a6 x n' : node_wf idle n -> enter_call code a2 a3 a4 a5 a6 n = Ret (x, n') -> node_wf idle n'.
Proof.
  intros W (p & n1 & [= <- <-] & (r & n2 & R & ([] & n3 & [= <-] & [= _ <-])%bind_inv)%bind_inv)%bind_inv. eapply call_wf; [exact W| |exact R].
  intros l ks H s' E. exact (swf_handle l ks _ _ _ _ _ _ (sysk_of n) r s' H E).
Qed.

Lemma resume_wf idle n x n' : node_wf idle n -> resume_call n = Ret (x, n') -> node_wf idle n'.
Proof.
  intros W (p & n1 & [= <- <-] & (o & n2 & [= <- <-] & (r & n3 & Hd & (r' & n4 & R & ([] & n5 & [= <-] & [= _ <-])%bind_inv)%bind_inv)%bind_inv)%bind_inv)%bind_inv.
  unfold deref in Hd. destruct (calls n !! _) as [r0|] eqn:E; [|done]. injection Hd as -> <-. eapply call_wf; [exact W| |exact R].
  intros l ks H s' Hs. apply (swf_iterate l ks r (sysk_of n)); [done| |done]. by apply (nw_calls _ _ W _ _ E).
Qed.

Lemma step_wf idle n n' : step idle n n' -> node_wf idle n -> node_wf idle n'.
Proof.
  intros H W. destruct H as [code a2 a3 a4 a5 a6 x _ R|x R|addr R|va b R|a b R|f ->|_ R|_ R|_ R|_ R].
  - by eapply enter_wf.
  - by eapply resume_wf.
  - eapply node_kern; [apply stable_page_fault|done|exact R].
  - eapply node_kern; [apply stable_mach|done|exact R].
  - eapply node_kern; [apply stable_bytes|done|exact R].
  - destruct W as [W I C]. by split.
  - by eapply key_wf.
  - by eapply timer_wf.
  - by eapply timer_wf.
  - eapply node_kern; [apply stable_init_scheduler|done|exact R].
Qed.

(** No step touches the descriptor tables or the interrupt flag. *)
Definition same_tables (n n' : node) : Prop :=
  sy_gdt (sys n') = sy_gdt (sys n) /\ sy_idt (sys n') = sy_idt (sys n) /\ irq_on (sys n') = irq_on (sys n).

#[local] Instance same_tables_preorder : PreOrder same_tables.
Proof. split; [by intros n|]. unfold same_tables. intros n1 n2 n3. intuition congruence. Qed.

Lemma step_tables idle n n' : step idle n n' -> same_tables n n'.
Proof.
  intros H. destruct H as [code a2 a3 a4 a5 a6 x _ R|x R|addr R|va b R|a b R|f ->|_ R|_ R|_ R|_ R].
  - by apply bind_inv in R as (p & n1 & [= <- <-] & (r & n2 & (k & _ & ->)%zoom_inv & ([] & n3 & [= <-] & [= _ <-])%bind_inv)%bind_inv).
  - apply bind_inv in R as (p & n1 & [= <- <-] & (o & n2 & [= <- <-] & (r & n3 & Hd & (r' & n4 & (k & _ & ->)%zoom_inv & ([] & n5 & [= <-] & [= _ <-])%bind_inv)%bind_inv)%bind_inv)%bind_inv).
    unfold deref in Hd. by destruct (calls n !! _); [injection Hd as _ <-|].
  - by apply zoom_inv in R as (x & (k & _ & ->)%zoom_inv & ->).
  - by apply zoom_inv in R as (x & (k & _ & ->)%zoom_inv & ->).
  - by apply zoom_inv in R as (x & (k & _ & ->)%zoom_inv & ->).
  - by split.
  - apply zoom_inv in R as (s & R & ->). unfold keyboard_intr_handler in R.
    by apply bind_inv in R as (sc & s1 & [= _ <-] & ([] & s2 & (k & _ & ->)%zoom_inv & (t & _ & ->)%zoom_inv)%bind_inv).
  - by apply zoom_inv in R as (s & (t & _ & ->)%zoom_inv & ->).
  - by apply zoom_inv in R as (s & (t & _ & ->)%zoom_inv & ->).
  - by apply zoom_inv in R as (x & (k & _ & ->)%zoom_inv & ->).
Qed.

(** ** The first state *)

(** Before the idle process exists. *)
Definition fresh (k : kern) : Prop := vfs_wf (openf k) /\ threads k = ∅.
Definition fresh_table (k : kern) : Prop := fresh k /\ length (processes k) = Z.to_nat MAX_P.

Lemma fresh_mach {A} (c : M machine A) : triple fresh (on_mach c) (fun _ => fresh).
Proof. by intros s a s' H (t & _ & ->)%zoom_inv. Qed.
Lemma fresh_bytes {A} (c : M bytes A) : triple fresh (on_bytes c) (fun _ => fresh).
Proof. by intros s a s' H (t & _ & ->)%zoom_inv. Qed.
Lemma table_mach {A} (c : M machine A) : triple fresh_table (on_mach c) (fun _ => fresh_table).
Proof. by intros s a s' H (t & _ & ->)%zoom_inv. Qed.

Lemma fresh_get_pid fuel i : triple fresh_table (get_pid_loop fuel i) (fun _ => fresh_table).
Proof.
  revert i; induction fuel as [|f IH]; intros i; cbn [get_pid_loop]; [by apply triple_ret|].
  eapply triple_bind; [apply triple_gets|]. intros l. destruct (l !! Z.to_nat i) as [[|x|x]|]; [| | |done].
  - intros s a s' [[F H] ->] ([] & s1 & [= <-] & [= _ <-])%bind_inv. split; [done|]. simpl. by rewrite length_insert.
  - eapply triple_weaken; [apply IH|by intros s [? _]|done].
  - eapply triple_weaken; [apply IH|by intros s [? _]|done].
Qed.

Lemma idle_wf : triple fresh_table init_idle_process (fun idle => wf [] [idle]).
Proof.
  unfold init_idle_process. eapply triple_bind; [apply table_mach|]. intros idle.
  eapply triple_bind; [apply fresh_get_pid|]. intros pid_. eapply triple_bind; [apply table_mach|]. intros c3.
  intros s a s' H ([] & s1 & [= <-] & (r & s2 & (mv & R & ->)%zoom_inv & ([] & s3 & [= <-] & [= <- <-])%bind_inv)%bind_inv)%bind_inv.
  destruct H as [[Hv HT] Hl]. assert (vst (openf s) (mach (set_current idle s), openf (set_current idle s))) as V by (split; [exact Hv|reflexivity]).
  destruct (vst_std (openf s) _ r mv V R) as [[[W G] H1] H2].
  split; [split; cbn|split; [constructor|constructor; [|constructor]]].
  - exact W.
  - intros p t. rewrite HT. intros [[<- <-]|[_ ?]]%lookup_insert_Some; [|done]. set (z := set_openf _ _). destruct (std_table_wf z idle r.1 r.2 []) as [Hn Hs].
    split_and!; [exact Hn|exact (left_cwd_length (left_over z) idle 0 ltac:(lia))|]. intros i x Hx. destruct (Hs i x Hx) as [->|[Hy|Hu]]; [left; by left| |by right].
    left. right. by apply elem_of_cons in Hy as [->|[->|[]%not_elem_of_nil]%elem_of_cons].
  - exact Hl.
  - rewrite lookup_insert_eq. by eexists.
  - cbn. rewrite lookup_insert_eq. by eexists.
Qed.

Lemma start_wf fn kernmem modulep physbase physfree :
  triple fresh (start fn kernmem modulep physbase physfree) (fun idle => wf [] [idle]).
Proof.
  unfold start, start_memory. eapply triple_bind.
  { eapply triple_bind; [apply fresh_bytes|]. intros r. apply fresh_mach. }
  intros []. eapply triple_bind; [apply fresh_mach|]. intros [].
  eapply triple_bind with (Q := fun _ => fresh_table). { intros s [] s' H [= <-]. split; [exact H|]. reflexivity. }
  intros []. eapply triple_bind; [apply idle_wf|]. intros idle. eapply triple_bind; [apply stable_create|]. intros np. by apply triple_ret.
Qed.

(** What the linker puts into the image of the kernel: the global pointers are null, the table of the terminal is there, and there is no
    process. *)
Record kernel_image (k : kern) : Prop := {
  ki_globals : stdin_fo (openf k) = 0 /\ stdout_fo (openf k) = 0 /\ terminal_fs (openf k) = 0 /\ tarfs_impl (openf k) = 0;
  ki_table : impls (openf k) !! terminal_fs_impl = Some terminal_table;
  ki_threads : threads k = ∅
}.

Lemma image_fresh k : kernel_image k -> fresh k.
Proof. intros [(H1 & H2 & H3 & H4) Ht HT]. split; [|exact HT]. split; [by left..|]. by rewrite Ht. Qed.

(** [boot] on the part of the state that the processes are in. *)
Definition fresh_system (s : system) : Prop := fresh (sy_kern s).

Lemma fresh_on_kern {A} (c : M kern A) (Q : A -> kern -> Prop) : triple fresh c Q -> triple fresh_system (on_kern c) (fun a s => Q a (sy_kern s)).
Proof. intros Hc s a s' H (k & R & ->)%zoom_inv. by eapply Hc. Qed.

Lemma fresh_modify g : (forall s, sy_kern (g s) = sy_kern s) -> triple fresh_system (modify g) (fun _ => fresh_system).
Proof. intros Hg s [] s' H [= <-]. unfold fresh_system. by rewrite Hg. Qed.

Lemma boot_wf rsp tss a fn kernmem physbase :
  triple fresh_system (boot rsp tss a fn kernmem physbase) (fun idle s => wf [] [idle] (sy_kern s)).
Proof.
  assert (forall c : M gdt_state unit, triple fresh_system (on_gdt c) (fun _ => fresh_system)) as Hgdt.
  { by intros c s [] s' H (t & _ & ->)%zoom_inv. }
  assert (forall c : M idt_state unit, triple fresh_system (on_idt c) (fun _ => fresh_system)) as Hidt.
  { by intros c s [] s' H (t & _ & ->)%zoom_inv. }
  assert (forall c : M timer unit, triple fresh_system (System.on_timer c) (fun _ => fresh_system)) as Htimer.
  { by intros c s [] s' H (t & _ & ->)%zoom_inv. }
  assert (triple fresh_system (mret tt) (fun _ => fresh_system)) as Hskip by by apply triple_ret.
  unfold boot. do 2 (eapply triple_bind; [by apply fresh_modify|intros []]). eapply triple_bind; [apply Hgdt|intros []].
  eapply triple_bind. { eapply triple_bind; [apply Hidt|intros []]. by apply fresh_modify. }
  intros []. eapply triple_bind; [apply Htimer|intros []]. eapply triple_bind; [exact Hskip|intros []].
  eapply triple_bind; [apply (fresh_on_kern _ _ (fresh_bytes _))|intros []]. eapply triple_bind; [exact Hskip|intros []].
  eapply triple_bind with (Q := fun _ => fresh_system). { by intros s x s' H [= _ <-]. }
  intros ls. do 2 (eapply triple_bind; [apply (fresh_on_kern _ _ (fresh_bytes _))|intros ?]).
  apply (fresh_on_kern _ _ (start_wf _ _ _ _ _)).
Qed.

(** ** Every reachable state *)

Lemma run_wf idle n n' : rtc (step idle) n n' -> node_wf idle n -> node_wf idle n' /\ same_tables n n'.
Proof.
  induction 1 as [n|n1 n2 n3 H _ IH]; intros W; [by split|]. destruct (IH (step_wf _ _ _ H W)) as [W' T].
  split; [done|]. etransitivity; [exact (step_tables _ _ _ H)|exact T].
Qed.


End runs.

(** ** Witness *)

#[local] Existing Instance quiet_literals.
#[local] Existing Instance quiet_messages.
Abbreviation demo_step := (@step (@elf_loader create_symbols) create_symbols demo_vfs_symbols quiet_literals quiet_messages).

(** A process asks for its number. *)
Lemma ask_pid {LD : Loader} {PS : ProcSymbols} {VS : VfsSymbols} s d : is_Some (threads (sy_kern s) !! current_process (sy_kern s)) ->
  exists r n, enter_call SYSCALL_PID 0 0 0 0 0 (Node s d ∅) = Ret (r, n) /\ kern_of n = sy_kern s.
Proof.
  intros [t Ht]. assert (handle_syscall SYSCALL_PID 0 0 0 0 0 (sysk_of (Node s d ∅)) = Ret (Done (u64 (pid t)), sysk_of (Node s d ∅))) as R.
  { dispatched. simpl. rewrite (bind_ret _ _ _ (pid t) (sysk_of (Node s d ∅))); [reflexivity|].
    unfold on_kn. rewrite (zoom_ret kn set_kn _ _ (pid t) (sy_kern s)); [reflexivity|].
    unfold get_process_pid, gets. cbn [kn sysk_of kern_of sys]. by rewrite (bind_ret _ _ _ _ _ eq_refl), (bind_ret _ _ _ _ _ (th_ok _ _ _ Ht)). }
  do 2 eexists. split.
  - unfold enter_call, gets. rewrite (bind_ret _ _ _ _ _ eq_refl), (bind_ret _ _ _ _ _ (zoom_ret sysk_of put_sysk _ _ _ _ R)). reflexivity.
  - reflexivity.
Qed.

