(* ===== verification/Typing.v ===== *)
(** * From the keyboard to a program

    A program reads from its standard input while keys are pressed: scan codes at the port ([sys/keyboard.c]), the interrupt handler,
    the buffer of the terminal ([sys/terminal.c]), the loop of the system call ([sys/syscalls.c]), the buffer of the program. *)

From S2P Require Import Prelude BitField Descriptors Timer Keyboard PhysMem Paging VaMem CStr Console Terminal Tarfs Vfs Process KernInv.
From S2P Require Import ProcessSpec Syscalls SyscallsSpec FilesSpec Boot System Reach.

(** ** What a key means *)

(** A scan code changes the modifiers at most, or stands for a character, or erases one. *)
Inductive key_effect := Silent (spec : Z) | Char (c : Z) | Erase.

(** The keys that change the modifiers. *)
Definition modifier_key (sc : Z) : option (Z -> Z) :=
  match sc with
  | 0x2A => Some (fun spec => setKey spec LSHIFT)
  | 0xAA => Some (fun spec => clearKey spec LSHIFT)
  | 0x36 => Some (fun spec => setKey spec RSHIFT)
  | 0xB6 => Some (fun spec => clearKey spec RSHIFT)
  | 0x1D => Some (fun spec => setKey (setKey spec LCNTRL) RCNTRL)
  | 0x9D => Some (fun spec => clearKey (clearKey spec LCNTRL) RCNTRL)
  | 0x3A => Some (fun spec => if truth (isKey spec CAPS) then clearKey spec CAPS else setKey spec CAPS)
  | 0x45 => Some (fun spec => if truth (isKey spec NUMLOCK) then clearKey spec NUMLOCK else setKey spec NUMLOCK)
  | _ => None
  end.

Definition effect (spec sc : Z) : key_effect :=
  match modifier_key sc with
  | Some f => Silent (f spec)
  | None =>
      let g := key_glyph spec sc in
      if g_c g =? 0 then Silent spec else
      let '(str, i) := key_str spec g in
      match key_char (drop i str) with Some c => Char c | None => Erase end
  end.

(** The text of a sequence of scan codes that does not erase and does not end the line, and the modifiers after it. *)
Fixpoint typed_text (spec : Z) (scs : list Z) : option (list Z * Z) :=
  match scs with
  | [] => Some ([], spec)
  | sc :: scs' =>
      match effect spec sc with
      | Silent spec' => typed_text spec' scs'
      | Char c => if c =? 10 then None else
                  match typed_text spec scs' with Some (l, spec') => Some (c :: l, spec') | None => None end
      | Erase => None
      end
  end.

Section keys.
Context {L : Literals}.

Lemma printAscii_split sc :
  printAscii sc = match modifier_key sc with Some f => set_special f | None => handleNormalScanCodes sc ≫= fun _ => mret tt end.
Proof. unfold printAscii, modifier_key. repeat case_match; reflexivity. Qed.

Lemma modifier_key_ok sc f spec : modifier_key sc = Some f -> modifiers spec -> modifiers (f spec).
Proof.
  intros Hf Hs. pose proof (fun k => proj2 (setKey_modifiers _ k Hs)) as Hset. pose proof (fun k => proj2 (clearKey_modifiers _ k Hs)) as Hclr.
  unfold modifier_key in Hf. repeat case_match; try discriminate Hf; injection Hf as <-; try destruct (truth _);
    first [apply Hset | apply Hclr | by apply setKey_modifiers | by apply clearKey_modifiers].
Qed.

Lemma printAscii_silent s sc spec : effect (specialChars s) sc = Silent spec -> modifiers (specialChars s) ->
  printAscii sc s = Ret (tt, Kbd (Keyboard.term s) spec) /\ modifiers spec.
Proof.
  intros He Hs. rewrite printAscii_split. unfold effect in He. destruct (modifier_key sc) as [f|] eqn:Ef.
  - injection He as <-. split; [reflexivity|by eapply modifier_key_ok].
  - unfold handleNormalScanCodes, gets. destruct (g_c (key_glyph (specialChars s) sc) =? 0) eqn:E.
    + injection He as <-. split; [|done]. rewrite (bind_ret _ _ _ 0 s); [by destruct s|]. by rewrite (bind_ret _ _ _ _ _ eq_refl), E.
    + destruct (key_str _ _) as [str i]. by destruct (key_char _).
Qed.

Lemma printAscii_char s sc c : effect (specialChars s) sc = Char c -> kbd_inv s -> 0 <= sc < 256 -> index (Keyboard.term s) < TERM_BUF_SIZE ->
  exists t, printAscii sc s = Ret (tt, Kbd t (specialChars s)) /\ struck (Keyboard.term s) t c.
Proof.
  intros He [Ht Hs] Hsc Hi. rewrite printAscii_split. unfold effect in He. destruct (modifier_key sc); [done|]. cbv zeta in He.
  destruct (Z.eqb_spec (g_c (key_glyph (specialChars s) sc)) 0) as [|Hc]; [done|].
  destruct (key_str (specialChars s) (key_glyph (specialChars s) sc)) as [str i] eqn:Hk.
  destruct (key_str_ok _ _ _ _ Hs Hsc Hc Hk) as (l & Hd & Hl & Hlen). rewrite Hd in He.
  destruct (key_char (l ++ [0])) as [c'|] eqn:Hkc; [injection He as ->|done].
  destruct (key_struck (Keyboard.term s) (l ++ [0]) c Ht Hkc Hi) as (t1 & R1 & [I1 X1 C1 V1]).
  destruct (printInputChar_ok (Keyboard.term s) l t1 I1 Hl ltac:(lia) R1) as (k & R2 & I2 & V2).
  exists (Tty k (term_buf t1) (index t1)). split.
  - unfold handleNormalScanCodes, gets. rewrite (bind_ret _ _ _ 1 (Kbd (Tty k (term_buf t1) (index t1)) (specialChars s))); [reflexivity|].
    rewrite (bind_ret _ _ _ _ _ eq_refl). destruct (Z.eqb_spec (g_c (key_glyph (specialChars s) sc)) 0); [done|]. rewrite Hk, Hd.
    by rewrite (bind_ret _ _ _ _ _ (zoom_ret Keyboard.term set_tty _ s tt _ R2)).
  - split; [exact I2|exact X1|exact C1|]. intros a Ha. cbn [con]. by rewrite (V2 a Ha), (V1 a Ha).
Qed.
End keys.

(** ** A session *)

Section session.
Context {LD : Loader} {PS : ProcSymbols} {VS : VfsSymbols} {L : Literals} {SS : SysSymbols}.

(** A scan code arrives at the port, and the interrupt. *)
Definition press (sc : Z) : M node unit :=
  modify (fun n => set_sys (set_in_ports (fun _ => sc) (sys n)) n) ≫= fun _ => on_sys keyboard_intr_handler.

Fixpoint polls (k : nat) : M node unit :=
  match k with O => mret tt | S k' => resume_call ≫= fun _ => polls k' end.

(** Keys, each followed by at least one iteration of the call of the current process. *)
Fixpoint strokes (l : list (Z * nat)) : M node unit :=
  match l with
  | [] => mret tt
  | (sc, k) :: l' => press sc ≫= fun _ => polls (S k) ≫= fun _ => strokes l'
  end.

(** [read(0, buf, len)] while the keys [l] and then the key [sc] are pressed. *)
Definition read_line (buf len : Z) (l : list (Z * nat)) (sc : Z) : M node sys_result :=
  enter_call SYSCALL_READ 0 buf len 0 0 ≫= fun _ => strokes l ≫= fun _ => press sc ≫= fun _ => resume_call.

(** The states of the session: [n] with another terminal, modifiers, ports and pending calls. *)
Definition at_line (n : node) (t : tty) (po : list (Z * Z)) (ip : Z -> Z) (sp : Z) (cs : gmap Z sys_result) : node :=
  let s := sys n in
  Node (System (sy_gdt s) (sy_idt s) (sy_time s) (sy_sleep s) po ip sp (irq_on s) (loader_stack s) (set_term t (kern_of n))) (streams n) cs.

Lemma press_run n t po ip sp cs sc t' sp' : 0 <= sc < 256 -> printAscii sc (Kbd t sp) = Ret (tt, Kbd t' sp') ->
  press sc (at_line n t po ip sp cs) = Ret (tt, at_line n t' (po ++ [(PIC_M_CR, PIC_EOI)]) (fun _ => sc) sp' cs).
Proof.
  intros Hsc R. unfold press. set (s0 := set_in_ports (fun _ => sc) (sys (at_line n t po ip sp cs))).
  rewrite (bind_ret _ _ _ tt (set_sys s0 (at_line n t po ip sp cs))) by reflexivity.
  set (s1 := set_kbd (Kbd t' sp') s0).
  set (s2 := System.set_timer (Timer (sy_time s1) (sy_sleep s1) (out_ports s1 ++ [(PIC_M_CR, PIC_EOI)]) (con (Process.term (sy_kern s1)))) s1).
  assert (keyboard_intr_handler s0 = Ret (tt, s2)) as Rk.
  { unfold keyboard_intr_handler. rewrite (bind_ret _ _ _ sc s0).
    - by rewrite (bind_ret _ _ _ tt s1) by exact (zoom_ret kbd_of set_kbd _ s0 tt _ R).
    - unfold getScancode, input_b, gets. cbn [in_ports s0 set_in_ports]. by rewrite (Z.mod_small sc 256 Hsc : u8 sc = sc). }
  unfold on_sys. rewrite (zoom_ret sys set_sys _ (set_sys s0 (at_line n t po ip sp cs)) tt s2 Rk). by destruct t'.
Qed.

(** An iteration of the call. *)
Lemma resume_run n t po ip sp cs p buf len k r t' : cs !! current_process (kern_of n) = Some (Reading p buf len (Waiting k)) ->
  read_poll buf len k t = Ret (r, t') ->
  resume_call (at_line n t po ip sp cs) =
    match r with
    | Waiting k' => Ret (Reading p buf len (Waiting k'), at_line n t' po ip sp (<[current_process (kern_of n) := Reading p buf len (Waiting k')]> cs))
    | Returned v => (r' ← on_sysk (on_kn (read_done p v));
        modify (fun m => set_calls (keep_call (current_process (kern_of n)) r' (calls m)) m) ≫= fun _ => mret r') (at_line n t' po ip sp cs)
    end.
Proof.
  intros Hc R. unfold resume_call, gets. rewrite (bind_ret _ _ _ _ _ eq_refl), (bind_ret _ _ _ _ _ eq_refl).
  change (calls (at_line n t po ip sp cs) !! current_process (kern_of (at_line n t po ip sp cs))) with (cs !! current_process (kern_of n)).
  rewrite Hc. rewrite (bind_ret _ _ _ _ _ eq_refl). change (current_process (kern_of (at_line n t po ip sp cs))) with (current_process (kern_of n)).
  set (x := at_line n t po ip sp cs). set (y := at_line n t' po ip sp cs).
  assert (forall f : reader -> M sysk sys_result, (on_kn (on_term (read_poll buf len k)) ≫= f) (sysk_of x) = f r (sysk_of y)) as Hf.
  { intros f. rewrite (bind_ret _ _ _ r (sysk_of y)); [reflexivity|]. unfold on_kn.
    rewrite (zoom_ret kn set_kn _ (sysk_of x) r (set_term t' (kn (sysk_of x)))); [reflexivity|].
    exact (zoom_ret Process.term set_term _ (kn (sysk_of x)) r t' R). }
  assert (forall f : reader -> M sysk sys_result,
    on_sysk (on_kn (on_term (read_poll buf len k)) ≫= f) x = on_sysk (f r) y) as Ho.
  { intros f. unfold on_sysk, zoom. rewrite Hf. by destruct (f r (sysk_of y)) as [[]| |]. }
  unfold mbind at 1, M_bind at 1. cbn [sys_step]. rewrite Ho. by destruct r.
Qed.

(** Iterations that find nothing. *)
Lemma polls_idle n t po ip sp cs p buf len k m : cs !! current_process (kern_of n) = Some (Reading p buf len (Waiting k)) -> index t = k ->
  polls m (at_line n t po ip sp cs) = Ret (tt, at_line n t po ip sp cs).
Proof.
  intros Hc Hi. induction m as [|m IH]; [reflexivity|]. cbn [polls]. assert (read_poll buf len k t = Ret (Waiting k, t)) as R.
  { unfold read_poll, gets. rewrite (bind_ret _ _ _ _ _ eq_refl), Hi. by rewrite Z.eqb_refl. }
  pose proof (resume_run n t po ip sp cs p buf len k _ t Hc R) as Rr. cbv beta iota in Rr. rewrite (insert_id cs _ _ Hc) in Rr. by rewrite (bind_ret _ _ _ _ _ Rr).
Qed.

(** The keys of a line. *)
Lemma strokes_run l n t po ip sp cs p buf len k seen text sp' :
  cs !! current_process (kern_of n) = Some (Reading p buf len (Waiting k)) -> Terminal.reading t buf len k seen -> modifiers sp ->
  Forall (fun x => 0 <= x < 256) (l.*1) -> typed_text sp (l.*1) = Some (text, sp') ->
  k + Z.of_nat (length text) < len -> k + Z.of_nat (length text) < TERM_BUF_SIZE ->
  exists t' po' ip', strokes l (at_line n t po ip sp cs) = Ret (tt, at_line n t' po' ip' sp'
      (<[current_process (kern_of n) := Reading p buf len (Waiting (k + Z.of_nat (length text)))]> cs)) /\
    Terminal.reading t' buf len (k + Z.of_nat (length text)) (seen ++ text) /\ modifiers sp'.
Proof.
  revert t po ip sp cs k seen text; induction l as [|[sc m] l IH]; intros t po ip sp cs k seen text Hc Hrd Hs Hl Ht Hlen Hcap.
  - injection Ht as <- <-. exists t, po, ip. rewrite app_nil_r. replace (k + Z.of_nat (length [])) with k by (cbn; lia).
    by rewrite insert_id.
  - cbn [fmap list_fmap fst] in Hl, Ht. apply Forall_cons_1 in Hl as [Hsc Hl]. cbn [typed_text] in Ht.
    cbn [strokes]. destruct (effect sp sc) as [sp1|c|] eqn:He; [| |done].
    + destruct (printAscii_silent (Kbd t sp) sc sp1 He Hs) as [R1 Hs1]. rewrite (bind_ret _ _ _ _ _ (press_run n t po ip sp cs sc t sp1 Hsc R1)).
      rewrite (bind_ret _ _ _ _ _ (polls_idle n t _ _ sp1 cs p buf len k (S m) Hc (rd_index _ _ _ _ _ Hrd))).
      by apply IH.
    + destruct (Z.eqb_spec c 10) as [|Hc10]; [done|]. destruct (typed_text sp (l.*1)) as [[text1 sp1]|] eqn:E1; [|done].
      injection Ht as <- <-. cbn [length] in Hlen, Hcap. pose proof (rd_index _ _ _ _ _ Hrd) as Hi.
      destruct (printAscii_char (Kbd t sp) sc c He (@Build_kbd_inv _ (Kbd t sp) (rd_inv _ _ _ _ _ Hrd) Hs) Hsc) as (t1 & R1 & Hsk); [cbn; lia|].
      destruct (struck_poll t buf len k seen t1 c len Hrd Hsk Hc10 ltac:(lia) ltac:(lia)) as (t2 & R2 & Hrd2).
      rewrite (bind_ret _ _ _ _ _ (press_run n t po ip sp cs sc t1 sp Hsc R1)).
      set (cs1 := <[current_process (kern_of n) := Reading p buf len (Waiting (k + 1))]> cs).
      assert (cs1 !! current_process (kern_of n) = Some (Reading p buf len (Waiting (k + 1)))) as Hc1 by apply lookup_insert_eq.
      rewrite (bind_ret _ _ _ tt (at_line n t2 (po ++ [(PIC_M_CR, PIC_EOI)]) (fun _ => sc) sp cs1)).
      2: { cbn [polls]. rewrite (bind_ret _ _ _ _ _ (resume_run n t1 _ _ sp cs p buf len k _ t2 Hc R2)).
           by apply (polls_idle n t2 _ _ sp cs1 p buf len (k + 1)), (rd_index _ _ _ _ _ Hrd2). }
      destruct (IH t2 (po ++ [(PIC_M_CR, PIC_EOI)]) (fun _ => sc) sp cs1 (k + 1) (seen ++ [c]) text1 Hc1 Hrd2 Hs Hl E1 ltac:(lia) ltac:(lia))
        as (t3 & po3 & ip3 & R3 & Hrd3 & Hs3).
      exists t3, po3, ip3. rewrite R3. unfold cs1. rewrite insert_insert_eq. rewrite <- app_assoc in Hrd3. cbn [length app] in *.
      by replace (k + Z.of_nat (S (length text1))) with (k + 1 + Z.of_nat (length text1)) by lia.
Qed.
(** The program's standard input is the terminal, and the program is not inside a call. *)
Record at_terminal (n : node) (t : kthread) (p : Z) (f : file_object_t) : Prop := {
  tr_thread : threads (kern_of n) !! current_process (kern_of n) = Some t;
  tr_free : calls n !! current_process (kern_of n) = None;
  tr_stdin : fds t !! 0%nat = Some p /\ p <> 0;
  tr_file : fobjs (openf (kern_of n)) !! p = Some f /\ file_sys_impl f <> 0;
  tr_impl : impls (openf (kern_of n)) !! file_sys_impl f = Some terminal_table
}.

(** [read] stops to wait for keys, with an empty buffer. *)
Lemma read_enters n t p f buf len : at_terminal n t p f -> 0 < len < 2 ^ 31 ->
  enter_call SYSCALL_READ 0 buf len 0 0 n = Ret (Reading p buf len (Waiting 0),
    at_line n (Tty (con (Process.term (kern_of n))) (replicate (Z.to_nat TERM_BUF_SIZE) 0) 0) (out_ports (sys n)) (in_ports (sys n)) (sy_special (sys n))
      (<[current_process (kern_of n) := Reading p buf len (Waiting 0)]> (calls n))).
Proof.
  intros [Ht _ [Hfd Hp] [Hf Hi] Him] Hlen. set (s := sysk_of n). set (t0 := Tty _ _ _).
  assert (handle_syscall SYSCALL_READ 0 buf len 0 0 s = Ret (Reading p buf len (Waiting 0), set_kn (set_term t0 (kern_of n)) s)) as R.
  { change (handle_syscall SYSCALL_READ 0 buf len 0 0 s) with (sys_read 0 buf len s). unfold sys_read.
    change (Z.of_nat NUM_FDS <=? 0) with false. change ((0 =? 1) || (0 =? 2)) with false. cbv iota.
    rewrite (bind_ret _ _ _ p s).
    2: { apply on_kn_read. unfold fd_get, current, gets.
         rewrite (bind_ret _ _ _ t (kn s)); [change (deref (fds t !! 0%nat) (kn s) = Ret (p, kn s)); by rewrite Hfd|]. rewrite (bind_ret _ _ _ _ _ eq_refl). by apply th_ok. }
    destruct (Z.eqb_spec p 0); [done|]. rewrite (bind_ret _ _ _ f s) by (apply on_kn_read, fo_ok, Hf).
    destruct (Z.eqb_spec (file_sys_impl f) 0); [done|]. rewrite (bind_ret _ _ _ terminal_table s) by (apply on_kn_read, impl_ok, Him).
    cbn [read_impl terminal_table]. assert (i32 len = len) as -> by (apply i32_small; lia).
    rewrite (bind_ret _ _ _ (Waiting 0) (set_kn (set_term t0 (kern_of n)) s)); [reflexivity|].
    unfold on_kn. rewrite (zoom_ret kn set_kn _ s (Waiting 0) (set_term t0 (kern_of n))); [reflexivity|].
    apply (zoom_ret Process.term set_term _ (kern_of n) (Waiting 0) t0). unfold read_start. by destruct (Z.eqb_spec len 0); [lia|]. }
  unfold enter_call, gets. rewrite (bind_ret _ _ _ _ _ eq_refl), (bind_ret _ _ _ _ _ (zoom_ret sysk_of put_sysk _ n _ _ R)). reflexivity.
Qed.

(** [read] returns. *)
Lemma read_returns n t po ip sp cs p f v : fobjs (openf (kern_of n)) !! p = Some f -> 0 <= v < 2 ^ 64 -> 0 <= offset f < 2 ^ 32 ->
  (r' ← on_sysk (on_kn (read_done p v));
     modify (fun m => set_calls (keep_call (current_process (kern_of n)) r' (calls m)) m) ≫= fun _ => mret r') (at_line n t po ip sp cs) =
  Ret (Done v, at_line (set_sys (set_kern (with_fo p (with_offset (u32 (offset f + v)) f) (kern_of n)) (sys n)) n) t po ip sp
    (delete (current_process (kern_of n)) cs)).
Proof.
  intros Hf Hv Ho. set (x := at_line n t po ip sp cs).
  assert (fobjs (openf (kn (sysk_of x))) !! p = Some f) as Hf' by exact Hf.
  pose proof (on_kn_ret _ (sysk_of x) _ _ (read_done_any _ p f v Hf' Hv Ho)) as R.
  rewrite (bind_ret _ _ _ _ _ (zoom_ret sysk_of put_sysk _ x _ _ R)). reflexivity.
Qed.

(** The session is a run of the machine. *)
Lemma press_steps idle sc n n' : irq_on (sys n) = true -> press sc n = Ret (tt, n') -> rtc (step idle) n n'.
Proof.
  intros Hi ([] & n1 & [= <-] & R)%bind_inv. eapply rtc_l; [by apply (step_device _ _ _ (fun _ => sc))|].
  apply rtc_once, step_key; [exact Hi|exact R].
Qed.

Lemma resume_steps idle r n n' : resume_call n = Ret (r, n') -> rtc (step idle) n n'.
Proof. intros R. by apply rtc_once, step_resume with r. Qed.

Lemma polls_steps idle k n n' : polls k n = Ret (tt, n') -> rtc (step idle) n n'.
Proof.
  revert n; induction k as [|k IH]; intros n; cbn [polls]; [by intros [= <-]|].
  intros (r & n1 & R1 & R2)%bind_inv. etransitivity; [by eapply resume_steps|by apply IH].
Qed.

Lemma steps_irq idle n n' : rtc (step idle) n n' -> irq_on (sys n) = true -> irq_on (sys n') = true.
Proof. induction 1 as [|n1 n2 n3 H _ IH]; [done|]. intros Hi. apply IH. destruct (step_tables _ _ _ H) as (_ & _ & ->). exact Hi. Qed.

Lemma strokes_steps idle l n n' : irq_on (sys n) = true -> strokes l n = Ret (tt, n') -> rtc (step idle) n n'.
Proof.
  revert n; induction l as [|[sc k] l IH]; intros n Hi; cbn [strokes]; [by intros [= <-]|].
  intros ([] & n1 & R1 & ([] & n2 & R2 & R3)%bind_inv)%bind_inv.
  assert (rtc (step idle) n n2) as H by (etransitivity; [by eapply press_steps|by eapply polls_steps]).
  etransitivity; [exact H|]. apply IH; [by eapply steps_irq|exact R3].
Qed.

Lemma read_line_steps idle buf len l sc n r n' : irq_on (sys n) = true -> calls n !! current_process (kern_of n) = None ->
  read_line buf len l sc n = Ret (r, n') -> rtc (step idle) n n'.
Proof.
  intros Hi Hc (x & n1 & R1 & ([] & n2 & R2 & ([] & n3 & R3 & R4)%bind_inv)%bind_inv)%bind_inv.
  assert (rtc (step idle) n n1) as H1 by (by eapply rtc_once, step_call).
  assert (rtc (step idle) n1 n2) as H2 by (eapply strokes_steps; [by eapply steps_irq|exact R2]).
  assert (rtc (step idle) n n2) as H3 by (by etransitivity). etransitivity; [exact H3|].
  etransitivity; [eapply press_steps; [by eapply steps_irq|exact R3]|by eapply resume_steps].
Qed.

End session.

(** ** Witness *)

(** A program whose standard input is the terminal, its buffer of 16 bytes at 3000. *)
Definition demo_reader : kthread := KThread 0 2 0 0 0 1 0 0 100 (700 :: replicate 15 0) (replicate CWD_SIZE 0) RUNNING.
Definition demo_stdin : file_object_t := FileObject 0 500 1 0 0.
Definition demo_reading : node :=
  Node (System (GdtState gdt_init 0) (IdtState [] 0 0) 0 0 [] (fun _ => 0) 0 true 0
    (Kern (Machine (physmem_boot ∅) 0 0 0) ({[100 := demo_reader]}) ∅ ∅ 100 [] (Terminal.demo_tty 0) (VfsState ({[700 := demo_stdin]}) ({[500 := terminal_table]}) 700 0 500 0) 0)) ∅ ∅.

